(* ===== verification/_CoqProject ===== *)
-Q . S2P
Prelude.v
Smp.v
Memory.v
Mem.v
Pow2.v
Rand.v
ChaCha.v
State.v
Devices.v
Pci.v
FreeList.v
PageSpec.v
PageAlloc.v
PageRefine.v
PageTheorems.v
Allocator.v
Kalloc.v
KallocRefine.v
KallocTheorems.v
HashMap.v
Vec.v
HashMapTheorems.v
MapTable.v
MapRefine.v
Paging.v
PageWalk.v
PagingTheorems.v
MapPages.v
Timer.v
TimerTheorems.v
Sched.v
RunLists.v
SchedRefine.v
SchedTheorems.v
SchedSubmit.v
SchedRemove.v
SchedExit.v
SchedInit.v
Ctx.v
CtxTheorems.v
Desc.v
DescTheorems.v
Printf.v
PrintfTheorems.v
Screen.v
ScreenTheorems.v
Font.v
Console.v
Panic.v
PageInit.v
PageInitTheorems.v
Acpi.v
Boot.v
Keeps.v
Invariants.v
BootTheorems.v
Spaces.v
SpaceInit.v
ProcNew.v
