(* ===== verification/Prelude.v ===== *)
(** * Silkware kernel: a verification library

    A model of the kernel in src/kernel, an x86_64 kernel in C, and theorems about it.

    ** How the program is modelled

    A C function is a Rocq function of the same name.  One that touches memory, globals or
    devices is an action of the state monad [M kernel] defined below: it returns a value
    and the next state, or stops: [Panic] (a panic or a failed assertion), [Fault] (an
    access to an unmapped address, or undefined behaviour), [Deadlock] (a lock nobody can
    give back), or [OutOfFuel], an artefact of the model.  The state, State.v, is the
    kernel's address space as a map from addresses to bytes, the C globals of each
    component as a record, and the devices: every device access is appended to a log, and
    a read is answered by an arbitrary function of the log so far.  Integers are [Z]s
    with their wrap-around written out ([add64], [mul32], ...).  Structures live in memory
    at their C offsets; free lists, hash tables, page tables and run queues are linked
    through it as in the code, so aliasing is that of the code.  The memory has each page
    frame once, at the address [alias] in the paging globals gives it; what the code finds
    at the temporary window is the frame that the page tables map there at the time
    ([window] in Paging.v walks them as the processor does).

    Loops that the code bounds by a counter are [for_range] or recursion on that counter.
    The others take [fuel] and stop with [OutOfFuel].  Theorems say how much is enough
    (the length of a list, the capacity of a table); [eventually] states that a result
    holds for all fuel from some amount on, and [approx] that more fuel never changes a
    run that returned.  [yields] is [eventually] with a postcondition, or a panic.

    The model runs one CPU, on which spinning on a taken lock never ends; other CPUs are
    answers of the hardware.  Smp.v interleaves several CPUs, one access at a time, over a
    single shared counter.  A call of [printf] is one event with its format and arguments;
    Printf.v and Console.v model what that call does.  A panic is one stop; Panic.v models
    what it prints.

    ** Files

    - Prelude.v: words, the monad, its triples [wp], fuel; lemmas on lists and bits.
      Memory.v: the byte map, little-endian accesses, [changes] (what a run may write).
      Mem.v: mem.c.  Pow2.v: rounding (paging.c, page_alloc.c, u.h).  State.v: the state.
    - PageAlloc.v, PageInit.v: page_alloc.c and memmap.c.  PageSpec.v is the abstract
      allocator, pools of disjoint aligned blocks; PageRefine.v shows that the code
      implements it; PageTheorems.v states the contract.  FreeList.v: lists in place.
      PageInitTheorems.v: the pools that [page_alloc_init] makes, and the heap on top.
    - Allocator.v: the class of what an allocator promises its callers, with page_alloc.c
      as an instance, and the class of the invariants page_alloc.c can have below the heap.
      Kalloc.v: kalloc.c, proved against them in KallocRefine.v; KallocTheorems.v.
    - HashMap.v, HashMapTheorems.v: map.c.  MapTable.v is the table in memory with the
      blocks it owns, MapRefine.v shows that the operations are those of a finite map.
      Vec.v: vec.c.  Both are clients of the heap.
    - Paging.v: miniheap.c and paging.c before the heap; MapPages.v: paging.c on top of
      it.  PageWalk.v: the processor's page walk; PagingTheorems.v: the tables against it;
      Spaces.v: the address spaces of processes, with the heap and the hash map at work;
      SpaceInit.v: [proc_pages_init]; ProcNew.v: [proc_new] on top of it.
    - Sched.v: sched.c, arch sched.c and proc.c.  RunLists.v and SchedRefine.v: the queues
      as lists; SchedTheorems.v, SchedSubmit.v, SchedRemove.v, SchedExit.v: [proc_next],
      [schedule], [queue_tryremove], [unschedule]; SchedInit.v: [sched_init].  Smp.v: lock.h with several CPUs.
    - Ctx.v: ctx.c, syscall.c, the handler of idt.c; CtxTheorems.v: the switch as a whole,
      over the queues, the process table and the page tables at once.  Desc.v,
      DescTheorems.v: gdt.c and the tables of idt.c.
    - Devices.v: ports.c, x86.c, serial.c.  Pci.v: pci.c.  Timer.v, TimerTheorems.v: hpet.c
      and apic.c.  Acpi.v: acpi.c and laihost.c.  Rand.v: rand.c; ChaCha.v: its
      block function and the generator on it against RFC 8439.
    - Printf.v, PrintfTheorems.v: nanoprintf.h as io.c configures it.  Screen.v,
      ScreenTheorems.v: screen.c, putc.c.  Font.v: font.c.  Console.v: io.c.  Panic.v:
      assert.c, panic.h, backtrace.c, freeze.c, stack_prot.c.
    - Boot.v: mp.c, start.c, kmain.c.  Keeps.v and Invariants.v: what every operation,
      the boot included, keeps.  BootTheorems.v: [kmain] up to the heap.

    ** What the theorems show

    - Boot: from the memory map and the linker's section bounds to page tables that map
      the kernel, the screen and the free memory, pools, and a heap, with the invariants
      all later theorems start from.  The text and the read-only data are not writable.
    - Memory management: [page_alloc], [kalloc], [kfree], [krealloc] refine their abstract
      specifications, blocks are disjoint, aligned and never handed out twice; an
      overwritten canary is detected.  [page_free] is described as it is: it leaves the
      lists well formed but not in address order, and the free blocks in front of the buddy
      it merges with, and only these, are lost.
    - Paging: [premap_pages] maps exactly the pages asked for; [kvirt2phys] is the
      processor's walk; what [premap_anon] and [unmap_pages] map and unmap exactly.
      [map_pages] does the same in the address space of a process, whose tables are pages
      of the allocator entered in a hash map; free memory must have been zero before the
      allocator got it, since the code does not clear a new table, and no frame may hash to
      the last cell of the map, which the first insertion would grow.  [proc_pages_init]
      makes such a space, with the text and the stack in it, and the kernel's half;
      [proc_new] enters the process in the table of processes under a fresh id.
    - The hash map refines a finite map: insertion, lookup, deletion, replacement; its
      blocks come from the heap and go back to it.
    - Scheduling: [proc_next] refines a two-queue scheduler and starves nobody; [schedule]
      and [unschedule]; a timer interrupt saves one process and continues the next on its
      own page table, unless the low half of the instruction pointer is 0, which the code takes
      for NULL; an increment under the spin lock is never lost, and the keys of processes
      are unique, whatever the interleaving; the time slices of a sweep.
    - The running kernel: an invariant of all states it reaches by interrupts, system
      calls and user code.
    - Formatted output: formats are typed, and typed calls are defined; integers print as
      a reference printer prints them; format specifications are parsed back.
    - The console: [putchar] draws its glyph and nothing else, different characters look
      different.
    - Data and devices: FNV-1a, ChaCha20 as in its RFC and in counter mode, descriptors and
      PCI addresses as the hardware decodes them, the waits of the serial port and of the
      timer, backtraces.
    - Where the code does not do what it should, a theorem shows it on a run: blocks that
      are not a power of two in the page allocator, and blocks lost by it, keys lost by the hash map, an overflow
      in [krealloc], a lost increment at CPU start-up, glyphs below the screen, the
      no-execute flag.

    ** Not modelled

    Assembly files (entry, interrupt and system call stubs, return to user code, the
    entropy instructions): events, or parameters where the C calls them.  The LAI
    interpreter and the layout of ACPI tables (acpispec), which are not in the repository:
    parameters.  limine.h, the vendored header of the boot protocol: the fields the kernel
    reads are parameters of the boot.  cpu.c and cpu.h: the pause instruction and feature
    bits no code reads.  The conversion of a double to a float in [printf]: an argument
    carries the float's bits.  The interleaving of CPUs over more than one word.  The
    translation cache: a walk sees the tables as they are, and [invlpg] is an event.

    ** Bounds

    Page tables: [n] pages need at most [tables_room n] new tables, three for every 512
    pages begun, from the mini heap (0x64000 bytes in the linker script, so some 200 MiB
    of memory can be mapped before it runs out, which panics).  Loops over [n] pages need
    fuel [n + 1]; searches of the queues and lists, their length and one more; a probe of
    the hash map, its capacity; the page allocator, the blocks of a pool and 64.

    ** Plan

    Open: [syscall_exit] as a whole; the boot after the heap (descriptor tables, ACPI, the
    other CPUs) run to its end. *)
From stdpp Require Export base tactics option list strings gmap.
From Stdlib Require Export ZArith Znumtheory Lia Bool.

#[global] Open Scope Z_scope.

(** ** Fixed-width unsigned integers

    A C [uint64_t]/[uintptr_t]/[size_t] is a [Z] in [0, 2^64); every operation
    that can leave the range is written with its wrap-around. *)

Definition w64 (x : Z) : Z := x mod 2 ^ 64.
Definition w32 (x : Z) : Z := x mod 2 ^ 32.
Definition w16 (x : Z) : Z := x mod 2 ^ 16.
Definition w8 (x : Z) : Z := x mod 2 ^ 8.

(** Conversion of a bit pattern to [int8_t], [int32_t] (two's complement). *)
Definition s8 (x : Z) : Z := (x + 2 ^ 7) mod 2 ^ 8 - 2 ^ 7.
Definition s32 (x : Z) : Z := (x + 2 ^ 31) mod 2 ^ 32 - 2 ^ 31.

Definition add64 (x y : Z) : Z := w64 (x + y).
Definition sub64 (x y : Z) : Z := w64 (x - y).
Definition mul64 (x y : Z) : Z := w64 (x * y).
Definition add32 (x y : Z) : Z := w32 (x + y).
Definition sub32 (x y : Z) : Z := w32 (x - y).
Definition mul32 (x y : Z) : Z := w32 (x * y).

Definition u64 (x : Z) : Prop := 0 <= x < 2 ^ 64.
Definition u32 (x : Z) : Prop := 0 <= x < 2 ^ 32.

Lemma w64_small x : 0 <= x < 2 ^ 64 -> w64 x = x.
Proof. apply Z.mod_small. Qed.

Lemma w32_small x : 0 <= x < 2 ^ 32 -> w32 x = x.
Proof. apply Z.mod_small. Qed.

Lemma w8_small x : 0 <= x < 2 ^ 8 -> w8 x = x.
Proof. apply Z.mod_small. Qed.

Lemma w64_range x : 0 <= w64 x < 2 ^ 64.
Proof. apply Z.mod_pos_bound; lia. Qed.

Lemma w32_range x : 0 <= w32 x < 2 ^ 32.
Proof. apply Z.mod_pos_bound; lia. Qed.

Lemma w8_range x : 0 <= w8 x < 2 ^ 8.
Proof. apply Z.mod_pos_bound; lia. Qed.

Lemma add64_small x y : 0 <= x + y < 2 ^ 64 -> add64 x y = x + y.
Proof. apply w64_small. Qed.

Lemma sub64_small x y : 0 <= x - y < 2 ^ 64 -> sub64 x y = x - y.
Proof. apply w64_small. Qed.

Create HintDb word.
Create Rewrite HintDb word.
#[export] Hint Resolve w64_range w32_range w8_range : word.
#[export] Hint Rewrite w64_small w32_small w8_small add64_small sub64_small
  using lia : word.

Lemma w64_idem x : w64 (w64 x) = w64 x.
Proof. apply Z.mod_mod; lia. Qed.

Lemma w32_idem x : w32 (w32 x) = w32 x.
Proof. apply Z.mod_mod; lia. Qed.

#[export] Instance divide_dec (a b : Z) : Decision ((a | b)).
Proof. exact (Zdivide_dec a b). Defined.

(** ** Outcomes and the state monad

    A C function that reads and writes the state [S] is a [M S A].  It returns
    a value with the new state, or it stops for good: in [panic] (which ends in
    [freeze]), in a page fault on an unmapped address, spinning on a lock that
    nobody will release, or, an artefact of the model, because the fuel of a
    loop ran out. *)

Inductive stop : Set := Panic | Fault | Deadlock | OutOfFuel.

#[export] Instance stop_eq_dec : EqDecision stop.
Proof. solve_decision. Defined.

Inductive res (S A : Type) : Type :=
  | Done (a : A) (s : S)
  | Stop (e : stop).
Arguments Done {S A} a s.
Arguments Stop {S A} e.

Definition M (S A : Type) : Type := S -> res S A.

#[export] Instance M_ret S : MRet (M S) := fun _ a s => Done a s.
#[export] Instance M_bind S : MBind (M S) := fun _ _ k m s =>
  match m s with
  | Done a s' => k a s'
  | Stop e => Stop e
  end.

(** The value a run returns, when it returns. *)
Definition value_of {S A} (r : res S A) : option A :=
  match r with
  | Done a _ => Some a
  | Stop _ => None
  end.

Definition halt {S A} (e : stop) : M S A := fun _ => Stop e.
Definition gets {S A} (f : S -> A) : M S A := fun s => Done (f s) s.
Definition modify {S} (f : S -> S) : M S unit := fun s => Done tt (f s).

(** kernel/assert.c: a false test panics. *)
Definition assert_test {S} (test : bool) : M S unit :=
  if test then mret tt else halt Panic.

(** [for (i = from; i < from + n; ++i) body(i)] *)
Fixpoint for_range {S} (n : nat) (from : Z) (body : Z -> M S unit) : M S unit :=
  match n with
  | O => mret tt
  | S k => body from ;; for_range k (from + 1) body
  end.

(** ** Total-correctness triples *)

Definition wp {S A} (m : M S A) (Q : A -> S -> Prop) (s : S) : Prop :=
  match m s with
  | Done a s' => Q a s'
  | Stop _ => False
  end.

Section wp.
Context {S : Type}.

Lemma wp_ret {A} (a : A) (Q : A -> S -> Prop) s : Q a s -> wp (mret a) Q s.
Proof. done. Qed.

Lemma wp_bind {A B} (m : M S A) (k : A -> M S B) (Q : B -> S -> Prop) s :
  wp m (fun a s' => wp (k a) Q s') s -> wp (m ≫= k) Q s.
Proof. unfold wp, mbind, M_bind. by destruct (m s). Qed.

Lemma wp_conseq {A} (m : M S A) (Q R : A -> S -> Prop) s :
  wp m Q s -> (forall a s', Q a s' -> R a s') -> wp m R s.
Proof. unfold wp. destruct (m s); firstorder congruence. Qed.

Lemma wp_gets {A} (f : S -> A) (Q : A -> S -> Prop) s : Q (f s) s -> wp (gets f) Q s.
Proof. done. Qed.

Lemma wp_modify (f : S -> S) (Q : unit -> S -> Prop) s : Q tt (f s) -> wp (modify f) Q s.
Proof. done. Qed.

Lemma wp_assert (b : bool) (Q : unit -> S -> Prop) s :
  b = true -> Q tt s -> wp (assert_test b) Q s.
Proof. by intros ->. Qed.

Lemma wp_done {A} (m : M S A) (Q : A -> S -> Prop) s :
  wp m Q s <-> exists a s', m s = Done a s' /\ Q a s'.
Proof. unfold wp. destruct (m s); firstorder congruence. Qed.

Lemma wp_run {A} (m : M S A) (Q : A -> S -> Prop) s a s' :
  m s = Done a s' -> Q a s' -> wp m Q s.
Proof. unfold wp. by intros ->. Qed.

Lemma run_bind {A B} (m : M S A) (k : A -> M S B) s a s' :
  m s = Done a s' -> (m ≫= k) s = k a s'.
Proof. unfold mbind, M_bind. by intros ->. Qed.

Lemma run_bind_stop {A B} (m : M S A) (k : A -> M S B) s e :
  m s = Stop e -> (m ≫= k) s = Stop e.
Proof. unfold mbind, M_bind. by intros ->. Qed.

(** A counted loop preserves an invariant indexed by its counter. *)
Lemma wp_for_range (I : Z -> S -> Prop) n from body s :
  (forall i s, from <= i < from + Z.of_nat n -> I i s ->
    wp (body i) (fun _ s' => I (i + 1) s') s) ->
  I from s ->
  wp (for_range n from body) (fun _ s' => I (from + Z.of_nat n) s') s.
Proof.
  revert from s. induction n as [|n IH]; intros from s Hb H0; simpl.
  - apply wp_ret. by rewrite Z.add_0_r.
  - apply wp_bind. eapply wp_conseq; [apply Hb; [lia|done]|].
    intros [] s' HI. simpl.
    eapply wp_conseq; [apply IH; [|exact HI]|].
    + intros i s2 Hi. apply Hb. lia.
    + intros [] s2. simpl. by replace (from + 1 + Z.of_nat n)
        with (from + Z.of_nat (Datatypes.S n)) by lia.
Qed.
End wp.

(** ** More fuel never changes a result

    [approx m m']: from every state, [m] runs out of fuel or does what [m'] does.
    Loops are monotone in their fuel, so one run with enough fuel tells the result
    for every larger amount. *)

Definition approx {S A} (m m' : M S A) : Prop := forall s, m s = Stop OutOfFuel \/ m s = m' s.

Create HintDb fuel.

Section fuel.
Context {S : Type}.

#[export] Instance approx_refl {A} : Reflexive (@approx S A).
Proof. intros m s. by right. Qed.

#[export] Instance approx_trans {A} : Transitive (@approx S A).
Proof.
  intros m1 m2 m3 H1 H2 s. destruct (H1 s) as [|E1]; [by left|].
  destruct (H2 s) as [E2|E2]; [left; congruence|right; congruence].
Qed.

Lemma approx_out {A} (m : M S A) : approx (halt OutOfFuel) m.
Proof. intros s. by left. Qed.

Lemma approx_bind {A B} (m m' : M S A) (k k' : A -> M S B) :
  approx m m' -> (forall a, approx (k a) (k' a)) -> approx (m ≫= k) (m' ≫= k').
Proof.
  intros Hm Hk s. unfold mbind, M_bind. destruct (Hm s) as [->| ->]; [by left|].
  destruct (m' s) as [a s'|e]; [apply Hk|by right].
Qed.

Lemma approx_for_range n from (body body' : Z -> M S unit) :
  (forall i, approx (body i) (body' i)) -> approx (for_range n from body) (for_range n from body').
Proof.
  intros H. revert from. induction n as [|n IH]; intros from; simpl; [reflexivity|].
  apply approx_bind; [apply H|]. intros _. apply IH.
Qed.

Lemma approx_run {A} (m m' : M S A) s r : approx m m' -> m s = r -> r <> Stop OutOfFuel -> m' s = r.
Proof. intros H Hm Hr. destruct (H s); congruence. Qed.
End fuel.

#[export] Hint Resolve approx_out : fuel.

(** Proves monotonicity by following the structure of the program. *)
Ltac mono_step :=
  match goal with
  | |- approx ?m ?m => reflexivity
  | |- approx (halt OutOfFuel) _ => apply approx_out
  | |- approx (mbind _ _) (mbind _ _) => apply approx_bind; [|intros ?]
  | |- approx (for_range _ _ _) (for_range _ _ _) => apply approx_for_range; intros ?
  | |- approx (if ?b then _ else _) _ => destruct b
  | |- approx (match ?x with _ => _ end) _ => destruct x
  | H : context [approx _ _] |- approx _ _ => apply H; lia
  | |- approx _ _ => solve [auto with fuel lia]
  end.
Ltac mono := repeat mono_step.

(** With enough fuel the run of [m] from [s] ends as [r]. *)
Definition eventually {S A} (m : nat -> M S A) (s : S) (r : res S A) : Prop :=
  exists N, forall fuel, (N <= fuel)%nat -> m fuel s = r.

Section eventually.
Context {S : Type}.

Lemma eventually_const {A} (m : M S A) s r : m s = r -> eventually (fun _ => m) s r.
Proof. by exists O. Qed.

(** One sufficient amount of fuel is enough for a monotone program. *)
Lemma eventually_mono {A} (m : nat -> M S A) N s r :
  (forall f f', (f <= f')%nat -> approx (m f) (m f')) ->
  m N s = r -> r <> Stop OutOfFuel -> eventually m s r.
Proof. intros Hm HN Hr. exists N. intros f Hf. by eapply approx_run; [apply Hm| |]. Qed.

(** A run that had fuel enough gives the same result. *)
Lemma eventually_at {A} (m : nat -> M S A) s r f :
  (forall f f', (f <= f')%nat -> approx (m f) (m f')) -> eventually m s r -> m f s <> Stop OutOfFuel -> m f s = r.
Proof. intros Hm [N HN] Hf. rewrite <- (HN (max f N)) by lia. destruct (Hm f (max f N) ltac:(lia) s) as [|E]; [done|exact E]. Qed.

Lemma eventually_bind {A B} (m : nat -> M S A) (k : nat -> A -> M S B) s a s' r :
  eventually m s (Done a s') -> eventually (fun f => k f a) s' r ->
  eventually (fun f => m f ≫= k f) s r.
Proof.
  intros [N1 H1] [N2 H2]. exists (N1 + N2)%nat. intros f Hf.
  rewrite (run_bind _ _ _ _ _ (H1 f ltac:(lia))). apply H2. lia.
Qed.

Lemma eventually_bind_stop {A B} (m : nat -> M S A) (k : nat -> A -> M S B) s e :
  eventually m s (Stop e) -> eventually (fun f => m f ≫= k f) s (Stop e).
Proof. intros [N H]. exists N. intros f Hf. by rewrite (run_bind_stop _ _ _ _ (H f Hf)). Qed.

(** With enough fuel the run of [m] from [s] returns with [Q], or it panics. *)
Definition yields {A} (m : nat -> M S A) (s : S) (Q : A -> S -> Prop) : Prop :=
  (exists a s', eventually m s (Done a s') /\ Q a s') \/ eventually m s (Stop Panic).

Lemma yields_bind {A B} (m : nat -> M S A) (k : nat -> A -> M S B) s Q R :
  yields m s Q -> (forall a s', Q a s' -> yields (fun f => k f a) s' R) -> yields (fun f => m f ≫= k f) s R.
Proof.
  intros [(a & s' & Hrun & HQ)|Hp] Hk; [|right; by apply eventually_bind_stop].
  destruct (Hk a s' HQ) as [(b & s2 & Hrun2 & HR)|Hp]; [left; exists b, s2; split; [|done]|right]; by eapply eventually_bind.
Qed.

Lemma yields_weaken {A} (m : nat -> M S A) s (Q R : A -> S -> Prop) :
  yields m s Q -> (forall a s', Q a s' -> R a s') -> yields m s R.
Proof. intros [(a & s' & Hrun & HQ)|Hp] HR; [left; exists a, s'; auto|by right]. Qed.

Lemma yields_step {A B} (m : M S A) (k : nat -> A -> M S B) s a s' R :
  m s = Done a s' -> yields (fun f => k f a) s' R -> yields (fun f => m ≫= k f) s R.
Proof.
  intros Hm Hk. apply (yields_bind (fun _ => m) k s (fun b t => b = a /\ t = s')); [|by intros ?? [-> ->]].
  left. exists a, s'. split; [by apply eventually_const|done].
Qed.

Lemma yields_done {A} (m : M S A) s a s' (Q : A -> S -> Prop) : m s = Done a s' -> Q a s' -> yields (fun _ => m) s Q.
Proof. intros Hm HQ. left. exists a, s'. split; [by apply eventually_const|done]. Qed.

(** A counted loop whose body keeps [I], or stops the run in one way. *)
Lemma eventually_for_range (I : Z -> S -> Prop) e n from (body : nat -> Z -> M S unit) s :
  (forall i s, from <= i < from + Z.of_nat n -> I i s ->
    (exists s', eventually (fun f => body f i) s (Done tt s') /\ I (i + 1) s') \/
    eventually (fun f => body f i) s (Stop e)) ->
  I from s ->
  (exists s', eventually (fun f => for_range n from (body f)) s (Done tt s') /\ I (from + Z.of_nat n) s') \/
  eventually (fun f => for_range n from (body f)) s (Stop e).
Proof.
  revert from s. induction n as [|n IH]; intros from s Hb H0.
  - left. exists s. split; [by apply eventually_const|by rewrite Z.add_0_r].
  - destruct (Hb from s ltac:(lia) H0) as [(s1 & Hrun & H1)|Hstop].
    2:{ right. by apply (eventually_bind_stop (fun f => body f from)). }
    replace (from + Z.of_nat (Datatypes.S n)) with (from + 1 + Z.of_nat n) in * by lia.
    destruct (IH (from + 1) s1) as [(s' & Hrest & HI)|Hstop]; [intros i s2 Hi; apply Hb; lia|exact H1|left|right].
    + exists s'. split; [|exact HI]. by eapply (eventually_bind (fun f => body f from)).
    + by eapply (eventually_bind (fun f => body f from)).
Qed.
End eventually.

#[global] Typeclasses Opaque wp M.
#[global] Arguments M_ret : simpl never.
#[global] Arguments M_bind : simpl never.
Create HintDb wp.
#[export] Hint Resolve wp_ret wp_gets wp_modify : wp.

(** One step of symbolic execution: sequencing and the pure operations. *)
Ltac wp_step :=
  lazymatch goal with
  | |- wp (mbind _ _) _ _ => apply wp_bind
  | |- wp (mret _) _ _ => apply wp_ret
  | |- wp (gets _) _ _ => apply wp_gets
  | |- wp (modify _) _ _ => apply wp_modify
  | |- wp (assert_test _) _ _ => apply wp_assert
  end.
Ltac wp_steps := repeat (wp_step; cbv beta).

(** Case analysis on the boolean comparisons the guards of the code are made of. *)
Ltac case_cmp :=
  match goal with
  | |- context [Z.eqb ?a ?b] => destruct (Z.eqb_spec a b)
  | |- context [Z.ltb ?a ?b] => destruct (Z.ltb_spec a b)
  | |- context [Z.leb ?a ?b] => destruct (Z.leb_spec a b)
  end.

(** Linear arithmetic with division and remainder by constants. *)
Ltac divlia := Z.div_mod_to_equations; lia.
