(* ===== verification/Smp.v ===== *)
(** * Several CPUs at once

    The other files follow one CPU.  Here the CPUs' accesses to one shared word are
    interleaved, an access at a time: the word is a counter that every CPU increments,
    under the spin lock of kernel/include/lock.h as [schedule] of kernel/sched.c does with
    a queue's 32-bit [n] and [proc_new] of kernel/proc.c with the 64-bit [pid_cur], or
    without one as [mp_start] of kernel/arch/x86_64/mp.c does with [cpus_ready]. *)
From S2P Require Import Prelude.

(** What a CPU does to the shared state in one go.  [TestAndSet] is
    [atomic_flag_test_and_set_explicit]: on a lock that is taken the CPU stays where it is
    ([pause()] and once more); [Load] and [Store] are the two halves of [++]; [Reread] is
    the word read once more. *)
Inductive access : Type := TestAndSet | Load | Store | Clear | Reread.

(** The accesses a CPU has still to make, the value of its [++] (before the store, what it
    has loaded), and what it has read again. *)
Record cpu := Cpu { todo : list access; reg : Z; seen : Z }.

Record machine := Machine { lock : bool; word : Z; cpus : list cpu }.

(** The 32-bit [n] of [schedule]: [ACQUIRE(&lock); ++n; RELEASE(&lock);] *)
Definition locked_incr : list access := [TestAndSet; Load; Store; Clear].

(** The 64-bit [pid_cur] of [proc_new]: [ACQUIRE(&pid_cur_lock); pid_t pid = ++pid_cur;
    RELEASE(&pid_cur_lock); p.pid = pid_cur;] *)
Definition proc_new_pid : list access := [TestAndSet; Load; Store; Clear; Reread].

(** [++cpus_ready;] *)
Definition plain_incr : list access := [Load; Store].

(** A word of [bits] bits. *)
Definition wrap (bits x : Z) : Z := x mod 2 ^ bits.

(** CPU [i] makes its next access to a word of [bits] bits. *)
Definition step (bits : Z) (i : nat) (st : machine) : machine :=
  match cpus st !! i with
  | None => st
  | Some c =>
      match todo c with
      | [] => st
      | TestAndSet :: k =>
          if lock st then st else Machine true (word st) (<[i := Cpu k (reg c) (seen c)]> (cpus st))
      | Load :: k => Machine (lock st) (word st) (<[i := Cpu k (word st) (seen c)]> (cpus st))
      | Store :: k =>
          let v := wrap bits (reg c + 1) in Machine (lock st) v (<[i := Cpu k v (seen c)]> (cpus st))
      | Clear :: k => Machine false (word st) (<[i := Cpu k (reg c) (seen c)]> (cpus st))
      | Reread :: k => Machine (lock st) (word st) (<[i := Cpu k (reg c) (word st)]> (cpus st))
      end
  end.

(** Which CPU moves when. *)
Definition run (bits : Z) (sched : list nat) (st : machine) : machine := foldl (fun st i => step bits i st) st sched.

(** [n] CPUs about to run [code] on the word [w]. *)
Definition init (code : list access) (n : nat) (w : Z) : machine := Machine false w (replicate n (Cpu code 0 0)).

Definition finished (st : machine) : Prop := forall c, c ∈ cpus st -> todo c = [].

#[export] Instance access_eq_dec : EqDecision access.
Proof. solve_decision. Defined.

#[export] Instance finished_dec st : Decision (finished st).
Proof.
  refine (cast_if (decide (Forall (fun c => todo c = []) (cpus st)))); unfold finished; by rewrite <- Forall_forall.
Defined.

(** ** Under the lock *)

(** Between [ACQUIRE] and [RELEASE]. *)
Definition in_section (c : cpu) : Prop :=
  exists k, todo c = Load :: Store :: Clear :: k \/ todo c = Store :: Clear :: k \/ todo c = Clear :: k.

(** The counter has been incremented. *)
Definition stored (c : cpu) : Prop := Store ∉ todo c.
#[export] Instance stored_dec c : Decision (stored c).
Proof. unfold stored. apply _. Defined.

Definition count_stored (l : list cpu) : nat := length (filter stored l).

Lemma count_insert l i c c' : l !! i = Some c -> (count_stored (<[i := c']> l) + (if decide (stored c) then 1 else 0) =
  count_stored l + (if decide (stored c') then 1 else 0))%nat.
Proof.
  unfold count_stored. revert i. induction l as [|d l IH]; intros [|i] Hi; [done|done| |].
  - injection Hi as ->. simpl. rewrite !filter_cons. repeat case_decide; simpl; lia.
  - simpl. rewrite !filter_cons. specialize (IH i Hi). destruct (decide (stored d)); simpl; lia.
Qed.

Lemma count_same l i c c' : l !! i = Some c -> (stored c <-> stored c') -> count_stored (<[i := c']> l) = count_stored l.
Proof. intros Hi Hcc. pose proof (count_insert _ _ _ c' Hi). destruct (decide (stored c)), (decide (stored c')); tauto || lia. Qed.

Lemma count_stored_le l : (count_stored l <= length l)%nat.
Proof. unfold count_stored. induction l as [|c l IH]; [done|]. rewrite filter_cons. case_decide; simpl; lia. Qed.

Lemma all_stored l : (forall c, c ∈ l -> todo c = []) -> count_stored l = length l.
Proof.
  unfold count_stored. induction l as [|c l IH]; intros H; [done|].
  rewrite filter_cons_True; [|unfold stored; rewrite (H c) by (by left); apply not_elem_of_nil].
  simpl. f_equal. apply IH. intros d Hd. apply H. by right.
Qed.

Lemma wrap_small bits x : 0 <= x < 2 ^ bits -> wrap bits x = x.
Proof. apply Z.mod_small. Qed.

Lemma wrap_add bits x y : wrap bits (wrap bits x + y) = wrap bits (x + y).
Proof. apply Zplus_mod_idemp_l. Qed.

(** Fewer than [2 ^ bits] numbers in a row are different words. *)
Lemma wrap_apart bits x j k : 0 <= j < 2 ^ bits -> 0 <= k < 2 ^ bits -> wrap bits (x + j) = wrap bits (x + k) -> j = k.
Proof.
  intros Hj Hk E. unfold wrap in E. assert (E' : (j - k) mod 2 ^ bits = 0).
  { replace (j - k) with ((x + j) - (x + k)) by lia. by rewrite Zminus_mod, E, Z.sub_diag. }
  apply Z.mod_divide in E' as [q Hq]; [|lia]. assert (q = 0) by nia. lia.
Qed.

(** A counter of [bits] bits, incremented under the lock by CPUs that read it at most once
    more afterwards. *)
Section counter.
Context (bits : Z) (rest : list access) (Hrest : rest = [] \/ rest = [Reread]).

Definition code : list access := locked_incr ++ rest.
Definition waiting (c : cpu) : Prop := todo c = code.
Definition loading (c : cpu) : Prop := todo c = Load :: Store :: Clear :: rest.
Definition storing (c : cpu) : Prop := todo c = Store :: Clear :: rest.
Definition clearing (c : cpu) : Prop := todo c = Clear :: rest.
Definition outside (c : cpu) : Prop := todo c = rest \/ todo c = [].

Lemma waiting_stored c : waiting c -> ~ stored c.
Proof. unfold stored. intros -> H. apply H. by repeat constructor. Qed.
Lemma loading_stored c : loading c -> ~ stored c.
Proof. unfold stored. intros -> H. apply H. by repeat constructor. Qed.
Lemma storing_stored c : storing c -> ~ stored c.
Proof. unfold stored. intros -> H. apply H. by repeat constructor. Qed.
Lemma clearing_stored c : clearing c -> stored c.
Proof. unfold stored. intros ->. destruct Hrest as [-> | ->]; rewrite ?not_elem_of_cons; by auto using not_elem_of_nil. Qed.
Lemma outside_stored c : outside c -> stored c.
Proof. unfold stored. intros [-> | ->]; [destruct Hrest as [-> | ->]|]; rewrite ?not_elem_of_cons; by auto using not_elem_of_nil. Qed.

Lemma waiting_outside c : waiting c -> ~ in_section c.
Proof. intros Hw (k & Hk). unfold waiting, code in Hw. rewrite Hw in Hk. by destruct Hk as [?|[?|?]]. Qed.
Lemma outside_section c : outside c -> ~ in_section c.
Proof. unfold outside. intros Ho (k & Hk). destruct Hrest as [-> | ->], Ho as [E|E]; rewrite E in Hk; naive_solver. Qed.
Lemma loading_section c : loading c -> in_section c.
Proof. intros E. exists rest. by left. Qed.
Lemma storing_section c : storing c -> in_section c.
Proof. intros E. exists rest. by right; left. Qed.
Lemma clearing_section c : clearing c -> in_section c.
Proof. intros E. exists rest. by right; right. Qed.
Hint Resolve waiting_stored loading_stored storing_stored clearing_stored outside_stored waiting_outside
  outside_section loading_section storing_section clearing_section : core.

(** The lock is taken exactly when one CPU, and only one, is between [ACQUIRE] and
    [RELEASE]; what it has loaded is current; the word counts the stores. *)
Record locked_inv (w0 : Z) (st : machine) : Prop := {
  li_cpus i c : cpus st !! i = Some c -> waiting c \/ loading c \/ storing c \/ clearing c \/ outside c;
  li_one i j c d : cpus st !! i = Some c -> cpus st !! j = Some d -> in_section c -> in_section d -> i = j;
  li_lock : lock st = true <-> exists i c, cpus st !! i = Some c /\ in_section c;
  li_reg i c : cpus st !! i = Some c -> storing c -> reg c = word st;
  li_word : word st = wrap bits (w0 + Z.of_nat (count_stored (cpus st)));
}.

Lemma init_inv n w : 0 <= w < 2 ^ bits -> locked_inv w (init code n w).
Proof.
  intros Hw. unfold init. assert (Hall : forall i c, replicate n (Cpu code 0 0) !! i = Some c -> waiting c).
  { by intros i c [-> _]%lookup_replicate. }
  split; simpl.
  - intros i c ?%Hall. by left.
  - intros i j c d Hc%Hall%waiting_outside _ Hin. done.
  - split; [done|]. intros (i & c & Hc%Hall%waiting_outside & Hin). done.
  - intros i c Hc%Hall Hs. unfold waiting, storing, code in *. by rewrite Hc in Hs.
  - assert (count_stored (replicate n (Cpu code 0 0)) = 0%nat) as ->; [|by rewrite Z.add_0_r, wrap_small].
    unfold count_stored. clear Hall. induction n as [|n IH]; [done|]. simpl. rewrite filter_cons_False; [done|].
    by apply waiting_stored.
Qed.

(** CPU [i] moves while no other is in the section. *)
Lemma inv_update w0 st i c c' b w' : locked_inv w0 st -> cpus st !! i = Some c ->
  (forall j d, j <> i -> cpus st !! j = Some d -> ~ in_section d) ->
  (b = true <-> in_section c') -> loading c' \/ storing c' \/ clearing c' \/ outside c' -> (storing c' -> reg c' = w') ->
  w' = wrap bits (w0 + Z.of_nat (count_stored (<[i := c']> (cpus st)))) ->
  locked_inv w0 (Machine b w' (<[i := c']> (cpus st))).
Proof.
  intros HI Hi Hothers Hb Hc' Hreg Hw.
  assert (Hins : forall j d, <[i := c']> (cpus st) !! j = Some d -> j = i /\ d = c' \/ j <> i /\ cpus st !! j = Some d).
  { intros j d Hd. apply list_lookup_insert_Some in Hd as [(<- & <- & _)|[? Hd]]; [by left|by right]. }
  assert (Hsec : forall j d, <[i := c']> (cpus st) !! j = Some d -> in_section d -> j = i /\ d = c').
  { intros j d [?|[Hne Hd]]%Hins Hin; [done|]. by destruct (Hothers j d Hne Hd). }
  split; simpl.
  - intros j d [[-> ->]|[_ Hd]]%Hins; [by right|by apply (li_cpus _ _ HI j)].
  - intros j k d e Hd He Hsd Hse. destruct (Hsec j d Hd Hsd), (Hsec k e He Hse). by subst.
  - rewrite Hb. split.
    + intros Hin. exists i, c'. split; [|done]. apply list_lookup_insert_eq. by eapply lookup_lt_Some.
    + intros (j & d & Hd & Hin). by destruct (Hsec j d Hd Hin) as [_ ->].
  - intros j d Hd Ht. destruct (Hsec j d Hd) as [-> ->]; [by apply storing_section|by apply Hreg].
  - done.
Qed.

(** A CPU that is through moves. *)
Lemma inv_outside w0 st i c c' : locked_inv w0 st -> cpus st !! i = Some c -> outside c -> outside c' ->
  locked_inv w0 (Machine (lock st) (word st) (<[i := c']> (cpus st))).
Proof.
  intros HI Hi Hc Hc'.
  assert (Hsec : forall j d, <[i := c']> (cpus st) !! j = Some d -> in_section d -> j <> i /\ cpus st !! j = Some d).
  { intros j d [(<- & <- & _)|[? Hd]]%list_lookup_insert_Some Hin; [by apply outside_section in Hc'|done]. }
  split; simpl.
  - intros j d [(<- & <- & _)|[_ Hd]]%list_lookup_insert_Some; [by do 4 right|by apply (li_cpus _ _ HI j)].
  - intros j k d e Hd He Hsd Hse. destruct (Hsec j d Hd Hsd), (Hsec k e He Hse). by eapply li_one.
  - rewrite (li_lock _ _ HI). split; [|intros (j & d & Hd & Hin); exists j, d; by destruct (Hsec j d Hd Hin)].
    intros (j & d & Hd & Hin). exists j, d. split; [|done]. rewrite list_lookup_insert_ne; [done|].
    intros <-. apply (outside_section c Hc). congruence.
  - intros j d Hd Hs. destruct (Hsec j d Hd (storing_section d Hs)). by eapply li_reg.
  - rewrite (count_same _ _ _ c' Hi); [apply HI|]. split; auto.
Qed.

Lemma step_inv w0 i st : locked_inv w0 st -> locked_inv w0 (step bits i st).
Proof.
  intros HI. unfold step. destruct (cpus st !! i) as [c|] eqn:Hi; [|done].
  assert (Hfree : lock st = false -> forall j d, j <> i -> cpus st !! j = Some d -> ~ in_section d).
  { intros Hl j d _ Hd Hin. assert (lock st = true); [|congruence]. apply (li_lock _ _ HI). by exists j, d. }
  assert (Hin : in_section c -> forall j d, j <> i -> cpus st !! j = Some d -> ~ in_section d).
  { intros Hc j d Hne Hd Hin. by apply Hne, (li_one _ _ HI j i d c). }
  assert (Hlk : in_section c -> lock st = true) by (intros Hc; apply (li_lock _ _ HI); by exists i, c).
  destruct (li_cpus _ _ HI i c Hi) as [E|[E|[E|[E|E]]]].
  - rewrite E. simpl. destruct (lock st) eqn:El; [done|]. pose proof (waiting_stored c E).
    assert (Hl : loading (Cpu (Load :: Store :: Clear :: rest) (reg c) (seen c))) by done.
    apply (inv_update _ _ _ c); [exact HI|exact Hi|exact (Hfree eq_refl)|split; auto|auto|done|]. rewrite (count_same _ _ c); [apply HI|done|].
    split; [done|]. intros ?. by apply loading_stored in Hl.
  - specialize (Hin (loading_section c E)). rewrite (Hlk (loading_section c E)). pose proof (loading_stored c E). rewrite E.
    assert (Hl : storing (Cpu (Store :: Clear :: rest) (word st) (seen c))) by done.
    apply (inv_update _ _ _ c); [exact HI|exact Hi|exact Hin|split; auto|auto|done|]. rewrite (count_same _ _ c); [apply HI|done|].
    split; [done|]. intros ?. by apply storing_stored in Hl.
  - specialize (Hin (storing_section c E)). rewrite (Hlk (storing_section c E)). pose proof (storing_stored c E).
    pose proof (li_reg _ _ HI i c Hi E) as Er. rewrite E. cbn zeta.
    set (c' := Cpu (Clear :: rest) (wrap bits (reg c + 1)) (seen c)). assert (Hl : clearing c') by done.
    apply (inv_update _ _ _ c); [exact HI|exact Hi|exact Hin|split; auto|auto|done|]. pose proof (count_insert _ _ _ c' Hi) as Hn.
    rewrite decide_False, decide_True in Hn by auto. clearbody c'. rewrite Er, (li_word _ _ HI), wrap_add. f_equal. lia.
  - specialize (Hin (clearing_section c E)). rewrite E.
    assert (Ho : outside (Cpu rest (reg c) (seen c))) by by left.
    apply (inv_update _ _ _ c); [exact HI|exact Hi|exact Hin|split; [done|]; intros ?; by apply outside_section in Ho|auto|intros Hs; apply storing_section in Hs; by apply outside_section in Ho|].
    rewrite (count_same _ _ c); [apply HI|done|]. split; auto.
  - pose proof E as Ho. destruct E as [E|E]; [destruct Hrest as [Er|Er]; rewrite Er in E|]; rewrite E; [done| |done].
    apply (inv_outside _ _ _ c); [done..|]. by right.
Qed.

Lemma run_inv w0 sched st : locked_inv w0 st -> locked_inv w0 (run bits sched st).
Proof. revert st. induction sched as [|i sched IH]; intros st HI; [done|]. apply IH, step_inv, HI. Qed.

(** *** Progress *)

Definition remaining (st : machine) : nat := sum_list ((fun c => length (todo c)) <$> cpus st).

Lemma sum_insert l i c c' : l !! i = Some c -> (length (todo c') < length (todo c))%nat ->
  (sum_list ((fun c => length (todo c)) <$> <[i := c']> l) < sum_list ((fun c => length (todo c)) <$> l))%nat.
Proof.
  revert i. induction l as [|d l IH]; intros [|i] Hi Hlt; [done|done| |].
  - injection Hi as ->. simpl. lia.
  - specialize (IH i Hi Hlt). simpl. apply Nat.add_lt_mono_l. exact IH.
Qed.

(** A CPU that does not wait for the lock moves. *)
Lemma moves i c st : cpus st !! i = Some c -> todo c <> [] -> (waiting c -> lock st = false) -> (head (todo c) = Some TestAndSet -> waiting c) ->
  (remaining (step bits i st) < remaining st)%nat.
Proof.
  intros Hi Hne Hw Hh. unfold step. rewrite Hi. destruct (todo c) as [|a k] eqn:E; [done|].
  destruct a; [rewrite Hw by by apply Hh|..]; unfold remaining; simpl; (eapply sum_insert; [done|rewrite E; simpl; lia]).
Qed.

(** As long as some CPU is not done, one can move. *)
Lemma locked_progress w0 st : locked_inv w0 st -> ~ finished st -> exists i, (remaining (step bits i st) < remaining st)%nat.
Proof.
  intros HI Hnf.
  assert (Hhead : forall i c, cpus st !! i = Some c -> head (todo c) = Some TestAndSet -> waiting c).
  { intros i c Hi Hh. destruct (li_cpus _ _ HI i c Hi) as [?|[E|[E|[E|[E|E]]]]]; [done|rewrite E in Hh; try done..].
    by destruct Hrest as [Er|Er]; rewrite Er in Hh. }
  destruct (lock st) eqn:El.
  - destruct (proj1 (li_lock _ _ HI) El) as (i & c & Hi & Hc). exists i. apply (moves i c); [done| | |by eapply Hhead].
    + destruct Hc as (k & [E|[E|E]]); by rewrite E.
    + intros Hw. by apply waiting_outside in Hw.
  - assert (Hex : exists c, c ∈ cpus st /\ todo c <> []).
    { destruct (decide (Exists (fun c => todo c <> []) (cpus st))) as [H|H]; [by apply Exists_exists in H|].
      destruct Hnf. intros c Hc. destruct (decide (todo c = [])); [done|]. destruct H. apply Exists_exists. by exists c. }
    destruct Hex as (c & [i Hi]%list_elem_of_lookup & Hc). exists i. apply (moves i c); [done..|by eapply Hhead].
Qed.

Lemma locked_finishes n : forall w0 st, locked_inv w0 st -> (remaining st <= n)%nat -> exists sched, finished (run bits sched st).
Proof.
  induction n as [|n IH]; intros w0 st HI Hn.
  - exists []. intros c Hc. destruct (decide (finished st)) as [Hf|Hf]; [by apply Hf|]. destruct (locked_progress w0 st HI Hf). lia.
  - destruct (decide (finished st)) as [Hf|Hf]; [by exists []|].
    destruct (locked_progress w0 st HI Hf) as [i Hi]. destruct (IH w0 (step bits i st)) as [sched Hs]; [by apply step_inv|lia|].
    by exists (i :: sched).
Qed.

Lemma length_cpus_step i st : length (cpus (step bits i st)) = length (cpus st).
Proof. unfold step. repeat case_match; simpl; by rewrite ?length_insert. Qed.

Lemma length_cpus_run sched st : length (cpus (run bits sched st)) = length (cpus st).
Proof. revert st. induction sched as [|i l IH]; intros st; [done|]. simpl. by rewrite IH, length_cpus_step. Qed.

(** Mutual exclusion, progress and the count. *)
Lemma counter_correct n w sched : 0 <= w < 2 ^ bits ->
  let st := run bits sched (init code n w) in
  (forall i j c d, cpus st !! i = Some c -> cpus st !! j = Some d -> in_section c -> in_section d -> i = j) /\
  (lock st = true <-> exists i c, cpus st !! i = Some c /\ in_section c) /\
  (exists more, finished (run bits more st)) /\
  (finished st -> lock st = false /\ word st = wrap bits (w + Z.of_nat n)).
Proof.
  intros Hw st. assert (HI : locked_inv w st) by by apply run_inv, init_inv.
  split; [apply HI|]. split; [apply HI|]. split; [by apply (locked_finishes (remaining st) w st HI)|].
  intros Hf. split.
  - destruct (lock st) eqn:El; [|done]. destruct (proj1 (li_lock _ _ HI) El) as (i & c & Hi & (k & Hc)).
    rewrite (Hf c (list_elem_of_lookup_2 _ _ _ Hi)) in Hc. by destruct Hc as [?|[?|?]].
  - rewrite (li_word _ _ HI), all_stored by done. unfold st. rewrite length_cpus_run. simpl. by rewrite length_replicate.
Qed.

(** *** The values of the increments *)

(** The CPUs that have stored have different values, none above the counter. *)
Record ids_inv (w0 : Z) (st : machine) : Prop := {
  id_below i c : cpus st !! i = Some c -> stored c ->
    exists k, 1 <= k <= Z.of_nat (count_stored (cpus st)) /\ reg c = wrap bits (w0 + k);
  id_apart i j c d : cpus st !! i = Some c -> cpus st !! j = Some d -> stored c -> stored d -> reg c = reg d -> i = j;
}.

(** A move that changes neither what is stored nor the values of the CPUs that have. *)
Lemma ids_same w0 st i c c' b w' : ids_inv w0 st -> cpus st !! i = Some c -> (stored c <-> stored c') -> (stored c' -> reg c' = reg c) ->
  ids_inv w0 (Machine b w' (<[i := c']> (cpus st))).
Proof.
  intros HI Hi Hcc Hr. pose proof (count_same _ _ _ _ Hi Hcc) as Hn.
  assert (Hold : forall j d, <[i := c']> (cpus st) !! j = Some d -> stored d -> exists d', cpus st !! j = Some d' /\ stored d' /\ reg d = reg d').
  { intros j d [(<- & <- & _)|[_ Hd]]%list_lookup_insert_Some Hs; [exists c|by exists d]. split; [done|]. split; [by apply Hcc|by apply Hr]. }
  split; simpl.
  - intros j d Hd Hs. destruct (Hold j d Hd Hs) as (d' & Hd' & Hs' & ->). rewrite Hn. by eapply id_below.
  - intros j k d e Hd He Hsd Hse E. destruct (Hold j d Hd Hsd) as (d' & Hd' & Hsd' & E1), (Hold k e He Hse) as (e' & He' & Hse' & E2).
    eapply (id_apart _ _ HI); [exact Hd'|exact He'|done|done|congruence].
Qed.

(** The store makes one more. *)
Lemma ids_store w0 st i c : locked_inv w0 st -> Z.of_nat (length (cpus st)) < 2 ^ bits -> ids_inv w0 st -> cpus st !! i = Some c -> storing c ->
  let c' := Cpu (Clear :: rest) (wrap bits (reg c + 1)) (seen c) in
  ids_inv w0 (Machine (lock st) (wrap bits (reg c + 1)) (<[i := c']> (cpus st))).
Proof.
  intros HL Hlen HI Hi Hc c'. pose proof (count_insert _ _ _ c' Hi) as Hn.
  rewrite decide_False, decide_True in Hn by (by apply clearing_stored || by apply storing_stored).
  pose proof (count_stored_le (<[i := c']> (cpus st))) as Hle. rewrite length_insert in Hle.
  set (k := count_stored (cpus st)) in *.
  assert (Hr : reg c' = wrap bits (w0 + Z.of_nat (S k))).
  { simpl. rewrite (li_reg _ _ HL i c Hi Hc), (li_word _ _ HL), wrap_add. fold k. f_equal. lia. }
  assert (Hnew : forall j d, cpus st !! j = Some d -> stored d -> reg d <> reg c').
  { intros j d Hd Hs Er. destruct (id_below _ _ HI j d Hd Hs) as (l & Hl & El). fold k in Hl. rewrite El, Hr in Er. apply wrap_apart in Er; lia. }
  split; simpl.
  - intros j d [(<- & <- & _)|[_ Hd]]%list_lookup_insert_Some Hs; [exists (Z.of_nat (S k)); split; [lia|done]|].
    destruct (id_below _ _ HI j d Hd Hs) as (l & Hl & El). fold k in Hl. exists l. split; [lia|done].
  - intros j l d e [(<- & <- & _)|[_ Hd]]%list_lookup_insert_Some [(<- & <- & _)|[_ He]]%list_lookup_insert_Some Hsd Hse Er.
    + done.
    + by destruct (Hnew l e He Hse).
    + by destruct (Hnew j d Hd Hsd).
    + by eapply (id_apart _ _ HI j l d e).
Qed.

Lemma step_ids w0 i st : locked_inv w0 st -> Z.of_nat (length (cpus st)) < 2 ^ bits -> ids_inv w0 st -> ids_inv w0 (step bits i st).
Proof.
  intros HL Hlen HI. unfold step. destruct (cpus st !! i) as [c|] eqn:Hi; [|done].
  destruct (li_cpus _ _ HL i c Hi) as [E|[E|[E|[E|E]]]].
  - pose proof (waiting_stored c E) as Hs. rewrite E. simpl. destruct (lock st); [done|].
    assert (Hl : loading (Cpu (Load :: Store :: Clear :: rest) (reg c) (seen c))) by done. apply (ids_same _ _ _ c); [done|done| |done].
    split; [done|]. intros ?. by apply loading_stored in Hl.
  - pose proof (loading_stored c E) as Hs. rewrite E.
    assert (Hl : storing (Cpu (Store :: Clear :: rest) (word st) (seen c))) by done.
    apply (ids_same _ _ _ c); [done|done| |intros ?; by apply storing_stored in Hl]. split; [done|]. intros ?. by apply storing_stored in Hl.
  - rewrite E. by apply ids_store.
  - pose proof (clearing_stored c E) as Hs. rewrite E. apply (ids_same _ _ _ c); [done|done| |done].
    split; [|done]. intros _. apply outside_stored. by left.
  - pose proof (outside_stored c E) as Hs. destruct E as [E|E]; [destruct Hrest as [Er|Er]; rewrite Er in E|]; rewrite E; [done| |done].
    apply (ids_same _ _ _ c); [done|done| |done]. split; [|done]. intros _. apply outside_stored. by right.
Qed.

Lemma run_ids w0 sched st : locked_inv w0 st -> Z.of_nat (length (cpus st)) < 2 ^ bits -> ids_inv w0 st -> ids_inv w0 (run bits sched st).
Proof.
  revert st. induction sched as [|i sched IH]; intros st HL Hlen HI; [done|]. apply IH; [by apply step_inv|by rewrite length_cpus_step|by apply step_ids].
Qed.

Lemma init_ids n w : ids_inv w (init code n w).
Proof.
  assert (Hno : forall i c, replicate n (Cpu code 0 0) !! i = Some c -> ~ stored c) by (intros i c [-> _]%lookup_replicate; by apply waiting_stored).
  split; simpl; [by intros i c H ?%(Hno i c H)|by intros i j c d H _ ?%(Hno i c H)].
Qed.

Lemma counter_ids n w sched : 0 <= w < 2 ^ bits -> Z.of_nat n < 2 ^ bits ->
  let st := run bits sched (init code n w) in
  ids_inv w st /\ (count_stored (cpus st) <= n)%nat.
Proof.
  intros Hw Hn st. assert (Hl : length (cpus (init code n w)) = n) by (simpl; by rewrite length_replicate).
  split; [apply run_ids; [by apply init_inv|by rewrite Hl|apply init_ids]|].
  etrans; [apply count_stored_le|]. unfold st. by rewrite length_cpus_run, Hl.
Qed.
End counter.

(** C21. However the accesses of the CPUs interleave, an increment under the spin lock is
    never lost and never torn: at every moment at most one CPU is between taking the
    lock and giving it back, and the lock is taken exactly then; there is always a way
    to go on until every CPU is done (no deadlock); and when they are, the lock is free
    and the 32-bit word has been incremented once by each. *)
Theorem spin_lock_counts n w sched : 0 <= w < 2 ^ 32 ->
  let st := run 32 sched (init locked_incr n w) in
  (forall i j c d, cpus st !! i = Some c -> cpus st !! j = Some d -> in_section c -> in_section d -> i = j) /\
  (lock st = true <-> exists i c, cpus st !! i = Some c /\ in_section c) /\
  (exists more, finished (run 32 more st)) /\
  (finished st -> lock st = false /\ word st = w32 (w + Z.of_nat n)).
Proof. exact (counter_correct 32 [] (or_introl eq_refl) n w sched). Qed.

Lemma spin_lock_counts_witness :
  let st := run 32 [0; 1; 0; 2; 0; 0; 1; 1; 1; 1; 2; 2; 2; 2]%nat (init locked_incr 3 5) in
  (forall i j c d, cpus st !! i = Some c -> cpus st !! j = Some d -> in_section c -> in_section d -> i = j) /\
  (lock st = true <-> exists i c, cpus st !! i = Some c /\ in_section c) /\
  (exists more, finished (run 32 more st)) /\
  (finished st -> lock st = false /\ word st = w32 (5 + Z.of_nat 3)).
Proof. apply (spin_lock_counts 3 5). lia. Defined.

(** ** Process ids *)

(** C22. No two processes get the same id: however the CPUs that run [proc_new] interleave
    over the 64-bit [pid_cur] and its lock, the values of their [++pid_cur], which are the
    keys under which [procmap] holds the processes, are all different, as long as there are
    fewer than 2^64 of them; each is one of the [n] values after the [pid_cur] they started
    from, and when all are done these have been used up. *)
Theorem pids_unique n w sched : 0 <= w < 2 ^ 64 -> Z.of_nat n < 2 ^ 64 ->
  let st := run 64 sched (init proc_new_pid n w) in
  (forall i j c d, cpus st !! i = Some c -> cpus st !! j = Some d -> stored c -> stored d -> i <> j -> reg c <> reg d) /\
  (forall i c, cpus st !! i = Some c -> stored c -> exists k, 1 <= k <= Z.of_nat n /\ reg c = w64 (w + k)) /\
  (finished st -> word st = w64 (w + Z.of_nat n)).
Proof.
  intros Hw Hn st. pose proof (or_intror eq_refl : [Reread] = [] \/ [Reread] = [Reread]) as Hr.
  destruct (counter_ids 64 [Reread] Hr n w sched Hw Hn : ids_inv 64 w st /\ (count_stored (cpus st) <= n)%nat) as [HI Hle].
  destruct (counter_correct 64 [Reread] Hr n w sched Hw) as (_ & _ & _ & Hfin). split; [|split].
  - intros i j c d Hi Hj Hc Hd Hne E. apply Hne. by eapply (id_apart _ _ _ HI).
  - intros i c Hi Hc. destruct (id_below _ _ _ HI i c Hi Hc) as (k & Hk & E). exists k. split; [lia|exact E].
  - intros Hf. by apply Hfin.
Qed.

(** Three CPUs make a process each, the second and third waiting for the first. *)
Definition three_procs : machine := run 64 [0; 1; 0; 2; 0; 0; 1; 2; 1; 0; 1; 1; 2; 2; 1; 2; 2; 2]%nat (init proc_new_pid 3 (2 ^ 32 - 2)).

Lemma pids_unique_witness :
  finished three_procs /\ reg <$> cpus three_procs = [2 ^ 32 - 1; 2 ^ 32; 2 ^ 32 + 1] /\ word three_procs = w64 (2 ^ 32 + 1) /\
  forall i j c d, cpus three_procs !! i = Some c -> cpus three_procs !! j = Some d -> i <> j -> reg c <> reg d.
Proof.
  assert (Hf : finished three_procs) by (apply (bool_decide_unpack _); vm_compute; exact Logic.I).
  destruct (pids_unique 3 (2 ^ 32 - 2) [0; 1; 0; 2; 0; 0; 1; 2; 1; 0; 1; 1; 2; 2; 1; 2; 2; 2]%nat ltac:(lia) ltac:(lia)) as (Hne & _ & Hw).
  split; [exact Hf|]. split; [reflexivity|]. split; [exact (Hw Hf)|].
  intros i j c d Hi Hj. apply (Hne i j c d Hi Hj); unfold stored.
  - rewrite (Hf c (list_elem_of_lookup_2 _ _ _ Hi)). apply not_elem_of_nil.
  - rewrite (Hf d (list_elem_of_lookup_2 _ _ _ Hj)). apply not_elem_of_nil.
Defined.

(** What [proc_new] then puts into the structure is [pid_cur] read again, without the
    lock, so two CPUs can give their processes, stored under different keys, the same
    [p.pid]. *)
Theorem proc_new_same_pid : exists sched, let st := run 64 sched (init proc_new_pid 2 0) in
  finished st /\ reg <$> cpus st = [1; 2] /\ seen <$> cpus st = [2; 2].
Proof.
  exists [0; 0; 0; 0; 1; 1; 1; 1; 0; 1]%nat. split; [|split; reflexivity]. apply (bool_decide_unpack _). vm_compute. exact Logic.I.
Qed.

(** ** Without a lock *)

Lemma finished_stuck sched st : finished st -> run 32 sched st = st.
Proof.
  intros Hf. induction sched as [|i sched IH]; [done|]. change (run 32 (i :: sched) st) with (run 32 sched (step 32 i st)).
  assert (step 32 i st = st) as ->; [|done]. unfold step. destruct (cpus st !! i) as [c|] eqn:Hi; [|done].
  by rewrite (Hf c (list_elem_of_lookup_2 _ _ _ Hi)).
Qed.

(** [++cpus_ready] is not atomic: two CPUs that come up at the same time can both be
    done with the counter at 2 instead of 3, and then it stays 2 for ever, so that the
    [while (cpus_ready != ncpus);] of [mp_init] on the first CPU never ends. *)
Theorem cpus_ready_lost :
  exists sched, let st := run 32 sched (init plain_incr 2 1) in
    finished st /\ word st = 2 /\ forall more, word (run 32 more st) <> 3.
Proof.
  exists [0; 1; 0; 1]%nat. assert (Hf : finished (run 32 [0; 1; 0; 1]%nat (init plain_incr 2 1))).
  { apply (bool_decide_unpack _). vm_compute. exact Logic.I. }
  split; [exact Hf|]. split; [reflexivity|]. intros more. rewrite (finished_stuck _ _ Hf). discriminate.
Qed.
