(* ===== verification/Memory.v ===== *)
(** * Byte memory and kernel/mem.c

    The kernel's address space is a finite map from addresses to bytes: an
    address outside its domain is unmapped and touching it is a page fault.
    Multi-byte accesses are little endian.  [HasMem] is what a component's state
    promises to the code that only moves bytes: [memmove], [memcpy], [memset]
    and [memcmp] of kernel/mem.c are written and proved against it. *)
From S2P Require Import Prelude.

(** ** Contents of the memory *)

Definition read_bytes (m : gmap Z Z) (a : Z) (n : nat) : option (list Z) :=
  mapM (fun i => m !! (a + i)) (seqZ 0 (Z.of_nat n)).

Fixpoint write_bytes (m : gmap Z Z) (a : Z) (bs : list Z) : gmap Z Z :=
  match bs with
  | [] => m
  | b :: bs' => <[a := b]> (write_bytes m (a + 1) bs')
  end.

Fixpoint le_join (bs : list Z) : Z :=
  match bs with
  | [] => 0
  | b :: bs' => b + 2 ^ 8 * le_join bs'
  end.

Fixpoint le_split (n : nat) (v : Z) : list Z :=
  match n with
  | O => []
  | S k => w8 v :: le_split k (v / 2 ^ 8)
  end.

Definition read64 (m : gmap Z Z) (a : Z) : option Z := le_join <$> read_bytes m a 8.
Definition write64 (m : gmap Z Z) (a v : Z) : gmap Z Z := write_bytes m a (le_split 8 v).
Definition read32 (m : gmap Z Z) (a : Z) : option Z := le_join <$> read_bytes m a 4.
Definition write32 (m : gmap Z Z) (a v : Z) : gmap Z Z := write_bytes m a (le_split 4 v).

(** All the bytes of [a, a + n) are mapped. *)
Definition mapped (m : gmap Z Z) (a n : Z) : Prop :=
  forall x, a <= x < a + n -> is_Some (m !! x).

Definition mappedb (m : gmap Z Z) (a : Z) (n : nat) : bool :=
  match read_bytes m a n with Some _ => true | None => false end.

(** The two memories agree on the addresses satisfying [P]. *)
Definition same_on (P : Z -> Prop) (m m' : gmap Z Z) : Prop :=
  forall x, P x -> m' !! x = m !! x.

(** [x] lies in [a, a + n). *)
Definition within (a n x : Z) : Prop := a <= x < a + n.

(** ** Reading and writing *)

Lemma length_le_split n v : length (le_split n v) = n.
Proof. revert v. induction n; intros; simpl; auto. Qed.

Lemma le_join_split n v : le_join (le_split n v) = v mod 2 ^ (8 * Z.of_nat n).
Proof.
  revert v. induction n as [|n IH]; intros v; simpl le_split; simpl le_join.
  - by rewrite Z.mod_1_r.
  - rewrite IH. replace (8 * Z.of_nat (S n)) with (8 + 8 * Z.of_nat n) by lia.
    rewrite (Z.pow_add_r 2 8) by lia.
    rewrite Z.rem_mul_r by lia. unfold w8. lia.
Qed.

Lemma le_split_range n v b : b ∈ le_split n v -> 0 <= b < 2 ^ 8.
Proof.
  revert v. induction n as [|n IH]; intros v; simpl; [by intros ?%elem_of_nil|].
  intros [->|Hb]%elem_of_cons; [apply w8_range|by eapply IH].
Qed.

Lemma lookup_write_bytes m a bs x :
  write_bytes m a bs !! x =
    if decide (a <= x < a + Z.of_nat (length bs)) then bs !! Z.to_nat (x - a) else m !! x.
Proof.
  revert a. induction bs as [|b bs IH]; intros a; simpl.
  - case_decide; [lia|done].
  - destruct (decide (a = x)) as [->|Hne].
    + rewrite lookup_insert_eq. case_decide; [|lia].
      by replace (Z.to_nat (x - x)) with O by lia.
    + rewrite lookup_insert_ne by done. rewrite IH.
      repeat case_decide; try lia; [|done].
      by replace (Z.to_nat (x - a)) with (S (Z.to_nat (x - (a + 1)))) by lia.
Qed.

Lemma read_bytes_spec m a n bs :
  read_bytes m a n = Some bs <->
  length bs = n /\ forall i, (i < n)%nat -> bs !! i = m !! (a + Z.of_nat i).
Proof.
  unfold read_bytes. rewrite mapM_Some. split.
  - intros HF. pose proof (Forall2_length _ _ _ HF) as Hl.
    rewrite length_seqZ in Hl. split; [lia|]. intros i Hi.
    destruct (lookup_lt_is_Some_2 bs i) as [b Hb]; [lia|].
    rewrite Hb. symmetry.
    apply (Forall2_lookup_lr _ _ _ i (Z.of_nat i) b HF); [|done].
    apply lookup_seqZ. lia.
  - intros [Hl Hi]. apply Forall2_same_length_lookup_2.
    { rewrite length_seqZ. lia. }
    intros i x b (-> & Hlt)%lookup_seqZ Hb. rewrite Z.add_0_l, <- Hi by lia. done.
Qed.

Lemma read_bytes_length m a n bs : read_bytes m a n = Some bs -> length bs = n.
Proof. by intros [? _]%read_bytes_spec. Qed.

Lemma read_bytes_is_Some m a n :
  is_Some (read_bytes m a n) <-> mapped m a (Z.of_nat n).
Proof.
  unfold mapped, read_bytes. split.
  - intros [bs Hbs] x Hx. apply read_bytes_spec in Hbs as [Hl Hi].
    specialize (Hi (Z.to_nat (x - a)) ltac:(lia)).
    replace (a + Z.of_nat (Z.to_nat (x - a))) with x in Hi by lia.
    rewrite <- Hi. apply lookup_lt_is_Some_2. lia.
  - intros H. apply mapM_is_Some, Forall_forall.
    intros i Hi%elem_of_seqZ. apply H. lia.
Qed.

Lemma mappedb_spec m a n : mappedb m a n = true <-> mapped m a (Z.of_nat n).
Proof.
  rewrite <- read_bytes_is_Some. unfold mappedb.
  destruct (read_bytes m a n); naive_solver.
Qed.

Lemma read_bytes_same m m' a n :
  same_on (within a (Z.of_nat n)) m m' -> read_bytes m' a n = read_bytes m a n.
Proof.
  intros H. destruct (read_bytes m a n) as [bs|] eqn:E.
  - apply read_bytes_spec in E as [Hl Hi]. apply read_bytes_spec. split; [done|].
    intros i Hlt. rewrite Hi by done. symmetry. apply H. unfold within. lia.
  - destruct (read_bytes m' a n) as [bs|] eqn:E'; [|done].
    enough (is_Some (read_bytes m a n)) as [? ?] by congruence.
    apply read_bytes_is_Some. intros x Hx.
    rewrite <- (H x) by done. apply (proj1 (read_bytes_is_Some m' a n)); [eauto|done].
Qed.

Lemma write_bytes_same m a bs P :
  (forall x, P x -> ~ within a (Z.of_nat (length bs)) x) -> same_on P m (write_bytes m a bs).
Proof.
  intros H x Hx. rewrite lookup_write_bytes. case_decide; [|done].
  by destruct (H x Hx).
Qed.

Lemma write_bytes_mapped m a bs x : is_Some (m !! x) -> is_Some (write_bytes m a bs !! x).
Proof.
  intros H. rewrite lookup_write_bytes. case_decide; [|done].
  apply lookup_lt_is_Some_2. lia.
Qed.

Lemma read_write_bytes m a bs : read_bytes (write_bytes m a bs) a (length bs) = Some bs.
Proof.
  apply read_bytes_spec. split; [done|]. intros i Hi.
  rewrite lookup_write_bytes, decide_True by lia.
  by replace (Z.to_nat (a + Z.of_nat i - a)) with i by lia.
Qed.

Lemma read_write_bytes_ne m a bs b n :
  b + Z.of_nat n <= a \/ a + Z.of_nat (length bs) <= b ->
  read_bytes (write_bytes m a bs) b n = read_bytes m b n.
Proof.
  intros H. apply read_bytes_same, write_bytes_same. unfold within. lia.
Qed.

(** Words. *)

Lemma read64_write64 m a v : read64 (write64 m a v) a = Some (w64 v).
Proof.
  unfold read64, write64.
  pose proof (read_write_bytes m a (le_split 8 v)) as H.
  rewrite length_le_split in H. rewrite H.
  change (Some (le_join (le_split 8 v)) = Some (w64 v)). by rewrite le_join_split.
Qed.

Lemma read64_write64_eq m a v : 0 <= v < 2 ^ 64 -> read64 (write64 m a v) a = Some v.
Proof. intros. by rewrite read64_write64, w64_small. Qed.

Lemma read64_write64_ne m a b v :
  b + 8 <= a \/ a + 8 <= b -> read64 (write64 m a v) b = read64 m b.
Proof.
  intros H. unfold read64, write64. f_equal. apply read_write_bytes_ne.
  rewrite length_le_split. lia.
Qed.

Lemma read64_same m m' a : same_on (within a 8) m m' -> read64 m' a = read64 m a.
Proof. intros H. unfold read64. by rewrite (read_bytes_same m m'). Qed.

Lemma read32_same m m' a : same_on (within a 4) m m' -> read32 m' a = read32 m a.
Proof. intros H. unfold read32. by rewrite (read_bytes_same m m'). Qed.

Lemma read32_is_Some m a : is_Some (read32 m a) <-> mapped m a 4.
Proof. unfold read32. rewrite fmap_is_Some. apply read_bytes_is_Some. Qed.

Lemma read32_write32 m a v : read32 (write32 m a v) a = Some (w32 v).
Proof.
  unfold read32, write32. pose proof (read_write_bytes m a (le_split 4 v)) as H.
  rewrite length_le_split in H. rewrite H. simpl. f_equal. apply (le_join_split 4 v).
Qed.

Lemma read64_zero m a : (forall x, within a 8 x -> m !! x = Some 0) -> read64 m a = Some 0.
Proof.
  intros H. unfold read64. replace (read_bytes m a 8) with (Some (replicate 8 0)); [done|].
  symmetry. apply read_bytes_spec. split; [done|]. intros i Hi.
  rewrite H by (unfold within; lia). by apply lookup_replicate_2.
Qed.

Lemma read64_is_Some m a : is_Some (read64 m a) <-> mapped m a 8.
Proof.
  unfold read64. rewrite fmap_is_Some. apply read_bytes_is_Some.
Qed.

Lemma write64_same m a v P :
  (forall x, P x -> ~ within a 8 x) -> same_on P m (write64 m a v).
Proof. intros H. apply write_bytes_same. by rewrite length_le_split. Qed.

Lemma write64_lookup_ne m a v x : ~ within a 8 x -> write64 m a v !! x = m !! x.
Proof. intros H. apply (write64_same m a v (fun y => y = x)); [by intros ? ->|done]. Qed.

Lemma write64_comm m a v b w :
  a + 8 <= b \/ b + 8 <= a ->
  write64 (write64 m a v) b w = write64 (write64 m b w) a v.
Proof.
  intros H. apply map_eq. intros x. unfold write64.
  rewrite !lookup_write_bytes, !length_le_split. repeat case_decide; try done; lia.
Qed.

Lemma write64_mapped m a v b n : mapped m b n -> mapped (write64 m a v) b n.
Proof. intros H x Hx. apply write_bytes_mapped. by apply H. Qed.

Lemma write_bytes_mapped_range m a bs b n : mapped m b n -> mapped (write_bytes m a bs) b n.
Proof. intros H x Hx. apply write_bytes_mapped. by apply H. Qed.

Lemma mapped_sub m a n b k : mapped m a n -> a <= b -> b + k <= a + n -> mapped m b k.
Proof. intros H ? ? x Hx. apply H. lia. Qed.

(** [same_on] is a relation one composes along a run. *)

#[export] Instance same_on_refl P : Reflexive (same_on P).
Proof. by intros m x Hx. Qed.

#[export] Instance same_on_trans P : Transitive (same_on P).
Proof. intros m1 m2 m3 H1 H2 x Hx. by rewrite (H2 x Hx), (H1 x Hx). Qed.

#[export] Instance same_on_sym P : Symmetric (same_on P).
Proof. intros m1 m2 H x Hx. by rewrite (H x Hx). Qed.

Lemma same_on_weaken (P Q : Z -> Prop) m m' :
  same_on P m m' -> (forall x, Q x -> P x) -> same_on Q m m'.
Proof. intros H HQ x Hx. by apply H, HQ. Qed.

Lemma same_on_mapped P m m' a n :
  same_on P m m' -> (forall x, within a n x -> P x) -> mapped m a n -> mapped m' a n.
Proof. intros H HP Hm x Hx. rewrite (H x) by by apply HP. by apply Hm. Qed.

(** From [m] to [m'] only bytes in [P] changed and nothing was unmapped. *)
Record changes (P : Z -> Prop) (m m' : gmap Z Z) : Prop := {
  ch_same : forall x, ~ P x -> m' !! x = m !! x;
  ch_mapped : forall x, is_Some (m !! x) -> is_Some (m' !! x);
}.

Lemma changes_refl P m : changes P m m.
Proof. done. Qed.

Lemma changes_trans P m1 m2 m3 : changes P m1 m2 -> changes P m2 m3 -> changes P m1 m3.
Proof.
  intros [S1 M1] [S2 M2]. split; [|by auto]. intros x Hx. by rewrite S2, S1.
Qed.

Lemma changes_weaken (P Q : Z -> Prop) m m' :
  changes P m m' -> (forall x, P x -> Q x) -> changes Q m m'.
Proof. intros [S1 M1] H. split; [|done]. intros x Hx. apply S1. auto. Qed.

Lemma changes_write_bytes m a bs :
  changes (within a (Z.of_nat (length bs))) m (write_bytes m a bs).
Proof.
  split; [|intros x; apply write_bytes_mapped].
  intros x Hx. rewrite lookup_write_bytes. by rewrite decide_False.
Qed.

Lemma changes_write64 m a v : changes (within a 8) m (write64 m a v).
Proof.
  eapply changes_weaken; [apply changes_write_bytes|]. by rewrite length_le_split.
Qed.

Lemma changes_same_on (P Q : Z -> Prop) m m' :
  changes P m m' -> (forall x, Q x -> ~ P x) -> same_on Q m m'.
Proof. intros [S1 _] H x Hx. by apply S1, H. Qed.

Lemma changes_mapped P m m' a n : changes P m m' -> mapped m a n -> mapped m' a n.
Proof. intros [_ M1] H x Hx. by apply M1, H. Qed.

Lemma changes_read64 P m m' a :
  changes P m m' -> (forall x, within a 8 x -> ~ P x) -> read64 m' a = read64 m a.
Proof. intros H HP. by apply read64_same, (changes_same_on P). Qed.

(** A write inside the region one is allowed to change. *)
Lemma changes_then_write (P : Z -> Prop) m m' a v :
  changes P m m' -> (forall x, within a 8 x -> P x) -> changes P m (write64 m' a v).
Proof.
  intros H HP. eapply changes_trans; [exact H|].
  eapply changes_weaken; [apply changes_write64|done].
Qed.

Create HintDb mem.
#[export] Hint Resolve write64_mapped write_bytes_mapped_range changes_refl changes_write64
  changes_then_write changes_mapped : mem.
Create Rewrite HintDb mem.
#[export] Hint Rewrite read64_write64_eq read64_write64_ne using lia : mem.

(** ** The accesses of the code *)

Class HasMem (S : Type) := {
  mem_of : S -> gmap Z Z;
  upd_mem : gmap Z Z -> S -> S;
  mem_of_upd m s : mem_of (upd_mem m s) = m;
  upd_mem_upd m m' s : upd_mem m (upd_mem m' s) = upd_mem m s;
  upd_mem_of s : upd_mem (mem_of s) s = s;
}.

(** The memory alone is a state with memory. *)
#[export] Instance gmap_has_mem : HasMem (gmap Z Z).
Proof. by refine {| mem_of := fun m => m; upd_mem := fun m _ => m |}. Defined.

Section access.
Context {S : Type} `{!HasMem S}.

Definition load8 (a : Z) : M S Z := fun s =>
  match mem_of s !! a with
  | Some b => Done b s
  | None => Stop Fault
  end.

Definition store8 (a v : Z) : M S unit := fun s =>
  match mem_of s !! a with
  | Some _ => Done tt (upd_mem (<[a := v]> (mem_of s)) s)
  | None => Stop Fault
  end.

Definition load64 (a : Z) : M S Z := fun s =>
  match read64 (mem_of s) a with
  | Some v => Done v s
  | None => Stop Fault
  end.

Definition store64 (a v : Z) : M S unit := fun s =>
  if mappedb (mem_of s) a 8
  then Done tt (upd_mem (write64 (mem_of s) a v) s)
  else Stop Fault.

Lemma wp_load8 a b (Q : Z -> S -> Prop) s :
  mem_of s !! a = Some b -> Q b s -> wp (load8 a) Q s.
Proof. intros H HQ. unfold wp, load8. by rewrite H. Qed.

Lemma wp_store8 a v (Q : unit -> S -> Prop) s :
  is_Some (mem_of s !! a) -> Q tt (upd_mem (<[a := v]> (mem_of s)) s) ->
  wp (store8 a v) Q s.
Proof. intros [b H] HQ. unfold wp, store8. by rewrite H. Qed.

Lemma wp_load64 a v (Q : Z -> S -> Prop) s :
  read64 (mem_of s) a = Some v -> Q v s -> wp (load64 a) Q s.
Proof. intros H HQ. unfold wp, load64. by rewrite H. Qed.

Lemma wp_store64 a v (Q : unit -> S -> Prop) s :
  mapped (mem_of s) a 8 -> Q tt (upd_mem (write64 (mem_of s) a v) s) ->
  wp (store64 a v) Q s.
Proof.
  intros H HQ. unfold wp, store64.
  by rewrite (proj2 (mappedb_spec (mem_of s) a 8)).
Qed.

Lemma run_store64 a v s :
  mapped (mem_of s) a 8 -> store64 a v s = Done tt (upd_mem (write64 (mem_of s) a v) s).
Proof. intros H. unfold store64. by rewrite (proj2 (mappedb_spec (mem_of s) a 8)). Qed.

Lemma run_load64 a v s : read64 (mem_of s) a = Some v -> load64 a s = Done v s.
Proof. intros H. unfold load64. by rewrite H. Qed.

Lemma load64_fault a s : ~ mapped (mem_of s) a 8 -> load64 a s = Stop Fault.
Proof.
  intros H. unfold load64. destruct (read64 (mem_of s) a) eqn:E; [|done].
  destruct H. apply read64_is_Some. by eexists.
Qed.
End access.
