(* ===== verification/Mem.v ===== *)
(** * kernel/mem.c: memmove, memcpy, memset, memcmp

    The four byte loops, over any state with memory.  [memmove] copies downwards
    when the source is below the destination and upwards otherwise; the theorems
    give the contents of the memory afterwards whatever the overlap.  [memcmp]
    runs from the last byte to the first. *)
From S2P Require Import Prelude Memory.

Section mem.
Context {St : Type} `{!HasMem St}.

(** [while (n--) dst8[n] = src8[n];] *)
Fixpoint copy_down (n : nat) (dst src : Z) : M St unit :=
  match n with
  | O => mret tt
  | S k =>
      b ← load8 (src + Z.of_nat k);
      store8 (dst + Z.of_nat k) b ;;
      copy_down k dst src
  end.

(** [for (i = 0; i < n; ++i) dst8[i] = src8[i];] *)
Definition copy_up (n : nat) (dst src : Z) : M St unit :=
  for_range n 0 (fun i => b ← load8 (src + i); store8 (dst + i) b).

Definition memmove (dst src n : Z) : M St Z :=
  if (src =? dst) || (n =? 0) then mret dst
  else if src <? dst then copy_down (Z.to_nat n) dst src ;; mret dst
  else copy_up (Z.to_nat n) dst src ;; mret dst.

Definition memcpy (dst src n : Z) : M St Z := memmove dst src n.

(** [while (n--) dst8[n] = c;] where the assignment converts [c] to [uint8_t] *)
Fixpoint fill_down (n : nat) (dst c : Z) : M St unit :=
  match n with
  | O => mret tt
  | S k => store8 (dst + Z.of_nat k) (w8 c) ;; fill_down k dst c
  end.

Definition memset (dst c n : Z) : M St Z := fill_down (Z.to_nat n) dst c ;; mret dst.

(** [while (n--) if (s1[n] != s2[n]) return s1[n] < s2[n] ? -1 : 1; return 0;] *)
Fixpoint cmp_down (n : nat) (s1 s2 : Z) : M St Z :=
  match n with
  | O => mret 0
  | S k =>
      x ← load8 (s1 + Z.of_nat k);
      y ← load8 (s2 + Z.of_nat k);
      if negb (x =? y) then mret (if x <? y then -1 else 1) else cmp_down k s1 s2
  end.

Definition memcmp (p1 p2 n : Z) : M St Z := cmp_down (Z.to_nat n) p1 p2.

(** ** Copying *)

Lemma write_bytes_snoc m a bs b :
  write_bytes m a (bs ++ [b]) = <[a + Z.of_nat (length bs) := b]> (write_bytes m a bs).
Proof.
  apply map_eq. intros x. rewrite lookup_insert, !lookup_write_bytes, length_app.
  simpl. repeat case_decide; try lia; subst.
  - rewrite lookup_app_r by lia.
    by replace (Z.to_nat (a + Z.of_nat (length bs) - a) - length bs)%nat with O by lia.
  - by rewrite lookup_app_l by lia.
  - done.
Qed.

Lemma write_bytes_id m a bs :
  read_bytes m a (length bs) = Some bs -> write_bytes m a bs = m.
Proof.
  intros [_ Hi]%read_bytes_spec. apply map_eq. intros x.
  rewrite lookup_write_bytes. case_decide; [|done].
  rewrite Hi by lia. f_equal. lia.
Qed.

Section copy.
Context (s : St) (dst src : Z) (bs : list Z).
Context (Hsrc : read_bytes (mem_of s) src (length bs) = Some bs).
Context (Hdst : mapped (mem_of s) dst (Z.of_nat (length bs))).

Lemma copy_down_spec k :
  src < dst -> (k <= length bs)%nat ->
  wp (copy_down k dst src)
    (fun _ s' => s' = upd_mem (write_bytes (mem_of s) dst bs) s)
    (upd_mem (write_bytes (mem_of s) (dst + Z.of_nat k) (drop k bs)) s).
Proof.
  intros Hlt. induction k as [|k IH]; intros Hk; simpl.
  { apply wp_ret. by rewrite Z.add_0_r. }
  destruct (lookup_lt_is_Some_2 bs k) as [b Hb]; [lia|].
  apply wp_bind, (wp_load8 _ b).
  { rewrite mem_of_upd, lookup_write_bytes, decide_False by lia.
    apply read_bytes_spec in Hsrc as [_ Hi]. by rewrite <- Hi by lia. }
  apply wp_bind, wp_store8.
  { rewrite mem_of_upd. apply write_bytes_mapped, Hdst. lia. }
  rewrite mem_of_upd, upd_mem_upd.
  specialize (IH ltac:(lia)). rewrite (drop_S _ _ _ Hb) in IH. simpl in IH.
  by replace (dst + Z.of_nat (S k)) with (dst + Z.of_nat k + 1) by lia.
Qed.

Lemma copy_up_spec :
  dst < src ->
  wp (copy_up (length bs) dst src)
    (fun _ s' => s' = upd_mem (write_bytes (mem_of s) dst bs) s) s.
Proof.
  intros Hlt. unfold copy_up.
  eapply wp_conseq.
  - apply (wp_for_range (fun i s' =>
      s' = upd_mem (write_bytes (mem_of s) dst (take (Z.to_nat i) bs)) s)).
    + intros i s' Hi ->. destruct (lookup_lt_is_Some_2 bs (Z.to_nat i)) as [b Hb]; [lia|].
      apply wp_bind, (wp_load8 _ b).
      { rewrite mem_of_upd, lookup_write_bytes, length_take, decide_False by lia.
        apply read_bytes_spec in Hsrc as [_ Hj]. rewrite <- Hb, Hj by lia. f_equal. lia. }
      apply wp_store8.
      { rewrite mem_of_upd. apply write_bytes_mapped, Hdst. lia. }
      rewrite mem_of_upd, upd_mem_upd.
      replace (Z.to_nat (i + 1)) with (S (Z.to_nat i)) by lia.
      rewrite (take_S_r _ _ b), write_bytes_snoc, length_take by done.
      by replace (Z.of_nat (Z.to_nat i `min` length bs)) with i by lia.
    + simpl. by rewrite upd_mem_of.
  - intros [] s' ->. by rewrite Z.add_0_l, Nat2Z.id, firstn_all.
Qed.
End copy.

(** After [memmove(dst, src, n)] the destination holds the bytes the source held
    before the call, overlapping or not, and nothing else changed. *)
Lemma wp_memmove (dst src n : Z) bs (s : St) (Q : Z -> St -> Prop) :
  0 <= n ->
  read_bytes (mem_of s) src (Z.to_nat n) = Some bs ->
  mapped (mem_of s) dst n ->
  Q dst (upd_mem (write_bytes (mem_of s) dst bs) s) ->
  wp (memmove dst src n) Q s.
Proof.
  intros Hn Hsrc Hdst HQ. pose proof (read_bytes_length _ _ _ _ Hsrc) as Hl.
  rewrite <- Hl in Hsrc. unfold memmove.
  assert (Hd : mapped (mem_of s) dst (Z.of_nat (length bs))).
  { rewrite Hl. by replace (Z.of_nat (Z.to_nat n)) with n by lia. }
  destruct (Z.eqb_spec src dst) as [->|Hne]; simpl.
  { apply wp_ret. by rewrite write_bytes_id, upd_mem_of in HQ. }
  destruct (Z.eqb_spec n 0) as [->|Hn0].
  { apply wp_ret. destruct bs; [|done]. simpl in HQ. by rewrite upd_mem_of in HQ. }
  rewrite <- Hl. destruct (Z.ltb_spec src dst) as [Hlt|Hge].
  - apply wp_bind.
    pose proof (copy_down_spec s dst src bs Hsrc Hd (length bs) ltac:(lia) ltac:(lia)) as H.
    rewrite drop_all in H. simpl in H. rewrite upd_mem_of in H.
    eapply wp_conseq; [exact H|]. intros [] s' ->. by apply wp_ret.
  - apply wp_bind. eapply wp_conseq; [apply copy_up_spec; (done || lia)|].
    intros [] s' ->. by apply wp_ret.
Qed.

Lemma fill_down_spec (s : St) dst c n k :
  mapped (mem_of s) dst (Z.of_nat n) -> (k <= n)%nat ->
  wp (fill_down k dst c)
    (fun _ s' => s' = upd_mem (write_bytes (mem_of s) dst (replicate n (w8 c))) s)
    (upd_mem (write_bytes (mem_of s) (dst + Z.of_nat k) (replicate (n - k) (w8 c))) s).
Proof.
  intros Hm. induction k as [|k IH]; intros Hk; simpl.
  { apply wp_ret. by rewrite Z.add_0_r, Nat.sub_0_r. }
  apply wp_bind, wp_store8.
  { rewrite mem_of_upd. apply write_bytes_mapped, Hm. lia. }
  rewrite mem_of_upd, upd_mem_upd. specialize (IH ltac:(lia)).
  replace (n - k)%nat with (S (n - S k)) in IH by lia. simpl in IH.
  by replace (dst + Z.of_nat (S k)) with (dst + Z.of_nat k + 1) by lia.
Qed.

Lemma wp_memset (dst c n : Z) (s : St) (Q : Z -> St -> Prop) :
  0 <= n -> mapped (mem_of s) dst n ->
  Q dst (upd_mem (write_bytes (mem_of s) dst (replicate (Z.to_nat n) (w8 c))) s) ->
  wp (memset dst c n) Q s.
Proof.
  intros Hn Hm HQ. unfold memset. apply wp_bind.
  pose proof (fill_down_spec s dst c (Z.to_nat n) (Z.to_nat n)) as H.
  rewrite Z2Nat.id, Nat.sub_diag in H by done. simpl in H. rewrite upd_mem_of in H.
  eapply wp_conseq; [by apply H; [|lia]|]. intros [] s' ->. by apply wp_ret.
Qed.

(** ** Comparing *)

(** The sign [memcmp] returns: that of the last position where the two differ. *)
Fixpoint last_diff (xs ys : list Z) : Z :=
  match xs, ys with
  | x :: xs', y :: ys' =>
      if negb (last_diff xs' ys' =? 0) then last_diff xs' ys'
      else if x =? y then 0 else if x <? y then -1 else 1
  | _, _ => 0
  end.

Lemma last_diff_eq xs ys : length xs = length ys -> last_diff xs ys = 0 <-> xs = ys.
Proof.
  revert ys. induction xs as [|x xs IH]; intros [|y ys] Hl; simplify_eq/=; [done|].
  specialize (IH ys ltac:(lia)). destruct (Z.eqb_spec (last_diff xs ys) 0) as [H0|H0]; simpl.
  - apply IH in H0 as ->. repeat case_cmp; split; intros; simplify_eq; try done; lia.
  - split; [done|]. intros [= -> ->]. by destruct H0; apply IH.
Qed.

Lemma last_diff_snoc xs ys x y :
  length xs = length ys ->
  last_diff (xs ++ [x]) (ys ++ [y]) =
    if x =? y then last_diff xs ys else if x <? y then -1 else 1.
Proof.
  revert ys. induction xs as [|x0 xs IH]; intros [|y0 ys] Hl; simplify_eq/=; [done|].
  rewrite IH by lia. destruct (Z.eqb_spec x y); [done|by destruct (Z.ltb_spec x y)].
Qed.

Lemma cmp_down_spec n p1 p2 xs ys (s : St) (Q : Z -> St -> Prop) :
  read_bytes (mem_of s) p1 n = Some xs -> read_bytes (mem_of s) p2 n = Some ys ->
  Q (last_diff xs ys) s -> wp (cmp_down n p1 p2) Q s.
Proof.
  revert xs ys. induction n as [|n IH]; intros xs ys Hx Hy HQ.
  { apply read_bytes_length in Hx, Hy. by destruct xs, ys. }
  apply read_bytes_spec in Hx as [Hlx Hx], Hy as [Hly Hy].
  destruct (lookup_lt_is_Some_2 xs n) as [x Hxn]; [lia|].
  destruct (lookup_lt_is_Some_2 ys n) as [y Hyn]; [lia|].
  rewrite <- (take_drop n xs), (drop_S _ _ _ Hxn), drop_ge in HQ by lia.
  rewrite <- (take_drop n ys), (drop_S _ _ _ Hyn), drop_ge in HQ by lia.
  rewrite last_diff_snoc in HQ by (rewrite !length_take; lia).
  simpl. apply wp_bind, (wp_load8 _ x); [by rewrite <- Hx by lia|].
  apply wp_bind, (wp_load8 _ y); [by rewrite <- Hy by lia|].
  destruct (Z.eqb_spec x y); simpl; [|by apply wp_ret].
  apply (IH (take n xs) (take n ys)); [| |done]; apply read_bytes_spec;
    (split; [rewrite length_take; lia|]); intros i Hi;
    rewrite lookup_take_lt by done; (apply Hx || apply Hy); lia.
Qed.

Lemma wp_memcmp p1 p2 n xs ys (s : St) (Q : Z -> St -> Prop) :
  read_bytes (mem_of s) p1 (Z.to_nat n) = Some xs ->
  read_bytes (mem_of s) p2 (Z.to_nat n) = Some ys ->
  Q (last_diff xs ys) s -> wp (memcmp p1 p2 n) Q s.
Proof. apply cmp_down_spec. Qed.
End mem.
