(* ===== verification/Pow2.v ===== *)
(** * Page rounding and powers of two

    [round_up_page] of kernel/paging.c, [prev_pow2] and [next_pow2] of
    kernel/page_alloc.c, with their arithmetic meaning and the inputs on which
    the 64-bit wrap-around makes them return 0. *)
From S2P Require Import Prelude.

Definition PAGE_SIZE : Z := 0x1000.
Definition ALLOC_ALIGN : Z := 16.

(** [x & ~(n - 1)] on [uintptr_t], for the power of two [n]. *)
Definition align_down (x n : Z) : Z := Z.land x (w64 (Z.lnot (n - 1))).

Definition round_up_page (x : Z) : Z := align_down (add64 x (PAGE_SIZE - 1)) PAGE_SIZE.

(** [for (s = 1; s < sizeof(s)*8; s <<= 1) x |= x >> s;]; the fuel of the two
    callers, 7, covers the six values of [s] and the failing test. *)
Fixpoint smear (fuel : nat) (s x : Z) : Z :=
  match fuel with
  | O => x
  | S k => if s <? 64 then smear k (Z.shiftl s 1) (Z.lor x (Z.shiftr x s)) else x
  end.

Definition prev_pow2 (x : Z) : Z :=
  if x =? 0 then 0
  else let x := smear 7 1 x in sub64 x (Z.shiftr x 1).

Definition next_pow2 (x : Z) : Z :=
  if x =? 0 then 0
  else let x := smear 7 1 (sub64 x 1) in add64 x 1.

(** ** Masks *)

Lemma land_w64_r x y : 0 <= x < 2 ^ 64 -> Z.land x (w64 y) = Z.land x y.
Proof.
  intros Hx. unfold w64. rewrite <- Z.land_ones by lia.
  rewrite (Z.land_comm y), Z.land_assoc, Z.land_ones by lia.
  by rewrite Z.mod_small.
Qed.

Lemma align_down_spec x k :
  0 <= k -> 0 <= x < 2 ^ 64 -> align_down x (2 ^ k) = 2 ^ k * (x / 2 ^ k).
Proof.
  intros Hk Hx. unfold align_down. rewrite land_w64_r by done.
  replace (2 ^ k - 1) with (Z.ones k) by (rewrite Z.ones_equiv; lia).
  rewrite <- Z.ldiff_land, Z.ldiff_ones_r by done.
  rewrite Z.shiftl_mul_pow2, Z.shiftr_div_pow2 by done. lia.
Qed.

Lemma align_down_page x : 0 <= x < 2 ^ 64 -> align_down x PAGE_SIZE = 4096 * (x / 4096).
Proof. apply (align_down_spec x 12). lia. Qed.

Lemma round_up_page_eq x :
  0 <= x <= 2 ^ 64 - 4096 -> round_up_page x = 4096 * ((x + 4095) / 4096).
Proof.
  intros Hx. unfold round_up_page, PAGE_SIZE at 1. rewrite add64_small by lia.
  apply align_down_page. lia.
Qed.

Lemma round_up_page_bounds x :
  0 <= x <= 2 ^ 64 - 4096 ->
  x <= round_up_page x < x + 4096 /\ (4096 | round_up_page x).
Proof.
  intros Hx. rewrite round_up_page_eq by done. split; [divlia|]. apply Z.divide_factor_l.
Qed.

(** ** Smearing the top bit *)

(** Bit [i] of [x] tells whether one of the bits [i .. i + n - 1] of [x0] is set. *)
Definition smeared (n x0 x : Z) : Prop :=
  forall i, 0 <= i ->
    Z.testbit x i = true <-> exists d, 0 <= d < n /\ Z.testbit x0 (i + d) = true.

Lemma smeared_start x : smeared 1 x x.
Proof.
  intros i Hi. split.
  - intros H. exists 0. by rewrite Z.add_0_r.
  - intros (d & Hd & H). by replace (i + d) with i in H by lia.
Qed.

Lemma smeared_step n x0 x :
  0 < n -> smeared n x0 x -> smeared (2 * n) x0 (Z.lor x (Z.shiftr x n)).
Proof.
  intros Hn H i Hi. rewrite Z.lor_spec, Z.shiftr_spec, orb_true_iff by lia.
  rewrite (H i), (H (i + n)) by lia. split.
  - intros [(d & Hd & Hb)|(d & Hd & Hb)]; [exists d|exists (n + d)]; (split; [lia|]); [done|].
    by rewrite Z.add_assoc.
  - intros (d & Hd & Hb). destruct (decide (d < n)); [left; exists d; split; [lia|done]|].
    right. exists (d - n). split; [lia|]. by replace (i + n + (d - n)) with (i + d) by lia.
Qed.

Lemma smear_once k s x0 :
  0 < s < 64 ->
  (forall y, smeared (2 * s) x0 y -> smeared 64 x0 (smear k (2 * s) y)) ->
  forall x, smeared s x0 x -> smeared 64 x0 (smear (S k) s x).
Proof.
  intros Hs Hk x Hx. cbn [smear]. destruct (Z.ltb_spec s 64); [|lia].
  rewrite Z.shiftl_mul_pow2, Z.mul_comm by lia. apply Hk, smeared_step; [lia|done].
Qed.

Lemma smear_smeared x : smeared 64 x (smear 7 1 x).
Proof.
  generalize (smeared_start x). generalize x at 2 4.
  do 6 (apply smear_once; [lia|]). intros y Hy. exact Hy.
Qed.

Lemma smear_ones x : 0 < x < 2 ^ 64 -> smear 7 1 x = Z.ones (Z.log2 x + 1).
Proof.
  intros Hx. pose proof (Z.log2_nonneg x). pose proof (Z.log2_spec x ltac:(lia)) as Hlog.
  assert (Z.log2 x < 64) by (apply Z.log2_lt_pow2; lia).
  apply Z.bits_inj'. intros i Hi.
  rewrite Z.testbit_ones_nonneg by lia.
  apply eq_bool_prop_intro. rewrite !Is_true_true, (smear_smeared x i Hi), Z.ltb_lt.
  split.
  - intros (d & Hd & Hb). destruct (decide (i < Z.log2 x + 1)); [done|].
    rewrite Z.bits_above_log2 in Hb; [done|lia|lia].
  - intros Hlt. exists (Z.log2 x - i). split; [lia|].
    replace (i + (Z.log2 x - i)) with (Z.log2 x) by lia. apply Z.bit_log2. lia.
Qed.

Lemma prev_pow2_log2 x : 0 < x < 2 ^ 64 -> prev_pow2 x = 2 ^ Z.log2 x.
Proof.
  intros Hx. unfold prev_pow2. destruct (Z.eqb_spec x 0); [lia|].
  rewrite smear_ones by done. pose proof (Z.log2_nonneg x).
  assert (Z.log2 x < 64) by (apply Z.log2_lt_pow2; lia).
  rewrite Z.shiftr_div_pow2, Z.ones_div_pow2 by lia.
  rewrite !Z.ones_equiv, Z.add_simpl_r, Z.pow_add_r by lia.
  assert (2 ^ Z.log2 x <= 2 ^ 63) by (apply Z.pow_le_mono_r; lia).
  unfold sub64. rewrite w64_small by lia. lia.
Qed.

Lemma next_pow2_log2_up x :
  0 < x < 2 ^ 64 -> next_pow2 x = w64 (2 ^ Z.log2_up x).
Proof.
  intros Hx. unfold next_pow2. destruct (Z.eqb_spec x 0); [lia|].
  rewrite sub64_small by lia. destruct (decide (x = 1)) as [->|Hne]; [done|].
  rewrite smear_ones by lia. rewrite Z.log2_up_eqn by lia.
  rewrite Z.ones_equiv. unfold add64. f_equal.
  replace (Z.pred x) with (x - 1) by lia. rewrite <- Z.add_1_r. lia.
Qed.

(** [next_pow2] is the least power of two not below its argument when that power
    fits in 64 bits. *)
Lemma next_pow2_small x :
  0 < x <= 2 ^ 63 ->
  next_pow2 x = 2 ^ Z.log2_up x /\ x <= 2 ^ Z.log2_up x < 2 * x.
Proof.
  intros Hx. rewrite next_pow2_log2_up by lia.
  assert (Z.log2_up x <= 63) by (apply (Z.log2_up_le_pow2 x 63); lia).
  assert (2 ^ Z.log2_up x <= 2 ^ 63) by (apply Z.pow_le_mono_r; lia).
  pose proof (Z.pow_nonneg 2 (Z.log2_up x)).
  rewrite w64_small by lia. split; [done|].
  destruct (decide (x = 1)) as [->|Hne]; [by vm_compute|].
  pose proof (Z.log2_up_spec x ltac:(lia)) as [Hlo Hhi].
  pose proof (Z.log2_up_pos x ltac:(lia)).
  replace (Z.log2_up x) with (Z.succ (Z.pred (Z.log2_up x))) by lia.
  rewrite Z.pow_succ_r in * by lia.
  replace (Z.succ (Z.pred (Z.log2_up x))) with (Z.log2_up x) in Hhi by lia.
  split; [|lia].
  rewrite <- (Z.succ_pred (Z.log2_up x)), Z.pow_succ_r in Hhi by lia. lia.
Qed.

Lemma next_pow2_overflow x : 2 ^ 63 < x < 2 ^ 64 -> next_pow2 x = 0.
Proof.
  intros Hx. rewrite next_pow2_log2_up by lia.
  assert (Z.log2_up x <= 64) by (apply (Z.log2_up_le_pow2 x 64); lia).
  assert (63 < Z.log2_up x) by (apply Z.log2_up_lt_pow2; lia).
  by replace (Z.log2_up x) with 64 by lia.
Qed.
