(* ===== verification/Rand.v ===== *)
(** * kernel/rand.c and kernel/arch/x86_64/rand.c: random numbers

    [srand_insecure] (xorshift star, the heap's canaries), the ChaCha20 block
    function and the generator [csprng] built on it.  The hardware sources of
    entropy, the [rdseed] instruction and the HPET counter, are parameters. *)
From S2P Require Import Prelude.
From Stdlib Require Import Zpow_facts.

(** ** xorshift star *)

Definition XORSHIFT_MUL : Z := 0x2545F4914F6CDD1D.

Definition srand_insecure (x : Z) : Z :=
  let x := Z.lxor x (Z.shiftr x 12) in
  let x := Z.lxor x (w64 (Z.shiftl x 25)) in
  let x := Z.lxor x (Z.shiftr x 27) in
  mul64 x XORSHIFT_MUL.

(** ** ChaCha20 *)

Definition rotl (a b : Z) : Z := Z.lor (w32 (Z.shiftl a b)) (Z.shiftr a (32 - b)).

(** [x[i]] of an array of 32-bit words; the indices the code uses are constants. *)
Definition word (x : list Z) (i : nat) : Z := nth i x 0.

(** [x[a] += x[b]; x[d] ^= x[a]; x[d] = rotl(x[d], n)] *)
Definition mix (x : list Z) (a b d : nat) (n : Z) : list Z :=
  let x := <[a := add32 (word x a) (word x b)]> x in
  let x := <[d := Z.lxor (word x d) (word x a)]> x in
  <[d := rotl (word x d) n]> x.

Definition qround (x : list Z) (a b c d : nat) : list Z :=
  let x := mix x a b d 16 in
  let x := mix x c d b 12 in
  let x := mix x a b d 8 in
  mix x c d b 7.

Definition double_round (x : list Z) : list Z :=
  let x := qround x 0 4 8 12 in
  let x := qround x 1 5 9 13 in
  let x := qround x 2 6 10 14 in
  let x := qround x 3 7 11 15 in
  let x := qround x 0 5 10 15 in
  let x := qround x 1 6 11 12 in
  let x := qround x 2 7 8 13 in
  qround x 3 4 9 14.

Definition chacha20 (input : list Z) : list Z :=
  let x := Nat.iter 10 double_round input in
  zip_with add32 x input.

(** ** The generator *)

(** [static uint32_t state[16]], before [init_csprng]. *)
Definition csprng_state0 : list Z :=
  [0x61707865; 0x3320646e; 0x79622d32; 0x6b206574] ++ replicate 12 0.

Definition csprng_out (state : list Z) : Z :=
  let out := chacha20 state in
  Z.lor (Z.shiftl (word out 0) 32) (word out 1).

(** Result and new [state]. *)
Definition csprng (state : list Z) : Z * list Z :=
  (csprng_out state, <[12%nat := add32 (word state 12) 1]> state).

Section entropy.
Context {S : Type} (rdseed read_hpet : M S Z).

Definition rand64 (has_rdseed : bool) : M S Z :=
  if has_rdseed then rdseed else read_hpet.

(** [for (i = 0; i < 4; ++i) ((uint64_t * )state)[i] = rand64();] *)
Fixpoint seed_pairs (has : bool) (n i : nat) (state : list Z) : M S (list Z) :=
  match n with
  | O => mret state
  | Datatypes.S k =>
      r ← rand64 has;
      seed_pairs has k (Datatypes.S i)
        (<[(2 * i + 1)%nat := w32 (Z.shiftr r 32)]> (<[(2 * i)%nat := w32 r]> state))
  end.

(** [for (i = 0; i < 3; ++i) state[i + 13] = rand64();] *)
Fixpoint seed_words (has : bool) (n i : nat) (state : list Z) : M S (list Z) :=
  match n with
  | O => mret state
  | Datatypes.S k =>
      r ← rand64 has;
      seed_words has k (Datatypes.S i) (<[(i + 13)%nat := w32 r]> state)
  end.

Definition init_csprng (has : bool) (state : list Z) : M S (list Z) :=
  state ← seed_pairs has 4 0 state;
  seed_words has 3 0 state.
End entropy.

(** ** xorshift star is a bijection of the 64-bit words *)

Lemma lxor_mod x y k : 0 <= k -> Z.lxor x y mod 2 ^ k = Z.lxor (x mod 2 ^ k) (y mod 2 ^ k).
Proof.
  intros Hk. rewrite <- !Z.land_ones by done. apply Z.bits_inj'. intros i Hi.
  rewrite !Z.lxor_spec, !Z.land_spec, Z.lxor_spec.
  by destruct (Z.testbit x i), (Z.testbit y i), (Z.testbit (Z.ones k) i).
Qed.

Lemma lxor_range x y k : 0 <= k -> 0 <= x < 2 ^ k -> 0 <= y < 2 ^ k -> 0 <= Z.lxor x y < 2 ^ k.
Proof.
  intros Hk Hx Hy. rewrite <- (Z.mod_small x (2 ^ k)), <- (Z.mod_small y (2 ^ k)) by done.
  rewrite <- lxor_mod by done. apply Z.mod_pos_bound. lia.
Qed.

Lemma xorshr_inj k x y :
  0 < k -> 0 <= x < 2 ^ 64 -> 0 <= y < 2 ^ 64 ->
  Z.lxor x (Z.shiftr x k) = Z.lxor y (Z.shiftr y k) -> x = y.
Proof.
  intros Hk Hx Hy H. set (d := Z.lxor x y).
  assert (Hd : d = Z.shiftr d k).
  { unfold d. rewrite Z.shiftr_lxor. apply Z.bits_inj'. intros i Hi.
    apply (f_equal (fun z => Z.testbit z i)) in H. rewrite !Z.lxor_spec in *.
    by destruct (Z.testbit x i), (Z.testbit y i), (Z.testbit (Z.shiftr x k) i), (Z.testbit (Z.shiftr y k) i). }
  pose proof (lxor_range x y 64 ltac:(lia) Hx Hy) as Hr. fold d in Hr.
  assert (d = 0) as H0.
  { rewrite Z.shiftr_div_pow2 in Hd by lia.
    destruct (decide (d = 0)); [done|].
    assert (d / 2 ^ k < d); [|lia]. apply Z.div_lt; [lia|].
    by apply Z.pow_gt_1. }
  by apply Z.lxor_eq.
Qed.

Lemma odd_mul_w64 c d :
  Z.odd c = true -> 0 <= d < 2 ^ 64 -> w64 (c * d) = 0 -> d = 0.
Proof.
  intros Hc Hd H. apply Z.mod_divide in H; [|lia].
  apply Gauss in H.
  - destruct (decide (d = 0)); [done|]. apply Z.divide_pos_le in H; lia.
  - apply rel_prime_sym, rel_prime_Zpower_r; [lia|].
    apply rel_prime_sym, prime_rel_prime; [apply prime_2|].
    intros [q ->]. by rewrite Z.odd_mul, andb_false_r in Hc.
Qed.

Lemma xorshl_inj k x y :
  0 < k < 64 -> 0 <= x < 2 ^ 64 -> 0 <= y < 2 ^ 64 ->
  Z.lxor x (w64 (Z.shiftl x k)) = Z.lxor y (w64 (Z.shiftl y k)) -> x = y.
Proof.
  intros Hk Hx Hy H. set (d := Z.lxor x y).
  assert (Hd : d = w64 (Z.shiftl d k)).
  { unfold d. unfold w64. rewrite Z.shiftl_lxor, lxor_mod by lia.
    fold (w64 (Z.shiftl x k)) (w64 (Z.shiftl y k)). apply Z.bits_inj'. intros i Hi.
    apply (f_equal (fun z => Z.testbit z i)) in H. rewrite !Z.lxor_spec in *.
    by destruct (Z.testbit x i), (Z.testbit y i), (Z.testbit (w64 (Z.shiftl x k)) i),
      (Z.testbit (w64 (Z.shiftl y k)) i). }
  pose proof (lxor_range x y 64 ltac:(lia) Hx Hy) as Hr. fold d in Hr.
  assert (d = 0) as H0; [|by apply Z.lxor_eq].
  rewrite Z.shiftl_mul_pow2 in Hd by lia.
  apply (odd_mul_w64 (2 ^ k - 1)); [|done|].
  - replace k with (Z.succ (k - 1)) by lia. rewrite Z.pow_succ_r by lia.
    by rewrite Z.odd_sub, Z.odd_mul.
  - replace ((2 ^ k - 1) * d) with (d * 2 ^ k - d) by lia.
    unfold w64 in *. rewrite Zminus_mod, <- Hd, (Z.mod_small d) by lia. by rewrite Z.sub_diag.
Qed.

Lemma mul64_inj c x y :
  Z.odd c = true -> 0 <= x < 2 ^ 64 -> 0 <= y < 2 ^ 64 -> mul64 x c = mul64 y c -> x = y.
Proof.
  intros Hc Hx Hy H.
  assert (Hle : forall x y, 0 <= x < 2 ^ 64 -> 0 <= y < 2 ^ 64 -> y <= x -> mul64 x c = mul64 y c -> x = y).
  { clear x y Hx Hy H. intros x y Hx Hy Hlt H. enough (x - y = 0) by lia.
    apply (odd_mul_w64 c); [done|lia|]. unfold mul64, w64 in *.
    replace (c * (x - y)) with (x * c - y * c) by lia.
    by rewrite Zminus_mod, H, Z.sub_diag. }
  destruct (decide (y <= x)); [by apply Hle|]. symmetry. apply Hle; [done|done|lia|done].
Qed.

Lemma shiftr_range x k : 0 <= k -> 0 <= x < 2 ^ 64 -> 0 <= Z.shiftr x k < 2 ^ 64.
Proof.
  intros Hk Hx. rewrite Z.shiftr_div_pow2 by done. pose proof (Z.pow_pos_nonneg 2 k).
  split; [apply Z.div_pos; lia|]. apply Z.div_lt_upper_bound; nia.
Qed.

(** The canaries of distinct block headers are distinct: xorshift star is
    injective on 64-bit words. *)
Theorem srand_insecure_inj x y :
  u64 x -> u64 y -> srand_insecure x = srand_insecure y -> x = y.
Proof.
  unfold u64, srand_insecure. intros Hx Hy H.
  assert (Hr : forall z k, 0 <= k -> 0 <= z < 2 ^ 64 -> 0 <= Z.lxor z (Z.shiftr z k) < 2 ^ 64).
  { intros. apply lxor_range; [lia|done|]. by apply shiftr_range. }
  assert (Hl : forall z, 0 <= z < 2 ^ 64 -> 0 <= Z.lxor z (w64 (Z.shiftl z 25)) < 2 ^ 64).
  { intros. apply lxor_range; [lia|done|]. apply w64_range. }
  assert (Hr12 := Hr x 12 ltac:(lia) Hx). assert (Hs12 := Hr y 12 ltac:(lia) Hy).
  apply mul64_inj in H; [|done|apply Hr, Hl; [lia|done]|apply Hr, Hl; [lia|done]].
  apply xorshr_inj in H; [|lia|by apply Hl|by apply Hl].
  apply xorshl_inj in H; [|lia|done|done].
  apply xorshr_inj in H; [done|lia|done|done].
Qed.

Lemma srand_insecure_inj_witness : 5 = 5.
Proof. apply (srand_insecure_inj 5 5); [by unfold u64|by unfold u64|reflexivity]. Defined.

(** ** ChaCha20 is the published function *)

(** The state of the example of RFC 8439, section 2.3.2, and its block. *)
Definition rfc8439_state : list Z :=
  [0x61707865; 0x3320646e; 0x79622d32; 0x6b206574;
   0x03020100; 0x07060504; 0x0b0a0908; 0x0f0e0d0c;
   0x13121110; 0x17161514; 0x1b1a1918; 0x1f1e1d1c;
   0x00000001; 0x09000000; 0x4a000000; 0x00000000].

Definition rfc8439_block : list Z :=
  [0xe4e7f110; 0x15593bd1; 0x1fdd0f50; 0xc47120a3;
   0xc7f4d1c7; 0x0368c033; 0x9aaa2204; 0x4e6cd4c3;
   0x466482d2; 0x09aa9f07; 0x05d7c214; 0xa2028bd9;
   0xd19c12b5; 0xb94e16de; 0xe883d0cb; 0x4e3c50a2].

(** [chacha20] computes the block RFC 8439 gives for its example state. *)
Theorem chacha20_rfc8439 : chacha20 rfc8439_state = rfc8439_block.
Proof. vm_compute. reflexivity. Qed.

(** ** The stream of [csprng] *)

(** The state after [n] calls. *)
Fixpoint csprng_after (n : nat) (state : list Z) : list Z :=
  match n with
  | O => state
  | S k => snd (csprng (csprng_after k state))
  end.

Lemma word_insert x i v : (i < length x)%nat -> word (<[i := v]> x) i = v.
Proof. intros H. unfold word. apply nth_lookup_Some, list_lookup_insert_eq. done. Qed.

Lemma csprng_after_eq n state :
  length state = 16%nat -> u32 (word state 12) ->
  csprng_after n state = <[12%nat := w32 (word state 12 + Z.of_nat n)]> state.
Proof.
  unfold u32. intros Hl Hw. induction n as [|n IH]; cbn [csprng_after].
  - rewrite w32_small by lia. rewrite Z.add_0_r, list_insert_id; [done|].
    destruct (nth_lookup_or_length state 12 0) as [H|H]; [done|lia].
  - rewrite IH. unfold csprng. cbn [snd].
    rewrite list_insert_insert_eq, word_insert by lia. f_equal. unfold add32, w32.
    rewrite Zplus_mod_idemp_l. f_equal. lia.
Qed.

(** ** Seeding *)

(** A source of entropy that delivers the words of a list. *)
Definition next_entropy : M (list Z) Z := fun l =>
  match l with
  | [] => Stop Panic
  | x :: l' => Done x l'
  end.

(** [init_csprng] starts at word 0: it replaces the four constants of ChaCha20
    and the first half of the key, leaves the second half of the key zero, and sets
    the nonce. *)
Theorem init_csprng_overwrites_constants has e0 e1 e2 e3 e4 e5 e6 :
  init_csprng next_entropy next_entropy has csprng_state0 [e0; e1; e2; e3; e4; e5; e6] =
  Done [w32 e0; w32 (Z.shiftr e0 32); w32 e1; w32 (Z.shiftr e1 32);
        w32 e2; w32 (Z.shiftr e2 32); w32 e3; w32 (Z.shiftr e3 32);
        0; 0; 0; 0; 0; w32 e4; w32 e5; w32 e6] [].
Proof. by destruct has. Qed.
