(* ===== verification/ChaCha.v ===== *)
(** * ChaCha20 against RFC 8439

    [chacha20] of kernel/rand.c works on sixteen words, four at a time.  The reference is
    the state as a matrix of four rows: additions, exclusive ors and rotations act on
    whole rows, and a diagonal round is a column round on rows shifted against each
    other.  The generator [csprng] is compared with the reference's blocks for successive
    counters. *)
From S2P Require Import Prelude Rand.

(** ** The reference *)

Definition row : Type := Z * Z * Z * Z.
Definition matrix : Type := row * row * row * row.

Definition on_row (f : Z -> Z) (r : row) : row := let '(a, b, c, d) := r in (f a, f b, f c, f d).
Definition on_rows (f : Z -> Z -> Z) (r s : row) : row :=
  let '(a, b, c, d) := r in let '(a', b', c', d') := s in (f a a', f b b', f c c', f d d').

(** The operations on 32-bit words: addition modulo [2 ^ 32], and the rotation as
    arithmetic. *)
Definition word_add (x y : Z) : Z := (x + y) mod 2 ^ 32.
Definition word_rol (n x : Z) : Z := (x * 2 ^ n) mod 2 ^ 32 + x / 2 ^ (32 - n).

Section rounds.
Context (rol : Z -> Z -> Z).

(** The quarter round on the four columns at once. *)
Definition rows_quarter (m : matrix) : matrix :=
  let '(a, b, c, d) := m in
  let a := on_rows word_add a b in let d := on_row (rol 16) (on_rows Z.lxor d a) in
  let c := on_rows word_add c d in let b := on_row (rol 12) (on_rows Z.lxor b c) in
  let a := on_rows word_add a b in let d := on_row (rol 8) (on_rows Z.lxor d a) in
  let c := on_rows word_add c d in let b := on_row (rol 7) (on_rows Z.lxor b c) in
  (a, b, c, d).

(** A row one place to the left. *)
Definition turn (r : row) : row := let '(a, b, c, d) := r in (b, c, d, a).

Definition to_columns (m : matrix) : matrix :=
  let '(a, b, c, d) := m in (a, turn b, turn (turn c), turn (turn (turn d))).
Definition from_columns (m : matrix) : matrix :=
  let '(a, b, c, d) := m in (a, turn (turn (turn b)), turn (turn c), turn d).

Definition two_rounds (m : matrix) : matrix := from_columns (rows_quarter (to_columns (rows_quarter m))).

Definition block_with (m : matrix) : matrix :=
  let '(a, b, c, d) := Nat.iter 10 two_rounds m in
  let '(a', b', c', d') := m in
  (on_rows word_add a a', on_rows word_add b b', on_rows word_add c c', on_rows word_add d d').
End rounds.

Definition chacha20_block : matrix -> matrix := block_with word_rol.

Definition row_words (r : row) : list Z := let '(a, b, c, d) := r in [a; b; c; d].
Definition words (m : matrix) : list Z := let '(a, b, c, d) := m in row_words a ++ row_words b ++ row_words c ++ row_words d.

(** ** The rotations agree on words *)

Lemma testbit_above h n i : 0 <= h < 2 ^ n -> 0 <= n <= i -> Z.testbit h i = false.
Proof.
  intros Hh Hn. apply Z.testbit_false; [lia|]. assert (2 ^ n <= 2 ^ i) by (apply Z.pow_le_mono_r; lia).
  by rewrite Z.div_small by lia.
Qed.

(** The two parts of a rotated word. *)
Lemma rol_parts x n : u32 x -> 0 < n < 32 ->
  (x * 2 ^ n) mod 2 ^ 32 = x mod 2 ^ (32 - n) * 2 ^ n /\ 0 <= x / 2 ^ (32 - n) < 2 ^ n.
Proof.
  intros [Hx Hx'] Hn. assert (E : 2 ^ 32 = 2 ^ (32 - n) * 2 ^ n) by (rewrite <- Z.pow_add_r by lia; f_equal; lia). split.
  - rewrite E. apply Z.mul_mod_distr_r; apply Z.pow_nonzero; lia.
  - split; [apply Z.div_pos; [done|apply Z.pow_pos_nonneg; lia]|]. apply Z.div_lt_upper_bound; [apply Z.pow_pos_nonneg; lia|]. by rewrite <- E.
Qed.

Lemma rotl_word_rol x n : u32 x -> 0 < n < 32 -> rotl x n = word_rol n x.
Proof.
  intros Hx Hn. destruct (rol_parts x n Hx Hn) as [E Hh]. unfold rotl, word_rol, w32.
  rewrite Z.shiftl_mul_pow2, Z.shiftr_div_pow2, E by lia. set (h := x / 2 ^ (32 - n)) in *.
  rewrite <- Z.shiftl_mul_pow2 by lia. rewrite <- Z.lxor_lor, <- Z.add_nocarry_lxor; [done| |];
    apply Z.bits_inj'; intros i Hi; rewrite Z.land_spec, Z.bits_0; (destruct (decide (i < n)); [by rewrite Z.shiftl_spec_low|]);
    by rewrite (testbit_above h n i), andb_false_r by lia.
Qed.

Definition row_u32 (r : row) : Prop := let '(a, b, c, d) := r in u32 a /\ u32 b /\ u32 c /\ u32 d.
Definition matrix_u32 (m : matrix) : Prop := let '(a, b, c, d) := m in row_u32 a /\ row_u32 b /\ row_u32 c /\ row_u32 d.

Lemma word_add_u32 x y : u32 (word_add x y).
Proof. apply Z.mod_pos_bound. lia. Qed.

Lemma rotl_u32 x n : u32 x -> 0 < n < 32 -> u32 (rotl x n).
Proof.
  intros Hx Hn. destruct (rol_parts x n Hx Hn) as [E Hh]. rewrite rotl_word_rol by done. unfold word_rol, u32. rewrite E.
  pose proof (Z.mod_pos_bound x (2 ^ (32 - n)) ltac:(apply Z.pow_pos_nonneg; lia)) as Hm.
  assert (E2 : 2 ^ 32 = 2 ^ (32 - n) * 2 ^ n) by (rewrite <- Z.pow_add_r by lia; f_equal; lia). nia.
Qed.

Lemma add_rows_u32 r s : row_u32 (on_rows word_add r s).
Proof. destruct r as [[[? ?] ?] ?], s as [[[? ?] ?] ?]. split_and!; apply word_add_u32. Qed.

Lemma xor_rows_u32 r s : row_u32 r -> row_u32 s -> row_u32 (on_rows Z.lxor r s).
Proof.
  destruct r as [[[? ?] ?] ?], s as [[[? ?] ?] ?]. intros (? & ? & ? & ?) (? & ? & ? & ?). split_and!; apply lxor_range; done.
Qed.

Lemma rot_row n r : row_u32 r -> 0 < n < 32 -> on_row (fun x => rotl x n) r = on_row (word_rol n) r /\ row_u32 (on_row (word_rol n) r).
Proof.
  destruct r as [[[? ?] ?] ?]. intros (? & ? & ? & ?) Hn. simpl. rewrite <- !rotl_word_rol by done. split; [done|]. split_and!; by apply rotl_u32.
Qed.

Lemma rows_quarter_rotl m : matrix_u32 m -> rows_quarter (fun n x => rotl x n) m = rows_quarter word_rol m /\ matrix_u32 (rows_quarter word_rol m).
Proof.
  destruct m as [[[a b] c] d]. intros (Ha & Hb & Hc & Hd). unfold rows_quarter.
  assert (H1 := add_rows_u32 a b). set (a1 := on_rows word_add a b) in *.
  destruct (rot_row 16 _ (xor_rows_u32 d a1 Hd H1) ltac:(lia)) as [-> H2]. set (d1 := on_row _ (on_rows Z.lxor d a1)) in *.
  assert (H3 := add_rows_u32 c d1). set (c1 := on_rows word_add c d1) in *.
  destruct (rot_row 12 _ (xor_rows_u32 b c1 Hb H3) ltac:(lia)) as [-> H4]. set (b1 := on_row _ (on_rows Z.lxor b c1)) in *.
  assert (H5 := add_rows_u32 a1 b1). set (a2 := on_rows word_add a1 b1) in *.
  destruct (rot_row 8 _ (xor_rows_u32 d1 a2 H2 H5) ltac:(lia)) as [-> H6]. set (d2 := on_row _ (on_rows Z.lxor d1 a2)) in *.
  assert (H7 := add_rows_u32 c1 d2). set (c2 := on_rows word_add c1 d2) in *.
  destruct (rot_row 7 _ (xor_rows_u32 b1 c2 H4 H7) ltac:(lia)) as [-> H8]. done.
Qed.

Lemma turned_u32 m : matrix_u32 m -> matrix_u32 (to_columns m) /\ matrix_u32 (from_columns m).
Proof. destruct m as [[[[[[? ?] ?] ?] [[[? ?] ?] ?]] [[[? ?] ?] ?]] [[[? ?] ?] ?]]. unfold matrix_u32, row_u32. simpl. tauto. Qed.

Lemma two_rounds_rotl m : matrix_u32 m ->
  two_rounds (fun n x => rotl x n) m = two_rounds word_rol m /\ matrix_u32 (two_rounds word_rol m).
Proof.
  intros Hm. unfold two_rounds. destruct (rows_quarter_rotl m Hm) as [-> H1].
  destruct (rows_quarter_rotl (to_columns (rows_quarter word_rol m))) as [-> H2]; [by apply turned_u32|].
  split; [done|]. by apply turned_u32.
Qed.

Lemma rounds_rotl k m : matrix_u32 m ->
  Nat.iter k (two_rounds (fun n x => rotl x n)) m = Nat.iter k (two_rounds word_rol) m /\ matrix_u32 (Nat.iter k (two_rounds word_rol) m).
Proof.
  intros Hm. induction k as [|k [IH IHm]]; [done|]. cbn [Nat.iter nat_rect] in *. unfold Nat.iter in *. simpl. rewrite IH. by apply two_rounds_rotl.
Qed.

(** ** The code works on the same matrix, word by word *)

(** The quarter round of the code on four words. *)
Definition quarter (a b c d : Z) : Z * Z * Z * Z :=
  let a := add32 a b in let d := rotl (Z.lxor d a) 16 in
  let c := add32 c d in let b := rotl (Z.lxor b c) 12 in
  let a := add32 a b in let d := rotl (Z.lxor d a) 8 in
  let c := add32 c d in let b := rotl (Z.lxor b c) 7 in
  (a, b, c, d).

(** The reference's quarter round is that of the four columns. *)
Lemma rows_quarter_columns a0 a1 a2 a3 b0 b1 b2 b3 c0 c1 c2 c3 d0 d1 d2 d3 :
  rows_quarter (fun n x => rotl x n) ((a0, a1, a2, a3), (b0, b1, b2, b3), (c0, c1, c2, c3), (d0, d1, d2, d3)) =
  let '(a0, b0, c0, d0) := quarter a0 b0 c0 d0 in let '(a1, b1, c1, d1) := quarter a1 b1 c1 d1 in
  let '(a2, b2, c2, d2) := quarter a2 b2 c2 d2 in let '(a3, b3, c3, d3) := quarter a3 b3 c3 d3 in
  ((a0, a1, a2, a3), (b0, b1, b2, b3), (c0, c1, c2, c3), (d0, d1, d2, d3)).
Proof. reflexivity. Qed.

(** One [qround] of the code. *)
Ltac quarter_step :=
  match goal with |- context [qround (?y :: ?t) ?i ?j ?k ?l] =>
    let x := constr:(y :: t) in
    let E := fresh in
    assert (E : qround x i j k l = let '(a, b, c, d) := quarter (word x i) (word x j) (word x k) (word x l) in
      <[l := d]> (<[k := c]> (<[j := b]> (<[i := a]> x)))) by (cbv [qround mix quarter word nth insert list_insert]; reflexivity);
    rewrite E; clear E; cbn [word nth];
    destruct (quarter _ _ _ _) as [[[? ?] ?] ?]; cbn [insert list_insert]
  end.

Lemma double_round_rows m : double_round (words m) = words (two_rounds (fun n x => rotl x n) m).
Proof.
  destruct m as [[[[[[a0 a1] a2] a3] [[[b0 b1] b2] b3]] [[[c0 c1] c2] c3]] [[[d0 d1] d2] d3]].
  unfold double_round, two_rounds. cbn [words row_words app]. rewrite rows_quarter_columns.
  do 4 quarter_step. cbn [to_columns turn].
  rewrite rows_quarter_columns. do 4 quarter_step. reflexivity.
Qed.

Lemma rounds_rows k m : Nat.iter k double_round (words m) = words (Nat.iter k (two_rounds (fun n x => rotl x n)) m).
Proof. induction k as [|k IH]; [done|]. unfold Nat.iter in *. simpl. rewrite IH. apply double_round_rows. Qed.

Lemma add_words a b : zip_with add32 (words a) (words b) =
  words (let '(a0, a1, a2, a3) := a in let '(b0, b1, b2, b3) := b in
         (on_rows word_add a0 b0, on_rows word_add a1 b1, on_rows word_add a2 b2, on_rows word_add a3 b3)).
Proof.
  destruct a as [[[[[[? ?] ?] ?] [[[? ?] ?] ?]] [[[? ?] ?] ?]] [[[? ?] ?] ?]], b as [[[[[[? ?] ?] ?] [[[? ?] ?] ?]] [[[? ?] ?] ?]] [[[? ?] ?] ?]].
  reflexivity.
Qed.

Lemma chacha20_words m : matrix_u32 m -> chacha20 (words m) = words (chacha20_block m).
Proof.
  intros Hm. unfold chacha20, chacha20_block, block_with. rewrite rounds_rows. destruct (rounds_rotl 10 m Hm) as [-> _]. rewrite add_words.
  by destruct (Nat.iter 10 (two_rounds word_rol) m) as [[[? ?] ?] ?], m as [[[? ?] ?] ?].
Qed.

(** C35. [chacha20] is the block function of RFC 8439: on every state of sixteen 32-bit
    words it gives the words of the reference, which works on the matrix of rows. *)
Theorem chacha20_is_block m : matrix_u32 m -> chacha20 (words m) = words (chacha20_block m).
Proof. apply chacha20_words. Qed.

(** The example of RFC 8439. *)
Lemma chacha20_is_block_witness :
  words (chacha20_block ((0x61707865, 0x3320646e, 0x79622d32, 0x6b206574),
    (0x03020100, 0x07060504, 0x0b0a0908, 0x0f0e0d0c), (0x13121110, 0x17161514, 0x1b1a1918, 0x1f1e1d1c),
    (0x00000001, 0x09000000, 0x4a000000, 0x00000000))) = rfc8439_block.
Proof. rewrite <- chacha20_is_block; [vm_compute; reflexivity|by vm_compute]. Defined.

(** ** The stream of [csprng] *)

(** The state with its counter, the first word of the last row, advanced by [n]. *)
Definition advance (n : Z) (m : matrix) : matrix :=
  let '(a, b, c, (d0, d1, d2, d3)) := m in (a, b, c, (word_add d0 n, d1, d2, d3)).

(** The number that the first two words of a block make, the first one above. *)
Definition leading (m : matrix) : Z := let '((o0, o1, _, _), _, _, _) := m in o0 * 2 ^ 32 + o1.

Lemma advance_u32 n m : matrix_u32 m -> matrix_u32 (advance n m).
Proof.
  destruct m as [[[a b] c] [[[d0 d1] d2] d3]]. intros (? & ? & ? & ? & ?). do 3 (split; [done|]). split; [apply word_add_u32|done].
Qed.

Lemma csprng_after_words n m : matrix_u32 m -> csprng_after n (words m) = words (advance (Z.of_nat n) m).
Proof.
  destruct m as [[[[[[a0 a1] a2] a3] [[[b0 b1] b2] b3]] [[[c0 c1] c2] c3]] [[[d0 d1] d2] d3]].
  intros (_ & _ & _ & Hd & _). by rewrite csprng_after_eq.
Qed.

Lemma csprng_out_leading m : matrix_u32 m -> csprng_out (words m) = leading (chacha20_block m).
Proof.
  intros Hm. unfold csprng_out. rewrite chacha20_words by done. unfold chacha20_block, block_with.
  destruct (Nat.iter 10 (two_rounds word_rol) m) as [[[r ?] ?] ?], m as [[[r' ?] ?] ?].
  pose proof (add_rows_u32 r r') as Hr. destruct (on_rows word_add r r') as [[[o0 o1] o2] o3]. destruct Hr as (_ & Ho & _).
  cbn [leading words row_words app word nth]. rewrite <- Z.shiftl_mul_pow2 by lia.
  rewrite <- Z.lxor_lor, <- Z.add_nocarry_lxor; [done| |]; apply Z.bits_inj'; intros i Hi; rewrite Z.land_spec, Z.bits_0;
    (destruct (decide (i < 32)); [by rewrite Z.shiftl_spec_low|]); by rewrite (testbit_above o1 32 i), andb_false_r by (done || lia).
Qed.

(** C34. The generator is ChaCha20 in counter mode: its [n]-th number is the first two
    words of the reference block of the seed with the 32-bit counter advanced by [n], the
    rest of the state staying as it is, and so the stream repeats after 2^32 numbers. *)
Theorem csprng_counter_mode n m : matrix_u32 m ->
  csprng (csprng_after n (words m)) = (leading (chacha20_block (advance (Z.of_nat n) m)), words (advance (Z.of_nat n + 1) m)) /\
  fst (csprng (csprng_after (n + 2 ^ 32) (words m))) = fst (csprng (csprng_after n (words m))).
Proof.
  intros Hm. rewrite !csprng_after_words by done. split.
  - rewrite (surjective_pairing (csprng _)). f_equal; [by apply csprng_out_leading, advance_u32|].
    rewrite <- csprng_after_words by done. change (snd (csprng (csprng_after n (words m)))) with (csprng_after (S n) (words m)).
    rewrite csprng_after_words by done. do 2 f_equal. lia.
  - do 3 f_equal. destruct m as [[[? ?] ?] [[[d0 ?] ?] ?]]. unfold advance. do 4 f_equal. unfold word_add.
    rewrite Nat2Z.inj_add, Nat2Z.inj_pow, Z.add_assoc. change (Z.of_nat 2 ^ Z.of_nat 32) with (1 * 2 ^ 32). by rewrite Z_mod_plus_full.
Qed.

(** From the state before that of the RFC's example: the second number is the beginning of
    the example's block. *)
Lemma csprng_counter_mode_witness :
  fst (csprng (csprng_after 1 (<[12%nat := 0]> rfc8439_state))) = 0xe4e7f11015593bd1.
Proof.
  destruct (csprng_counter_mode 1 ((0x61707865, 0x3320646e, 0x79622d32, 0x6b206574),
    (0x03020100, 0x07060504, 0x0b0a0908, 0x0f0e0d0c), (0x13121110, 0x17161514, 0x1b1a1918, 0x1f1e1d1c),
    (0x00000000, 0x09000000, 0x4a000000, 0x00000000))) as [E _]; [by vm_compute|].
  etrans; [exact (f_equal fst E)|]. vm_compute. reflexivity.
Defined.
