(* ===== verification/State.v ===== *)
(** * The kernel's state

    The byte-addressed kernel address space together with the C globals of the
    components that share it.  A component's globals are one record; the setters
    below are the assignments the code makes to them.  A lock is a boolean: the
    model runs one CPU, so spinning on a lock already taken never ends. *)
From S2P Require Import Prelude Memory.

(** kernel/page_alloc.c: [pools], [n_pools], [lock]. *)
Record page_alloc_globals := PageAllocGlobals {
  pools : Z;
  n_pools : Z;
  pa_lock : bool;
}.

(** kernel/kalloc.c: [states]; kernel/mp.c: [ncpus]; the current CPU's
    [struct cpu_data], reached through [get_cpu_data()]: [id], [proc_current]. *)
Record cpu_globals := CpuGlobals {
  states : Z;
  ncpus : Z;
  cpu_id : Z;
  proc_current : Z;
}.

(** kernel/sched.c: [sched_cpu_queues], [sched_ready]; kernel/proc.c: the address of
    the variable [procmap], [pid_cur], [pid_cur_lock]. *)
Record proc_globals := ProcGlobals {
  sched_cpu_queues : Z;
  sched_ready : bool;
  procmap : Z;
  pid_cur : Z;
  pid_cur_lock : bool;
}.

(** kernel/miniheap.c: [brk], [miniheap_lock] and the linker's [miniheap_end];
    kernel/arch/x86_64/paging.c: [end_pos], [end_pos_lock], [kern_resp], the
    addresses of [kpml4], [kspace] and [page_tmp].  [alias] is no variable of the code:
    it tells at which address the memory has a page frame. *)
Record paging_globals := PagingGlobals {
  brk : Z;
  miniheap_end : Z;
  miniheap_lock : bool;
  end_pos : Z;
  end_pos_lock : bool;
  virtual_base : Z;
  physical_base : Z;
  kpml4 : Z;
  kspace : Z;
  page_tmp : Z;
  alias : Z -> Z;
}.

(** What the code asks the hardware, and what it tells it. *)
Inductive cpu_reg : Set := EAX | EBX | ECX | EDX.

Inductive io_read : Set :=
  | Inb (port : Z) | Inw (port : Z) | Ind (port : Z)
  | Rdmsr (msr : Z) | Cpuid (code : Z) (r : cpu_reg)
  | Mmio32 (a : Z) | Mmio64 (a : Z)
  | Rdseed | Cr2.

Inductive io_event : Type :=
  | Read (r : io_read) (v : Z)
  | Outb (port v : Z) | Outw (port v : Z) | Outd (port v : Z)
  | Wrmsr (msr v : Z)
  | WMmio32 (a v : Z) | WMmio64 (a v : Z)
  | Invlpg (p : Z) | WCr3 (p : Z)
  | Lgdt (p : Z) | Lidt (limit base : Z) | Sti
  | ReturnUser
  | Printf (f : string) (args : list Z).

(** The hardware: [dv_env t r] is what the question [r] would be answered after [t]
    events, [dv_log] what has happened so far, latest first. *)
Record devices := Devices {
  dv_env : nat -> io_read -> Z;
  dv_log : list io_event;
}.

(** kernel/screen.c: [screen]; kernel/arch/x86_64/putc.c: [x], [y], [color];
    kernel/arch/x86_64/serial.c: [serial_ok]. *)
Record screen_globals := ScreenGlobals {
  scr_vaddr : Z;
  scr_paddr : Z;
  scr_width : Z;
  scr_height : Z;
  scr_pitch : Z;
  scr_bpp : Z;
  red_mask_shift : Z;
  green_mask_shift : Z;
  blue_mask_shift : Z;
  con_x : Z;
  con_y : Z;
  con_color : Z;
  serial_ok : bool;
}.

(** kernel/arch/x86_64/hpet.c: [hpet], [clk], [hpet_ready]; apic.c: [lapic_base],
    [ticks]; rand.c: [has_rdseed]; mp.c: [cpus_ready]. *)
Record timer_globals := TimerGlobals {
  hpet : Z;
  hpet_clk : Z;
  hpet_ready : bool;
  lapic_base : Z;
  lapic_ticks : Z;
  has_rdseed : bool;
}.

(** kernel/arch/x86_64/start.c: [high_addr], [xsdp], [acpi64]; kernel/acpi/acpi.c:
    [xsdt]; kernel/memmap.c: [memmap], [memmap_len]. *)
Record boot_globals := BootGlobals {
  high_addr : Z;
  xsdp_revision : Z;
  xsdp_rsdt : Z;
  xsdp_xsdt : Z;
  acpi64 : bool;
  xsdt : Z;
  memmap : Z;
  memmap_len : Z;
}.

Record kernel := Kernel {
  k_mem : gmap Z Z;
  k_pa : page_alloc_globals;
  k_cpu : cpu_globals;
  k_proc : proc_globals;
  k_pg : paging_globals;
  k_dev : devices;
  k_scr : screen_globals;
  k_tm : timer_globals;
  k_boot : boot_globals;
}.

Definition set_mem (m : gmap Z Z) (s : kernel) : kernel :=
  Kernel m (k_pa s) (k_cpu s) (k_proc s) (k_pg s) (k_dev s) (k_scr s) (k_tm s) (k_boot s).
Definition set_pa (g : page_alloc_globals) (s : kernel) : kernel :=
  Kernel (k_mem s) g (k_cpu s) (k_proc s) (k_pg s) (k_dev s) (k_scr s) (k_tm s) (k_boot s).
Definition set_cpu (g : cpu_globals) (s : kernel) : kernel :=
  Kernel (k_mem s) (k_pa s) g (k_proc s) (k_pg s) (k_dev s) (k_scr s) (k_tm s) (k_boot s).
Definition set_proc (g : proc_globals) (s : kernel) : kernel :=
  Kernel (k_mem s) (k_pa s) (k_cpu s) g (k_pg s) (k_dev s) (k_scr s) (k_tm s) (k_boot s).
Definition set_pg (g : paging_globals) (s : kernel) : kernel :=
  Kernel (k_mem s) (k_pa s) (k_cpu s) (k_proc s) g (k_dev s) (k_scr s) (k_tm s) (k_boot s).
Definition set_dev (g : devices) (s : kernel) : kernel :=
  Kernel (k_mem s) (k_pa s) (k_cpu s) (k_proc s) (k_pg s) g (k_scr s) (k_tm s) (k_boot s).
Definition set_scr (g : screen_globals) (s : kernel) : kernel :=
  Kernel (k_mem s) (k_pa s) (k_cpu s) (k_proc s) (k_pg s) (k_dev s) g (k_tm s) (k_boot s).
Definition set_tm (g : timer_globals) (s : kernel) : kernel :=
  Kernel (k_mem s) (k_pa s) (k_cpu s) (k_proc s) (k_pg s) (k_dev s) (k_scr s) g (k_boot s).
Definition set_boot (g : boot_globals) (s : kernel) : kernel :=
  Kernel (k_mem s) (k_pa s) (k_cpu s) (k_proc s) (k_pg s) (k_dev s) (k_scr s) (k_tm s) g.

#[export] Instance kernel_has_mem : HasMem kernel.
Proof. refine {| mem_of := k_mem; upd_mem := set_mem |}; by try intros []. Defined.

Lemma set_mem_same s : set_mem (k_mem s) s = s.
Proof. by destruct s. Qed.

Lemma set_mem_mem m m' s : set_mem m (set_mem m' s) = set_mem m s.
Proof. done. Qed.

Lemma kload64 (s : kernel) a v : read64 (k_mem s) a = Some v -> load64 a s = Done v s.
Proof. intros H. apply run_load64. exact H. Qed.

Lemma kstore8 (s : kernel) a v :
  is_Some (k_mem s !! a) -> store8 a v s = Done tt (set_mem (<[a := v]> (k_mem s)) s).
Proof. intros [b H]. unfold store8. change (mem_of s) with (k_mem s). rewrite H. reflexivity. Qed.

Lemma kstore64 (s : kernel) a v :
  mapped (k_mem s) a 8 -> store64 a v s = Done tt (set_mem (write64 (k_mem s) a v) s).
Proof.
  intros H. unfold store64. change (mem_of s) with (k_mem s).
  rewrite (proj2 (mappedb_spec (k_mem s) a 8)); [reflexivity|exact H].
Qed.

Definition set_pa_lock (b : bool) (s : kernel) : kernel :=
  set_pa (PageAllocGlobals (pools (k_pa s)) (n_pools (k_pa s)) b) s.

Definition set_pid_cur_lock (b : bool) (s : kernel) : kernel :=
  let g := k_proc s in
  set_proc (ProcGlobals (sched_cpu_queues g) (sched_ready g) (procmap g) (pid_cur g) b) s.

Definition set_brk (x : Z) (s : kernel) : kernel :=
  let g := k_pg s in
  set_pg (PagingGlobals x (miniheap_end g) (miniheap_lock g) (end_pos g) (end_pos_lock g)
    (virtual_base g) (physical_base g) (kpml4 g) (kspace g) (page_tmp g) (alias g)) s.

Definition set_miniheap_lock (b : bool) (s : kernel) : kernel :=
  let g := k_pg s in
  set_pg (PagingGlobals (brk g) (miniheap_end g) b (end_pos g) (end_pos_lock g)
    (virtual_base g) (physical_base g) (kpml4 g) (kspace g) (page_tmp g) (alias g)) s.

Definition set_end_pos (x : Z) (s : kernel) : kernel :=
  let g := k_pg s in
  set_pg (PagingGlobals (brk g) (miniheap_end g) (miniheap_lock g) x (end_pos_lock g)
    (virtual_base g) (physical_base g) (kpml4 g) (kspace g) (page_tmp g) (alias g)) s.

Definition set_end_pos_lock (b : bool) (s : kernel) : kernel :=
  let g := k_pg s in
  set_pg (PagingGlobals (brk g) (miniheap_end g) (miniheap_lock g) (end_pos g) b
    (virtual_base g) (physical_base g) (kpml4 g) (kspace g) (page_tmp g) (alias g)) s.

(** ** Talking to the hardware *)

Definition emit (e : io_event) : M kernel unit :=
  modify (fun s => set_dev (Devices (dv_env (k_dev s)) (e :: dv_log (k_dev s))) s).

(** An answer of the hardware is truncated to the width the instruction returns. *)
Definition ask (r : io_read) (width : Z) : M kernel Z :=
  v ← gets (fun s => dv_env (k_dev s) (length (dv_log (k_dev s))) r mod 2 ^ width);
  emit (Read r v) ;; mret v.

(** A string literal as characters. *)
Definition cstr (s : string) : list Z := (fun a => s8 (Z.of_N (Ascii.N_of_ascii a))) <$> String.list_ascii_of_string s.

(** The character '\n' in a format. *)
Definition nl : string := String (Ascii.ascii_of_nat 10) EmptyString.

Definition printf (f : string) (args : list Z) : M kernel unit := emit (Printf f args).

(** kernel/include/lock.h *)
Definition ACQUIRE (lk : kernel -> bool) (set : bool -> kernel -> kernel) : M kernel unit :=
  fun s => if lk s then Stop Deadlock else Done tt (set true s).

Definition RELEASE (set : bool -> kernel -> kernel) : M kernel unit := modify (set false).

Lemma wp_ACQUIRE lk set (Q : unit -> kernel -> Prop) s :
  lk s = false -> Q tt (set true s) -> wp (ACQUIRE lk set) Q s.
Proof. intros H HQ. unfold wp, ACQUIRE. by rewrite H. Qed.

Lemma wp_RELEASE set (Q : unit -> kernel -> Prop) s :
  Q tt (set false s) -> wp (RELEASE set) Q s.
Proof. done. Qed.

(** A lock that lives in memory ([lock_t] is one byte). *)
Definition ACQUIRE_at (a : Z) : M kernel unit :=
  v ← load8 a; if negb (v =? 0) then halt Deadlock else store8 a 1.
Definition RELEASE_at (a : Z) : M kernel unit := store8 a 0.

Definition no_paging : paging_globals := PagingGlobals 0 0 false 0 false 0 0 0 0 0 (fun p => p).

(** A kernel whose hardware answers 0 and whose late boot globals are unset. *)
Definition quiet_kernel (m : gmap Z Z) (pa : page_alloc_globals) (cpu : cpu_globals)
    (pr : proc_globals) (pg : paging_globals) : kernel :=
  Kernel m pa cpu pr pg (Devices (fun _ _ => 0) []) (ScreenGlobals 0 0 0 0 0 0 0 0 0 0 10 0xFFFFFF false)
    (TimerGlobals 0 0 false 0 0 false) (BootGlobals 0 0 0 0 false 0 0 0).

(** The locks this CPU can hold are all free. *)
Definition unlocked (s : kernel) : Prop :=
  pa_lock (k_pa s) = false /\ pid_cur_lock (k_proc s) = false /\
  miniheap_lock (k_pg s) = false /\ end_pos_lock (k_pg s) = false.
