(* ===== verification/Devices.v ===== *)
(** * Port I/O, model-specific registers, CPUID and the serial port

    kernel/arch/x86_64/ports.c, x86.c and serial.c.  Every instruction that talks to
    the hardware leaves one event in the log. *)
From S2P Require Import Prelude Memory State.

(** ** kernel/arch/x86_64/ports.c *)

Definition port_inb (port : Z) : M kernel Z := ask (Inb (w16 port)) 8.
Definition port_outb (port x : Z) : M kernel unit := emit (Outb (w16 port) (w8 x)).
Definition port_inw (port : Z) : M kernel Z := ask (Inw (w16 port)) 16.
Definition port_outw (port x : Z) : M kernel unit := emit (Outw (w16 port) (w16 x)).
Definition port_ind (port : Z) : M kernel Z := ask (Ind (w16 port)) 32.
Definition port_outd (port x : Z) : M kernel unit := emit (Outd (w16 port) (w32 x)).

(** ** kernel/arch/x86_64/x86.c *)

(** Only the registers the caller has a pointer for are of interest; the
    instruction is executed once. *)
Definition cpuid (code : Z) (r : cpu_reg) : M kernel Z := ask (Cpuid code r) 32.

Definition rdmsr (msr : Z) : M kernel Z :=
  v ← ask (Rdmsr msr) 64;
  let low := w32 v in let high := w32 (Z.shiftr v 32) in
  mret (Z.lor (w64 (Z.shiftl high 32)) low).

Definition wrmsr (msr x : Z) : M kernel unit :=
  let low := Z.land x 0xFFFFFFFF in let high := w32 (Z.shiftr x 32) in
  emit (Wrmsr msr (high * 2 ^ 32 + low)).

(** [enum] of include/arch/x86.h *)
Definition INT_TIMER : Z := 32.
Definition MSR_EFER : Z := 0xC0000080.
Definition MSR_STAR : Z := 0xC0000081.
Definition MSR_LSTAR : Z := 0xC0000082.
Definition MSR_FMASK : Z := 0xC0000084.
Definition MSR_GS_BASE : Z := 0xC0000101.

(** ** kernel/arch/x86_64/serial.c *)

Definition COM1 : Z := 0x3F8.

Definition set_serial_ok (b : bool) (s : kernel) : kernel :=
  let g := k_scr s in
  set_scr (ScreenGlobals (scr_vaddr g) (scr_paddr g) (scr_width g) (scr_height g) (scr_pitch g)
    (scr_bpp g) (red_mask_shift g) (green_mask_shift g) (blue_mask_shift g)
    (con_x g) (con_y g) (con_color g) b) s.

Definition serial_init : M kernel unit :=
  port_outb (COM1 + 1) 0x00 ;;
  port_outb (COM1 + 3) 0x80 ;;
  port_outb (COM1 + 0) 0x03 ;;
  port_outb (COM1 + 1) 0x00 ;;
  port_outb (COM1 + 3) 0x03 ;;
  port_outb (COM1 + 2) 0xC7 ;;
  port_outb (COM1 + 4) 0x0B ;;
  port_outb (COM1 + 4) 0x1E ;;
  port_outb COM1 0x16 ;;
  v ← port_inb COM1;
  if negb (v =? 0x16) then mret tt else
  port_outb (COM1 + 4) 0x0F ;;
  modify (set_serial_ok true).

(** [while (!(port_inb(COM1 + 5) & mask));] *)
Fixpoint serial_wait (fuel : nat) (mask : Z) : M kernel unit :=
  match fuel with
  | O => halt OutOfFuel
  | S k =>
      v ← port_inb (COM1 + 5);
      if Z.land v mask =? 0 then serial_wait k mask else mret tt
  end.

Definition serial_recv (fuel : nat) : M kernel Z :=
  serial_wait fuel 1 ;; port_inb COM1.

Definition serial_write (fuel : nat) (x : Z) : M kernel unit :=
  serial_wait fuel 0x20 ;; port_outb COM1 x.

(** ** Properties *)

Lemma join_halves v : 0 <= v < 2 ^ 64 -> Z.lor (w64 (Z.shiftl (w32 (Z.shiftr v 32)) 32)) (w32 v) = v.
Proof.
  intros Hv. unfold w64, w32. rewrite <- !Z.land_ones by lia. apply Z.bits_inj'. intros i Hi.
  rewrite Z.lor_spec, !Z.land_spec, Z.shiftl_spec, !Z.testbit_ones_nonneg by lia.
  destruct (Z.ltb_spec i 32).
  - rewrite Z.testbit_neg_r by lia. simpl. by rewrite andb_true_r.
  - rewrite Z.land_spec, Z.shiftr_spec, Z.testbit_ones_nonneg by lia.
    replace (i - 32 + 32) with i by lia. rewrite andb_false_r, orb_false_r.
    destruct (Z.ltb_spec i 64).
    + destruct (Z.ltb_spec (i - 32) 32); [|lia]. by rewrite !andb_true_r.
    + rewrite andb_false_r. symmetry. destruct (decide (v = 0)) as [->|]; [apply Z.bits_0|].
      apply Z.bits_above_log2; [lia|]. enough (Z.log2 v < 64) by lia. apply Z.log2_lt_pow2; lia.
Qed.

Definition log (s : kernel) : list io_event := dv_log (k_dev s).
Definition answer (s : kernel) (t : nat) (r : io_read) : Z := dv_env (k_dev s) t r.

Definition logged (es : list io_event) (s : kernel) : kernel :=
  set_dev (Devices (dv_env (k_dev s)) (es ++ log s)) s.

Lemma logged_logged es fs s : logged es (logged fs s) = logged (es ++ fs) s.
Proof. destruct s as [? ? ? ? ? []]. unfold logged, log. simpl. by rewrite app_assoc. Qed.

Lemma emit_run e s : emit e s = Done tt (logged [e] s).
Proof. done. Qed.

Lemma ask_run r n s :
  ask r n s = Done (answer s (length (log s)) r mod 2 ^ n)
    (logged [Read r (answer s (length (log s)) r mod 2 ^ n)] s).
Proof. done. Qed.

Lemma wrmsr_run msr x s : u64 x -> wrmsr msr x s = Done tt (logged [Wrmsr msr x] s).
Proof.
  unfold u64, wrmsr. intros Hx. rewrite emit_run. change 0xFFFFFFFF with (Z.ones 32).
  rewrite Z.land_ones, Z.shiftr_div_pow2 by lia. do 4 f_equal. unfold w32. divlia.
Qed.

(** A model-specific register is read and written whole: splitting it into the
    two halves the instructions use and joining them again is the identity. *)
Theorem msr_roundtrip msr x s :
  u64 x -> answer s (length (log s)) (Rdmsr msr) = x ->
  wrmsr msr x s = Done tt (logged [Wrmsr msr x] s) /\
  rdmsr msr s = Done x (logged [Read (Rdmsr msr) x] s).
Proof.
  intros Hx Ha. split; [by apply wrmsr_run|]. unfold u64 in Hx.
  unfold rdmsr. rewrite (run_bind _ _ _ _ _ (ask_run _ _ _)), Ha, Z.mod_small by lia.
  by rewrite join_halves.
Qed.

Definition hw_demo (env : nat -> io_read -> Z) : kernel :=
  set_dev (Devices env []) (quiet_kernel ∅ (PageAllocGlobals 0 0 false) (CpuGlobals 0 1 0 0)
    (ProcGlobals 0 false 0 0 false) no_paging).

Lemma msr_roundtrip_witness :
  let s := hw_demo (fun _ _ => 0x123456789abcdef0) in
  wrmsr 5 0x123456789abcdef0 s = Done tt (logged [Wrmsr 5 0x123456789abcdef0] s) /\
  rdmsr 5 s = Done 0x123456789abcdef0 (logged [Read (Rdmsr 5) 0x123456789abcdef0] s).
Proof. apply msr_roundtrip; [by unfold u64|reflexivity]. Defined.

(** The line status polled at successive times, until the bits of [mask] are set. *)
Fixpoint polls (n : nat) (s : kernel) : list io_event :=
  match n with
  | O => []
  | S k =>
      polls k (logged [Read (Inb (COM1 + 5)) (w8 (answer s (length (log s)) (Inb (COM1 + 5))))] s)
        ++ [Read (Inb (COM1 + 5)) (w8 (answer s (length (log s)) (Inb (COM1 + 5))))]
  end.

Lemma serial_wait_done mask n s fuel :
  (n < fuel)%nat ->
  (forall i, (i < n)%nat -> Z.land (w8 (answer s (length (log s) + i) (Inb (COM1 + 5)))) mask = 0) ->
  Z.land (w8 (answer s (length (log s) + n) (Inb (COM1 + 5)))) mask <> 0 ->
  serial_wait fuel mask s = Done tt (logged (polls (S n) s) s).
Proof.
  revert s fuel. induction n as [|n IH]; intros s [|fuel] Hf Hlt Hn; try lia; cbn [serial_wait].
  - unfold port_inb. rewrite (run_bind _ _ _ _ _ (ask_run _ _ _)). rewrite Nat.add_0_r in Hn.
    destruct (Z.eqb_spec (Z.land (answer s (length (log s)) (Inb (w16 (COM1 + 5))) mod 2 ^ 8) mask) 0);
      [by destruct Hn|]. done.
  - unfold port_inb. rewrite (run_bind _ _ _ _ _ (ask_run _ _ _)).
    pose proof (Hlt O ltac:(lia)) as H0. rewrite Nat.add_0_r in H0.
    change (answer s (length (log s)) (Inb (w16 (COM1 + 5))) mod 2 ^ 8)
      with (w8 (answer s (length (log s)) (Inb (COM1 + 5)))).
    rewrite H0, Z.eqb_refl. change (Inb (w16 (COM1 + 5))) with (Inb (COM1 + 5)).
    set (s1 := logged [_] s). rewrite (IH s1 fuel); [|lia| |].
    + unfold s1 at 2. rewrite logged_logged. done.
    + intros i Hi. specialize (Hlt (S i) ltac:(lia)). unfold s1, log, answer in *. simpl in *.
      by rewrite Nat.add_succ_r in Hlt.
    + unfold s1, log, answer in *. simpl in *. by rewrite Nat.add_succ_r in Hn.
Qed.

(** [serial_write] waits for the transmitter and then sends the low byte of its
    argument, once, after polling exactly until the line status says it may. *)
Theorem serial_write_sends n x s fuel :
  (n < fuel)%nat ->
  (forall i, (i < n)%nat -> Z.land (w8 (answer s (length (log s) + i) (Inb (COM1 + 5)))) 0x20 = 0) ->
  Z.land (w8 (answer s (length (log s) + n) (Inb (COM1 + 5)))) 0x20 <> 0 ->
  serial_write fuel x s = Done tt (logged (Outb COM1 (w8 x) :: polls (S n) s) s).
Proof.
  intros Hf Hlt Hn. unfold serial_write.
  rewrite (run_bind _ _ _ _ _ (serial_wait_done 0x20 n s fuel Hf Hlt Hn)).
  unfold port_outb. rewrite emit_run, logged_logged. done.
Qed.

Lemma serial_write_sends_witness :
  let s := hw_demo (fun t _ => if (t <? 2)%nat then 0 else 0x20) in
  serial_write 5 0x141 s = Done tt (logged (Outb COM1 (w8 0x141) :: polls 3 s) s).
Proof.
  apply (serial_write_sends 2).
  - lia.
  - intros [|[|i]] Hi; [reflexivity|reflexivity|lia].
  - vm_compute. discriminate.
Defined.

(** [serial_init] enables the port exactly when the loopback test succeeds. *)
Lemma serial_init_ok s :
  exists s', serial_init s = Done tt s' /\
    serial_ok (k_scr s') = (if answer s (9 + length (log s)) (Inb COM1) mod 2 ^ 8 =? 0x16
                            then true else serial_ok (k_scr s)).
Proof.
  unfold serial_init, port_outb, port_inb.
  do 9 (rewrite (run_bind _ _ _ _ _ (emit_run _ _))). rewrite (run_bind _ _ _ _ _ (ask_run _ _ _)).
  rewrite !logged_logged. destruct s as [m pa cpu pr pg [env lg] scr tm bo].
  unfold answer, logged, log. cbn -[Z.modulo Z.pow].
  destruct (env _ _ mod 2 ^ 8 =? 22); eexists; (split; [reflexivity|]); by destruct scr.
Qed.
