(* ===== verification/Pci.v ===== *)
(** * kernel/acpi/pci.c: PCI configuration space through the ports CF8 and CFC *)
From S2P Require Import Prelude Memory State Devices.

Definition pciaddr (bus slot func offset : Z) : Z :=
  w32 (Z.lor (Z.lor (Z.lor (Z.lor (Z.shiftl bus 16) (Z.shiftl slot 11)) (Z.shiftl func 8))
         (Z.land offset 0xFC)) 0x80000000).

(** The result is a [uint8_t] whatever the size. *)
Definition pci_read (bus slot func offset size : Z) : M kernel Z :=
  port_outd 0xCF8 (pciaddr bus slot func offset) ;;
  if size =? 1 then v ← port_inb (0xCFC + Z.land offset 3); mret (w8 v)
  else if size =? 2 then v ← port_inw (0xCFC + Z.land offset 2); mret (w8 v)
  else if size =? 4 then v ← port_ind 0xCFC; mret (w8 v)
  else printf ("Invalid PCI access size (read): %d" +:+ nl) [size] ;; mret 0.

Definition pci_write (bus slot func offset val size : Z) : M kernel unit :=
  port_outd 0xCF8 (pciaddr bus slot func offset) ;;
  if size =? 1 then port_outb (0xCFC + Z.land offset 3) val
  else if size =? 2 then port_outw (0xCFC + Z.land offset 2) val
  else if size =? 4 then port_outd 0xCFC val
  else printf ("Invalid PCI access size (write): %d" +:+ nl) [size].

(** ** The address word *)

(** The fields the PCI specification defines in the address word. *)
Record pci_fields := PciFields { pf_enable : bool; pf_bus : Z; pf_slot : Z; pf_func : Z; pf_reg : Z }.

Definition decode (w : Z) : pci_fields :=
  PciFields (Z.testbit w 31) (Z.land (Z.shiftr w 16) 0xFF) (Z.land (Z.shiftr w 11) 0x1F)
    (Z.land (Z.shiftr w 8) 7) (Z.land w 0xFF).

Lemma bit_small x n i : 0 <= x < 2 ^ n -> n <= i -> Z.testbit x i = false.
Proof.
  intros Hx Hi. destruct (decide (x = 0)) as [->|]; [apply Z.bits_0|].
  apply Z.bits_above_log2; [lia|].
  assert (0 <= n) by (destruct (decide (0 <= n)); [done|rewrite Z.pow_neg_r in Hx; lia]).
  enough (Z.log2 x < n) by lia. apply Z.log2_lt_pow2; lia.
Qed.

Lemma pciaddr_bits bus slot func offset i :
  0 <= bus < 2 ^ 8 -> 0 <= slot < 2 ^ 5 -> 0 <= func < 2 ^ 3 -> 0 <= offset < 2 ^ 8 -> 0 <= i ->
  Z.testbit (pciaddr bus slot func offset) i =
    if i <? 8 then Z.testbit (Z.land offset 0xFC) i
    else if i <? 11 then Z.testbit func (i - 8)
    else if i <? 16 then Z.testbit slot (i - 11)
    else if i <? 24 then Z.testbit bus (i - 16)
    else i =? 31.
Proof.
  intros Hb Hs Hf Ho Hi. unfold pciaddr, w32. rewrite <- Z.land_ones by lia.
  change 0x80000000 with (2 ^ 31).
  rewrite Z.land_spec, !Z.lor_spec, !Z.shiftl_spec, Z.testbit_ones_nonneg, Z.pow2_bits_eqb by lia.
  assert (Hlow : forall k, 8 <= k -> Z.testbit (Z.land offset 0xFC) k = false).
  { intros k Hk. rewrite Z.land_spec, (bit_small offset 8) by lia. done. }
  assert (Hneg : forall x k, k < 0 -> Z.testbit x k = false) by (intros; by apply Z.testbit_neg_r).
  destruct (Z.ltb_spec i 8); [|destruct (Z.ltb_spec i 11); [|destruct (Z.ltb_spec i 16);
    [|destruct (Z.ltb_spec i 24)]]].
  - rewrite (Hneg bus), (Hneg slot), (Hneg func) by lia.
    rewrite (proj2 (Z.eqb_neq 31 i)), (proj2 (Z.ltb_lt i 32)) by lia. by rewrite orb_false_r, andb_true_r.
  - rewrite (Hneg bus), (Hneg slot), Hlow by lia.
    rewrite (proj2 (Z.eqb_neq 31 i)), (proj2 (Z.ltb_lt i 32)) by lia. by rewrite !orb_false_r, andb_true_r.
  - rewrite (Hneg bus), (bit_small func 3), Hlow by lia.
    rewrite (proj2 (Z.eqb_neq 31 i)), (proj2 (Z.ltb_lt i 32)) by lia. by rewrite !orb_false_r, andb_true_r.
  - rewrite (bit_small slot 5), (bit_small func 3), Hlow by lia.
    rewrite (proj2 (Z.eqb_neq 31 i)), (proj2 (Z.ltb_lt i 32)) by lia. by rewrite !orb_false_r, andb_true_r.
  - rewrite (bit_small bus 8), (bit_small slot 5), (bit_small func 3), Hlow by lia.
    rewrite !orb_false_l, (Z.eqb_sym 31 i). by destruct (Z.eqb_spec i 31) as [->|].
Qed.

(** The address word written to CF8 selects the requested function: decoding it
    gives back the bus, slot and function, and the offset rounded down to a dword. *)
Theorem pciaddr_roundtrip bus slot func offset :
  0 <= bus < 256 -> 0 <= slot < 32 -> 0 <= func < 8 -> 0 <= offset < 256 ->
  decode (pciaddr bus slot func offset) = PciFields true bus slot func (Z.land offset 0xFC).
Proof.
  intros Hb Hs Hf Ho. pose proof (pciaddr_bits bus slot func offset) as H. unfold decode.
  f_equal; [by rewrite H by lia|..]; apply Z.bits_inj'; intros i Hi;
    rewrite ?Z.land_spec, ?Z.shiftr_spec by lia.
  - change 0xFF with (Z.ones 8). rewrite Z.testbit_ones_nonneg, H by lia.
    destruct (Z.ltb_spec i 8); [|by rewrite andb_false_r, (bit_small bus 8) by lia].
    rewrite andb_true_r. repeat (case_cmp; try lia). by replace (i + 16 - 16) with i by lia.
  - change 0x1F with (Z.ones 5). rewrite Z.testbit_ones_nonneg, H by lia.
    destruct (Z.ltb_spec i 5); [|by rewrite andb_false_r, (bit_small slot 5) by lia].
    rewrite andb_true_r. repeat (case_cmp; try lia). by replace (i + 11 - 11) with i by lia.
  - change 7 with (Z.ones 3). rewrite Z.testbit_ones_nonneg, H by lia.
    destruct (Z.ltb_spec i 3); [|by rewrite andb_false_r, (bit_small func 3) by lia].
    rewrite andb_true_r. repeat (case_cmp; try lia). by replace (i + 8 - 8) with i by lia.
  - change 0xFF with (Z.ones 8). rewrite Z.testbit_ones_nonneg, H by lia.
    destruct (Z.ltb_spec i 8); [by rewrite Z.land_spec, andb_true_r|].
    rewrite andb_false_r, (bit_small offset 8) by lia. done.
Qed.

Lemma pciaddr_roundtrip_witness :
  decode (pciaddr 3 31 5 0x47) = PciFields true 3 31 5 0x44.
Proof. apply (pciaddr_roundtrip 3 31 5 0x47); lia. Defined.

(** A 16-bit or 32-bit configuration read returns the low byte only: whatever
    the device answers to the dword read, [pci_read] gives its value modulo 256. *)
Theorem pci_read_truncates bus slot func offset s :
  let addr := pciaddr bus slot func offset in
  let v := answer s (S (length (log s))) (Ind 0xCFC) mod 2 ^ 32 in
  pci_read bus slot func offset 4 s =
    Done (v mod 256) (logged [Read (Ind 0xCFC) v; Outd 0xCF8 (w32 addr)] s).
Proof. done. Qed.
