(* ===== verification/FreeList.v ===== *)
(** * In-place free lists

    Both allocators keep their free blocks in a linked list threaded through the
    free memory itself: a block starts with the word [size] followed by the word
    [next] (the [struct block] of kernel/page_alloc.c and of kernel/kalloc.c).
    [seg m a e l] says that the pointer cell at address [a] heads a list holding
    exactly the blocks [l], each a pair (address, size field), whose last [next]
    is [e].  The lemmas describe how the pointer surgery of the code changes it. *)
From S2P Require Import Prelude Memory.

(** [offsetof(struct block, next)] and [sizeof(struct block)]. *)
Definition NEXT : Z := 8.
Definition HDRSIZE : Z := 16.

Definition blocks : Type := list (Z * Z).

(** The address a pointer to the list [l] terminated by [e] holds. *)
Definition first (e : Z) (l : blocks) : Z :=
  match l with
  | [] => e
  | (p, _) :: _ => p
  end.

Fixpoint seg (m : gmap Z Z) (a e : Z) (l : blocks) : Prop :=
  match l with
  | [] => read64 m a = Some e
  | (p, s) :: l' => read64 m a = Some p /\ read64 m p = Some s /\ seg m (p + NEXT) e l'
  end.

(** The blocks [l] are linked together and end at [e], whatever points at them. *)
Definition body (m : gmap Z Z) (e : Z) (l : blocks) : Prop :=
  match l with
  | [] => True
  | (p, s) :: l' => read64 m p = Some s /\ seg m (p + NEXT) e l'
  end.

(** The pointer cell reached after walking over [l] from the cell [a]. *)
Fixpoint cell (a : Z) (l : blocks) : Z :=
  match l with
  | [] => a
  | (p, _) :: l' => cell (p + NEXT) l'
  end.

(** The C variable [prev] after walking over [l]: NULL or the last block. *)
Fixpoint prev_of (prev : Z) (l : blocks) : Z :=
  match l with
  | [] => prev
  | (p, _) :: l' => prev_of p l'
  end.

(** Two address ranges do not meet. *)
Definition apart (x n y k : Z) : Prop := x + n <= y \/ y + k <= x.

(** The headers of the blocks are pairwise disjoint, and disjoint from [a]'s cell. *)
Fixpoint hdrs_apart (l : blocks) : Prop :=
  match l with
  | [] => True
  | b :: l' => Forall (fun c => apart (fst b) HDRSIZE (fst c) HDRSIZE) l' /\ hdrs_apart l'
  end.

Definition cell_apart (a : Z) (l : blocks) : Prop :=
  Forall (fun c => apart a 8 (fst c) HDRSIZE) l.

Definition in_hdr (l : blocks) (x : Z) : Prop :=
  exists b, b ∈ l /\ within (fst b) HDRSIZE x.

Lemma first_app e l1 l2 : first e (l1 ++ l2) = first (first e l2) l1.
Proof. by destruct l1 as [|[]]. Qed.

Lemma cell_app a l1 l2 : cell a (l1 ++ l2) = cell (cell a l1) l2.
Proof. revert a. induction l1 as [|[p s] l1 IH]; intros a; simpl; auto. Qed.

Lemma prev_of_app v l1 l2 : prev_of v (l1 ++ l2) = prev_of (prev_of v l1) l2.
Proof. revert v. induction l1 as [|[p s] l1 IH]; intros v; simpl; auto. Qed.

(** [prev ? &prev->next : &head] is the cell that points at the current block. *)
Lemma prev_of_cell a l :
  Forall (fun b => 0 < fst b) l ->
  cell a l = if prev_of 0 l =? 0 then a else prev_of 0 l + NEXT.
Proof.
  induction l as [|[p s] l _] using rev_ind; intros H; [done|].
  rewrite cell_app, prev_of_app. simpl.
  apply Forall_app in H as [_ H]. apply Forall_cons in H as [H _]. simpl in H.
  by destruct (Z.eqb_spec p 0); [lia|].
Qed.

Lemma seg_app m a e l1 l2 :
  seg m a e (l1 ++ l2) <-> seg m a (first e l2) l1 /\ seg m (cell a l1) e l2.
Proof.
  revert a. induction l1 as [|[p s] l1 IH]; intros a; simpl.
  - destruct l2 as [|[q t] l2]; simpl; tauto.
  - rewrite IH. tauto.
Qed.

Lemma seg_head m a e l : seg m a e l -> read64 m a = Some (first e l).
Proof. destruct l as [|[p s] l]; simpl; tauto. Qed.

Lemma seg_body m a e l : seg m a e l <-> read64 m a = Some (first e l) /\ body m e l.
Proof. destruct l as [|[p s] l]; simpl; tauto. Qed.

Lemma seg_last m a e l : seg m a e l -> read64 m (cell a l) = Some e.
Proof. rewrite <- (app_nil_r l) at 1. by intros [_ H]%seg_app. Qed.

Lemma seg_same m m' a e l :
  same_on (within a 8) m m' -> same_on (in_hdr l) m m' -> seg m a e l -> seg m' a e l.
Proof.
  revert a. induction l as [|[p s] l IH]; intros a Ha Hl; simpl.
  - by rewrite (read64_same m m').
  - intros (H1 & H2 & H3).
    assert (Hp : same_on (within p HDRSIZE) m m').
    { apply (same_on_weaken (in_hdr ((p, s) :: l))); [done|].
      intros x Hx. exists (p, s). split; [by left|done]. }
    rewrite (read64_same m m') by done. split; [done|].
    rewrite (read64_same m m' p).
    2:{ eapply same_on_weaken; [exact Hp|]. unfold within, HDRSIZE. lia. }
    split; [done|]. apply IH; [| |done].
    + eapply same_on_weaken; [exact Hp|]. unfold within, HDRSIZE, NEXT. lia.
    + eapply same_on_weaken; [exact Hl|]. intros x (b & Hb & Hx). exists b.
      split; [by right|done].
Qed.

(** A write that misses the head cell and every header leaves the list alone. *)
Lemma seg_write m a e l c v :
  apart a 8 c 8 -> Forall (fun b => apart (fst b) HDRSIZE c 8) l ->
  seg m a e l -> seg (write64 m c v) a e l.
Proof.
  intros Ha Hl. apply seg_same; apply write64_same.
  - unfold within, apart in *. lia.
  - intros x (b & Hb & Hx). rewrite Forall_forall in Hl. specialize (Hl b Hb).
    unfold within, apart in *. lia.
Qed.

(** The cell that ends a list is its head cell or the [next] of one of its blocks. *)
Lemma cell_cases a l : cell a l = a \/ exists b, b ∈ l /\ cell a l = fst b + NEXT.
Proof.
  revert a. induction l as [|[q t] l IH]; intros a; simpl; [by left|].
  right. destruct (IH (q + NEXT)) as [->|(b & Hb & ->)].
  - exists (q, t). split; [by left|done].
  - exists b. split; [by right|done].
Qed.

(** A list's blocks in a memory with the same headers. *)
Lemma body_same m m' e l : same_on (in_hdr l) m m' -> body m e l -> body m' e l.
Proof.
  destruct l as [|[p s] l]; simpl; [done|]. intros Hs [H2 H3].
  assert (Hp : same_on (within p HDRSIZE) m m').
  { eapply same_on_weaken; [exact Hs|]. intros x Hx. exists (p, s). split; [by left|done]. }
  split.
  - rewrite (read64_same m m'); [done|].
    eapply same_on_weaken; [exact Hp|]. unfold within, HDRSIZE. lia.
  - eapply seg_same; [| |exact H3].
    + eapply same_on_weaken; [exact Hp|]. unfold within, HDRSIZE, NEXT. lia.
    + eapply same_on_weaken; [exact Hs|]. intros x (c & Hc & Hx). exists c.
      split; [by right|done].
Qed.

(** Redirecting the last pointer of a list. *)
Lemma seg_set m a e e' l :
  hdrs_apart l -> cell_apart a l -> 0 <= e' < 2 ^ 64 ->
  seg m a e l -> seg (write64 m (cell a l) e') a e' l.
Proof.
  intros Hh Ha He. revert a Ha.
  induction l as [|[p s] l IH]; intros a Ha; simpl.
  - intros _. by rewrite read64_write64_eq.
  - intros (H1 & H2 & H3). destruct Hh as [Hp Hh]. simpl in Hp.
    apply Forall_cons in Ha as [Hap Ha]. simpl in Hap.
    pose proof (cell_cases (p + NEXT) l) as Hc.
    assert (Hfar : apart a 8 (cell (p + NEXT) l) 8 /\ apart p 8 (cell (p + NEXT) l) 8).
    { unfold cell_apart in Ha. rewrite Forall_forall in Ha, Hp.
      destruct Hc as [->|(b & Hb & ->)].
      - unfold apart, NEXT, HDRSIZE in *. lia.
      - specialize (Ha b Hb). specialize (Hp b Hb). unfold apart, NEXT, HDRSIZE in *. lia. }
    rewrite !read64_write64_ne by (unfold apart in Hfar; lia).
    split; [done|]. split; [done|]. apply IH; [done| |done].
    eapply Forall_impl; [exact Hp|]. intros b. unfold apart, NEXT, HDRSIZE. lia.
Qed.

Lemma hdrs_apart_app l1 l2 :
  hdrs_apart (l1 ++ l2) <->
  hdrs_apart l1 /\ hdrs_apart l2 /\
  Forall (fun b => Forall (fun c => apart (fst b) HDRSIZE (fst c) HDRSIZE) l2) l1.
Proof.
  induction l1 as [|b l1 IH]; simpl; [naive_solver|].
  rewrite IH, Forall_app, Forall_cons. tauto.
Qed.

Lemma cell_apart_app a l1 l2 :
  cell_apart a (l1 ++ l2) <-> cell_apart a l1 /\ cell_apart a l2.
Proof. apply Forall_app. Qed.

(** Making the list [l1] continue with the list [l2]: one store to the cell that
    ends [l1]. *)
Lemma seg_relink m a x e l1 l2 :
  hdrs_apart (l1 ++ l2) -> cell_apart a (l1 ++ l2) -> 0 <= first e l2 < 2 ^ 64 ->
  seg m a x l1 -> body m e l2 ->
  seg (write64 m (cell a l1) (first e l2)) a e (l1 ++ l2).
Proof.
  intros (Hh1 & Hh2 & Hh3)%hdrs_apart_app (Ha1 & Ha2)%cell_apart_app Hv H1 H2.
  apply seg_app. split; [by eapply seg_set|].
  apply seg_body. split; [by rewrite read64_write64_eq|].
  eapply body_same; [|exact H2]. apply write64_same. intros y (c & Hc & Hy) Hw.
  assert (Hap : apart (cell a l1) 8 (fst c) HDRSIZE).
  { unfold cell_apart in Ha2. rewrite Forall_forall in Ha2, Hh3.
    destruct (cell_cases a l1) as [->|(d & Hd & ->)]; [by apply Ha2|].
    specialize (Hh3 d Hd). rewrite Forall_forall in Hh3. specialize (Hh3 c Hc).
    unfold apart, NEXT, HDRSIZE in *. lia. }
  unfold apart, within, HDRSIZE in *. lia.
Qed.

(** The blocks recorded in a list. *)
Lemma seg_size m a e l1 p s l2 :
  seg m a e (l1 ++ (p, s) :: l2) -> read64 m p = Some s /\ read64 m (p + NEXT) = Some (first e l2).
Proof.
  rewrite seg_app. simpl. intros (_ & _ & H & H'). split; [done|]. by apply seg_head in H'.
Qed.

(** A store outside the headers of a list's blocks. *)
Lemma body_write m e l c v :
  Forall (fun b => apart (fst b) HDRSIZE c 8) l -> body m e l -> body (write64 m c v) e l.
Proof.
  intros Hl. apply body_same, write64_same. intros x (b & Hb & Hx).
  rewrite Forall_forall in Hl. specialize (Hl b Hb). unfold within, apart in *. lia.
Qed.

(** A list whose tail [l2] is replaced by the block [(n, sz)] in front of [l2]. *)
Lemma seg_cons_block m a x e l1 n sz l2 :
  hdrs_apart (l1 ++ (n, sz) :: l2) -> cell_apart a (l1 ++ (n, sz) :: l2) ->
  0 <= n < 2 ^ 64 -> 0 <= first e l2 < 2 ^ 64 ->
  read64 m n = Some sz -> seg m a x l1 -> body m e l2 ->
  seg (write64 (write64 m (n + NEXT) (first e l2)) (cell a l1) n) a e (l1 ++ (n, sz) :: l2).
Proof.
  intros Hh Ha Hn He Hsz H1 H2.
  pose proof Hh as (_ & (Hn2 & _) & H12)%hdrs_apart_app. pose proof Ha as (_ & [Hna Ha2]%Forall_cons)%cell_apart_app.
  simpl in Hn2, Hna. apply (seg_relink _ a x e l1 ((n, sz) :: l2)); [done|done|done| |].
  - apply seg_write; [unfold apart, NEXT, HDRSIZE in *; lia| |done].
    eapply Forall_impl; [exact H12|]. intros b [Hb _]%Forall_cons. simpl in Hb.
    unfold apart, NEXT, HDRSIZE in *. lia.
  - simpl. split; [rewrite read64_write64_ne; [done|unfold NEXT; lia]|].
    apply seg_body. split; [by rewrite read64_write64_eq|]. apply body_write; [|done].
    eapply Forall_impl; [exact Hn2|]. intros b Hb. simpl in Hb. unfold apart, NEXT, HDRSIZE in *. lia.
Qed.

(** [prev->next = new; new->next = cur;] *)
Lemma seg_insert m a e l1 n sz l2 :
  hdrs_apart (l1 ++ (n, sz) :: l2) -> cell_apart a (l1 ++ (n, sz) :: l2) ->
  0 <= n < 2 ^ 64 -> 0 <= first e l2 < 2 ^ 64 ->
  read64 m n = Some sz -> seg m a e (l1 ++ l2) ->
  seg (write64 (write64 m (cell a l1) n) (n + NEXT) (first e l2)) a e (l1 ++ (n, sz) :: l2).
Proof.
  intros Hh Ha Hn He Hsz Hseg. rewrite write64_comm.
  - apply seg_app in Hseg as [H1 [_ H2]%seg_body]. by eapply seg_cons_block.
  - pose proof Hh as (_ & _ & H12)%hdrs_apart_app. pose proof Ha as (_ & [Hna _]%Forall_cons)%cell_apart_app.
    simpl in Hna. rewrite Forall_forall in H12. destruct (cell_cases a l1) as [->|(b & Hb & ->)].
    + unfold apart, NEXT, HDRSIZE in *. lia.
    + specialize (H12 b Hb). apply Forall_cons in H12 as [H12 _]. simpl in H12.
      unfold apart, NEXT, HDRSIZE in *. lia.
Qed.

(** [p->next = n->next; p->size = v;] for the neighbours [p] and [n]. *)
Lemma seg_merge m a e l1 p ps n ns l2 v :
  hdrs_apart (l1 ++ (p, ps) :: (n, ns) :: l2) -> cell_apart a (l1 ++ (p, ps) :: (n, ns) :: l2) ->
  0 <= first e l2 < 2 ^ 64 -> 0 <= v < 2 ^ 64 ->
  seg m a e (l1 ++ (p, ps) :: (n, ns) :: l2) ->
  seg (write64 (write64 m (p + NEXT) (first e l2)) p v) a e (l1 ++ (p, v) :: l2).
Proof.
  intros Hh Ha He Hv (H1 & Hp & _ & _ & _ & H2)%seg_app. apply seg_app. simpl.
  pose proof Hh as (_ & (Hp2 & _) & H12)%hdrs_apart_app. apply Forall_cons in Hp2 as [_ Hp2].
  pose proof Ha as (_ & [Hpa _]%Forall_cons)%cell_apart_app. simpl in Hp2, Hpa.
  assert (Hl1 : Forall (fun b => apart (fst b) HDRSIZE p HDRSIZE) l1).
  { eapply Forall_impl; [exact H12|]. intros b [Hb _]%Forall_cons. done. }
  assert (Hcell : apart (cell a l1) 8 p HDRSIZE).
  { rewrite Forall_forall in Hl1. destruct (cell_cases a l1) as [->|(b & Hb & ->)]; [done|].
    specialize (Hl1 b Hb). unfold apart, NEXT, HDRSIZE in *. lia. }
  split_and!.
  - apply seg_write; [unfold apart, HDRSIZE in *; lia| |apply seg_write; [unfold apart, NEXT, HDRSIZE in *; lia| |done]].
    + eapply Forall_impl; [exact Hl1|]. intros b. unfold apart, HDRSIZE. lia.
    + eapply Forall_impl; [exact Hl1|]. intros b. unfold apart, NEXT, HDRSIZE. lia.
  - rewrite !read64_write64_ne by (unfold apart, NEXT, HDRSIZE in *; lia). done.
  - by rewrite read64_write64_eq.
  - apply seg_body. rewrite read64_write64_ne by (unfold NEXT; lia).
    split; [by rewrite read64_write64_eq|]. apply seg_body in H2 as [_ H2].
    do 2 (apply body_write; [eapply Forall_impl; [exact Hp2|]; intros b; simpl; unfold apart, NEXT, HDRSIZE; lia|]).
    done.
Qed.

#[export] Hint Resolve seg_head seg_last : mem.
