(* ===== verification/PageSpec.v ===== *)
(** * What the page allocator promises

    The abstract state of kernel/page_alloc.c is a list of pools, each with its
    bounds and its list of disjoint free blocks.  Allocation is first fit, the
    block found being halved down to the requested size.  Freeing walks the list:
    when it meets the buddy, the merged block becomes the head of the list and the
    blocks in front of the buddy are lost; when it meets a block behind the page, or
    the end, the page becomes the head.
    This file proves the promises on the abstract state; PageAlloc.v defines the
    C code and PageRefine.v proves that the code implements this. *)
From S2P Require Import Prelude Memory Pow2 FreeList.

Record pool := Pool {
  p_base : Z;
  p_end : Z;
  p_free : blocks;
}.

(** The upper halves split off [p] on the way from [sz * 2^n] down to [sz]. *)
Fixpoint halves (p sz : Z) (n : nat) : blocks :=
  match n with
  | O => []
  | S n' => halves p sz n' ++ [(p + sz * 2 ^ Z.of_nat n', sz * 2 ^ Z.of_nat n')]
  end.

Definition split_count (s sz : Z) : nat := Z.to_nat (Z.log2 s - Z.log2 sz).

Fixpoint fit (sz : Z) (l : blocks) : option (Z * blocks) :=
  match l with
  | [] => None
  | (p, s) :: l' =>
      if sz <=? s then Some (p, halves p sz (split_count s sz) ++ l')
      else '(r, l'') ← fit sz l'; Some (r, (p, s) :: l'')
  end.

Fixpoint alloc_pools (sz : Z) (ps : list pool) : option (Z * list pool) :=
  match ps with
  | [] => None
  | p :: ps' =>
      match fit sz (p_free p) with
      | Some (r, l) => Some (r, Pool (p_base p) (p_end p) l :: ps')
      | None => '(r, qs) ← alloc_pools sz ps'; Some (r, p :: qs)
      end
  end.

Definition buddy_of (base page sz : Z) : Z := base + Z.lxor (page - base) sz.

(** The walk has come to [l] in the list [start]. *)
Fixpoint free_walk (base page sz : Z) (start l : blocks) : blocks :=
  match l with
  | [] => (page, sz) :: start
  | (p, s) :: l' =>
      if p =? buddy_of base page sz then (Z.min p page, s + sz) :: l'
      else if page <? p then (page, sz) :: start
      else free_walk base page sz start l'
  end.
Definition free_list (base page sz : Z) (l : blocks) : blocks := free_walk base page sz l l.

(** The blocks that drop out of the list: those in front of the buddy, if the walk
    meets it. *)
Fixpoint before_buddy (base page sz : Z) (l : blocks) : option blocks :=
  match l with
  | [] => None
  | (p, s) :: l' =>
      if p =? buddy_of base page sz then Some []
      else if page <? p then None
      else cons (p, s) <$> before_buddy base page sz l'
  end.
Definition lost_blocks (base page sz : Z) (l : blocks) : blocks := default [] (before_buddy base page sz l).

Fixpoint free_pools (page sz : Z) (ps : list pool) : option (list pool) :=
  match ps with
  | [] => None
  | p :: ps' =>
      if (page <? p_base p) || (p_end p <? page)
      then qs ← free_pools page sz ps'; Some (p :: qs)
      else Some (Pool (p_base p) (p_end p) (free_list (p_base p) page sz (p_free p)) :: ps')
  end.

(** ** Well-formed pools *)

(** A size the allocator deals in: 2^k with k at least 12. *)
Definition page_pow2 (s : Z) : Prop := exists k, 12 <= k < 64 /\ s = 2 ^ k.

Lemma page_pow2_16 s : page_pow2 s -> (16 | s).
Proof.
  intros (k & Hk & ->). exists (2 ^ (k - 4)). change 16 with (2 ^ 4). rewrite <- Z.pow_add_r by lia. f_equal. lia.
Qed.

Definition block_apart (b c : Z * Z) : Prop := fst b + snd b <= fst c \/ fst c + snd c <= fst b.

(** Disjoint blocks within [lo, e), each a power of two of pages, aligned on its size
    relative to [base]. *)
Fixpoint blocks_ok (base lo e : Z) (l : blocks) : Prop :=
  match l with
  | [] => lo <= e
  | (p, s) :: l' =>
      lo <= p /\ page_pow2 s /\ (s | p - base) /\ p + s <= e /\ Forall (block_apart (p, s)) l' /\
      blocks_ok base lo e l'
  end.

(** Address order, in which the pools start out. *)
Fixpoint ascending (l : blocks) : Prop :=
  match l with
  | [] => True
  | b :: l' => Forall (fun c => fst b < fst c) l' /\ ascending l'
  end.

Record pool_ok (p : pool) : Prop := {
  po_base : 0 < p_base p;
  po_end : p_end p < 2 ^ 64;
  po_size : page_pow2 (p_end p - p_base p);
  po_free : blocks_ok (p_base p) (p_base p) (p_end p) (p_free p);
  po_align : (16 | p_base p);
}.

Definition pool_apart (p q : pool) : Prop := p_end p <= p_base q \/ p_end q <= p_base p.

Fixpoint pools_apart (ps : list pool) : Prop :=
  match ps with
  | [] => True
  | p :: ps' => Forall (pool_apart p) ps' /\ pools_apart ps'
  end.

(** Some free block contains [x]. *)
Definition in_blocks (l : blocks) (x : Z) : Prop := exists b, b ∈ l /\ within (fst b) (snd b) x.

Definition free_bytes (ps : list pool) (x : Z) : Prop :=
  exists p, p ∈ ps /\ in_blocks (p_free p) x.

Definition bytes (l : blocks) : Z := foldr (fun b t => snd b + t) 0 l.
Definition total_free (ps : list pool) : Z := foldr (fun p t => bytes (p_free p) + t) 0 ps.

(** ** Block lists *)

Lemma page_pow2_pos s : page_pow2 s -> 4096 <= s.
Proof. intros (k & Hk & ->). apply (Z.pow_le_mono_r 2 12); lia. Qed.

Lemma page_pow2_bound s : page_pow2 s -> s < 2 ^ 64.
Proof. intros (k & Hk & ->). apply Z.pow_lt_mono_r; lia. Qed.

Lemma in_blocks_cons b l x : in_blocks (b :: l) x <-> within (fst b) (snd b) x \/ in_blocks l x.
Proof.
  unfold in_blocks. split.
  - intros (c & [->|Hc]%elem_of_cons & Hx); [by left|right; by exists c].
  - intros [Hx|(c & Hc & Hx)]; [exists b|exists c]; (split; [|done]); by constructor.
Qed.

Lemma in_blocks_app l1 l2 x : in_blocks (l1 ++ l2) x <-> in_blocks l1 x \/ in_blocks l2 x.
Proof.
  unfold in_blocks. split.
  - intros (c & [Hc|Hc]%elem_of_app & Hx); [left|right]; by exists c.
  - intros [(c & Hc & Hx)|(c & Hc & Hx)]; exists c; (split; [apply elem_of_app|]); auto.
Qed.

Lemma in_blocks_nil x : ~ in_blocks [] x.
Proof. by intros (c & Hc%elem_of_nil & _). Qed.

Lemma bytes_app l1 l2 : bytes (l1 ++ l2) = bytes l1 + bytes l2.
Proof. induction l1 as [|b l1 IH]; simpl; lia. Qed.

Lemma blocks_ok_le base lo e l : blocks_ok base lo e l -> lo <= e.
Proof. induction l as [|[p s] l IH]; simpl; [done|]. intros (_ & _ & _ & _ & _ & H). auto. Qed.

Lemma blocks_ok_weaken base lo lo' e e' l :
  lo' <= lo -> e <= e' -> blocks_ok base lo e l -> blocks_ok base lo' e' l.
Proof.
  intros Hlo He. induction l as [|[p s] l IH]; simpl; [lia|]. intros (? & ? & ? & ? & ? & ?). split_and!; try done; [lia|lia|auto].
Qed.

Lemma blocks_ok_elem base lo e l b :
  blocks_ok base lo e l -> b ∈ l ->
  lo <= fst b /\ page_pow2 (snd b) /\ (snd b | fst b - base) /\ fst b + snd b <= e.
Proof.
  induction l as [|[p s] l IH]; simpl; [by intros _ ?%elem_of_nil|].
  intros (H1 & H2 & H3 & H4 & _ & H5) [->|Hb]%elem_of_cons; [done|auto].
Qed.

Lemma blocks_ok_range base lo e l x : blocks_ok base lo e l -> in_blocks l x -> lo <= x < e.
Proof. intros Hok (b & Hb & Hx). destruct (blocks_ok_elem _ _ _ _ _ Hok Hb) as (? & _ & _ & ?). unfold within in Hx. lia. Qed.

Lemma block_apart_sym b c : block_apart b c -> block_apart c b.
Proof. unfold block_apart. lia. Qed.

(** Parts of disjoint blocks are disjoint. *)
Lemma block_apart_part b c d : block_apart b c -> fst c <= fst d -> fst d + snd d <= fst c + snd c -> block_apart b d.
Proof. unfold block_apart. lia. Qed.

Lemma block_apart_bytes b c x : block_apart b c -> within (fst b) (snd b) x -> ~ within (fst c) (snd c) x.
Proof. unfold block_apart, within. lia. Qed.

Lemma blocks_ok_app base lo e l1 l2 :
  blocks_ok base lo e (l1 ++ l2) <->
  blocks_ok base lo e l1 /\ blocks_ok base lo e l2 /\ Forall (fun b => Forall (block_apart b) l2) l1.
Proof.
  induction l1 as [|[p s] l1 IH]; simpl.
  - split; [|tauto]. intros H. split_and!; [by apply blocks_ok_le in H|done|done].
  - rewrite IH, Forall_app, Forall_cons. tauto.
Qed.

(** A free block's bytes are in no other free block. *)
Lemma blocks_ok_middle base lo e l1 b l2 x :
  blocks_ok base lo e (l1 ++ b :: l2) -> within (fst b) (snd b) x -> ~ in_blocks (l1 ++ l2) x.
Proof.
  destruct b as [p s]. intros (_ & (_ & _ & _ & _ & H2 & _) & H1)%blocks_ok_app Hx (c & [Hc|Hc]%elem_of_app & Hcx); simpl in *.
  - rewrite Forall_forall in H1. specialize (H1 c Hc). apply Forall_cons in H1 as [H1 _]. by apply (block_apart_bytes c (p, s) x).
  - rewrite Forall_forall in H2. by apply (block_apart_bytes (p, s) c x); [apply H2| |].
Qed.

(** Headers of well-formed blocks do not overlap. *)
Lemma blocks_ok_hdrs base lo e l : blocks_ok base lo e l -> hdrs_apart l.
Proof.
  induction l as [|[p s] l IH]; simpl; [done|].
  intros (H1 & H2%page_pow2_pos & _ & H3 & H4 & H5). split; [|auto].
  rewrite Forall_forall in *. intros b Hb. specialize (H4 b Hb).
  destruct (blocks_ok_elem _ _ _ _ _ H5 Hb) as (_ & Hs%page_pow2_pos & _). unfold block_apart, apart, HDRSIZE in *. simpl in *. lia.
Qed.

Lemma blocks_ok_cell base lo e l a n :
  blocks_ok base lo e l -> apart a n lo (e - lo) -> 8 <= n -> cell_apart a l.
Proof.
  intros Hok Ha Hn. apply Forall_forall. intros b Hb.
  destruct (blocks_ok_elem _ _ _ _ _ Hok Hb) as (Hlo & Hs%page_pow2_pos & _ & Hhi).
  unfold apart, HDRSIZE in *. lia.
Qed.

(** ** Splitting *)

Lemma split_count_pow2 s sz :
  page_pow2 s -> page_pow2 sz -> sz <= s -> s = sz * 2 ^ Z.of_nat (split_count s sz).
Proof.
  intros (k & Hk & ->) (j & Hj & ->) Hle. unfold split_count.
  assert (j <= k) by (apply (Z.pow_le_mono_r_iff 2); lia).
  rewrite !Z.log2_pow2, Z2Nat.id, <- Z.pow_add_r by lia. f_equal. lia.
Qed.

Lemma bytes_halves p sz n : bytes (halves p sz n) = sz * 2 ^ Z.of_nat n - sz.
Proof.
  induction n as [|n IH]; simpl halves; [simpl; lia|].
  rewrite bytes_app, IH. simpl. rewrite Nat2Z.inj_succ, Z.pow_succ_r by lia. lia.
Qed.

Lemma halves_ok base p sz n :
  page_pow2 sz -> (sz * 2 ^ Z.of_nat n | p - base) -> page_pow2 (sz * 2 ^ Z.of_nat n) ->
  blocks_ok base (p + sz) (p + sz * 2 ^ Z.of_nat n) (halves p sz n).
Proof.
  intros Hsz. induction n as [|n IH]; intros Hdiv Hpow; simpl halves; [simpl; lia|].
  rewrite Nat2Z.inj_succ, Z.pow_succ_r in * by lia.
  assert (Hpow' : page_pow2 (sz * 2 ^ Z.of_nat n)).
  { destruct Hsz as (j & Hj & ->), Hpow as (k & Hk & Heq).
    exists (j + Z.of_nat n). rewrite Z.pow_add_r by lia. split; [|done].
    rewrite <- Z.pow_succ_r, <- Z.pow_add_r in Heq by lia.
    apply Z.pow_inj_r in Heq; lia. }
  specialize (IH ltac:(etrans; [|exact Hdiv]; exists 2; lia) Hpow'). pose proof (page_pow2_pos _ Hsz). pose proof (page_pow2_pos _ Hpow').
  pose proof (blocks_ok_le _ _ _ _ IH). apply blocks_ok_app. split; [by eapply blocks_ok_weaken; [| |exact IH]; lia|]. split.
  - simpl. split_and!; [lia|done| |lia|done|lia].
    replace (p + sz * 2 ^ Z.of_nat n - base) with (p - base + sz * 2 ^ Z.of_nat n) by lia.
    apply Z.divide_add_r; [|done]. etrans; [|exact Hdiv]. exists 2. lia.
  - apply Forall_forall. intros b Hb. apply Forall_singleton. destruct (blocks_ok_elem _ _ _ _ _ IH Hb) as (_ & _ & _ & ?). left. simpl. lia.
Qed.

Lemma in_halves p sz n x :
  0 < sz -> in_blocks (halves p sz n) x <-> p + sz <= x < p + sz * 2 ^ Z.of_nat n.
Proof.
  intros Hsz. induction n as [|n IH]; simpl halves.
  { split; [by intros ?%in_blocks_nil|]. simpl. lia. }
  rewrite in_blocks_app, IH, in_blocks_cons, Nat2Z.inj_succ, Z.pow_succ_r by lia.
  unfold within. simpl.
  assert (sz * 1 <= sz * 2 ^ Z.of_nat n) by (apply Z.mul_le_mono_nonneg_l; lia).
  split; [intros [?|[?|[]%in_blocks_nil]]; lia|]. lia.
Qed.

(** ** First fit *)

Lemma fit_Some sz l r l' :
  fit sz l = Some (r, l') ->
  exists l1 s l2, l = l1 ++ (r, s) :: l2 /\ sz <= s /\ Forall (fun b => snd b < sz) l1 /\
    l' = l1 ++ halves r sz (split_count s sz) ++ l2.
Proof.
  revert l'. induction l as [|[p s] l IH]; intros l'; simpl; [done|].
  destruct (Z.leb_spec sz s) as [Hle|Hlt].
  - intros [= <- <-]. by exists [], s, l.
  - destruct (fit sz l) as [[r' l'']|]; simpl; [|done]. intros [= <- <-].
    destruct (IH l'' eq_refl) as (l1 & s' & l2 & -> & Hle & Hl1 & ->).
    exists ((p, s) :: l1), s', l2. split_and!; try done. by constructor.
Qed.

Lemma fit_None sz l : fit sz l = None <-> Forall (fun b => snd b < sz) l.
Proof.
  induction l as [|[p s] l IH]; simpl; [done|]. rewrite Forall_cons, <- IH. simpl.
  destruct (Z.leb_spec sz s) as [Hle|Hlt]; [split; [done|lia]|].
  destruct (fit sz l) as [[]|]; simpl; naive_solver.
Qed.

Lemma fit_skip sz l1 l2 :
  Forall (fun b => snd b < sz) l1 ->
  fit sz (l1 ++ l2) = '(r, l') ← fit sz l2; Some (r, l1 ++ l').
Proof.
  induction 1 as [|[p s] l1 Hs _ IH]; simpl in *; [by destruct (fit sz l2) as [[]|]|].
  destruct (Z.leb_spec sz s); [lia|]. rewrite IH. by destruct (fit sz l2) as [[]|].
Qed.

(** What a successful allocation of [sz] bytes at [r] does to a free list. *)
Record carved (base lo e sz r : Z) (l l' : blocks) : Prop := {
  cv_ok : blocks_ok base lo e l';
  cv_align : (sz | r - base);
  cv_in : lo <= r /\ r + sz <= e;
  cv_free : forall x, in_blocks l x <-> in_blocks l' x \/ within r sz x;
  cv_apart : forall x, in_blocks l' x -> ~ within r sz x;
  cv_bytes : bytes l = bytes l' + sz;
}.

(** Blocks inside the block [(r, s)] in its place. *)
Lemma carve_ok base lo e l1 r s l2 h from :
  blocks_ok base lo e (l1 ++ (r, s) :: l2) -> r <= from -> blocks_ok base from (r + s) h -> blocks_ok base lo e (l1 ++ h ++ l2).
Proof.
  intros (Hok1 & (Hlo & Hs & Hdiv & Hhi & Hap2 & Hok2) & Hap1)%blocks_ok_app Hr Hh.
  assert (Hpart : forall b c, block_apart b (r, s) -> c ∈ h -> block_apart b c).
  { intros b c Hb Hc. destruct (blocks_ok_elem _ _ _ _ _ Hh Hc) as (? & _ & _ & ?). eapply block_apart_part; [exact Hb|simpl; lia|simpl; lia]. }
  rewrite Forall_forall in Hap1, Hap2. rewrite !blocks_ok_app. split; [done|]. split; [split; [by eapply blocks_ok_weaken; [| |exact Hh]; lia|split; [done|]]|].
  - apply Forall_forall. intros c Hc. apply Forall_forall. intros b Hb. apply block_apart_sym, Hpart; [by apply block_apart_sym, Hap2|done].
  - apply Forall_forall. intros b Hb. specialize (Hap1 b Hb). apply Forall_cons in Hap1 as [H1 H2]. apply Forall_app. split; [|done].
    apply Forall_forall. intros c Hc. by apply Hpart.
Qed.

Lemma ascending_app l1 l2 : ascending (l1 ++ l2) <-> ascending l1 /\ ascending l2 /\ forall b c, b ∈ l1 -> c ∈ l2 -> fst b < fst c.
Proof.
  induction l1 as [|b l1 IH]; simpl; [split; [intros H; split_and!; [done|done|by intros b c ?%elem_of_nil]|tauto]|].
  rewrite IH, Forall_app, (Forall_forall _ l2). split.
  - intros [[H1 H2] (H3 & H4 & H5)]. split_and!; try done. intros b' c [->|Hb]%elem_of_cons Hc; auto.
  - intros ([H1 H2] & H3 & H4). split_and!; try done; [intros c Hc|intros b' c Hb Hc]; apply H4; [by left|done|by right|done].
Qed.

Lemma halves_ascending p sz n : 0 < sz -> ascending (halves p sz n).
Proof.
  intros Hsz. induction n as [|n IH]; simpl; [done|]. apply ascending_app. split; [done|]. split; [done|].
  intros b c Hb ->%list_elem_of_singleton. assert (Hin : in_blocks (halves p sz n) (fst b) \/ snd b <= 0).
  { destruct (decide (snd b <= 0)); [by right|left]. exists b. split; [done|unfold within; lia]. }
  destruct Hin as [Hin|Hneg]; [apply in_halves in Hin; simpl; lia|]. exfalso. clear IH. induction n as [|n IH]; simpl in Hb; [by apply elem_of_nil in Hb|].
  apply elem_of_app in Hb as [Hb| ->%list_elem_of_singleton]; [auto|]. simpl in Hneg. assert (0 < sz * 2 ^ Z.of_nat n) by (apply Z.mul_pos_pos; lia). lia.
Qed.

Lemma fit_carved base lo e sz l r l' :
  blocks_ok base lo e l -> page_pow2 sz -> fit sz l = Some (r, l') ->
  carved base lo e sz r l l'.
Proof.
  intros Hok Hsz (l1 & s & l2 & -> & Hle & Hl1 & ->)%fit_Some.
  pose proof Hok as (Hok1 & (Hlo & Hs & Hdiv & Hhi & Hap2 & Hok2) & Hap1)%blocks_ok_app.
  pose proof (split_count_pow2 s sz Hs Hsz Hle) as Hsplit.
  set (n := split_count s sz) in *. clearbody n. pose proof (page_pow2_pos _ Hsz) as Hszpos.
  assert (Hin : forall x, in_blocks (halves r sz n) x <-> r + sz <= x < r + s).
  { intros x. rewrite in_halves, <- Hsplit by lia. done. }
  assert (Hhalves : blocks_ok base (r + sz) (r + s) (halves r sz n)) by (rewrite Hsplit at 1; apply halves_ok; rewrite <- ?Hsplit; done).
  split.
  - by apply (carve_ok base lo e l1 r s l2 (halves r sz n) (r + sz)); [|lia|].
  - etrans; [|exact Hdiv]. exists (2 ^ Z.of_nat n). lia.
  - lia.
  - intros x. rewrite !in_blocks_app, in_blocks_cons, Hin. unfold within. simpl. split.
    + intros [?|[?|?]]; [tauto| |tauto].
      destruct (decide (x < r + sz)); [right; lia|left; right; left; lia].
    + intros [[?|[?|?]]|?]; try tauto; right; left; lia.
  - intros x. rewrite !in_blocks_app, Hin. unfold within. intros Hx Hw.
    assert (Hx' : in_blocks (l1 ++ l2) x) by (rewrite in_blocks_app; destruct Hx as [?|[?|?]]; [by left|lia|by right]).
    by apply (blocks_ok_middle _ _ _ l1 (r, s) l2 x Hok); [unfold within; simpl; lia|].
  - rewrite !bytes_app. simpl. rewrite bytes_halves. lia.
Qed.

(** ... and keeps address order. *)
Lemma fit_ascending base lo e sz l r l' :
  blocks_ok base lo e l -> page_pow2 sz -> fit sz l = Some (r, l') -> ascending l -> ascending l'.
Proof.
  intros Hok Hsz (l1 & s & l2 & -> & Hle & _ & ->)%fit_Some Hasc.
  pose proof Hok as (_ & (_ & Hs & Hdiv & _) & _)%blocks_ok_app. pose proof (split_count_pow2 s sz Hs Hsz Hle) as Hsplit.
  set (n := split_count s sz) in *. clearbody n. pose proof (page_pow2_pos _ Hsz).
  assert (Hh : blocks_ok base (r + sz) (r + s) (halves r sz n)) by (rewrite Hsplit at 1; apply halves_ok; rewrite <- ?Hsplit; done).
  pose proof Hok as (_ & (_ & _ & _ & _ & Hap2 & Hok2) & _)%blocks_ok_app.
  apply ascending_app in Hasc as (H1 & [H2' H2] & H12).
  assert (Hb : forall b, b ∈ halves r sz n -> r < fst b /\ fst b + snd b <= r + s).
  { intros b Hb. destruct (blocks_ok_elem _ _ _ _ _ Hh Hb) as (? & _ & _ & ?). lia. }
  rewrite Forall_forall in H2', Hap2.
  apply ascending_app. split; [done|]. split; [apply ascending_app; split; [apply halves_ascending; lia|split; [done|]]|].
  - intros b c Hb' Hc. specialize (H2' c Hc). specialize (Hap2 c Hc). specialize (Hb b Hb'). unfold block_apart in Hap2. simpl in *.
    destruct (blocks_ok_elem _ _ _ _ _ Hok2 Hc) as (_ & Hc2%page_pow2_pos & _). destruct (blocks_ok_elem _ _ _ _ _ Hh Hb') as (_ & Hb2%page_pow2_pos & _). lia.
  - intros b c Hb' [Hc|Hc]%elem_of_app; [|apply H12; [done|by right]].
    pose proof (H12 b (r, s) Hb' ltac:(by left)) as H3. specialize (Hb c Hc). simpl in H3. lia.
Qed.

(** ** Allocation over the pools *)

Lemma alloc_pools_Some sz ps r qs :
  alloc_pools sz ps = Some (r, qs) ->
  exists ps1 p ps2 l, ps = ps1 ++ p :: ps2 /\ fit sz (p_free p) = Some (r, l) /\
    Forall (fun q => fit sz (p_free q) = None) ps1 /\
    qs = ps1 ++ Pool (p_base p) (p_end p) l :: ps2.
Proof.
  revert qs. induction ps as [|p ps IH]; intros qs; simpl; [done|].
  destruct (fit sz (p_free p)) as [[r' l]|] eqn:E.
  - intros [= <- <-]. by exists [], p, ps, l.
  - destruct (alloc_pools sz ps) as [[r' qs']|]; simpl; [|done]. intros [= <- <-].
    destruct (IH qs' eq_refl) as (ps1 & q & ps2 & l & -> & Hf & Hn & ->).
    exists (p :: ps1), q, ps2, l. split_and!; try done. by constructor.
Qed.

Definition ordered (ps : list pool) : Prop := Forall (fun p => ascending (p_free p)) ps.

Lemma alloc_pools_ordered sz ps r qs : Forall pool_ok ps -> page_pow2 sz -> alloc_pools sz ps = Some (r, qs) -> ordered ps -> ordered qs.
Proof.
  intros Hok Hsz (ps1 & p & ps2 & l & -> & Hfit & _ & ->)%alloc_pools_Some. unfold ordered. rewrite !Forall_app, !Forall_cons in *.
  destruct Hok as (_ & Hp & _). intros (H1 & H2 & H3). split_and!; [done| |done]. exact (fit_ascending _ _ _ _ _ _ _ (po_free _ Hp) Hsz Hfit H2).
Qed.

Lemma alloc_pools_None sz ps :
  alloc_pools sz ps = None <-> Forall (fun p => fit sz (p_free p) = None) ps.
Proof.
  induction ps as [|p ps IH]; simpl; [done|]. rewrite Forall_cons, <- IH.
  destruct (fit sz (p_free p)) as [[]|]; [naive_solver|].
  destruct (alloc_pools sz ps) as [[]|]; simpl; naive_solver.
Qed.

Lemma free_bytes_app ps qs x : free_bytes (ps ++ qs) x <-> free_bytes ps x \/ free_bytes qs x.
Proof.
  unfold free_bytes. split.
  - intros (p & [Hp|Hp]%elem_of_app & Hx); [left|right]; by exists p.
  - intros [(p & Hp & Hx)|(p & Hp & Hx)]; exists p; (split; [apply elem_of_app|]); auto.
Qed.

Lemma free_bytes_cons p ps x : free_bytes (p :: ps) x <-> in_blocks (p_free p) x \/ free_bytes ps x.
Proof.
  unfold free_bytes. split.
  - intros (q & [->|Hq]%elem_of_cons & Hx); [by left|right; by exists q].
  - intros [Hx|(q & Hq & Hx)]; [exists p|exists q]; (split; [|done]); by constructor.
Qed.

Lemma total_free_app ps qs : total_free (ps ++ qs) = total_free ps + total_free qs.
Proof. induction ps as [|p ps IH]; simpl; lia. Qed.

Lemma pools_apart_app ps qs :
  pools_apart (ps ++ qs) <->
  pools_apart ps /\ pools_apart qs /\ Forall (fun p => Forall (pool_apart p) qs) ps.
Proof.
  induction ps as [|p ps IH]; simpl; [naive_solver|]. rewrite IH, Forall_app, Forall_cons. tauto.
Qed.

(** Replacing a pool by one with the same bounds. *)
Lemma pools_apart_swap ps1 p l ps2 :
  pools_apart (ps1 ++ p :: ps2) -> pools_apart (ps1 ++ Pool (p_base p) (p_end p) l :: ps2).
Proof.
  rewrite !pools_apart_app. simpl. intros (H1 & (H2 & H3) & H4). split_and!; try done.
  eapply Forall_impl; [exact H4|]. intros q. rewrite !Forall_cons. intros [H5 H6].
  split; [|done]. exact H5.
Qed.

Lemma pool_ok_in p x : pool_ok p -> in_blocks (p_free p) x -> p_base p <= x < p_end p.
Proof. intros [_ _ _ H]. by apply (blocks_ok_range _ _ _ _ _ H). Qed.

(** The bytes of a free block of one pool are in no other pool's blocks. *)
Lemma other_pools_apart ps1 p ps2 x :
  pools_apart (ps1 ++ p :: ps2) -> Forall pool_ok (ps1 ++ p :: ps2) ->
  p_base p <= x < p_end p -> ~ free_bytes (ps1 ++ ps2) x.
Proof.
  rewrite pools_apart_app, Forall_app, Forall_cons. simpl.
  intros (_ & (Hp & _) & H1) (Hok1 & _ & Hok2) Hx (q & Hq & Hqx).
  rewrite Forall_forall in *. apply elem_of_app in Hq as [Hq|Hq].
  - specialize (H1 q Hq). rewrite Forall_cons in H1. destruct H1 as [H1 _].
    pose proof (pool_ok_in q x (Hok1 q Hq) Hqx). unfold pool_apart in H1. lia.
  - specialize (Hp q Hq). pose proof (pool_ok_in q x (Hok2 q Hq) Hqx).
    unfold pool_apart in Hp. lia.
Qed.

(** The contract of an allocation on the abstract state. *)
Record allocated (sz r : Z) (ps qs : list pool) : Prop := {
  al_ok : Forall pool_ok qs;
  al_apart : pools_apart qs;
  al_align : exists p, p ∈ ps /\ p_base p <= r /\ r + sz <= p_end p /\ (sz | r - p_base p);
  al_free : forall x, free_bytes ps x <-> free_bytes qs x \/ within r sz x;
  al_fresh : forall x, free_bytes qs x -> ~ within r sz x;
  al_bytes : total_free ps = total_free qs + sz;
}.

Lemma alloc_pools_allocated sz ps r qs :
  Forall pool_ok ps -> pools_apart ps -> page_pow2 sz ->
  alloc_pools sz ps = Some (r, qs) -> allocated sz r ps qs.
Proof.
  intros Hok Hap Hsz (ps1 & p & ps2 & l & -> & Hfit & _ & ->)%alloc_pools_Some.
  pose proof Hok as Hok'. rewrite Forall_app, Forall_cons in Hok'.
  destruct Hok' as (Hok1 & Hp & Hok2). pose proof Hp as [Hb He Hsize Hfree].
  destruct (fit_carved _ _ _ _ _ _ _ Hfree Hsz Hfit) as [Cok Calign Cin Cfree Capart Cbytes].
  split.
  - rewrite Forall_app, Forall_cons. by split_and!.
  - by apply pools_apart_swap.
  - exists p. split_and!; [set_solver| | |done]; lia.
  - intros x. rewrite !free_bytes_app, !free_bytes_cons, Cfree. simpl. tauto.
  - intros x Hx Hw. rewrite free_bytes_app, free_bytes_cons in Hx. simpl in Hx.
    assert (p_base p <= x < p_end p) by (unfold within in Hw; lia).
    destruct Hx as [Hx|[Hx|Hx]].
    + apply (other_pools_apart ps1 p ps2 x); try done. rewrite free_bytes_app. by left.
    + by apply (Capart x).
    + apply (other_pools_apart ps1 p ps2 x); try done. rewrite free_bytes_app. by right.
  - rewrite !total_free_app. simpl. lia.
Qed.

(** ** Buddies *)

Lemma lxor_pow2 o k :
  0 <= k -> (2 ^ k | o) ->
  Z.lxor o (2 ^ k) = if decide ((2 ^ (k + 1) | o)) then o + 2 ^ k else o - 2 ^ k.
Proof.
  intros Hk [q ->].
  rewrite <- Z.shiftl_mul_pow2 by done. rewrite <- (Z.shiftl_1_l k) at 1.
  rewrite <- Z.shiftl_lxor, !Z.shiftl_mul_pow2 by done.
  rewrite Z.pow_add_r by lia. pose proof (Z.pow_pos_nonneg 2 k ltac:(lia) Hk) as Hpos.
  assert (Hq : Z.lxor q 1 = if Z.even q then q + 1 else q - 1).
  { destruct (Z.Even_or_Odd q) as [[c ->]|[c ->]].
    - rewrite Z.even_mul. simpl orb. cbv iota.
      rewrite Z.add_nocarry_lxor; [done|].
      apply Z.bits_inj'. intros i Hi. rewrite Z.land_spec, Z.bits_0.
      destruct (Z.eq_dec i 0) as [->|]; [by rewrite Z.testbit_even_0|].
      rewrite (Z.bits_above_log2 1) by (simpl; lia). by rewrite andb_false_r.
    - rewrite Z.even_add, Z.even_mul. simpl.
      replace (2 * c + 1 - 1) with (2 * c) by lia.
      apply Z.bits_inj'. intros i Hi. rewrite Z.lxor_spec.
      destruct (Z.eq_dec i 0) as [->|].
      + rewrite Z.testbit_odd_0, Z.testbit_even_0. done.
      + rewrite (Z.bits_above_log2 1) by (simpl; lia). rewrite xorb_false_r.
        replace i with (Z.succ (i - 1)) by lia.
        by rewrite Z.testbit_odd_succ, Z.testbit_even_succ by lia. }
  rewrite Hq. case_decide as Hd; destruct (Z.even q) eqn:E; try lia; exfalso.
  - destruct Hd as [c Hc]. replace (c * (2 ^ k * 2 ^ 1)) with (c * 2 * 2 ^ k) in Hc by lia.
    apply Z.mul_reg_r in Hc; [|lia]. subst q. by rewrite Z.even_mul, orb_true_r in E.
  - apply Hd. apply Z.even_spec in E as [c ->]. exists c. lia.
Qed.

Lemma buddy_of_cases base page sz :
  page_pow2 sz -> (sz | page - base) ->
  (buddy_of base page sz = page + sz /\ (2 * sz | page - base)) \/
  (buddy_of base page sz = page - sz /\ (2 * sz | page - sz - base)).
Proof.
  intros (k & Hk & ->) Hdiv. unfold buddy_of. rewrite lxor_pow2 by (lia || done).
  replace (2 * 2 ^ k) with (2 ^ (k + 1)) by (rewrite Z.pow_add_r; lia).
  case_decide as Hd; [left; split; [lia|done]|right; split; [lia|]].
  destruct Hdiv as [q Hq]. rewrite Z.pow_add_r by lia.
  destruct (Z.Even_or_Odd q) as [[c ->]|[c ->]].
  - destruct Hd. rewrite Z.pow_add_r by lia. exists c. lia.
  - exists c. replace (page - 2 ^ k - base) with (page - base - 2 ^ k) by lia. lia.
Qed.

(** ** Freeing *)

(** [page, sz] is a block of the pool, free of overlap with the list, and the
    block found at its buddy's address, if any, has its size. *)
Record freeable (base lo e page sz : Z) (l : blocks) : Prop := {
  fr_size : page_pow2 sz;
  fr_align : (sz | page - base);
  fr_in : lo <= page /\ page + sz <= e;
  fr_apart : forall x, in_blocks l x -> ~ within page sz x;
  fr_buddy : forall s, (buddy_of base page sz, s) ∈ l -> s = sz;
}.

(** The blocks the walk has passed. *)
Definition passed (base page sz : Z) (l : blocks) : Prop := Forall (fun b => fst b <> buddy_of base page sz /\ fst b <= page) l.

Lemma free_walk_skip base page sz start l1 l2 : passed base page sz l1 ->
  free_walk base page sz start (l1 ++ l2) = free_walk base page sz start l2.
Proof.
  induction 1 as [|[p s] l1 [H1 H2] _ IH]; [done|]. simpl in *. rewrite IH.
  destruct (Z.eqb_spec p (buddy_of base page sz)); [done|]. by destruct (Z.ltb_spec page p); [lia|].
Qed.

(** The walk meets the buddy, or it does not and the page becomes the head. *)
Lemma free_walk_cases base page sz start l :
  (exists l1 s l2, l = l1 ++ (buddy_of base page sz, s) :: l2 /\ before_buddy base page sz l = Some l1 /\
     free_walk base page sz start l = (Z.min (buddy_of base page sz) page, s + sz) :: l2) \/
  (before_buddy base page sz l = None /\ free_walk base page sz start l = (page, sz) :: start).
Proof.
  induction l as [|[p s] l IH]; simpl; [by right|].
  destruct (Z.eqb_spec p (buddy_of base page sz)) as [->|Hne]; [left; by exists [], s, l|].
  destruct (Z.ltb_spec page p); [by right|]. destruct IH as [(l1 & t & l2 & -> & E1 & E2)|[E1 E2]]; rewrite E1, E2; [left|by right].
  by exists ((p, s) :: l1), t, l2.
Qed.

Lemma lost_blocks_in base page sz l x : in_blocks (lost_blocks base page sz l) x -> in_blocks l x.
Proof.
  unfold lost_blocks. destruct (free_walk_cases base page sz l l) as [(l1 & s & l2 & El & -> & _)|[-> _]]; simpl.
  - rewrite El, in_blocks_app. by left.
  - by intros ?%in_blocks_nil.
Qed.

(** Merging two buddies gives a well-formed block of twice the size. *)
Lemma merge_ok base lo e page sz : 0 <= lo -> e < 2 ^ 64 -> page_pow2 sz -> (sz | page - base) ->
  lo <= page -> page + sz <= e -> let p := buddy_of base page sz in lo <= p -> p + sz <= e ->
  page_pow2 (sz + sz) /\ (sz + sz | Z.min p page - base) /\
  (forall x, within (Z.min p page) (sz + sz) x <-> within p sz x \/ within page sz x).
Proof.
  intros Hlo He Hsz Hal H1 H2 p H3 H4. pose proof (page_pow2_pos _ Hsz). split.
  - destruct Hsz as (k & Hk & ->). exists (k + 1). assert (E : 2 ^ (k + 1) = 2 ^ k + 2 ^ k) by (rewrite Z.pow_add_r; lia).
    split; [|done]. split; [lia|]. apply (Z.pow_lt_mono_r_iff 2); [lia|lia|].
    destruct (buddy_of_cases base page (2 ^ k)) as [[Hb _]|[Hb _]]; [exists k; lia|done|unfold p in *; lia|unfold p in *; lia].
  - replace (sz + sz) with (2 * sz) by lia. destruct (buddy_of_cases base page sz Hsz Hal) as [[Hb Hd]|[Hb Hd]]; unfold p in *; rewrite Hb in *.
    + rewrite Z.min_r by lia. split; [done|unfold within; lia].
    + rewrite Z.min_l by lia. split; [done|unfold within; lia].
Qed.

(** What freeing [sz] bytes at [page] does to a free list; [lost] are the blocks that
    drop out of it. *)
Record returned (base lo e page sz : Z) (lost l l' : blocks) : Prop := {
  rt_ok : blocks_ok base lo e l';
  rt_free : forall x, in_blocks l' x <-> (in_blocks l x \/ within page sz x) /\ ~ in_blocks lost x;
  rt_bytes : bytes l' + bytes lost = bytes l + sz;
}.

Lemma apart_blocks b l : 0 < snd b -> Forall (fun c => 0 < snd c) l ->
  (forall x, in_blocks l x -> ~ within (fst b) (snd b) x) -> Forall (block_apart b) l.
Proof.
  intros Hb Hl H. rewrite Forall_forall in *. intros c Hc. specialize (Hl c Hc). unfold block_apart.
  destruct (decide (fst b + snd b <= fst c)); [by left|right]. destruct (decide (fst c + snd c <= fst b)); [done|exfalso].
  apply (H (Z.max (fst b) (fst c))); [exists c; split; [done|]|]; unfold within; lia.
Qed.

Lemma blocks_ok_sizes base lo e l : blocks_ok base lo e l -> Forall (fun c => 0 < snd c) l.
Proof. intros Hok. apply Forall_forall. intros b Hb. destruct (blocks_ok_elem _ _ _ _ _ Hok Hb) as (_ & ?%page_pow2_pos & _). lia. Qed.

Lemma free_list_returned base lo e page sz l :
  0 <= lo -> e < 2 ^ 64 -> blocks_ok base lo e l -> freeable base lo e page sz l ->
  returned base lo e page sz (lost_blocks base page sz l) l (free_list base page sz l).
Proof.
  intros Hlo He Hok Hfr. pose proof Hfr as [Hsz Hal [Hin1 Hin2] Hap Hbud]. pose proof (page_pow2_pos _ Hsz).
  unfold free_list, lost_blocks. destruct (free_walk_cases base page sz l l) as [(l1 & s & l2 & El & -> & ->)|[-> ->]]; simpl.
  - assert (s = sz) as -> by (apply Hbud; rewrite El; set_solver). rewrite El in Hok, Hap. rewrite El.
    pose proof Hok as (_ & (Hb1 & _ & _ & Hb2 & Hap2 & Hok2) & _)%blocks_ok_app.
    destruct (merge_ok base lo e page sz) as (Hm1 & Hm2 & Hm3); try done. set (q := buddy_of base page sz) in *.
    assert (Hapart : forall x, in_blocks (l1 ++ l2) x -> ~ within (Z.min q page) (sz + sz) x).
    { intros x Hx [Hw|Hw]%Hm3; [by apply (blocks_ok_middle _ _ _ l1 (q, sz) l2 x Hok)|]. apply (Hap x); [|done].
      rewrite in_blocks_app in Hx. rewrite in_blocks_app, in_blocks_cons. tauto. }
    assert (Hlost : forall x, in_blocks l1 x -> ~ in_blocks ((q, sz) :: l2) x).
    { intros x Hx Hx'. pose proof Hok as (_ & _ & H12)%blocks_ok_app. destruct Hx as (b & Hb & Hxb), Hx' as (c & Hc & Hxc).
      rewrite Forall_forall in H12. specialize (H12 b Hb). rewrite Forall_forall in H12. by apply (block_apart_bytes b c x); [apply H12| |]. }
    assert (Hend : Z.min q page + (sz + sz) <= e).
    { destruct (proj1 (Hm3 (Z.min q page + (sz + sz) - 1))); unfold within in *; lia. }
    split.
    + simpl. split_and!; [lia|done|done|done| |done]. apply apart_blocks; [simpl; lia|by eapply blocks_ok_sizes|].
      intros x Hx. apply Hapart. rewrite in_blocks_app. by right.
    + intros x. rewrite in_blocks_cons, in_blocks_app, in_blocks_cons. simpl. rewrite Hm3. specialize (Hlost x). rewrite in_blocks_cons in Hlost. simpl in Hlost.
      assert (H1 : in_blocks l1 x -> ~ within page sz x) by (intros Hx; apply Hap; rewrite in_blocks_app; by left). tauto.
    + rewrite !bytes_app. simpl. lia.
  - split.
    + simpl. split_and!; [done|done|done|done| |done]. by apply apart_blocks; [simpl; lia|eapply blocks_ok_sizes|].
    + intros x. rewrite in_blocks_cons. simpl. pose proof (in_blocks_nil x). tauto.
    + simpl. lia.
Qed.

(** A block smaller than its pool has its buddy inside the pool. *)
Lemma buddy_in_pool p page sz :
  pool_ok p -> freeable (p_base p) (p_base p) (p_end p) page sz (p_free p) ->
  sz < p_end p - p_base p ->
  p_base p <= buddy_of (p_base p) page sz /\ buddy_of (p_base p) page sz + sz <= p_end p.
Proof.
  intros [_ _ (K & HK & HKe) _] [Hsz Hal Hin _ _] Hlt.
  pose proof (page_pow2_pos _ Hsz).
  assert (Hd : (2 * sz | p_end p - p_base p)).
  { destruct Hsz as (k & Hk & ->). rewrite HKe in *.
    apply (Z.pow_lt_mono_r_iff 2) in Hlt; [|lia|lia].
    exists (2 ^ (K - k - 1)). rewrite <- Z.pow_succ_r, <- Z.pow_add_r by lia. f_equal. lia. }
  destruct (buddy_of_cases _ _ _ Hsz Hal) as [[-> Hb]|[-> Hb]]; split; try lia.
  - assert (H1 : (2 * sz | p_end p - page)).
    { replace (p_end p - page) with (p_end p - p_base p - (page - p_base p)) by lia.
      by apply Z.divide_sub_r. }
    apply Z.divide_pos_le in H1; lia.
  - destruct Hb as [c Hc]. destruct (decide (0 <= c)).
    + assert (0 <= c * (2 * sz)) by (apply Z.mul_nonneg_nonneg; lia). lia.
    + assert (c * (2 * sz) <= -1 * (2 * sz)) by (apply Z.mul_le_mono_nonneg_r; lia). lia.
Qed.
