(* ===== verification/PageAlloc.v ===== *)
(** * kernel/page_alloc.c: the buddy page allocator

    [pools] points at an array of [n_pools] descriptors {start, base, end}; each
    pool keeps its free blocks in an in-place list ending at [end], meant to be in
    address order.  The functions below are the C functions, loops with fuel. *)
From S2P Require Import Prelude Memory Mem Pow2 State FreeList.

(** [struct pool]: field offsets and size. *)
Definition POOL_START : Z := 0.
Definition POOL_BASE : Z := 8.
Definition POOL_END : Z := 16.
Definition POOL_SIZE : Z := 24.

Definition pool_addr (i : Z) : M kernel Z :=
  p ← gets (fun s => pools (k_pa s)); mret (p + i * POOL_SIZE).

Definition pool_field (off i : Z) : M kernel Z := p ← pool_addr i; load64 (p + off).
Definition set_pool_start (i v : Z) : M kernel unit := p ← pool_addr i; store64 (p + POOL_START) v.

Definition get_buddy (addr base : Z) : M kernel Z :=
  size ← load64 addr;
  mret (add64 base (Z.lxor (sub64 addr base) size)).

(** The loop of [split]. *)
Fixpoint split_loop (fuel : nat) (b sz base : Z) : M kernel unit :=
  match fuel with
  | O => halt OutOfFuel
  | S k =>
      bsize ← load64 b;
      if bsize =? sz then mret tt else
      store64 b (Z.shiftr bsize 1) ;;
      bb ← get_buddy b base;
      bsize' ← load64 b; store64 bb bsize' ;;
      bnext ← load64 (b + NEXT); store64 (bb + NEXT) bnext ;;
      store64 (b + NEXT) bb ;;
      split_loop k b sz base
  end.

Definition split (fuel : nat) (b sz base : Z) : M kernel Z :=
  bsize ← load64 b;
  assert_test (sz <=? bsize) ;;
  split_loop fuel b sz base ;;
  mret b.

(** The search of pool [i]; [None] when its list is exhausted. *)
Fixpoint alloc_in_pool (fuel : nat) (i sz prev b : Z) : M kernel (option Z) :=
  match fuel with
  | O => halt OutOfFuel
  | S k =>
      e ← pool_field POOL_END i;
      if negb (b <? e) then mret None else
      bsize ← load64 b;
      if sz <=? bsize then
        base ← pool_field POOL_BASE i;
        res ← split fuel b sz base;
        rnext ← load64 (res + NEXT);
        (if negb (prev =? 0) then store64 (prev + NEXT) rnext else set_pool_start i rnext) ;;
        RELEASE set_pa_lock ;;
        mret (Some res)
      else
        bnext ← load64 (b + NEXT);
        alloc_in_pool k i sz b bnext
  end.

(** [for (i = 0; i < n_pools; ++i)], [n] pools being left. *)
Fixpoint alloc_in_pools (fuel n : nat) (i sz : Z) : M kernel (option Z) :=
  match n with
  | O => mret None
  | S n' =>
      start ← pool_field POOL_START i;
      r ← alloc_in_pool fuel i sz 0 start;
      match r with
      | Some res => mret (Some res)
      | None => alloc_in_pools fuel n' (i + 1) sz
      end
  end.

(** The sizes the allocator serves: powers of two, at least a page. *)
Definition page_round (sz : Z) : Z :=
  let sz := next_pow2 sz in if sz <? PAGE_SIZE then PAGE_SIZE else sz.

Definition page_alloc (fuel : nat) (sz : Z) : M kernel Z :=
  p ← gets (fun s => pools (k_pa s));
  assert_test (negb (p =? 0)) ;;
  ACQUIRE (fun s => pa_lock (k_pa s)) set_pa_lock ;;
  n ← gets (fun s => n_pools (k_pa s));
  r ← alloc_in_pools fuel (Z.to_nat n) 0 (page_round sz);
  match r with
  | Some res => mret res
  | None =>
      for_range (Z.to_nat n) 0 (fun i =>
        pool_field POOL_END i ;; pool_field POOL_START i ;; pool_field POOL_BASE i ;; mret tt) ;;
      halt Panic
  end.

(** The list walk of [page_free] in pool [i]: [prev] is never assigned in the loop. *)
Fixpoint free_in_pool (fuel : nat) (i page prev b : Z) : M kernel unit :=
  match fuel with
  | O => halt OutOfFuel
  | S k =>
      base ← pool_field POOL_BASE i;
      buddy ← get_buddy page base;
      if b =? buddy then
        let '(h, l) := if page <? b then (b, page) else (page, b) in
        hsize ← load64 h; lsize ← load64 l;
        store64 l (add64 lsize hsize) ;;
        bnext ← load64 (b + NEXT); store64 (l + NEXT) bnext ;;
        (if negb (prev =? 0) then store64 (prev + NEXT) l else set_pool_start i l)
      else if page <? b then
        if prev =? 0 then
          start ← pool_field POOL_START i; store64 (page + NEXT) start ;;
          set_pool_start i page
        else
          store64 (prev + NEXT) page ;; store64 (page + NEXT) b
      else
        e ← pool_field POOL_END i;
        if b =? e then
          store64 (prev + NEXT) page ;;
          e' ← pool_field POOL_END i; store64 (page + NEXT) e'
        else
          bnext ← load64 (b + NEXT);
          free_in_pool k i page prev bnext
  end.

(** [page < pools[i].base || page > pools[i].end] *)
Definition not_in_pool (i page : Z) : M kernel bool :=
  base ← pool_field POOL_BASE i;
  if page <? base then mret true else
  e ← pool_field POOL_END i;
  mret (e <? page).

Fixpoint free_in_pools (fuel n : nat) (i page : Z) : M kernel unit :=
  match n with
  | O => assert_test false
  | S n' =>
      out ← not_in_pool i page;
      if (out : bool) then free_in_pools fuel n' (i + 1) page
      else start ← pool_field POOL_START i; free_in_pool fuel i page 0 start
  end.

Definition page_free (fuel : nat) (page sz : Z) : M kernel unit :=
  ACQUIRE (fun s => pa_lock (k_pa s)) set_pa_lock ;;
  store64 page (page_round sz) ;;
  n ← gets (fun s => n_pools (k_pa s));
  free_in_pools fuel (Z.to_nat n) 0 page ;;
  RELEASE set_pa_lock.

Definition page_realloc (fuel : nat) (page oldsize newsize : Z) : M kernel Z :=
  res ← page_alloc fuel newsize;
  (if negb (page =? 0) then memcpy res page oldsize ;; page_free fuel page oldsize
   else mret tt) ;;
  mret res.

Definition page_zalloc (fuel : nat) (size : Z) : M kernel Z :=
  res ← page_alloc fuel size;
  (if negb (res =? 0) then memset res 0 size ;; mret tt else mret tt) ;;
  mret res.

(** ** More fuel never changes a result *)

Lemma split_loop_mono f f' b sz base :
  (f <= f')%nat -> approx (split_loop f b sz base) (split_loop f' b sz base).
Proof.
  revert f' b. induction f as [|f IH]; intros [|f'] b Hf; try lia; cbn [split_loop]; mono.
Qed.
#[export] Hint Resolve split_loop_mono : fuel.

Lemma split_mono f f' b sz base :
  (f <= f')%nat -> approx (split f b sz base) (split f' b sz base).
Proof. intros. unfold split. mono. Qed.
#[export] Hint Resolve split_mono : fuel.

Lemma alloc_in_pool_mono f f' i sz prev b :
  (f <= f')%nat -> approx (alloc_in_pool f i sz prev b) (alloc_in_pool f' i sz prev b).
Proof.
  revert f' prev b. induction f as [|f IH]; intros [|f'] prev b Hf; try lia; cbn [alloc_in_pool]; mono.
Qed.
#[export] Hint Resolve alloc_in_pool_mono : fuel.

Lemma alloc_in_pools_mono f f' n i sz :
  (f <= f')%nat -> approx (alloc_in_pools f n i sz) (alloc_in_pools f' n i sz).
Proof. intros Hf. revert i. induction n; intros i; cbn [alloc_in_pools]; mono. Qed.
#[export] Hint Resolve alloc_in_pools_mono : fuel.

Lemma page_alloc_mono f f' sz : (f <= f')%nat -> approx (page_alloc f sz) (page_alloc f' sz).
Proof. intros. unfold page_alloc. mono. Qed.
#[export] Hint Resolve page_alloc_mono : fuel.

Lemma free_in_pool_mono f f' i page prev b :
  (f <= f')%nat -> approx (free_in_pool f i page prev b) (free_in_pool f' i page prev b).
Proof.
  revert f' prev b. induction f as [|f IH]; intros [|f'] prev b Hf; try lia; cbn [free_in_pool]; mono.
Qed.
#[export] Hint Resolve free_in_pool_mono : fuel.

Lemma free_in_pools_mono f f' n i page :
  (f <= f')%nat -> approx (free_in_pools f n i page) (free_in_pools f' n i page).
Proof. intros Hf. revert i. induction n; intros i; cbn [free_in_pools]; mono. Qed.
#[export] Hint Resolve free_in_pools_mono : fuel.

Lemma page_free_mono f f' page sz : (f <= f')%nat -> approx (page_free f page sz) (page_free f' page sz).
Proof. intros. unfold page_free. mono. Qed.
#[export] Hint Resolve page_free_mono : fuel.
