(* ===== verification/PageRefine.v ===== *)
(** * kernel/page_alloc.c implements its abstract specification

    [repr s ps]: the memory and globals of [s] hold the pools [ps].  Under that
    relation [split], [page_alloc] and [page_free] compute what PageSpec.v says,
    leave every byte outside the free blocks alone, and release the lock. *)
From S2P Require Import Prelude Memory Mem Pow2 State FreeList PageSpec PageAlloc.

(** The descriptor at address [a] and the pool's memory hold the pool [p]. *)
Record pool_at (m : gmap Z Z) (a : Z) (p : pool) : Prop := {
  pl_base : read64 m (a + POOL_BASE) = Some (p_base p);
  pl_end : read64 m (a + POOL_END) = Some (p_end p);
  pl_list : seg m (a + POOL_START) (p_end p) (p_free p);
  pl_mapped : mapped m (p_base p) (p_end p - p_base p);
}.

Definition desc (P : Z) (i : nat) : Z := P + Z.of_nat i * POOL_SIZE.

Record repr (s : kernel) (ps : list pool) : Prop := {
  rp_ptr : 0 < pools (k_pa s);
  rp_count : n_pools (k_pa s) = Z.of_nat (length ps);
  rp_at : forall i p, ps !! i = Some p -> pool_at (k_mem s) (desc (pools (k_pa s)) i) p;
  rp_ok : Forall pool_ok ps;
  rp_apart : pools_apart ps;
  rp_desc : Forall (fun p => apart (pools (k_pa s)) (Z.of_nat (length ps) * POOL_SIZE)
                               (p_base p) (p_end p - p_base p)) ps;
}.

(** ** What the allocator leaves in free memory

    It writes words at aligned addresses of free memory, and only sizes and pointers to
    blocks, which are even: the lowest byte of an aligned word either stays or becomes
    even.  [D] is memory of its own, where anything may be written. *)
Definition evens (D : Z -> Prop) (m m' : gmap Z Z) : Prop :=
  forall x, (8 | x) -> ~ D x -> m' !! x = m !! x \/ exists b, m' !! x = Some b /\ (2 | b).

Lemma evens_refl D m : evens D m m.
Proof. intros x _ _. by left. Qed.

Lemma evens_trans D m1 m2 m3 : evens D m1 m2 -> evens D m2 m3 -> evens D m1 m3.
Proof.
  intros H12 H23 x Hx HD. destruct (H23 x Hx HD) as [->|H]; [by apply H12|by right].
Qed.

Lemma evens_weaken (D E : Z -> Prop) m m' : evens D m m' -> (forall x, D x -> E x) -> evens E m m'.
Proof. intros H HDE x Hx HE. apply H; [done|]. intros HD. by apply HE, HDE. Qed.

Lemma evens_own D m m' a v : evens D m m' -> (forall x, within a 8 x -> D x) -> evens D m (write64 m' a v).
Proof.
  intros H HD x Hx HDx. rewrite write64_lookup_ne; [by apply H|]. intros Hw. by apply HDx, HD.
Qed.

Lemma evens_store D m m' a v : evens D m m' -> (8 | a) -> (2 | v) -> evens D m (write64 m' a v).
Proof.
  intros H [k ->] Hv x [j ->] HD. destruct (decide (j = k)) as [->|Hne].
  - right. exists (w8 v). split; [|unfold w8; rewrite Z.mod_eq by lia; apply Z.divide_sub_r; [done|]; exists (2 ^ 7 * (v / 2 ^ 8)); lia].
    unfold write64. rewrite lookup_write_bytes, length_le_split, decide_True by lia. by rewrite Z.sub_diag.
  - rewrite write64_lookup_ne by (unfold within; lia). apply H; [by exists j|done].
Qed.

(** ** split *)

Lemma get_buddy_upper s base p sz :
  0 <= base <= p -> p + sz < 2 ^ 64 -> page_pow2 sz -> (2 * sz | p - base) ->
  read64 (k_mem s) p = Some sz ->
  get_buddy p base s = Done (p + sz) s.
Proof.
  intros Hb Hp Hsz Hdiv Hread. pose proof (page_pow2_pos _ Hsz).
  assert (Hal : (sz | p - base)) by (etrans; [|exact Hdiv]; exists 2; lia).
  unfold get_buddy, mbind, M_bind, mret, M_ret, load64. simpl. rewrite Hread.
  rewrite sub64_small by lia. f_equal.
  destruct (buddy_of_cases base p sz Hsz Hal) as [[He _]|[_ Hd]].
  - unfold buddy_of in He. rewrite add64_small by lia. lia.
  - exfalso. assert (H2 : (2 * sz | sz)).
    { replace sz with (p - base - (p - sz - base)) at 2 by lia. by apply Z.divide_sub_r. }
    apply Z.divide_pos_le in H2; lia.
Qed.

Lemma wp_get_buddy s base p sz (Q : Z -> kernel -> Prop) :
  0 <= base <= p -> p + sz < 2 ^ 64 -> page_pow2 sz -> (2 * sz | p - base) ->
  read64 (k_mem s) p = Some sz ->
  Q (p + sz) s -> wp (get_buddy p base) Q s.
Proof. intros. unfold wp. by erewrite get_buddy_upper. Qed.

(** The part of [split_loop] that halves the block [p] of size [2 * h] once. *)
Lemma split_step s base p h nx (k : M kernel unit) (Q : unit -> kernel -> Prop) :
  0 <= base <= p -> p + 2 * h < 2 ^ 64 -> page_pow2 h -> (2 * h | p - base) ->
  mapped (k_mem s) p (2 * h) -> 0 <= nx < 2 ^ 64 ->
  read64 (k_mem s) (p + NEXT) = Some nx -> (8 | p) -> (2 | nx) ->
  (forall m, changes (within p (2 * h)) (k_mem s) m -> (forall D, evens D (k_mem s) m) ->
     read64 m p = Some h -> read64 m (p + NEXT) = Some (p + h) ->
     read64 m (p + h) = Some h -> read64 m (p + h + NEXT) = Some nx ->
     wp k Q (set_mem m s)) ->
  wp (store64 p (Z.shiftr (2 * h) 1) ;;
      bb ← get_buddy p base;
      bsize' ← load64 p; store64 bb bsize' ;;
      bnext ← load64 (p + NEXT); store64 (bb + NEXT) bnext ;;
      store64 (p + NEXT) bb ;; k) Q s.
Proof.
  intros Hb Hp Hh Hdiv Hm Hnx Hnext Hp8 Hnx2 Hk. pose proof (page_pow2_pos _ Hh) as Hpos.
  pose proof (page_pow2_16 _ Hh) as [c Hc].
  rewrite Z.shiftr_div_pow2 by lia. replace (2 * h / 2 ^ 1) with h by divlia.
  apply wp_bind, wp_store64; [apply (mapped_sub _ _ _ _ _ Hm); lia|]. simpl.
  set (m1 := write64 (k_mem s) p h).
  assert (R1 : read64 m1 p = Some h) by (apply read64_write64_eq; lia).
  apply wp_bind, (wp_get_buddy _ _ _ h); try done; [lia|].
  apply wp_bind, (wp_load64 _ h); [done|].
  apply wp_bind, wp_store64.
  { apply write64_mapped. apply (mapped_sub _ _ _ _ _ Hm); lia. }
  simpl. set (m2 := write64 m1 (p + h) h).
  apply wp_bind, (wp_load64 _ nx).
  { simpl. unfold m2, m1, NEXT in *. by autorewrite with mem. }
  apply wp_bind, wp_store64.
  { do 2 apply write64_mapped. apply (mapped_sub _ _ _ _ _ Hm); unfold NEXT; lia. }
  simpl. set (m3 := write64 m2 (p + h + NEXT) nx).
  apply wp_bind, wp_store64.
  { do 3 apply write64_mapped. apply (mapped_sub _ _ _ _ _ Hm); unfold NEXT; lia. }
  simpl. apply Hk.
  - do 4 (apply changes_then_write; [|unfold within, NEXT; lia]). apply changes_refl.
  - intros D. destruct Hp8 as [y Hy]. unfold NEXT in *.
    apply evens_store; [apply evens_store; [apply evens_store; [apply evens_store; [apply evens_refl|..]|..]|..]|..];
      [by exists y|exists (8 * c); lia|exists (y + 2 * c); lia|exists (8 * c); lia|exists (y + 2 * c + 1); lia|done
      |exists (y + 1); lia|exists (4 * y + 8 * c); lia].
  - unfold m3, m2, m1, NEXT. by autorewrite with mem.
  - unfold NEXT. by autorewrite with mem.
  - unfold m3, m2, m1, NEXT. by autorewrite with mem.
  - unfold m3, m2, m1, NEXT. by autorewrite with mem.
Qed.

Lemma split_loop_spec base p sz n fuel :
  page_pow2 sz -> 0 <= base <= p -> (n < fuel)%nat ->
  forall nx s,
  page_pow2 (sz * 2 ^ Z.of_nat n) -> (sz * 2 ^ Z.of_nat n | p - base) ->
  p + sz * 2 ^ Z.of_nat n < 2 ^ 64 -> 0 <= nx < 2 ^ 64 ->
  mapped (k_mem s) p (sz * 2 ^ Z.of_nat n) ->
  read64 (k_mem s) p = Some (sz * 2 ^ Z.of_nat n) ->
  read64 (k_mem s) (p + NEXT) = Some nx -> (8 | p) -> (2 | nx) ->
  wp (split_loop fuel p sz base) (fun _ s' => exists m, s' = set_mem m s /\
    changes (within p (sz * 2 ^ Z.of_nat n)) (k_mem s) m /\ (forall D, evens D (k_mem s) m) /\
    read64 m p = Some sz /\ seg m (p + NEXT) nx (halves p sz n)) s.
Proof.
  intros Hsz Hb. revert fuel. induction n as [|n IH]; intros fuel Hf nx s Hpow Hdiv Hp Hnx Hm Hr Hn Hp8 Hnx2.
  - destruct fuel as [|fuel]; [lia|]. simpl split_loop.
    rewrite Z.mul_1_r in *. apply wp_bind, (wp_load64 _ sz); [done|].
    rewrite Z.eqb_refl. apply wp_ret. exists (k_mem s). destruct s. split_and!; [done|done| |done|done]. intros D. apply evens_refl.
  - destruct fuel as [|fuel]; [lia|]. cbn [split_loop].
    rewrite Nat2Z.inj_succ, Z.pow_succ_r in * by lia. set (h := sz * 2 ^ Z.of_nat n) in *.
    replace (sz * (2 * 2 ^ Z.of_nat n)) with (2 * h) in * by (unfold h; lia).
    pose proof (page_pow2_pos _ Hsz).
    assert (Hle : sz * 1 <= h) by (apply Z.mul_le_mono_nonneg_l; lia).
    assert (Hh : page_pow2 h).
    { destruct Hsz as (j & Hj & ->), Hpow as (k & Hk & Heq). unfold h in *.
      exists (j + Z.of_nat n). rewrite Z.pow_add_r by lia. split; [|done].
      rewrite <- Z.pow_add_r, <- Z.pow_succ_r in Heq by lia. apply Z.pow_inj_r in Heq; lia. }
    apply wp_bind, (wp_load64 _ (2 * h)); [done|].
    destruct (Z.eqb_spec (2 * h) sz); [lia|].
    apply (split_step s base p h nx); try done.
    intros m Hch He R1 R2 R3 R4.
    eapply wp_conseq; [apply (IH fuel ltac:(lia) (p + h)); try done; try lia|].
    + etrans; [|exact Hdiv]. exists 2. lia.
    + simpl. eapply (changes_mapped _ (k_mem s)); [done|]. apply (mapped_sub _ _ _ _ _ Hm); lia.
    + apply Z.divide_add_r; [etrans; [|exact Hp8]; by exists 4|]. etrans; [|by apply page_pow2_16]. by exists 8.
    + simpl. intros [] s' (m' & -> & Hch' & He' & Rp & Hseg). exists m'. split_and!; try done.
      * eapply changes_trans; [exact Hch|]. eapply changes_weaken; [exact Hch'|].
        intros x. unfold within. lia.
      * intros D. eapply evens_trans; [apply He|apply He'].
      * simpl halves. apply seg_app. simpl. split; [done|].
        pose proof (changes_read64 _ _ _ (p + h) Hch') as E1.
        pose proof (changes_read64 _ _ _ (p + h + NEXT) Hch') as E2.
        simpl in E1, E2. fold h. rewrite E1, E2 by (unfold within, NEXT; lia).
        split_and!; try done.
        by apply seg_last.
Qed.

(** ** Searching one pool *)

Lemma wp_pool_field off i v (Q : Z -> kernel -> Prop) s :
  read64 (k_mem s) (pools (k_pa s) + i * POOL_SIZE + off) = Some v ->
  Q v s -> wp (pool_field off i) Q s.
Proof. intros H HQ. apply wp_bind, wp_bind, wp_gets, wp_ret, (wp_load64 _ v); done. Qed.

(** [prev ? &prev->next : &pools[i].start] *)
Lemma wp_store_prev i l v (Q : unit -> kernel -> Prop) s :
  let a := pools (k_pa s) + i * POOL_SIZE + POOL_START in
  Forall (fun b => 0 < fst b) l -> mapped (k_mem s) (cell a l) 8 ->
  Q tt (set_mem (write64 (k_mem s) (cell a l) v) s) ->
  wp (if negb (prev_of 0 l =? 0) then store64 (prev_of 0 l + NEXT) v else set_pool_start i v) Q s.
Proof.
  intros a Hl. rewrite prev_of_cell by done.
  destruct (prev_of 0 l =? 0); simpl; intros Hm HQ.
  - apply wp_bind, wp_bind, wp_gets, wp_ret, wp_store64; done.
  - by apply wp_store64.
Qed.

Lemma blocks_ok_pos base lo e l :
  0 < lo -> blocks_ok base lo e l -> Forall (fun b => 0 < fst b) l.
Proof.
  intros Hlo Hok. apply Forall_forall. intros b Hb.
  destruct (blocks_ok_elem _ _ _ _ _ Hok Hb). lia.
Qed.

Lemma blocks_ok_first base lo e l :
  0 <= lo -> e < 2 ^ 64 -> blocks_ok base lo e l -> 0 <= first e l < 2 ^ 64.
Proof.
  intros Hlo He Hok. pose proof (blocks_ok_le _ _ _ _ Hok).
  destruct l as [|[p s] l]; simpl in *; [lia|].
  destruct Hok as (H1 & H2%page_pow2_pos & _ & H3 & _). lia.
Qed.

Lemma pool_cell_mapped m a e base lo l1 b l2 :
  seg m a e (l1 ++ b :: l2) -> blocks_ok base lo e (l1 ++ b :: l2) -> mapped m (cell a l1) 8.
Proof. rewrite seg_app. intros [H _] _. apply read64_is_Some. apply seg_last in H. by eexists. Qed.

(** Every pointer cell of a pool is in its descriptor's [start] or in a free block. *)
Lemma pool_cell_in p a l1 l2 x :
  pool_ok p -> p_free p = l1 ++ l2 -> within (cell a l1) 8 x ->
  within a 8 x \/ in_blocks (p_free p) x.
Proof.
  intros Hok Hl Hx. destruct (cell_cases a l1) as [Heq|([b t] & Hb & Heq)]; rewrite Heq in Hx.
  - by left.
  - right. assert (Hel : (b, t) ∈ p_free p) by (rewrite Hl; set_solver). exists (b, t).
    split; [done|].
    destruct (blocks_ok_elem _ _ _ _ _ (po_free _ Hok) Hel) as (_ & Ht%page_pow2_pos & _).
    unfold within, NEXT in *. simpl in *. lia.
Qed.

(** Replacing the end of a pool's list: the blocks [l1] stay, their last pointer
    is redirected to the blocks [l2'] that were linked elsewhere in the pool. *)
Lemma pool_relink m m' a p l1 l2 l2' :
  let a' := a + POOL_START in
  pool_at m a p -> pool_ok p -> apart a POOL_SIZE (p_base p) (p_end p - p_base p) ->
  p_free p = l1 ++ l2 ->
  changes (fun x => p_base p <= x < p_end p /\ ~ in_hdr l1 x) m m' ->
  body m' (p_end p) l2' -> blocks_ok (p_base p) (p_base p) (p_end p) (l1 ++ l2') ->
  pool_at (write64 m' (cell a' l1) (first (p_end p) l2')) a (Pool (p_base p) (p_end p) (l1 ++ l2')).
Proof.
  intros a' [Pb Pe Pl Pm] Hok Hap Hfree Hch Hbody Hok'.
  set (v := first (p_end p) l2').
  assert (Hch' : changes (fun x => within a' 8 x \/ p_base p <= x < p_end p) m
                   (write64 m' (cell a' l1) v)).
  { apply changes_then_write.
    - eapply changes_weaken; [exact Hch|]. intros x [Hx _]. by right.
    - intros x Hx. apply (pool_cell_in p _ _ _ _ Hok Hfree) in Hx as [Hx|Hx]; [by left|right].
      by apply pool_ok_in. }
  pose proof (po_base _ Hok). pose proof (po_end _ Hok).
  split; simpl.
  - rewrite (changes_read64 _ _ _ _ Hch'); [done|].
    intros x Hx. unfold a', apart, within, POOL_BASE, POOL_START, POOL_SIZE in *. lia.
  - rewrite (changes_read64 _ _ _ _ Hch'); [done|].
    intros x Hx. unfold a', apart, within, POOL_END, POOL_START, POOL_SIZE in *. lia.
  - rewrite Hfree in Pl. apply seg_app in Pl as [S1 _].
    apply seg_relink with (x := first (p_end p) l2).
    + by eapply blocks_ok_hdrs.
    + apply (blocks_ok_cell _ _ _ _ _ 8 Hok'); [|lia].
      unfold a', apart, POOL_START, POOL_SIZE in *. lia.
    + apply blocks_ok_app in Hok' as (_ & Ck2 & _). eapply blocks_ok_first; [|done|exact Ck2]. lia.
    + eapply seg_same; [| |exact S1]; eapply changes_same_on; try exact Hch.
      * intros x Hx [Hr _]. unfold a', apart, within, POOL_START, POOL_SIZE in *. lia.
      * intros x Hx [_ Hn]. done.
    + done.
  - eapply changes_mapped; [exact Hch'|done].
Qed.

(** The headers of the other blocks of a well-formed list are outside a block. *)
Lemma other_hdrs base lo e l1 q t l2 x :
  blocks_ok base lo e (l1 ++ (q, t) :: l2) -> in_hdr (l1 ++ l2) x -> ~ within q t x.
Proof.
  intros Hok (b & Hb & Hx) Hq. apply (blocks_ok_middle _ _ _ _ _ _ x Hok); [exact Hq|]. exists b. split; [done|].
  assert (Hel : b ∈ l1 ++ (q, t) :: l2) by set_solver. destruct (blocks_ok_elem _ _ _ _ _ Hok Hel) as (_ & Hs%page_pow2_pos & _).
  unfold within, HDRSIZE in *. lia.
Qed.

(** Unlinking the block found and linking its unused halves in its place. *)
Lemma alloc_relink m m' a sz p l1 q t l2 :
  let a' := a + POOL_START in
  pool_at m a p -> pool_ok p -> apart a POOL_SIZE (p_base p) (p_end p - p_base p) ->
  p_free p = l1 ++ (q, t) :: l2 -> page_pow2 sz -> sz <= t ->
  Forall (fun b => snd b < sz) l1 ->
  changes (within q t) m m' ->
  seg m' (q + NEXT) (first (p_end p) l2) (halves q sz (split_count t sz)) ->
  let v := first (first (p_end p) l2) (halves q sz (split_count t sz)) in
  let l' := l1 ++ halves q sz (split_count t sz) ++ l2 in
  fit sz (p_free p) = Some (q, l') /\
  pool_at (write64 m' (cell a' l1) v) a (Pool (p_base p) (p_end p) l') /\
  changes (fun x => within a' 8 x \/ in_blocks (p_free p) x) m (write64 m' (cell a' l1) v).
Proof.
  intros a' Hat Hok Hap Hfree Hsz Hle Hl1 Hch Hseg v l'.
  assert (Hfit : fit sz (p_free p) = Some (q, l')).
  { rewrite Hfree, fit_skip by done. simpl. by rewrite (proj2 (Z.leb_le sz t)). }
  destruct (fit_carved _ _ _ _ _ _ _ (po_free _ Hok) Hsz Hfit) as [Cok _ _ _ _ _].
  assert (Hq : forall x, within q t x -> in_blocks (p_free p) x).
  { intros x Hx. rewrite Hfree, in_blocks_app, in_blocks_cons. simpl. tauto. }
  assert (Hhdr : forall x, in_hdr (l1 ++ l2) x -> ~ within q t x).
  { intros x. eapply other_hdrs. rewrite <- Hfree. apply Hok. }
  split; [done|]. split.
  - unfold v. rewrite <- first_app. eapply pool_relink; try done.
    + eapply changes_weaken; [exact Hch|]. intros x Hx. split; [by apply pool_ok_in, Hq|].
      intros (b & Hb & Hbx). apply (Hhdr x); [|done]. exists b. split; [set_solver|done].
    + assert (Hs : seg m' (q + NEXT) (p_end p) (halves q sz (split_count t sz) ++ l2)).
      { apply seg_app. split; [done|]. apply seg_body. split; [by apply seg_last|].
        destruct Hat as [_ _ Pl _]. rewrite Hfree in Pl.
        apply seg_app in Pl as [_ (_ & _ & [_ Pl]%seg_body)].
        eapply body_same; [|exact Pl]. eapply changes_same_on; [exact Hch|].
        intros x (b & Hb & Hbx). apply Hhdr. exists b. split; [set_solver|done]. }
      by apply seg_body in Hs as [_ Hs].
  - apply changes_then_write.
    + eapply changes_weaken; [exact Hch|]. intros x Hx. right. by apply Hq.
    + intros x. by eapply pool_cell_in.
Qed.

(** Blocks and the pool's end are aligned. *)
Lemma pool_block_align p b : pool_ok p -> b ∈ p_free p -> (16 | fst b).
Proof.
  intros Hok Hb. destruct (blocks_ok_elem _ _ _ _ _ (po_free _ Hok) Hb) as (_ & Hs & Hd & _).
  replace (fst b) with (fst b - p_base p + p_base p) by lia. apply Z.divide_add_r; [|apply Hok].
  etrans; [by apply page_pow2_16|exact Hd].
Qed.

Lemma pool_end_align p : pool_ok p -> (16 | p_end p).
Proof.
  intros Hok. replace (p_end p) with (p_end p - p_base p + p_base p) by lia.
  apply Z.divide_add_r; [apply page_pow2_16|]; apply Hok.
Qed.

Lemma first_align (l : blocks) e : (16 | e) -> (forall b, b ∈ l -> (16 | fst b)) -> (2 | first e l).
Proof.
  intros He Hl. etrans; [by exists 8|]. destruct l as [|[q t] l]; [exact He|]. apply (Hl (q, t)). set_solver.
Qed.

(** Linking in place of a block, in the free memory of the pool or in its descriptor. *)
Lemma relink_evens m m' a p l1 l2 v :
  pool_ok p -> p_free p = l1 ++ l2 -> (2 | v) -> evens (within a 8) m m' ->
  evens (within a 8) m (write64 m' (cell a l1) v).
Proof.
  intros Hok Hl Hv He. destruct (cell_cases a l1) as [->|(b & Hb & ->)]; [by apply evens_own|].
  apply evens_store; [done| |done]. destruct (pool_block_align p b Hok) as [k ->]; [rewrite Hl; set_solver|].
  exists (2 * k + 1). unfold NEXT. lia.
Qed.

Lemma blocks_ok_not_end base lo e l1 q t l2 :
  blocks_ok base lo e (l1 ++ (q, t) :: l2) -> q < e.
Proof.
  intros Hok. destruct (blocks_ok_elem _ _ _ _ (q, t) Hok) as (_ & Ht%page_pow2_pos & _ & H);
    [set_solver|]. simpl in *. lia.
Qed.

(** The block behind [(q, t)] in the pool's list, or the pool's end. *)
Lemma pool_next p l1 q t l2 : pool_ok p -> p_free p = l1 ++ (q, t) :: l2 ->
  0 <= first (p_end p) l2 < 2 ^ 64 /\ (2 | first (p_end p) l2) /\ forall c, c ∈ l1 ++ (q, t) :: l2 -> (16 | fst c).
Proof.
  intros Hok Hl. pose proof Hok as [Hb He Hsize Hfree].
  assert (Hal : forall c, c ∈ l1 ++ (q, t) :: l2 -> (16 | fst c)) by (intros c Hc; apply (pool_block_align p c Hok); by rewrite Hl).
  split; [|split; [apply first_align; [by apply pool_end_align|set_solver]|done]].
  rewrite Hl in Hfree. apply blocks_ok_app in Hfree as (_ & (_ & _ & _ & _ & _ & Ck2) & _). eapply blocks_ok_first; [|done|exact Ck2]. lia.
Qed.

(** [split] of a free block of the pool. *)
Lemma split_spec s a p sz l1 q t l2 fuel : pool_at (k_mem s) a p -> pool_ok p -> p_free p = l1 ++ (q, t) :: l2 ->
  page_pow2 sz -> sz <= t -> (64 < fuel)%nat ->
  wp (split fuel q sz (p_base p)) (fun r s' => r = q /\ exists m, s' = set_mem m s /\ changes (within q t) (k_mem s) m /\
    (forall D, evens D (k_mem s) m) /\ seg m (q + NEXT) (first (p_end p) l2) (halves q sz (split_count t sz))) s.
Proof.
  intros Hat Hok Hl Hsz Hle Hf. pose proof Hat as [_ _ Pl Pm]. pose proof Hok as [Hb He Hsize Hfree]. rewrite Hl in Hfree, Pl.
  destruct (seg_size _ _ _ _ _ _ _ Pl) as [Rq Rn]. destruct (blocks_ok_elem _ _ _ _ (q, t) Hfree) as (Hlo & Ht & Hdiv & Hhi); [set_solver|].
  simpl in Hlo, Ht, Hdiv, Hhi. pose proof (split_count_pow2 t sz Ht Hsz Hle) as Hcount. destruct (pool_next p l1 q t l2 Hok Hl) as (Hnx & Hnx2 & Hal).
  apply wp_bind, (wp_load64 _ t); [done|]. apply wp_bind, wp_assert; [lia|]. apply wp_bind. eapply wp_conseq.
  - apply (split_loop_spec (p_base p) q sz (split_count t sz) _ Hsz ltac:(lia)) with (nx := first (p_end p) l2); rewrite <- ?Hcount; try done.
    + unfold split_count. destruct Ht as (k & Hk & ->), Hsz as (j & Hj & ->). rewrite !Z.log2_pow2 by lia. lia.
    + lia.
    + eapply mapped_sub; [exact Pm|lia|lia].
    + etrans; [by exists 2|]. apply (Hal (q, t)). set_solver.
  - rewrite <- Hcount. intros [] s' (m & -> & Hch & He' & _ & Hseg). apply wp_ret. split; [done|]. by exists m.
Qed.

Lemma relink_fit_evens m m' a p sz l1 q t l2 l' : pool_ok p -> p_free p = l1 ++ (q, t) :: l2 -> page_pow2 sz ->
  fit sz (p_free p) = Some (q, l') -> l' = l1 ++ halves q sz (split_count t sz) ++ l2 -> (forall D, evens D m m') ->
  evens (within a 8) m (write64 m' (cell a l1) (first (first (p_end p) l2) (halves q sz (split_count t sz)))).
Proof.
  intros Hok Hl Hsz Hfit -> He. destruct (pool_next p l1 q t l2 Hok Hl) as (_ & _ & Hal).
  eapply relink_evens; [done|exact Hl| |apply He].
  rewrite <- first_app. apply first_align; [by apply pool_end_align|]. intros c [Hc|Hc]%elem_of_app; [|apply (Hal c); set_solver].
  destruct (fit_carved _ _ _ _ _ _ _ (po_free _ Hok) Hsz Hfit) as [Cok _ _ _ _ _].
  eapply (pool_block_align (Pool (p_base p) (p_end p) _) c); [split; [apply Hok..|exact Cok|apply Hok]|simpl; set_solver].
Qed.

Lemma alloc_in_pool_spec s i p sz :
  let a := pools (k_pa s) + i * POOL_SIZE in
  pool_at (k_mem s) a p -> pool_ok p -> apart a POOL_SIZE (p_base p) (p_end p - p_base p) ->
  page_pow2 sz ->
  forall l2 l1 fuel,
  p_free p = l1 ++ l2 -> Forall (fun b => snd b < sz) l1 -> (length l2 + 64 <= fuel)%nat ->
  wp (alloc_in_pool fuel i sz (prev_of 0 l1) (first (p_end p) l2)) (fun r s' =>
    match fit sz (p_free p) with
    | Some (x, l') => r = Some x /\ exists m, s' = set_pa_lock false (set_mem m s) /\
        pool_at m a (Pool (p_base p) (p_end p) l') /\
        changes (fun x => within (a + POOL_START) 8 x \/ in_blocks (p_free p) x) (k_mem s) m /\
        evens (within (a + POOL_START) 8) (k_mem s) m
    | None => r = None /\ s' = s
    end) s.
Proof.
  intros a Hat Hok Hap Hsz. pose proof Hat as [Pb Pe Pl Pm]. pose proof Hok as [Hb He Hsize Hfree].
  induction l2 as [|[q t] l2 IH]; intros l1 fuel Hl Hl1 Hf;
    (destruct fuel as [|fuel]; [simpl in Hf; lia|]); cbn [alloc_in_pool];
    apply wp_bind, (wp_pool_field _ _ (p_end p)); try done; simpl first.
  - rewrite Z.ltb_irrefl. apply wp_ret. rewrite app_nil_r in Hl.
    by rewrite (proj2 (fit_None _ _)) by by rewrite Hl.
  - rewrite Hl in Hfree, Pl. pose proof (blocks_ok_not_end _ _ _ _ _ _ _ Hfree) as Hqe. destruct (seg_size _ _ _ _ _ _ _ Pl) as [Rq Rn].
    rewrite (proj2 (Z.ltb_lt q (p_end p)) Hqe). simpl negb. cbv iota.
    apply wp_bind, (wp_load64 _ t); [done|]. destruct (Z.leb_spec sz t) as [Hle|Hlt].
    + apply wp_bind, (wp_pool_field _ _ (p_base p)); [done|].
      apply wp_bind. eapply wp_conseq; [apply (split_spec s a p sz l1 q t l2); try done; simpl in Hf; lia|].
      intros ? s' (-> & m & -> & Hch & He' & Hseg).
      apply wp_bind, (wp_load64 _ (first (first (p_end p) l2) (halves q sz (split_count t sz)))).
      { by apply seg_head in Hseg. }
      destruct (alloc_relink _ m a sz p l1 q t l2 Hat Hok Hap Hl Hsz Hle Hl1 Hch Hseg)
        as (Hfit & Hat' & Hch').
      apply wp_bind, wp_store_prev.
      { by apply blocks_ok_pos, Forall_app in Hfree as [? _]. }
      { simpl. eapply changes_mapped; [exact Hch|]. by eapply pool_cell_mapped. }
      apply wp_bind, wp_RELEASE, wp_ret. rewrite Hfit. split; [done|].
      eexists. split_and!; [done|done|done|]. by eapply relink_fit_evens.
    + apply wp_bind, (wp_load64 _ (first (p_end p) l2)); [done|].
      pose proof (IH (l1 ++ [(q, t)]) fuel) as IH'.
      rewrite prev_of_app in IH'. simpl prev_of in IH'. apply IH'.
      * by rewrite <- app_assoc.
      * apply Forall_app. split; [done|]. by constructor.
      * simpl in Hf. lia.
Qed.

(** ** All the pools *)

Lemma pool_at_changes P m m' a p :
  pool_at m a p -> changes P m m' ->
  (forall x, within a POOL_SIZE x -> ~ P x) ->
  (forall x, in_blocks (p_free p) x -> ~ P x) ->
  pool_ok p -> pool_at m' a p.
Proof.
  intros [Pb Pe Pl Pm] Hch Hd Hr Hok. split.
  - rewrite (changes_read64 P m); [done|done|].
    intros x Hx. apply Hd. unfold within, POOL_BASE, POOL_SIZE in *. lia.
  - rewrite (changes_read64 P m); [done|done|].
    intros x Hx. apply Hd. unfold within, POOL_END, POOL_SIZE in *. lia.
  - eapply seg_same; [| |exact Pl]; eapply changes_same_on; try exact Hch.
    + intros x Hx. apply Hd. unfold within, POOL_START, POOL_SIZE in *. lia.
    + intros x (b & Hb & Hx). apply Hr. exists b. split; [done|].
      destruct (blocks_ok_elem _ _ _ _ _ (po_free _ Hok) Hb) as (Hlo & Hs%page_pow2_pos & _ & Hhi).
      unfold within, HDRSIZE in *. lia.
  - by eapply changes_mapped.
Qed.

(** The bytes an operation on the page allocator may touch. *)
Definition pa_footprint (s : kernel) (ps : list pool) (x : Z) : Prop :=
  within (pools (k_pa s)) (Z.of_nat (length ps) * POOL_SIZE) x \/ free_bytes ps x.

(** Updating one pool of a represented state. *)
Lemma repr_update s ps1 p ps2 l m (P : Z -> Prop) :
  repr s (ps1 ++ p :: ps2) ->
  pool_at m (desc (pools (k_pa s)) (length ps1)) (Pool (p_base p) (p_end p) l) ->
  pool_ok (Pool (p_base p) (p_end p) l) ->
  changes P (k_mem s) m ->
  (forall x, P x -> within (desc (pools (k_pa s)) (length ps1)) POOL_SIZE x \/
                    p_base p <= x < p_end p) ->
  repr (set_mem m s) (ps1 ++ Pool (p_base p) (p_end p) l :: ps2).
Proof.
  intros [Rptr Rcount Rat Rok Rap Rdesc] Hat Hok Hch HP.
  assert (Hlen : length (ps1 ++ p :: ps2) = length (ps1 ++ Pool (p_base p) (p_end p) l :: ps2)).
  { rewrite !length_app. done. }
  split; simpl; try done.
  - by rewrite <- Hlen.
  - intros i q Hi. destruct (decide (i = length ps1)) as [->|Hne].
    { rewrite list_lookup_middle in Hi by done. by injection Hi as <-. }
    assert (Hi' : (ps1 ++ p :: ps2) !! i = Some q).
    { destruct (decide (i < length ps1)%nat); [by rewrite lookup_app_l in *|].
      rewrite lookup_app_r in * by lia.
      by destruct (i - length ps1)%nat eqn:?; [lia|]. }
    assert (Hq : pool_apart p q).
    { pose proof Rap as (_ & (Hp & _) & H1)%pools_apart_app.
      rewrite Forall_forall in Hp, H1.
      destruct (decide (i < length ps1)%nat).
      - rewrite lookup_app_l in Hi' by done. apply list_elem_of_lookup_2 in Hi'.
        specialize (H1 q Hi'). apply Forall_cons in H1 as [H1 _]. unfold pool_apart in *. lia.
      - apply Hp. rewrite lookup_app_r in Hi' by lia.
        destruct (i - length ps1)%nat eqn:?; [lia|]. by eapply list_elem_of_lookup_2. }
    pose proof (list_elem_of_lookup_2 _ _ _ Hi') as Hel.
    rewrite Forall_forall in Rok, Rdesc.
    assert (i < length (ps1 ++ p :: ps2))%nat by (apply lookup_lt_Some in Hi'; done).
    pose proof (Rdesc q Hel) as Hdq. pose proof (Rdesc p ltac:(set_solver)) as Hdp.
    pose proof (po_size _ (Rok q Hel)) as Hsq%page_pow2_pos.
    pose proof (po_size _ Hok) as Hsp%page_pow2_pos. simpl in Hsp.
    assert (length ps1 < length (ps1 ++ p :: ps2))%nat by (rewrite length_app; simpl; lia).
    eapply pool_at_changes; [by apply Rat|exact Hch| | |by apply Rok];
      intros x Hx [H1|H1]%HP; try apply (pool_ok_in _ _ (Rok q Hel)) in Hx; unfold desc, within, apart, pool_apart, POOL_SIZE in *; lia.
  - rewrite Forall_app, Forall_cons in *. destruct Rok as (? & _ & ?). done.
  - by apply pools_apart_swap.
  - rewrite <- Hlen. rewrite Forall_app, Forall_cons in *. destruct Rdesc as (? & ? & ?). done.
Qed.

(** Clients may write anywhere outside the footprint of the page allocator. *)
Lemma repr_frame s ps m (P : Z -> Prop) :
  repr s ps -> changes P (k_mem s) m -> (forall x, P x -> ~ pa_footprint s ps x) ->
  repr (set_mem m s) ps.
Proof.
  intros [Rptr Rcount Rat Rok Rap Rdesc] Hch HP. split; try done. simpl. intros i p Hi.
  pose proof (list_elem_of_lookup_2 _ _ _ Hi) as Hel. pose proof (lookup_lt_Some _ _ _ Hi).
  rewrite Forall_forall in Rok.
  eapply pool_at_changes; [by apply Rat|exact Hch| | |by apply Rok].
  - intros x Hx Hp%HP. apply Hp. left. unfold desc, within, POOL_SIZE in *. lia.
  - intros x Hx Hp%HP. apply Hp. right. by exists p.
Qed.

Lemma repr_lock s b ps : repr (set_pa_lock b s) ps <-> repr s ps.
Proof. split; intros [H1 H2 H3 H4 H5 H6]; split; done. Qed.

(** The rest of the kernel's state does not matter to the page allocator. *)
Lemma repr_same s s' ps : k_mem s' = k_mem s -> k_pa s' = k_pa s -> repr s ps -> repr s' ps.
Proof. intros Em Ep [H1 H2 H3 H4 H5 H6]. split; rewrite ?Em, ?Ep; assumption. Qed.

Lemma repr_desc_apart s ps i p :
  repr s ps -> ps !! i = Some p ->
  apart (desc (pools (k_pa s)) i) POOL_SIZE (p_base p) (p_end p - p_base p).
Proof.
  intros [_ _ _ _ _ Rdesc] Hi. pose proof (lookup_lt_Some _ _ _ Hi).
  rewrite Forall_forall in Rdesc. specialize (Rdesc p (list_elem_of_lookup_2 _ _ _ Hi)).
  unfold apart, desc, POOL_SIZE in *. lia.
Qed.

Definition fuel_for (ps : list pool) (fuel : nat) : Prop :=
  Forall (fun p => (length (p_free p) + 64 <= fuel)%nat) ps.

Lemma alloc_in_pools_spec s sz ps2 : page_pow2 sz ->
  forall ps1 fuel,
  repr s (ps1 ++ ps2) -> fuel_for ps2 fuel ->
  wp (alloc_in_pools fuel (length ps2) (Z.of_nat (length ps1)) sz) (fun r s' =>
    match alloc_pools sz ps2 with
    | Some (x, qs) => r = Some x /\ exists m, s' = set_pa_lock false (set_mem m s) /\
        repr s' (ps1 ++ qs) /\ changes (pa_footprint s (ps1 ++ ps2)) (k_mem s) m /\
        evens (within (pools (k_pa s)) (Z.of_nat (length (ps1 ++ ps2)) * POOL_SIZE)) (k_mem s) m
    | None => r = None /\ s' = s
    end) s.
Proof.
  intros Hsz. induction ps2 as [|p ps2 IH]; intros ps1 fuel Hr Hf; cbn [alloc_in_pools length].
  { by apply wp_ret. }
  apply Forall_cons in Hf as [Hfp Hf].
  assert (Hi : (ps1 ++ p :: ps2) !! length ps1 = Some p) by by apply list_lookup_middle.
  pose proof (rp_at _ _ Hr _ _ Hi) as Hat. pose proof Hat as [_ _ Pl _].
  assert (Hok : pool_ok p).
  { pose proof (rp_ok _ _ Hr) as H. rewrite Forall_forall in H. apply H. set_solver. }
  apply wp_bind, (wp_pool_field _ _ (first (p_end p) (p_free p))); [by apply seg_head in Pl|].
  apply wp_bind. eapply wp_conseq.
  { eapply (alloc_in_pool_spec s _ p sz Hat Hok (repr_desc_apart _ _ _ _ Hr Hi) Hsz
      (p_free p) []); done. }
  intros r s'. simpl. destruct (fit sz (p_free p)) as [[x l']|] eqn:Hfit.
  - intros (-> & m & -> & Hat' & Hch & Hev). apply wp_ret. split; [done|]. exists m.
    split; [done|]. split; [|split].
    + apply repr_lock. eapply repr_update; [exact Hr|exact Hat'| |exact Hch|].
      * destruct Hok as [Hb He Hs Hfr]. split; try done.
        by destruct (fit_carved _ _ _ _ _ _ _ Hfr Hsz Hfit).
      * intros y [Hy|Hy%(pool_ok_in _ _ Hok)]; [left|by right].
        unfold desc, within, POOL_START, POOL_SIZE in *. lia.
    + eapply changes_weaken; [exact Hch|]. intros y [Hy|Hy]; [left|right].
      * rewrite length_app. simpl. unfold within, POOL_START, POOL_SIZE in *. lia.
      * rewrite free_bytes_app, free_bytes_cons. tauto.
    + eapply evens_weaken; [exact Hev|]. intros y Hy. rewrite length_app. simpl.
      unfold within, POOL_START, POOL_SIZE in *. lia.
  - intros [-> ->]. specialize (IH (ps1 ++ [p]) fuel).
    rewrite <- app_assoc, length_app in IH. simpl in IH.
    eapply wp_conseq.
    { replace (Z.of_nat (length ps1) + 1) with (Z.of_nat (length ps1 + 1)) by lia.
      by apply IH. }
    intros r s'. destruct (alloc_pools sz ps2) as [[x qs]|]; [|done].
    rewrite <- app_assoc. done.
Qed.

(** ** page_alloc *)

Lemma page_round_pow2 sz : 0 <= sz <= 2 ^ 63 -> page_pow2 (page_round sz) /\ sz <= page_round sz.
Proof.
  intros Hsz. unfold page_round, PAGE_SIZE.
  destruct (decide (sz = 0)) as [->|Hne]; [split; [by exists 12|by vm_compute]|].
  destruct (next_pow2_small sz ltac:(lia)) as [-> Hb].
  destruct (Z.ltb_spec (2 ^ Z.log2_up sz) 0x1000) as [Hlt|Hge].
  { split; [by exists 12|lia]. }
  split; [|lia]. exists (Z.log2_up sz). split; [|done].
  pose proof (Z.log2_up_nonneg sz). split.
  - apply (Z.pow_le_mono_r_iff 2); lia.
  - enough (Z.log2_up sz <= 63) by lia. apply (Z.log2_up_le_pow2 sz 63); lia.
Qed.

Lemma oom_report s ps :
  repr s ps ->
  wp (for_range (length ps) 0 (fun i =>
        pool_field POOL_END i ;; pool_field POOL_START i ;; pool_field POOL_BASE i ;; mret tt))
     (fun _ s' => s' = s) s.
Proof.
  intros Hr. eapply wp_conseq.
  - apply (wp_for_range (fun _ s' => s' = s)); [|done]. intros i s' Hi ->.
    destruct (lookup_lt_is_Some_2 ps (Z.to_nat i)) as [p Hp]; [lia|].
    destruct (rp_at _ _ Hr _ _ Hp) as [Pb Pe Pl%seg_head _]. unfold desc in *.
    rewrite Z2Nat.id in * by lia.
    apply wp_bind, (wp_pool_field _ _ _ _ _ Pe), wp_bind, (wp_pool_field _ _ _ _ _ Pl).
    by apply wp_bind, (wp_pool_field _ _ _ _ _ Pb), wp_ret.
  - done.
Qed.

(** [page_alloc] against the abstract allocator: the same block, the same pools
    afterwards, only free bytes and descriptors written, the lock free again; and
    when no pool has a block, a panic. *)
Lemma page_alloc_refines fuel sz s ps :
  repr s ps -> pa_lock (k_pa s) = false -> fuel_for ps fuel -> 0 <= sz <= 2 ^ 63 ->
  match alloc_pools (page_round sz) ps with
  | Some (r, qs) =>
      exists m, page_alloc fuel sz s = Done r (set_mem m s) /\ repr (set_mem m s) qs /\
        changes (pa_footprint s ps) (k_mem s) m /\
        evens (within (pools (k_pa s)) (Z.of_nat (length ps) * POOL_SIZE)) (k_mem s) m
  | None => page_alloc fuel sz s = Stop Panic
  end.
Proof.
  intros Hr Hlock Hf Hsz. destruct (page_round_pow2 sz Hsz) as [Hpow _].
  pose proof (rp_ptr _ _ Hr). unfold page_alloc.
  erewrite run_bind; [|reflexivity]. cbv beta.
  rewrite (proj2 (Z.eqb_neq _ 0)) by lia. erewrite run_bind; [|reflexivity].
  erewrite run_bind; [|unfold ACQUIRE; by rewrite Hlock].
  erewrite run_bind; [|reflexivity]. cbv beta. simpl n_pools.
  pose proof (alloc_in_pools_spec (set_pa_lock true s) (page_round sz) ps Hpow [] fuel) as H0.
  rewrite repr_lock in H0. specialize (H0 Hr Hf). apply wp_done in H0.
  rewrite (rp_count _ _ Hr), Nat2Z.id.
  destruct H0 as (r & s' & Hrun & Hpost). simpl in Hrun.
  erewrite run_bind by exact Hrun.
  destruct (alloc_pools (page_round sz) ps) as [[x qs]|].
  - destruct Hpost as (-> & m & -> & Hr' & Hch & He). exists m.
    assert (Hs : set_pa_lock false (set_mem m (set_pa_lock true s)) = set_mem m s).
    { destruct s as [? [] ? ? ?]. simpl in *. by rewrite Hlock. }
    rewrite Hs in *. done.
  - destruct Hpost as [-> ->].
    assert (Hr1 : repr (set_pa_lock true s) ps) by by apply repr_lock.
    pose proof (oom_report _ _ Hr1) as Ho. apply wp_done in Ho as (a & s2 & Ho & ->).
    by erewrite run_bind by exact Ho.
Qed.

(** ** page_free *)

Lemma wp_get_buddy_of s p page sz (Q : Z -> kernel -> Prop) :
  pool_ok p -> freeable (p_base p) (p_base p) (p_end p) page sz (p_free p) ->
  sz < p_end p - p_base p -> read64 (k_mem s) page = Some sz ->
  Q (buddy_of (p_base p) page sz) s -> wp (get_buddy page (p_base p)) Q s.
Proof.
  intros Hok Hfr Hlt Hr HQ. destruct (buddy_in_pool p page sz Hok Hfr Hlt) as [B1 B2].
  pose proof (fr_in _ _ _ _ _ _ Hfr). pose proof (page_pow2_pos _ (fr_size _ _ _ _ _ _ Hfr)).
  destruct Hok as [Hb He _ _]. unfold get_buddy. apply wp_bind, (wp_load64 _ sz); [done|].
  apply wp_ret. rewrite sub64_small by lia. unfold buddy_of in *.
  by rewrite add64_small by lia.
Qed.

Definition free_footprint (a page sz : Z) (p : pool) (x : Z) : Prop :=
  within (a + POOL_START) 8 x \/ in_blocks (p_free p) x \/ within page sz x.

Section free_in_pool.
Context (s : kernel) (i : Z) (p : pool) (page sz : Z).
Let a := pools (k_pa s) + i * POOL_SIZE.
Context (Hat : pool_at (k_mem s) a p) (Hok : pool_ok p).
Context (Hap : apart a POOL_SIZE (p_base p) (p_end p - p_base p)).
Context (Hfr : freeable (p_base p) (p_base p) (p_end p) page sz (p_free p)).
Context (Hlt : sz < p_end p - p_base p).
Context (Hpage : read64 (k_mem s) page = Some sz).

Let l' := free_list (p_base p) page sz (p_free p).
Let lost := lost_blocks (p_base p) page sz (p_free p).

Local Lemma returned_l' : returned (p_base p) (p_base p) (p_end p) page sz lost (p_free p) l'.
Proof using All.
  pose proof (po_base _ Hok). pose proof (po_end _ Hok).
  apply free_list_returned; [lia|done|apply Hok|done].
Qed.

Local Lemma page_facts : p_base p <= page /\ page + sz <= p_end p /\ 4096 <= sz /\ p_end p < 2 ^ 64 /\ 0 < p_base p.
Proof using All.
  pose proof (po_base _ Hok). pose proof (po_end _ Hok).
  pose proof (page_pow2_pos _ (fr_size _ _ _ _ _ _ Hfr)).
  pose proof (fr_in _ _ _ _ _ _ Hfr). lia.
Qed.

(** The headers of the listed blocks are outside the block being freed. *)
Local Lemma hdr_not_page l1 l2 x : p_free p = l1 ++ l2 -> in_hdr l1 x -> ~ within page sz x.
Proof using All.
  intros Hl (b & Hb & Hx). apply (fr_apart _ _ _ _ _ _ Hfr). exists b.
  assert (Hel : b ∈ p_free p) by (rewrite Hl; set_solver). split; [done|].
  destruct (blocks_ok_elem _ _ _ _ _ (po_free _ Hok) Hel) as (_ & Hs%page_pow2_pos & _).
  unfold within, HDRSIZE in *. lia.
Qed.

(** The freed block becomes the head of the list. *)
Local Lemma free_link : l' = (page, sz) :: p_free p ->
  let m := write64 (write64 (k_mem s) (page + NEXT) (first (p_end p) (p_free p))) (a + POOL_START) page in
  pool_at m a (Pool (p_base p) (p_end p) l') /\
  changes (free_footprint a page sz p) (k_mem s) m.
Proof using All.
  intros Hl'. pose proof returned_l' as [Rok _ _]. pose proof page_facts as Hpf.
  assert (Hfirst : 0 <= first (p_end p) (p_free p) < 2 ^ 64) by (eapply blocks_ok_first; [|lia|apply Hok]; lia).
  simpl. split.
  - rewrite Hl' in *. change page with (first (p_end p) ((page, sz) :: p_free p)) at 2.
    eapply (pool_relink (k_mem s) _ a p [] (p_free p) ((page, sz) :: p_free p)); try done.
    + apply changes_then_write; [apply changes_refl|]. intros x Hx.
      split; [unfold within, NEXT in *; lia|]. by intros (b & []%elem_of_nil & _).
    + simpl. split; [unfold NEXT; by autorewrite with mem|].
      apply seg_body. split; [by rewrite read64_write64_eq|].
      destruct Hat as [_ _ Pl _]. apply seg_body in Pl as [_ Pl].
      eapply body_same; [|exact Pl]. apply write64_same. intros x Hh Hx.
      apply (hdr_not_page (p_free p) [] x); [by rewrite app_nil_r|done|]. unfold within, NEXT in *. lia.
  - apply changes_then_write.
    + apply changes_then_write; [apply changes_refl|]. intros x Hx. right. right.
      unfold within, NEXT in *. lia.
    + intros x Hx. by left.
Qed.

Local Lemma buddy_adjacent :
  buddy_of (p_base p) page sz = page + sz \/ buddy_of (p_base p) page sz = page - sz.
Proof using All.
  destruct (buddy_of_cases (p_base p) page sz) as [[? _]|[? _]]; try apply Hfr; lia.
Qed.

(** Merging the freed block with its buddy [q], in front of [l2]: the merged block
    becomes the head of the list. *)
Local Lemma free_merge l1 q l2 :
  p_free p = l1 ++ (q, sz) :: l2 -> q = buddy_of (p_base p) page sz ->
  l' = (Z.min q page, sz + sz) :: l2 ->
  let m2 := write64 (write64 (k_mem s) (Z.min q page) (sz + sz))
              (Z.min q page + NEXT) (first (p_end p) l2) in
  let m := write64 m2 (a + POOL_START) (Z.min q page) in
  pool_at m a (Pool (p_base p) (p_end p) l') /\
  changes (free_footprint a page sz p) (k_mem s) m.
Proof using All.
  intros Hl Hq Hl'. pose proof returned_l' as [Rok _ _]. pose proof page_facts as Hpf.
  destruct (buddy_in_pool p page sz Hok Hfr Hlt) as [B1 B2]. rewrite <- Hq in B1, B2.
  pose proof buddy_adjacent as Hadj. rewrite <- Hq in Hadj.
  pose proof (po_free _ Hok) as Hf. rewrite Hl in Hf.
  set (l := Z.min q page) in *.
  assert (Hfirst : 0 <= first (p_end p) l2 < 2 ^ 64).
  { apply blocks_ok_app in Hf as (_ & (_ & _ & _ & _ & _ & Ck2) & _). eapply blocks_ok_first; [|lia|exact Ck2]. lia. }
  assert (Hll : forall x, within l 16 x -> within q sz x \/ within page sz x).
  { intros x Hx. unfold within, l in *. lia. }
  assert (Hq' : forall x, within q sz x -> in_blocks (p_free p) x).
  { intros x Hx. rewrite Hl, in_blocks_app, in_blocks_cons. simpl. tauto. }
  assert (Hhdr : forall x, in_hdr (l1 ++ l2) x -> ~ within l 16 x).
  { intros x Hh [Hx|Hx]%Hll; [by eapply other_hdrs|].
    destruct Hh as (b & Hb & Hbx). apply (hdr_not_page (p_free p) [] x); [| |done].
    - by rewrite app_nil_r.
    - exists b. rewrite Hl. split; [set_solver|done]. }
  set (m2 := write64 (write64 (k_mem s) l (sz + sz)) (l + NEXT) (first (p_end p) l2)).
  assert (Hch2 : changes (within l 16) (k_mem s) m2).
  { do 2 (apply changes_then_write; [|unfold within, NEXT; lia]). apply changes_refl. }
  simpl. fold m2. split.
  - rewrite Hl' in *.
    apply (pool_relink (k_mem s) m2 a p [] (p_free p) ((l, sz + sz) :: l2)); try done.
    + eapply changes_weaken; [exact Hch2|]. intros x Hx. split; [unfold within, l in Hx; lia|]. by intros (b & []%elem_of_nil & _).
    + simpl. unfold m2. split.
      { rewrite read64_write64_ne by (unfold NEXT; lia). apply read64_write64_eq.
        unfold l. lia. }
      apply seg_body. split; [by rewrite read64_write64_eq|].
      destruct Hat as [_ _ Pl _]. rewrite Hl in Pl.
      apply seg_app in Pl as [_ (_ & _ & [_ Pl]%seg_body)].
      eapply body_same; [|exact Pl]. eapply changes_same_on; [exact Hch2|].
      intros x (b & Hb & Hbx). apply Hhdr. exists b. split; [set_solver|done].
  - apply changes_then_write; [|intros x Hx; by left].
    eapply changes_weaken; [exact Hch2|]. intros x [Hx|Hx]%Hll; right; [left; by apply Hq'|by right].
Qed.

Local Lemma start_mapped : mapped (k_mem s) (a + POOL_START) 8.
Proof using All. apply read64_is_Some. eexists. exact (seg_head _ _ _ _ (pl_list _ _ _ Hat)). Qed.

(** The code run when the walk meets a block above [page], or the end. *)
Local Lemma wp_free_link b (Q : unit -> kernel -> Prop) : l' = (page, sz) :: p_free p ->
  (forall m, pool_at m a (Pool (p_base p) (p_end p) l') ->
     changes (free_footprint a page sz p) (k_mem s) m -> Q tt (set_mem m s)) ->
  wp (if 0 =? 0
      then start ← pool_field POOL_START i; store64 (page + NEXT) start ;; set_pool_start i page
      else store64 (0 + NEXT) page ;; store64 (page + NEXT) b) Q s.
Proof using All.
  intros Hl' HQ. destruct (free_link Hl') as [Hat' Hch]. specialize (HQ _ Hat' Hch). pose proof page_facts as Hpf. simpl Z.eqb. cbv iota.
  apply wp_bind, (wp_pool_field _ _ (first (p_end p) (p_free p))); [exact (seg_head _ _ _ _ (pl_list _ _ _ Hat))|].
  apply wp_bind, wp_store64; [eapply mapped_sub; [apply Hat|unfold NEXT; lia|unfold NEXT; lia]|].
  apply wp_bind, wp_bind, wp_gets, wp_ret, wp_store64; [apply write64_mapped, start_mapped|]. exact HQ.
Qed.

(** The code run when the walk meets the buddy. *)
Local Lemma wp_free_merge l1 q l2 (Q : unit -> kernel -> Prop) :
  p_free p = l1 ++ (q, sz) :: l2 -> q = buddy_of (p_base p) page sz ->
  l' = (Z.min q page, sz + sz) :: l2 ->
  (forall m, pool_at m a (Pool (p_base p) (p_end p) l') ->
     changes (free_footprint a page sz p) (k_mem s) m -> Q tt (set_mem m s)) ->
  wp (let '(h, l) := if page <? q then (q, page) else (page, q) in
      hsize ← load64 h; lsize ← load64 l;
      store64 l (add64 lsize hsize) ;;
      bnext ← load64 (q + NEXT); store64 (l + NEXT) bnext ;;
      (if negb (0 =? 0) then store64 (0 + NEXT) l else set_pool_start i l)) Q s.
Proof using All.
  intros Hl Hq Hl' HQ. destruct (free_merge l1 q l2 Hl Hq Hl') as [Hat' Hch].
  specialize (HQ _ Hat' Hch). pose proof page_facts as Hpf.
  destruct (buddy_in_pool p page sz Hok Hfr Hlt) as [B1 B2]. rewrite <- Hq in B1, B2.
  pose proof (pl_list _ _ _ Hat) as Pl. rewrite Hl in Pl.
  destruct (seg_size _ _ _ _ _ _ _ Pl) as [Rq Rn].
  pose proof buddy_adjacent as Hadj. rewrite <- Hq in Hadj.
  assert (Hhl : (if page <? q then (q, page) else (page, q)) = (Z.max q page, Z.min q page)).
  { destruct (Z.ltb_spec page q); f_equal; lia. }
  rewrite Hhl. cbv iota beta.
  assert (Hmax : read64 (k_mem s) (Z.max q page) = Some sz).
  { destruct (Z.max_spec q page) as [[_ ->]|[_ ->]]; done. }
  assert (Hmin : read64 (k_mem s) (Z.min q page) = Some sz).
  { destruct (Z.min_spec q page) as [[_ ->]|[_ ->]]; done. }
  assert (Hm : mapped (k_mem s) (Z.min q page) 16).
  { eapply mapped_sub; [apply Hat|lia|lia]. }
  apply wp_bind, (wp_load64 _ sz); [done|]. apply wp_bind, (wp_load64 _ sz); [done|].
  rewrite add64_small by lia.
  apply wp_bind, wp_store64; [eapply mapped_sub; [exact Hm|lia|lia]|].
  apply wp_bind, (wp_load64 _ (first (p_end p) l2)).
  { simpl. rewrite read64_write64_ne by (unfold NEXT; lia). done. }
  apply wp_bind, wp_store64.
  { apply write64_mapped. eapply mapped_sub; [exact Hm|unfold NEXT; lia|unfold NEXT; lia]. }
  simpl negb. cbv iota. apply wp_bind, wp_bind, wp_gets, wp_ret, wp_store64; [do 2 apply write64_mapped; apply start_mapped|]. exact HQ.
Qed.

Lemma free_in_pool_spec l2 : forall l1 fuel,
  p_free p = l1 ++ l2 -> passed (p_base p) page sz l1 -> (length l2 < fuel)%nat ->
  wp (free_in_pool fuel i page 0 (first (p_end p) l2)) (fun _ s' =>
    exists m, s' = set_mem m s /\ pool_at m a (Pool (p_base p) (p_end p) l') /\
      changes (free_footprint a page sz p) (k_mem s) m) s.
Proof using All.
  pose proof page_facts as Hpf. pose proof Hat as [Pb Pe Pl Pm].
  destruct (buddy_in_pool p page sz Hok Hfr Hlt) as [B1 B2].
  induction l2 as [|[q t] l2 IH]; intros l1 fuel Hl Hl1 Hf;
    (destruct fuel as [|fuel]; [simpl in Hf; lia|]); cbn [free_in_pool];
    assert (Hl' : l' = free_walk (p_base p) page sz (p_free p) _)
      by (unfold l', free_list; rewrite Hl at 2; by apply free_walk_skip);
    apply wp_bind, (wp_pool_field _ _ (p_base p)); try done;
    apply wp_bind, (wp_get_buddy_of _ p page sz); try done; simpl first in *; simpl in Hl'.
  - destruct (Z.eqb_spec (p_end p) (buddy_of (p_base p) page sz)); [lia|].
    destruct (Z.ltb_spec page (p_end p)); [|lia].
    apply wp_free_link; [done|]. intros m ??. by exists m.
  - destruct (Z.eqb_spec q (buddy_of (p_base p) page sz)) as [Hq|Hq].
    + assert (t = sz) as ->.
      { apply (fr_buddy _ _ _ _ _ _ Hfr). rewrite Hl, <- Hq. set_solver. }
      apply (wp_free_merge l1 q l2); try done. intros m ??. by exists m.
    + destruct (Z.ltb_spec page q) as [Hpq|Hpq].
      { apply wp_free_link; [done|]. intros m ??. by exists m. }
      rewrite Hl in Pl. destruct (seg_size _ _ _ _ _ _ _ Pl) as [Rq Rn].
      apply wp_bind, (wp_pool_field _ _ (p_end p)); [done|].
      destruct (Z.eqb_spec q (p_end p)) as [He|He]; [lia|].
      apply wp_bind, (wp_load64 _ (first (p_end p) l2)); [done|].
      apply (IH (l1 ++ [(q, t)]) fuel).
      * by rewrite <- app_assoc.
      * apply Forall_app. split; [done|]. by constructor.
      * simpl in Hf. lia.
Qed.
End free_in_pool.

(** [page] can be freed as a block of [sz] bytes: it lies in a pool, away from
    the free blocks, is smaller than the pool, no earlier pool claims its
    address, and its buddy, when free, is not split. *)
Definition can_free (ps : list pool) (page sz : Z) (ps1 : list pool) (p : pool)
    (ps2 : list pool) : Prop :=
  ps = ps1 ++ p :: ps2 /\
  Forall (fun q => page < p_base q \/ p_end q < page) ps1 /\
  freeable (p_base p) (p_base p) (p_end p) page sz (p_free p) /\
  sz < p_end p - p_base p.

Lemma free_in_pools_spec s page sz ps2 p : forall ps1 ps0 fuel,
  repr s (ps0 ++ ps1 ++ p :: ps2) ->
  can_free (ps1 ++ p :: ps2) page sz ps1 p ps2 ->
  read64 (k_mem s) page = Some sz -> (length (p_free p) < fuel)%nat ->
  wp (free_in_pools fuel (length (ps1 ++ p :: ps2)) (Z.of_nat (length ps0)) page) (fun _ s' =>
    exists m, s' = set_mem m s /\
      repr s' (ps0 ++ ps1 ++ Pool (p_base p) (p_end p) (free_list (p_base p) page sz (p_free p)) :: ps2) /\
      changes (fun x => pa_footprint s (ps0 ++ ps1 ++ p :: ps2) x \/ within page sz x) (k_mem s) m) s.
Proof.
  intros ps1. induction ps1 as [|q ps1 IH]; intros ps0 fuel Hr Hcf Hpage Hf;
    destruct Hcf as (_ & Hout & Hfr & Hlt); cbn [app length free_in_pools] in *.
  - assert (Hi : (ps0 ++ p :: ps2) !! length ps0 = Some p) by by apply list_lookup_middle.
    pose proof (rp_at _ _ Hr _ _ Hi) as Hat. pose proof Hat as [Pb Pe Pl _].
    assert (Hok : pool_ok p).
    { pose proof (rp_ok _ _ Hr) as H. rewrite Forall_forall in H. apply H. set_solver. }
    pose proof (fr_in _ _ _ _ _ _ Hfr). pose proof (page_pow2_pos _ (fr_size _ _ _ _ _ _ Hfr)).
    apply wp_bind. unfold not_in_pool. apply wp_bind, (wp_pool_field _ _ _ _ _ Pb).
    destruct (Z.ltb_spec page (p_base p)); [lia|].
    apply wp_bind, (wp_pool_field _ _ _ _ _ Pe), wp_ret.
    destruct (Z.ltb_spec (p_end p) page); [lia|].
    apply wp_bind, (wp_pool_field _ _ (first (p_end p) (p_free p))); [by apply seg_head in Pl|].
    eapply wp_conseq.
    { apply (free_in_pool_spec s _ p page sz Hat Hok (repr_desc_apart _ _ _ _ Hr Hi) Hfr Hlt Hpage
        (p_free p) []); [done|constructor|done]. }
    simpl. intros [] s' (m & -> & Hat' & Hch). exists m. split; [done|]. split.
    + eapply repr_update; [exact Hr|exact Hat'| |exact Hch|].
      * split; try apply Hok. simpl. eapply rt_ok, free_list_returned; try apply Hfr; try apply Hok.
        pose proof (po_base _ Hok). lia.
      * intros x [Hx|[Hx|Hx]]; [left| |right; unfold within in *; lia].
        -- unfold desc, within, POOL_START, POOL_SIZE in *. lia.
        -- right. by apply pool_ok_in.
    + eapply changes_weaken; [exact Hch|]. intros x [Hx|[Hx|Hx]]; [left; left| |by right].
      * rewrite length_app. simpl. unfold within, POOL_START, POOL_SIZE in *. lia.
      * left. right. rewrite free_bytes_app, free_bytes_cons. tauto.
  - apply Forall_cons in Hout as [Hq Hout].
    assert (Hi : (ps0 ++ q :: ps1 ++ p :: ps2) !! length ps0 = Some q) by by apply list_lookup_middle.
    destruct (rp_at _ _ Hr _ _ Hi) as [Pb Pe _ _].
    assert (Hn : wp (not_in_pool (Z.of_nat (length ps0)) page) (fun b s' => b = true /\ s' = s) s).
    { unfold not_in_pool. apply wp_bind, (wp_pool_field _ _ _ _ _ Pb).
      destruct (Z.ltb_spec page (p_base q)); [by apply wp_ret|].
      apply wp_bind, (wp_pool_field _ _ _ _ _ Pe), wp_ret. split; [lia|done]. }
    apply wp_bind. eapply wp_conseq; [exact Hn|]. intros b s' [-> ->].
    specialize (IH (ps0 ++ [q]) fuel). rewrite <- !app_assoc in IH.
    replace (Z.of_nat (length ps0) + 1) with (Z.of_nat (length (ps0 ++ [q])))
      by (rewrite length_app; simpl; lia).
    apply IH; done.
Qed.

Lemma free_pools_at ps page sz ps1 p ps2 :
  can_free ps page sz ps1 p ps2 ->
  free_pools page sz ps =
    Some (ps1 ++ Pool (p_base p) (p_end p) (free_list (p_base p) page sz (p_free p)) :: ps2).
Proof.
  intros (-> & Hout & Hfr & _). pose proof (fr_in _ _ _ _ _ _ Hfr).
  pose proof (page_pow2_pos _ (fr_size _ _ _ _ _ _ Hfr)).
  induction Hout as [|q ps1 Hq _ IH]; simpl.
  - destruct (Z.ltb_spec page (p_base p)), (Z.ltb_spec (p_end p) page); try lia. done.
  - rewrite IH. destruct (Z.ltb_spec page (p_base q)), (Z.ltb_spec (p_end q) page);
      try done; lia.
Qed.

(** What a free that returns does on the abstract state: [lost] drops out of the lists. *)
Record freed (page sz : Z) (lost : blocks) (ps qs : list pool) : Prop := {
  fd_ok : Forall pool_ok qs;
  fd_apart : pools_apart qs;
  fd_free : forall x, free_bytes qs x <-> (free_bytes ps x \/ within page sz x) /\ ~ in_blocks lost x;
  fd_bytes : total_free qs + bytes lost = total_free ps + sz;
}.

Lemma free_pools_freed ps page sz ps1 p ps2 qs :
  Forall pool_ok ps -> pools_apart ps -> can_free ps page sz ps1 p ps2 ->
  free_pools page sz ps = Some qs -> freed page sz (lost_blocks (p_base p) page sz (p_free p)) ps qs.
Proof.
  intros Hok Hap Hcf. rewrite (free_pools_at _ _ _ _ _ _ Hcf). intros [= <-].
  destruct Hcf as (-> & _ & Hfr & _). pose proof Hok as Hok'. rewrite Forall_app, Forall_cons in Hok.
  destruct Hok as (Hok1 & Hp & Hok2). pose proof Hp as [Hb He Hs Hf].
  assert (0 <= p_base p) by lia.
  destruct (free_list_returned _ _ _ page sz _ H He Hf Hfr) as [Rok Rfree Rbytes]. set (lost := lost_blocks _ _ _ _) in *.
  split.
  - rewrite Forall_app, Forall_cons. by split_and!.
  - by apply pools_apart_swap.
  - intros x. rewrite !free_bytes_app, !free_bytes_cons. simpl. rewrite Rfree.
    assert (Hl : in_blocks lost x -> ~ free_bytes (ps1 ++ ps2) x).
    { intros Hx. apply (other_pools_apart ps1 p ps2 x Hap Hok'). apply (pool_ok_in _ _ Hp). by apply lost_blocks_in in Hx. }
    rewrite free_bytes_app in Hl. tauto.
  - rewrite !total_free_app. simpl. lia.
Qed.

(** [page_free] against the abstract allocator. *)
Lemma page_free_refines fuel page sz s ps ps1 p ps2 :
  repr s ps -> pa_lock (k_pa s) = false ->
  can_free ps page (page_round sz) ps1 p ps2 -> (length (p_free p) < fuel)%nat ->
  exists qs m, free_pools page (page_round sz) ps = Some qs /\
    page_free fuel page sz s = Done tt (set_mem m s) /\ repr (set_mem m s) qs /\
    changes (fun x => pa_footprint s ps x \/ within page (page_round sz) x) (k_mem s) m.
Proof.
  intros Hr Hlock Hcf Hf. rewrite (free_pools_at _ _ _ _ _ _ Hcf).
  pose proof Hcf as (-> & _ & Hfr & Hlt). set (rsz := page_round sz) in *.
  pose proof (fr_in _ _ _ _ _ _ Hfr). pose proof (page_pow2_pos _ (fr_size _ _ _ _ _ _ Hfr)).
  pose proof (page_pow2_bound _ (fr_size _ _ _ _ _ _ Hfr)).
  assert (Hi : (ps1 ++ p :: ps2) !! length ps1 = Some p) by by apply list_lookup_middle.
  pose proof (rp_at _ _ Hr _ _ Hi) as Hat.
  assert (Hm : mapped (k_mem s) page 8) by (eapply mapped_sub; [apply Hat|lia|lia]).
  assert (Hout : forall x, within page 8 x -> ~ pa_footprint s (ps1 ++ p :: ps2) x).
  { intros x Hx [Hd|Hd].
    - pose proof (rp_desc _ _ Hr) as Hda. rewrite Forall_forall in Hda.
      specialize (Hda p ltac:(set_solver)). unfold apart, within in *. lia.
    - assert (Hx' : within page rsz x) by (unfold within in *; lia).
      rewrite free_bytes_app, free_bytes_cons in Hd. destruct Hd as [Hd|[Hd|Hd]].
      2: by apply (fr_apart _ _ _ _ _ _ Hfr) in Hd.
      all: eapply (other_pools_apart ps1 p ps2 x); [apply Hr|apply Hr|unfold within in *; lia|];
        rewrite free_bytes_app; tauto. }
  set (s1 := set_mem (write64 (k_mem s) page rsz) (set_pa_lock true s)).
  assert (Hr1 : repr s1 (ps1 ++ p :: ps2)).
  { apply (repr_lock (set_mem (write64 (k_mem s) page rsz) s)). eapply repr_frame;
      [exact Hr|apply changes_write64|done]. }
  assert (Hrun : store64 page rsz (set_pa_lock true s) = Done tt s1).
  { unfold store64. simpl. by rewrite (proj2 (mappedb_spec (k_mem s) page 8)). }
  pose proof (free_in_pools_spec s1 page rsz ps2 p ps1 [] fuel Hr1 Hcf) as Hloop.
  simpl in Hloop. rewrite read64_write64_eq in Hloop by lia. specialize (Hloop eq_refl Hf).
  apply wp_done in Hloop as ([] & s2 & Hrun2 & m & -> & Hr2 & Hch).
  eexists _, m. split; [done|].
  assert (Hs : set_pa_lock false (set_mem m s1) = set_mem m s).
  { destruct s as [? [] ? ? ?]. unfold s1. simpl in *. by rewrite Hlock. }
  split_and!.
  - unfold page_free. erewrite run_bind; [|unfold ACQUIRE; by rewrite Hlock].
    erewrite run_bind by exact Hrun. erewrite run_bind; [|reflexivity]. cbv beta.
    rewrite (rp_count _ _ Hr1), Nat2Z.id. erewrite run_bind by exact Hrun2.
    rewrite <- Hs. done.
  - rewrite <- Hs. by apply repr_lock.
  - eapply changes_trans.
    + eapply changes_weaken; [apply (changes_write64 (k_mem s) page rsz)|].
      intros x Hx. right. unfold within in *. lia.
    + eapply changes_weaken; [exact Hch|]. done.
Qed.
