(* ===== verification/PageTheorems.v ===== *)
(** * The page allocator: theorems

    The properties of kernel/page_alloc.c a caller relies on, obtained from the
    refinement of PageRefine.v and the abstract contracts of PageSpec.v, and the
    runs on which the code departs from them. *)
From S2P Require Import Prelude Memory Mem Pow2 State FreeList PageSpec PageAlloc PageRefine.

(** ** A state to run the allocator in *)

Definition zeros (a n : Z) (m : gmap Z Z) : gmap Z Z := write_bytes m a (replicate (Z.to_nat n) 0).

(** A kernel whose memory is [m] and whose page allocator has [n] pools described
    at address 4096. *)
Definition demo_kernel (m : gmap Z Z) (n : Z) : kernel :=
  quiet_kernel m (PageAllocGlobals 4096 n false) (CpuGlobals 0 1 0 0)
    (ProcGlobals 0 false 0 0 false) no_paging.

(** One pool of [size] bytes at 65536, all of it one free block. *)
Definition demo_mem (size : Z) : gmap Z Z :=
  write64 (write64 (write64 (write64 (write64
    (zeros 65536 size (zeros 4096 24 ∅))
    4096 65536) 4104 65536) 4112 (65536 + size)) 65536 size) 65544 (65536 + size).

Definition demo (size : Z) : kernel := demo_kernel (demo_mem size) 1.
Definition demo_pool (size : Z) : pool := Pool 65536 (65536 + size) [(65536, size)].

Lemma lookup_zeros a n m x : a <= x < a + n -> zeros a n m !! x = Some 0.
Proof.
  intros Hx. unfold zeros. rewrite lookup_write_bytes, length_replicate, decide_True by lia.
  apply lookup_replicate_2. lia.
Qed.

Lemma changes_zeros a n m : 0 <= n -> changes (within a n) m (zeros a n m).
Proof.
  intros Hn. pose proof (changes_write_bytes m a (replicate (Z.to_nat n) 0)) as H.
  by rewrite length_replicate, Z2Nat.id in H.
Qed.

Lemma mapped_zeros a n m : 0 <= n -> mapped (zeros a n m) a n.
Proof.
  intros Hn x Hx. unfold zeros. rewrite lookup_write_bytes, length_replicate, decide_True by lia.
  apply lookup_lt_is_Some_2. rewrite length_replicate. lia.
Qed.

(** Reads of a memory built by a chain of stores. *)
Ltac demo_reads :=
  change (4096 + POOL_BASE) with 4104; change (4096 + POOL_END) with 4112;
  change (4096 + POOL_START) with 4096;
  change (65536 + NEXT) with 65544; change (69632 + NEXT) with 69640;
  autorewrite with mem.

Lemma demo_repr size : page_pow2 size -> size <= 2 ^ 40 -> repr (demo size) [demo_pool size].
Proof.
  intros Hs Hle. pose proof (page_pow2_pos _ Hs). split; try done.
  - intros i p Hi. destruct i as [|[|i]]; simplify_eq/=.
    change (desc _ _) with 4096. split; simpl; unfold demo_mem.
    + by demo_reads.
    + by demo_reads.
    + split_and!; by demo_reads.
    + do 5 apply write64_mapped. replace (65536 + size - 65536) with size by lia.
      apply mapped_zeros. lia.
  - apply Forall_singleton. split; cbn [demo_pool p_base p_end p_free]; try lia.
    + by replace (65536 + size - 65536) with size by lia.
    + simpl. split_and!; [lia|done|by exists 0|lia|done|lia].
    + by exists 4096.
  - apply Forall_singleton. simpl. unfold apart, POOL_SIZE. lia.
Qed.

(** ** Allocation *)

(** C1. [page_alloc] on a well-formed allocator with the lock free either returns
    a block of the rounded size that is aligned on its size within its pool, made
    of bytes that were free and no longer are, leaving every other byte of the
    kernel's memory unchanged, the lock free and lists in address order so; or no free
    block is large enough and it panics. *)
Theorem page_alloc_correct fuel sz s ps :
  repr s ps -> pa_lock (k_pa s) = false -> fuel_for ps fuel -> 0 <= sz <= 2 ^ 63 ->
  (exists r m qs,
     page_alloc fuel sz s = Done r (set_mem m s) /\
     repr (set_mem m s) qs /\
     allocated (page_round sz) r ps qs /\
     sz <= page_round sz /\
     (ordered ps -> ordered qs) /\
     forall x, ~ pa_footprint s ps x -> m !! x = k_mem s !! x) \/
  ((forall p b, p ∈ ps -> b ∈ p_free p -> snd b < page_round sz) /\
   page_alloc fuel sz s = Stop Panic).
Proof.
  intros Hr Hlock Hf Hsz. pose proof (page_alloc_refines fuel sz s ps Hr Hlock Hf Hsz) as H.
  destruct (page_round_pow2 sz Hsz) as [Hpow Hle].
  destruct (alloc_pools (page_round sz) ps) as [[r qs]|] eqn:E.
  - left. destruct H as (m & Hrun & Hr' & Hch & _). exists r, m, qs. split_and!; try done.
    + eapply alloc_pools_allocated; try done; apply Hr.
    + eapply alloc_pools_ordered; try done; apply Hr.
    + apply Hch.
  - right. split; [|done]. intros p b Hp Hb. apply alloc_pools_None in E.
    rewrite Forall_forall in E. specialize (E p Hp). apply fit_None in E.
    rewrite Forall_forall in E. by apply E.
Qed.

Lemma page_alloc_correct_witness :
  (exists r m qs,
     page_alloc 65 4096 (demo 8192) = Done r (set_mem m (demo 8192)) /\
     repr (set_mem m (demo 8192)) qs /\
     allocated (page_round 4096) r [demo_pool 8192] qs /\
     4096 <= page_round 4096 /\
     (ordered [demo_pool 8192] -> ordered qs) /\
     forall x, ~ pa_footprint (demo 8192) [demo_pool 8192] x -> m !! x = k_mem (demo 8192) !! x) \/
  ((forall p b, p ∈ [demo_pool 8192] -> b ∈ p_free p -> snd b < page_round 4096) /\
   page_alloc 65 4096 (demo 8192) = Stop Panic).
Proof.
  apply (page_alloc_correct 65 4096 (demo 8192) [demo_pool 8192]).
  - apply demo_repr; [by exists 13|lia].
  - reflexivity.
  - repeat constructor.
  - lia.
Defined.

(** ** Freeing *)

(** C2. [page_free] of a block whose buddy, when free, has its size returns with the lock
    free and the lists well formed.  The pool's list is then headed by the block, in front
    of the whole old list, or, when the walk meets the buddy, by the two merged, in front of
    what followed the buddy.  The free bytes become exactly the old ones together with the
    block, less the blocks in front of the buddy, which are lost ([prev] is never set);
    nothing but free bytes, the block and the pool descriptors is written. *)
Theorem page_free_correct fuel page sz s ps ps1 p ps2 :
  repr s ps -> pa_lock (k_pa s) = false ->
  can_free ps page (page_round sz) ps1 p ps2 -> (length (p_free p) < fuel)%nat ->
  let rsz := page_round sz in
  let qs := ps1 ++ Pool (p_base p) (p_end p) (free_list (p_base p) page rsz (p_free p)) :: ps2 in
  exists m,
    page_free fuel page sz s = Done tt (set_mem m s) /\
    repr (set_mem m s) qs /\
    freed page rsz (lost_blocks (p_base p) page rsz (p_free p)) ps qs /\
    forall x, ~ pa_footprint s ps x -> ~ within page rsz x -> m !! x = k_mem s !! x.
Proof.
  intros Hr Hlock Hcf Hf rsz qs.
  destruct (page_free_refines fuel page sz s ps ps1 p ps2 Hr Hlock Hcf Hf)
    as (qs' & m & Hfree & Hrun & Hr' & Hch).
  assert (qs' = qs) as -> by (rewrite (free_pools_at _ _ _ _ _ _ Hcf) in Hfree; by injection Hfree).
  exists m. split_and!; try done.
  - eapply free_pools_freed; try done; apply Hr.
  - intros x H1 H2. apply Hch. tauto.
Qed.

(** The pool after its lower half has been allocated. *)
Definition demo_half_mem : gmap Z Z :=
  write64 (write64 (write64 (demo_mem 8192) 4096 69632) 69632 4096) 69640 73728.
Definition demo_half : kernel := demo_kernel demo_half_mem 1.
Definition demo_half_pool : pool := Pool 65536 73728 [(69632, 4096)].

Lemma demo_half_repr : repr demo_half [demo_half_pool].
Proof.
  split; [done|done| | |done|].
  - intros i p Hi. destruct i as [|[|i]]; simplify_eq/=.
    change (desc _ _) with 4096. split; simpl; unfold demo_half_mem, demo_mem.
    + by demo_reads.
    + by demo_reads.
    + split_and!; by demo_reads.
    + do 8 apply write64_mapped. apply mapped_zeros. lia.
  - apply Forall_singleton. split; cbn [demo_half_pool p_base p_end p_free]; try lia.
    + by exists 13.
    + simpl. split_and!; try lia; [by exists 12|by exists 1|done].
    + by exists 4096.
  - apply Forall_singleton. simpl. unfold apart, POOL_SIZE. lia.
Qed.

Lemma demo_half_can_free :
  can_free [demo_half_pool] 65536 (page_round 4096) [] demo_half_pool [].
Proof.
  change (page_round 4096) with 4096. split; [done|]. split; [done|]. split; [|done].
  split; simpl; try done.
  - by exists 12.
  - by exists 0.
  - intros x [Hx|Hx]%in_blocks_cons; [unfold within in *; simpl in *; lia|by apply in_blocks_nil in Hx].
  - intros s [Hs|Hs%elem_of_nil]%elem_of_cons; [by injection Hs|done].
Qed.

Lemma page_free_correct_witness :
  exists m,
    page_free 2 65536 4096 demo_half = Done tt (set_mem m demo_half) /\
    repr (set_mem m demo_half) [demo_pool 8192] /\
    freed 65536 (page_round 4096) [] [demo_half_pool] [demo_pool 8192] /\
    forall x, ~ pa_footprint demo_half [demo_half_pool] x ->
      ~ within 65536 (page_round 4096) x -> m !! x = k_mem demo_half !! x.
Proof.
  apply (page_free_correct 2 65536 4096 demo_half [demo_half_pool] [] demo_half_pool []).
  - apply demo_half_repr.
  - reflexivity.
  - apply demo_half_can_free.
  - simpl. lia.
Defined.

(** ** Departures of the code from the buddy scheme *)

(** The free list of the first pool, read back from memory. *)
Fixpoint read_list (n : nat) (m : gmap Z Z) (a e : Z) : blocks :=
  match n with
  | O => []
  | S k =>
      if a =? e then [] else
      match read64 m a, read64 m (a + NEXT) with
      | Some s, Some nx => (a, s) :: read_list k m nx e
      | _, _ => []
      end
  end.

Definition free_list_of {A} (r : res kernel A) : option blocks :=
  match r with
  | Done _ s =>
      start ← read64 (k_mem s) 4096; e ← read64 (k_mem s) 4112;
      Some (read_list 8 (k_mem s) start e)
  | Stop _ => None
  end.

(** [page_free] merges with the block at the buddy's address without looking at
    its size: freeing 8192 bytes while only the first half of the buddy is free
    leaves a block of 12288 bytes, not a power of two, in the list ... *)
Definition unequal_buddies : M kernel unit :=
  a ← page_alloc 70 8192;
  b ← page_alloc 70 4096;
  page_alloc 70 4096 ;;
  page_free 70 b 4096 ;;
  page_free 70 a 8192.

(** ... which the next allocation cannot be split from: [split] halves past the
    requested size, down to blocks whose headers overlap, and faults. *)

(** Merging with a buddy of another size corrupts the allocator: after this
    legal sequence of requests the pool's only free block has 12288 bytes, and the
    next one-page request faults. *)
Theorem page_free_unequal_buddies :
  free_list_of (unequal_buddies (demo 16384)) = Some [(65536, 12288)] /\
  (unequal_buddies ;; page_alloc 70 4096) (demo 16384) = Stop Fault.
Proof. split; vm_compute; reflexivity. Qed.

(** The blocks in front of a buddy are lost: [c] and [a] are freed, then [d], whose buddy
    is [c]; the list keeps the merged block only, and the page at [a] is gone. *)
Definition front_lost : M kernel unit :=
  a ← page_alloc 70 4096; page_alloc 70 4096 ;; c ← page_alloc 70 4096; d ← page_alloc 70 4096;
  page_free 70 c 4096 ;; page_free 70 a 4096 ;; page_free 70 d 4096.

Theorem page_free_loses_blocks : free_list_of (front_lost (demo 16384)) = Some [(73728, 8192)].
Proof. vm_compute. reflexivity. Qed.

(** Lists lose their address order: [a] is freed before [c]. *)
Lemma page_free_unordered :
  free_list_of ((a ← page_alloc 70 4096; page_alloc 70 4096 ;; c ← page_alloc 70 4096; page_alloc 70 4096 ;;
    page_free 70 a 4096 ;; page_free 70 c 4096) (demo 16384)) = Some [(73728, 4096); (65536, 4096)].
Proof. vm_compute. reflexivity. Qed.

(** Freeing a block that is its whole pool takes the pool's end for the buddy and
    reads a block header there. *)
Lemma page_free_whole_pool :
  (a ← page_alloc 70 8192; page_free 70 a 8192) (demo 8192) = Stop Fault.
Proof. vm_compute. reflexivity. Qed.

(** Buddies are merged once, not repeatedly: after freeing everything the pool is
    still in two halves. *)
Lemma page_free_merges_once :
  free_list_of ((a ← page_alloc 70 4096; page_free 70 a 4096) (demo 16384)) =
    Some [(65536, 8192); (73728, 8192)].
Proof. vm_compute. reflexivity. Qed.

(** A request above 2^63 bytes wraps to zero in [next_pow2] and is served with one
    page. *)
Lemma page_alloc_huge : value_of (page_alloc 70 (2 ^ 63 + 1) (demo 8192)) = Some 65536.
Proof. vm_compute. reflexivity. Qed.
