(* ===== verification/Allocator.v ===== *)
(** * What an allocator promises to its clients

    The contract between a memory allocator and the code that calls it.  [F] is
    the allocator's footprint: the bytes it keeps its own data and its free memory
    in.  A client may write anywhere else ([al_frame]); an allocation either takes
    a block out of the footprint or panics ([al_alloc]).  kernel/page_alloc.c is an
    instance below; kernel/kalloc.c is its client and another instance. *)
From S2P Require Import Prelude Memory Pow2 State FreeList PageSpec PageAlloc PageRefine.

(** The largest request the contracts cover: no 64-bit sum of the code wraps. *)
Definition MAX_REQUEST : Z := 2 ^ 62.

(** A block of [sz] bytes at [r], behind a header of [h] bytes, was taken out of
    the footprint [F], leaving [G]. *)
Record granted (h sz r : Z) (F G : Z -> Prop) (m m' : gmap Z Z) : Prop := {
  gr_pos : 0 < r - h;
  gr_end : r + sz < 2 ^ 64;
  gr_in : forall x, within (r - h) (h + sz) x -> F x;
  gr_rest : forall x, G x -> F x /\ ~ within (r - h) (h + sz) x;
  gr_mem : changes F m m';
  gr_mapped : mapped m' (r - h) (h + sz);
  gr_align : (16 | r - h);
}.

Class Allocator (h : Z) (alloc : nat -> Z -> M kernel Z) := {
  al_inv : kernel -> (Z -> Prop) -> Prop;
  al_frame s F m P :
    al_inv s F -> changes P (k_mem s) m -> (forall x, P x -> ~ F x) -> al_inv (set_mem m s) F;
  al_alloc s F sz :
    al_inv s F -> 0 <= sz <= MAX_REQUEST ->
    (exists r m G, eventually (fun fuel => alloc fuel sz) s (Done r (set_mem m s)) /\
       al_inv (set_mem m s) G /\ granted h sz r F G (k_mem s) m) \/
    eventually (fun fuel => alloc fuel sz) s (Stop Panic);
}.
Arguments al_inv {h} alloc {_} s F.

(** ** The page allocator is an allocator *)

Definition max_blocks (ps : list pool) : nat :=
  foldr (fun p n => (length (p_free p) + n)%nat) O ps.

Lemma fuel_for_max ps fuel : (max_blocks ps + 64 <= fuel)%nat -> fuel_for ps fuel.
Proof.
  unfold fuel_for. induction ps as [|p ps IH]; simpl; intros H; constructor; [lia|].
  apply IH. lia.
Qed.

Definition page_inv (s : kernel) (F : Z -> Prop) : Prop :=
  exists ps, repr s ps /\ pa_lock (k_pa s) = false /\ forall x, F x <-> pa_footprint s ps x.

Lemma page_inv_frame s F m P :
  page_inv s F -> changes P (k_mem s) m -> (forall x, P x -> ~ F x) -> page_inv (set_mem m s) F.
Proof.
  intros (ps & Hr & Hl & HF) Hch HP. exists ps. split_and!; [|done|done].
  eapply repr_frame; [done|done|]. intros x Hx. rewrite <- HF. by apply HP.
Qed.

Lemma allocated_mapped s ps r sz qs :
  repr s ps -> page_pow2 sz -> allocated sz r ps qs -> mapped (k_mem s) r sz /\ 0 < r /\ r + sz < 2 ^ 64 /\ (16 | r).
Proof.
  intros Hr Hsz Hal. destruct (al_align _ _ _ _ Hal) as (p & Hp & Hlo & Hhi & Hd).
  apply list_elem_of_lookup in Hp as [i Hi]. pose proof (pl_mapped _ _ _ (rp_at _ _ Hr i p Hi)) as Hm.
  pose proof (rp_ok _ _ Hr) as Hok. rewrite Forall_forall in Hok.
  destruct (Hok p (list_elem_of_lookup_2 _ _ _ Hi)) as [? ? _ _ Hb].
  split; [eapply mapped_sub; [exact Hm|lia|lia]|]. split; [lia|]. split; [lia|].
  replace r with (r - p_base p + p_base p) by lia. apply Z.divide_add_r; [|done].
  etrans; [by apply page_pow2_16|exact Hd].
Qed.

Lemma free_not_desc s ps x :
  repr s ps -> free_bytes ps x -> ~ within (pools (k_pa s)) (Z.of_nat (length ps) * POOL_SIZE) x.
Proof.
  intros Hr (p & Hp & Hx). pose proof (rp_desc _ _ Hr) as Hd. pose proof (rp_ok _ _ Hr) as Hok.
  rewrite Forall_forall in Hd, Hok. specialize (Hd p Hp).
  pose proof (blocks_ok_range _ _ _ _ _ (po_free _ (Hok p Hp)) Hx).
  unfold apart, within in *. lia.
Qed.

Lemma alloc_pools_length sz ps r qs : alloc_pools sz ps = Some (r, qs) -> length qs = length ps.
Proof.
  intros (ps1 & p & ps2 & l & -> & _ & _ & ->)%alloc_pools_Some. by rewrite !length_app.
Qed.

Lemma alloc_pools_bases sz ps r qs : alloc_pools sz ps = Some (r, qs) -> p_base <$> qs = p_base <$> ps.
Proof.
  intros (ps1 & p & ps2 & l & -> & _ & _ & ->)%alloc_pools_Some. by rewrite !fmap_app.
Qed.

(** [page_alloc] on represented pools. *)
Lemma pools_alloc s ps sz :
  repr s ps -> pa_lock (k_pa s) = false -> 0 <= sz <= 2 ^ 63 ->
  (exists r m qs, eventually (fun fuel => page_alloc fuel sz) s (Done r (set_mem m s)) /\
     repr (set_mem m s) qs /\
     granted 0 (page_round sz) r (pa_footprint s ps) (pa_footprint (set_mem m s) qs) (k_mem s) m /\
     evens (within (pools (k_pa s)) (Z.of_nat (length ps) * POOL_SIZE)) (k_mem s) m /\
     (forall x, free_bytes qs x \/ within r (page_round sz) x -> free_bytes ps x) /\
     p_base <$> qs = p_base <$> ps /\ (exists p, p ∈ ps /\ (page_round sz | r - p_base p))) \/
  eventually (fun fuel => page_alloc fuel sz) s (Stop Panic).
Proof.
  intros Hr Hl Hsz. destruct (page_round_pow2 sz Hsz) as [Hpow Hle].
  assert (Hrun := fun fuel Hf => page_alloc_refines fuel sz s ps Hr Hl (fuel_for_max ps fuel Hf) Hsz).
  destruct (alloc_pools (page_round sz) ps) as [[r qs]|] eqn:E.
  2: { right. by exists (max_blocks ps + 64)%nat. }
  left. assert (Hal : allocated (page_round sz) r ps qs).
  { eapply alloc_pools_allocated; try done; apply Hr. }
  destruct (Hrun (max_blocks ps + 64)%nat (Nat.le_refl _)) as (m & Hm & Hr' & Hch & Hev).
  destruct (allocated_mapped s ps r _ qs Hr Hpow Hal) as (Hmap & Hpos & Hend & Hal16).
  pose proof (alloc_pools_length _ _ _ _ E) as Hlen.
  assert (Hfree : forall x, free_bytes qs x \/ within r (page_round sz) x -> free_bytes ps x) by apply (al_free _ _ _ _ Hal).
  exists r, m, qs. split_and!; [|done| |done|done|by eapply alloc_pools_bases|].
  - eapply eventually_mono; [by auto using page_alloc_mono|exact Hm|done].
  - split; rewrite ?Z.sub_0_r, ?Z.add_0_l; try done.
    + intros x Hx. right. apply Hfree. by right.
    + intros x [Hx|Hx].
      * split; [left; simpl in Hx; by rewrite <- Hlen|].
        intros Hw. eapply (free_not_desc s ps x Hr); [|simpl in Hx; by rewrite <- Hlen]. apply Hfree. by right.
      * split; [right; apply Hfree; by left|by apply (al_fresh _ _ _ _ Hal)].
    + by eapply changes_mapped.
  - destruct (al_align _ _ _ _ Hal) as (p & Hp & _ & _ & Hd). by exists p.
Qed.

(** The footprint may be described by any equivalent predicate. *)
Lemma granted_iff h sz r (F F' G : Z -> Prop) m m' :
  (forall x, F x <-> F' x) -> granted h sz r F G m m' -> granted h sz r F' G m m'.
Proof.
  intros HF [H1 H2 H3 H4 H5 H6 H7]. split; try done.
  - intros x Hx. by apply HF, H3.
  - intros x Hx. rewrite <- HF. by apply H4.
  - eapply changes_weaken; [exact H5|]. intros x. apply HF.
Qed.

Lemma page_inv_alloc s F sz :
  page_inv s F -> 0 <= sz <= 2 ^ 63 ->
  (exists r m G, eventually (fun fuel => page_alloc fuel sz) s (Done r (set_mem m s)) /\
     page_inv (set_mem m s) G /\ granted 0 (page_round sz) r F G (k_mem s) m) \/
  eventually (fun fuel => page_alloc fuel sz) s (Stop Panic).
Proof.
  intros (ps & Hr & Hl & HF) Hsz.
  destruct (pools_alloc s ps sz Hr Hl Hsz) as [(r & m & qs & Hrun & Hr' & Hg & _)|Hp]; [left|by right].
  exists r, m, (pa_footprint (set_mem m s) qs). split_and!; [done|by exists qs|].
  eapply granted_iff; [|exact Hg]. intros x. by rewrite HF.
Qed.

(** ** What the heap needs to know of the pages below it

    An invariant of the page allocator that its clients' writes keep.  It is [page_inv],
    or [page_inv] with more said about the free memory. *)
Class PageInv := {
  pg_inv : kernel -> (Z -> Prop) -> Prop;
  pg_same s s' F : k_mem s' = k_mem s -> k_pa s' = k_pa s -> pg_inv s F -> pg_inv s' F;
  pg_frame s F m P :
    pg_inv s F -> changes P (k_mem s) m -> (forall x, P x -> ~ F x) -> pg_inv (set_mem m s) F;
  pg_alloc s F sz :
    pg_inv s F -> 0 <= sz <= 2 ^ 63 ->
    (exists r m G, eventually (fun fuel => page_alloc fuel sz) s (Done r (set_mem m s)) /\
       pg_inv (set_mem m s) G /\ granted 0 (page_round sz) r F G (k_mem s) m) \/
    eventually (fun fuel => page_alloc fuel sz) s (Stop Panic);
}.

Lemma page_inv_same s s' F : k_mem s' = k_mem s -> k_pa s' = k_pa s -> page_inv s F -> page_inv s' F.
Proof.
  intros Em Ep (ps & Hps & Hl & HF). exists ps. unfold pa_footprint in *. rewrite Ep. by split; [apply (repr_same s)|].
Qed.

#[export] Instance page_pools : PageInv :=
  {| pg_inv := page_inv; pg_same := page_inv_same; pg_frame := page_inv_frame; pg_alloc := page_inv_alloc |}.

(** Pools that start at a page and whose free memory is such that the lowest bit of every
    aligned word is clear, as in memory that was zero before the allocator took it: a page
    of it used as a page table has no present entry. *)
Definition clean_inv (s : kernel) (F : Z -> Prop) : Prop :=
  exists ps, repr s ps /\ pa_lock (k_pa s) = false /\ (forall x, F x <-> pa_footprint s ps x) /\
    (forall a, a ∈ p_base <$> ps -> (4096 | a)) /\
    forall x, free_bytes ps x -> (8 | x) -> exists b, k_mem s !! x = Some b /\ (2 | b).

Lemma clean_inv_same s s' F : k_mem s' = k_mem s -> k_pa s' = k_pa s -> clean_inv s F -> clean_inv s' F.
Proof.
  intros Em Ep (ps & Hps & Hl & HF & Ha & Hc). exists ps. unfold pa_footprint in *. rewrite Ep, Em. by split; [apply (repr_same s)|].
Qed.

Lemma clean_inv_frame s F m P :
  clean_inv s F -> changes P (k_mem s) m -> (forall x, P x -> ~ F x) -> clean_inv (set_mem m s) F.
Proof.
  intros (ps & Hr & Hl & HF & Ha & Hc) Hch HP. exists ps. split_and!; [|done|done|done|].
  - eapply repr_frame; [done|done|]. intros x Hx. rewrite <- HF. by apply HP.
  - intros x Hx H8. destruct (Hc x Hx H8) as (b & Hb & He). exists b. split; [|done].
    rewrite <- Hb. apply (ch_same _ _ _ Hch). intros Hp. apply (HP x Hp), HF. by right.
Qed.

(** The block handed out is clean as well, and starts at a page. *)
Lemma clean_inv_alloc s F sz :
  clean_inv s F -> 0 <= sz <= 2 ^ 63 ->
  (exists r m G, eventually (fun fuel => page_alloc fuel sz) s (Done r (set_mem m s)) /\
     clean_inv (set_mem m s) G /\ granted 0 (page_round sz) r F G (k_mem s) m /\ (4096 | r) /\
     forall x, within r (page_round sz) x -> (8 | x) -> exists b, m !! x = Some b /\ (2 | b)) \/
  eventually (fun fuel => page_alloc fuel sz) s (Stop Panic).
Proof.
  intros (ps & Hr & Hl & HF & Ha & Hc) Hsz. destruct (page_round_pow2 sz Hsz) as [(k & Hk & Hpow) _].
  destruct (pools_alloc s ps sz Hr Hl Hsz) as [(r & m & qs & Hrun & Hr' & Hg & Hev & Hfree & Hbase & p & Hp & Hd)|Hp]; [left|by right].
  assert (Hclean : forall x, free_bytes qs x \/ within r (page_round sz) x -> (8 | x) -> exists b, m !! x = Some b /\ (2 | b)).
  { intros x Hx%Hfree H8. destruct (Hev x H8) as [E|H]; [by apply (free_not_desc s)|rewrite E; by apply Hc|done]. }
  exists r, m, (pa_footprint (set_mem m s) qs). split_and!; [done| | | |auto].
  - exists qs. split_and!; [done|done|done|by rewrite Hbase|auto].
  - eapply granted_iff; [|exact Hg]. intros x. by rewrite HF.
  - replace r with (r - p_base p + p_base p) by lia. apply Z.divide_add_r.
    + etrans; [|exact Hd]. rewrite Hpow. exists (2 ^ (k - 12)). rewrite <- (Z.pow_add_r 2 _ 12) by lia. f_equal. lia.
    + apply Ha. by apply list_elem_of_fmap_2.
Qed.

Definition clean_pools : PageInv.
Proof.
  refine {| pg_inv := clean_inv; pg_same := clean_inv_same; pg_frame := clean_inv_frame |}.
  intros s F sz Hinv Hsz. destruct (clean_inv_alloc s F sz Hinv Hsz) as [(r & m & G & H1 & H2 & H3 & _)|Hp]; [|by right].
  left. by exists r, m, G.
Defined.

#[export] Instance page_allocator : Allocator 0 page_alloc.
Proof.
  refine {| al_inv := page_inv |}; [apply page_inv_frame|].
  intros s F sz Hinv Hsz. unfold MAX_REQUEST in Hsz.
  destruct (page_inv_alloc s F sz Hinv ltac:(lia)) as [(r & m & G & Hrun & HG & Hgr)|H]; [|by right].
  left. exists r, m, G. split_and!; [done|done|].
  destruct (page_round_pow2 sz ltac:(lia)) as [_ Hle]. destruct Hgr as [H1 H2 H3 H4 H5 H6 H7].
  rewrite Z.sub_0_r, Z.add_0_l in *. split; rewrite ?Z.sub_0_r, ?Z.add_0_l; try done; [lia| | |].
  - intros x Hx. apply H3. unfold within in *. lia.
  - intros x Hx. destruct (H4 x Hx) as [HF Hw]. split; [done|]. unfold within in *. lia.
  - eapply mapped_sub; [exact H6|lia|lia].
Defined.

(** ** Allocators that take blocks back

    [hp_block m r n]: the header in front of [r] is the one the allocator left for a
    block of [n] bytes.  It depends on the header only, so that a client may write
    all the [n] bytes; returning the block then makes it part of the footprint. *)
Class Heap (h : Z) (alloc : nat -> Z -> M kernel Z) (free : nat -> Z -> M kernel unit) := {
  hp_allocator :: Allocator h alloc;
  hp_block : gmap Z Z -> Z -> Z -> Prop;
  hp_block_same m m' r n :
    hp_block m r n -> same_on (within (r - h) h) m m' -> hp_block m' r n;
  hp_alloc s F sz :
    al_inv alloc s F -> 0 <= sz <= MAX_REQUEST ->
    (exists r m G n, eventually (fun fuel => alloc fuel sz) s (Done r (set_mem m s)) /\
       al_inv alloc (set_mem m s) G /\ granted h n r F G (k_mem s) m /\ sz <= n /\
       hp_block m r n) \/
    eventually (fun fuel => alloc fuel sz) s (Stop Panic);
  hp_free s F r n :
    al_inv alloc s F -> hp_block (k_mem s) r n -> 0 < r - h -> 0 <= n -> r + n < 2 ^ 64 ->
    mapped (k_mem s) (r - h) (h + n) -> (forall x, within (r - h) (h + n) x -> ~ F x) -> (16 | r - h) ->
    exists m, eventually (fun fuel => free fuel r) s (Done tt (set_mem m s)) /\
      al_inv alloc (set_mem m s) (fun x => F x \/ within (r - h) (h + n) x) /\
      changes (fun x => F x \/ within (r - h) (h + n) x) (k_mem s) m;
}.
Arguments hp_block {h} alloc free {_} m r n.
