(* ===== verification/Kalloc.v ===== *)
(** * kernel/kalloc.c: the kernel heap

    Every CPU has a free list of blocks {size, next, data...}; the words of an
    allocated block's header are its size and a canary computed from its address.
    [kalloc] splits the first block large enough or asks the page allocator for
    fresh pages; [kfree] checks the canary and inserts the block in the list. *)
From S2P Require Import Prelude Memory Mem Pow2 Rand State FreeList PageAlloc.

(** [canary]: the union with [next] puts it at the same offset. *)
Definition CANARY : Z := NEXT.
Definition canary (x : Z) : Z := srand_insecure x.

(** [sizeof(struct kalloc_state)] and [&states[get_cpu_data()->id]]; the [start]
    field is at offset 0. *)
Definition KALLOC_STATE_SIZE : Z := 8.
Definition cpu_state (s : kernel) : Z := states (k_cpu s) + cpu_id (k_cpu s) * KALLOC_STATE_SIZE.

Definition set_states (p : Z) (s : kernel) : kernel :=
  let g := k_cpu s in set_cpu (CpuGlobals p (ncpus g) (cpu_id g) (proc_current g)) s.

Definition kalloc_init (fuel : nat) : M kernel unit :=
  n ← gets (fun s => ncpus (k_cpu s));
  p ← page_zalloc fuel (mul64 KALLOC_STATE_SIZE n);
  modify (set_states p).

(** [while (new < cur) { prev = cur; cur = cur->next; }] *)
Fixpoint insert_walk (fuel : nat) (new prev cur : Z) : M kernel (Z * Z) :=
  match fuel with
  | O => halt OutOfFuel
  | S k =>
      if new <? cur then next ← load64 (cur + NEXT); insert_walk k new cur next
      else mret (prev, cur)
  end.

Definition insert_block (fuel : nat) (state new : Z) : M kernel unit :=
  prev ← load64 state;
  if prev =? 0 then
    store64 (new + NEXT) prev ;;
    store64 state new
  else
    cur ← load64 (prev + NEXT);
    '(prev, cur) ← insert_walk fuel new prev cur;
    if new =? cur then halt Panic else
    store64 (prev + NEXT) new ;;
    store64 (new + NEXT) cur ;;
    psize ← load64 prev;
    new ← (if add64 (prev + HDRSIZE) psize =? new then
             nnext ← load64 (new + NEXT); store64 (prev + NEXT) nnext ;;
             psize ← load64 prev; nsize ← load64 new;
             store64 prev (add64 psize (add64 nsize HDRSIZE)) ;;
             mret prev
           else mret new);
    nsize ← load64 new;
    if add64 (new + HDRSIZE) nsize =? cur then
      cnext ← load64 (cur + NEXT); store64 (new + NEXT) cnext ;;
      nsize ← load64 new; csize ← load64 cur;
      store64 new (add64 nsize (add64 csize HDRSIZE))
    else mret tt.

(** [size = (size + (ALLOC_ALIGN - 1)) & ~(ALLOC_ALIGN - 1)] *)
Definition align_up (size : Z) : Z := align_down (add64 size (ALLOC_ALIGN - 1)) ALLOC_ALIGN.

(** The search for a fitting block; [None] when the list is exhausted. *)
Fixpoint kalloc_scan (fuel : nat) (state size prev cur : Z) : M kernel (option Z) :=
  match fuel with
  | O => halt OutOfFuel
  | S k =>
      if cur =? 0 then mret None else
      csize ← load64 cur;
      if add64 size HDRSIZE <=? csize then
        let new := cur + HDRSIZE + size in
        csize ← load64 cur; store64 new (sub64 (sub64 csize size) HDRSIZE) ;;
        cnext ← load64 (cur + NEXT); store64 (new + NEXT) cnext ;;
        (if negb (prev =? 0) then store64 (prev + NEXT) new else store64 state new) ;;
        store64 cur size ;;
        store64 (cur + CANARY) (canary cur) ;;
        assert_test (cur =? cur + HDRSIZE - HDRSIZE) ;;
        mret (Some (cur + HDRSIZE))
      else
        cnext ← load64 (cur + NEXT);
        kalloc_scan k state size cur cnext
  end.

(** "No block found" *)
Definition kalloc_pages (fuel : nat) (state size : Z) : M kernel Z :=
  let want := add64 size (HDRSIZE * 2) in
  res ← page_alloc fuel want;
  let page_blk_size := next_pow2 want in
  store64 res size ;;
  store64 (res + CANARY) (canary res) ;;
  let new := res + HDRSIZE + size in
  store64 new (sub64 (sub64 page_blk_size size) (HDRSIZE * 2)) ;;
  insert_block fuel state new ;;
  assert_test (res =? res + HDRSIZE - HDRSIZE) ;;
  mret (res + HDRSIZE).

Definition kalloc (fuel : nat) (size : Z) : M kernel Z :=
  let size := align_up size in
  state ← gets cpu_state;
  start ← load64 state;
  r ← kalloc_scan fuel state size 0 start;
  match r with
  | Some res => mret res
  | None => kalloc_pages fuel state size
  end.

Definition kfree (fuel : nat) (addr : Z) : M kernel unit :=
  let b := sub64 addr HDRSIZE in
  c ← load64 (b + CANARY);
  if negb (c =? canary b) then halt Panic else
  state ← gets cpu_state;
  insert_block fuel state b.

Definition krealloc (fuel : nat) (old newsize : Z) : M kernel Z :=
  let oldb := sub64 old HDRSIZE in
  res ← kalloc fuel newsize;
  (if negb (old =? 0) then
     osize ← load64 oldb; memcpy res old osize ;; kfree fuel old
   else mret tt) ;;
  mret res.

Definition kzalloc (fuel : nat) (sz : Z) : M kernel Z :=
  res ← kalloc fuel sz;
  (if negb (res =? 0) then memset res 0 sz ;; mret tt else mret tt) ;;
  mret res.

(** ** More fuel never changes a result *)

Lemma insert_walk_mono f f' new prev cur :
  (f <= f')%nat -> approx (insert_walk f new prev cur) (insert_walk f' new prev cur).
Proof.
  revert f' prev cur. induction f as [|f IH]; intros [|f'] prev cur Hf; try lia; cbn [insert_walk]; mono.
Qed.
#[export] Hint Resolve insert_walk_mono : fuel.

Lemma insert_block_mono f f' st new :
  (f <= f')%nat -> approx (insert_block f st new) (insert_block f' st new).
Proof. intros. unfold insert_block. mono. Qed.
#[export] Hint Resolve insert_block_mono : fuel.

Lemma kalloc_scan_mono f f' st size prev cur :
  (f <= f')%nat -> approx (kalloc_scan f st size prev cur) (kalloc_scan f' st size prev cur).
Proof.
  revert f' prev cur. induction f as [|f IH]; intros [|f'] prev cur Hf; try lia; cbn [kalloc_scan]; mono.
Qed.
#[export] Hint Resolve kalloc_scan_mono : fuel.

Lemma kalloc_pages_mono f f' st size :
  (f <= f')%nat -> approx (kalloc_pages f st size) (kalloc_pages f' st size).
Proof. intros. unfold kalloc_pages. mono. Qed.
#[export] Hint Resolve kalloc_pages_mono : fuel.

Lemma kalloc_mono f f' size : (f <= f')%nat -> approx (kalloc f size) (kalloc f' size).
Proof. intros. unfold kalloc. mono. Qed.
#[export] Hint Resolve kalloc_mono : fuel.

Lemma kfree_mono f f' addr : (f <= f')%nat -> approx (kfree f addr) (kfree f' addr).
Proof. intros. unfold kfree. mono. Qed.
#[export] Hint Resolve kfree_mono : fuel.
