(* ===== verification/KallocRefine.v ===== *)
(** * kernel/kalloc.c against an abstract heap

    The abstract free list of a CPU is the list of its blocks (address, size of
    the data).  [insert_free] and [take_fit] say what [insert_block] and the search
    of [kalloc] do to it; [heap_repr] relates it to the memory. *)
From S2P Require Import Prelude Memory Mem Pow2 Rand State FreeList PageSpec PageAlloc PageRefine Allocator Kalloc.

(** ** Abstract free lists *)

(** The bytes of a block, header included. *)
Definition ext (b : Z * Z) (x : Z) : Prop := within (fst b) (HDRSIZE + snd b) x.
Definition in_exts (l : blocks) (x : Z) : Prop := exists b, b ∈ l /\ ext b x.

Definition exts_apart2 (b c : Z * Z) : Prop :=
  apart (fst b) (HDRSIZE + snd b) (fst c) (HDRSIZE + snd c).

Fixpoint exts_apart (l : blocks) : Prop :=
  match l with
  | [] => True
  | b :: l' => Forall (exts_apart2 b) l' /\ exts_apart l'
  end.

(** Decreasing addresses, all below [hi]. *)
Fixpoint descending (hi : Z) (l : blocks) : Prop :=
  match l with
  | [] => True
  | b :: l' => fst b < hi /\ descending (fst b) l'
  end.

Definition block_ok (b : Z * Z) : Prop :=
  0 < fst b /\ 0 <= snd b /\ fst b + HDRSIZE + snd b < 2 ^ 64.

Record heap_ok (l : blocks) : Prop := {
  ho_blocks : Forall block_ok l;
  ho_apart : exts_apart l;
  ho_order : descending (2 ^ 64) (tail l);
}.

(** The blocks of a list above the address [n], up to the first that is not. *)
Fixpoint above (n : Z) (l : blocks) : blocks * blocks :=
  match l with
  | [] => ([], [])
  | b :: l' =>
      if n <? fst b then let '(l1, l2) := above n l' in (b :: l1, l2) else ([], l)
  end.

(** [insert_block] of the block (n, sz): after the head and the blocks above it,
    merged with the head if it starts where the head ends. *)
Definition insert_free (n sz : Z) (l : blocks) : blocks :=
  match l with
  | [] => [(n, sz)]
  | h :: t =>
      let '(t1, t2) := above n t in
      match t1 with
      | [] => if fst h + HDRSIZE + snd h =? n then (fst h, snd h + (sz + HDRSIZE)) :: t2
              else h :: (n, sz) :: t2
      | _ => h :: t1 ++ (n, sz) :: t2
      end
  end.

(** The first block with [size] bytes and a header to spare, cut. *)
Fixpoint take_fit (size : Z) (l : blocks) : option (Z * blocks) :=
  match l with
  | [] => None
  | (a, s) :: l' =>
      if size + HDRSIZE <=? s then Some (a, (a + HDRSIZE + size, s - size - HDRSIZE) :: l')
      else '(r, l'') ← take_fit size l'; Some (r, (a, s) :: l'')
  end.

(** The blocks start at multiples of [ALLOC_ALIGN]. *)
Definition blocks_aligned (l : blocks) : Prop := Forall (fun b => (16 | fst b)) l.

Lemma take_fit_aligned size l r l' : (16 | size) -> blocks_aligned l -> take_fit size l = Some (r, l') ->
  (16 | r) /\ blocks_aligned l'.
Proof.
  unfold blocks_aligned. intros Hs. revert r l'. induction l as [|[a s] l IH]; intros r l' Hl H; [done|].
  apply Forall_cons in Hl as [Ha Hl]. simpl in Ha, H. destruct (_ <=? _).
  - injection H as <- <-. split; [done|]. constructor; [|done]. simpl.
    apply Z.divide_add_r; [apply Z.divide_add_r; [done|by exists 1]|done].
  - destruct (take_fit size l) as [[r0 l0]|]; [|done]. injection H as <- <-.
    destruct (IH _ _ Hl eq_refl). split; [done|]. by constructor.
Qed.

Lemma above_app n l : (above n l).1 ++ (above n l).2 = l.
Proof.
  induction l as [|b l IH]; [done|]. simpl. destruct (_ <? _); [|done].
  destruct (above n l) as [l1 l2]. simpl in *. by rewrite IH.
Qed.

Lemma insert_free_aligned n sz l : (16 | n) -> blocks_aligned l -> blocks_aligned (insert_free n sz l).
Proof.
  unfold blocks_aligned. intros Hn Hl. destruct l as [|h t]; [by repeat constructor|].
  apply Forall_cons in Hl as [Hh Ht]. simpl. pose proof (above_app n t) as Ha.
  destruct (above n t) as [t1 t2]. simpl in Ha. subst t. apply Forall_app in Ht as [H1 H2].
  destruct t1 as [|b t1].
  - destruct (_ =? _); by repeat constructor.
  - constructor; [done|]. apply Forall_app. split; [done|]. by constructor.
Qed.

Lemma exts_apart_app l1 l2 :
  exts_apart (l1 ++ l2) <->
  exts_apart l1 /\ exts_apart l2 /\ Forall (fun b => Forall (exts_apart2 b) l2) l1.
Proof.
  induction l1 as [|b l1 IH]; simpl; [naive_solver|].
  rewrite IH, Forall_app, Forall_cons. tauto.
Qed.

Lemma exts_hdrs_apart l : Forall block_ok l -> exts_apart l -> hdrs_apart l.
Proof.
  induction l as [|b l IH]; simpl; [done|]. intros [Hb Hl]%Forall_cons [H1 H2].
  split; [|by apply IH]. rewrite Forall_forall in *. intros c Hc.
  specialize (H1 c Hc). specialize (Hl c Hc).
  unfold exts_apart2, block_ok, apart in *. lia.
Qed.

Lemma in_exts_app l1 l2 x : in_exts (l1 ++ l2) x <-> in_exts l1 x \/ in_exts l2 x.
Proof. unfold in_exts. set_solver. Qed.

Lemma in_exts_cons b l x : in_exts (b :: l) x <-> ext b x \/ in_exts l x.
Proof. unfold in_exts. set_solver. Qed.

Lemma in_exts_nil x : ~ in_exts [] x.
Proof. unfold in_exts. set_solver. Qed.

Lemma above_spec n l l1 l2 :
  above n l = (l1, l2) ->
  l = l1 ++ l2 /\ Forall (fun b => n < fst b) l1 /\ (forall b l3, l2 = b :: l3 -> fst b <= n).
Proof.
  revert l1 l2. induction l as [|b l IH]; intros l1 l2; simpl; [by intros [= <- <-]|].
  destruct (Z.ltb_spec n (fst b)).
  - destruct (above n l) as [x y]. intros [= <- <-].
    destruct (IH x y eq_refl) as (-> & Hx & Hy). split_and!; [done|by constructor|done].
  - intros [= <- <-]. split_and!; [done|done|]. by intros ? ? [= <- <-].
Qed.

Lemma take_fit_Some size l r l' :
  take_fit size l = Some (r, l') ->
  exists l1 s l2, l = l1 ++ (r, s) :: l2 /\ size + HDRSIZE <= s /\
    Forall (fun b => snd b < size + HDRSIZE) l1 /\
    l' = l1 ++ (r + HDRSIZE + size, s - size - HDRSIZE) :: l2.
Proof.
  revert r l'. induction l as [|[a s] l IH]; intros r l'; simpl; [done|].
  destruct (Z.leb_spec (size + HDRSIZE) s).
  - intros [= <- <-]. by exists [], s, l.
  - destruct (take_fit size l) as [[x y]|]; [|done]. intros [= <- <-].
    destruct (IH x y eq_refl) as (l1 & t & l2 & -> & Ht & Hl1 & ->).
    exists ((a, s) :: l1), t, l2. split_and!; [done|done|by constructor|done].
Qed.

Lemma take_fit_None size l :
  take_fit size l = None -> Forall (fun b => snd b < size + HDRSIZE) l.
Proof.
  induction l as [|[a s] l IH]; simpl; [done|].
  destruct (Z.leb_spec (size + HDRSIZE) s); [done|].
  destruct (take_fit size l) as [[? ?]|]; [done|]. intros _. constructor; [done|by apply IH].
Qed.

Lemma descending_weaken hi hi' l : hi <= hi' -> descending hi l -> descending hi' l.
Proof. destruct l; simpl; [done|]. intros ? [? ?]. split; [lia|done]. Qed.

Lemma descending_app hi l1 l2 :
  descending hi (l1 ++ l2) <->
  descending hi l1 /\ exists mid, descending mid l2 /\ mid <= hi /\ Forall (fun b => mid <= fst b) l1.
Proof.
  revert hi. induction l1 as [|b l1 IH]; intros hi; simpl.
  - split; [intros H; split; [done|]; exists hi; split_and!; [done|lia|done]|].
    intros (_ & mid & H & Hle & _). by apply (descending_weaken mid).
  - rewrite IH. split.
    + intros (H1 & H2 & mid & H3 & Hle & H4). split_and!; [done|done|].
      exists mid. split_and!; [done|lia|by constructor].
    + intros ((H1 & H2) & mid & H3 & _ & [H4 H5]%Forall_cons). split_and!; [done|done|].
      by exists mid.
Qed.

Lemma apart2_sym b c : exts_apart2 b c -> exts_apart2 c b.
Proof. unfold exts_apart2, apart. lia. Qed.

(** Cutting a block in two and handing out the first half. *)
Lemma cut_ok l1 r s l2 size :
  heap_ok (l1 ++ (r, s) :: l2) -> 0 <= size -> size + HDRSIZE <= s ->
  heap_ok (l1 ++ (r + HDRSIZE + size, s - size - HDRSIZE) :: l2).
Proof.
  intros [Hb Ha Ho] Hs Hle. rewrite Forall_app, Forall_cons in Hb. destruct Hb as (Hb1 & Hr & Hb2).
  apply exts_apart_app in Ha as (Ha1 & [Ha2 Ha3] & Ha4).
  unfold block_ok in Hr. simpl in Hr. split.
  - rewrite Forall_app, Forall_cons. split_and!; [done| |done]. unfold block_ok. simpl.
    unfold HDRSIZE in *. lia.
  - apply exts_apart_app. split_and!; [done| |]; [split; [|done]|].
    + eapply Forall_impl; [exact Ha2|]. intros c. unfold exts_apart2, apart, HDRSIZE in *. simpl. lia.
    + eapply Forall_impl; [exact Ha4|]. intros c [Hc Hc2]%Forall_cons. constructor; [|done].
      unfold exts_apart2, apart, HDRSIZE in *. simpl in *. lia.
  - destruct l1 as [|h t1]; simpl in *; [done|].
    apply Forall_cons in Ha4 as [_ Ha4]. apply descending_app in Ho as (Ho1 & mid & [Hlt Ho2] & Hmid & Ho3).
    apply descending_app. split; [done|]. exists (r + HDRSIZE + s). simpl in *. split_and!.
    + unfold HDRSIZE in *. lia.
    + eapply descending_weaken; [|exact Ho2]. simpl. unfold HDRSIZE. lia.
    + lia.
    + apply Forall_cons in Hb1 as [_ Hb1]. rewrite Forall_forall in *. intros b Hin.
      specialize (Ho3 b Hin). specialize (Ha4 b Hin). apply Forall_cons in Ha4 as [Ha4 _].
      specialize (Hb1 b Hin).
      unfold exts_apart2, apart, block_ok, HDRSIZE in *. simpl in *. lia.
Qed.

Lemma cut_exts l1 r s l2 size x :
  0 <= size -> size + HDRSIZE <= s ->
  in_exts (l1 ++ (r, s) :: l2) x <->
  in_exts (l1 ++ (r + HDRSIZE + size, s - size - HDRSIZE) :: l2) x \/ ext (r, size) x.
Proof.
  intros Hs Hle. rewrite !in_exts_app, !in_exts_cons. unfold ext, within, HDRSIZE in *. simpl.
  assert (r <= x < r + (16 + s) <-> r + 16 + size <= x < r + 16 + size + (16 + (s - size - 16)) \/
    r <= x < r + (16 + size)) by lia. tauto.
Qed.

Section insert.
Context (n sz : Z) (l : blocks).
Context (Hok : heap_ok l) (Hn : block_ok (n, sz)) (Hap : Forall (exts_apart2 (n, sz)) l).

Lemma insert_free_linked h t1 t2 :
  l = h :: t1 ++ t2 -> above n (t1 ++ t2) = (t1, t2) ->
  heap_ok (h :: t1 ++ (n, sz) :: t2).
Proof.
  intros -> Hab. destruct Hok as [Hb Ha Ho]. apply above_spec in Hab as (_ & Hab1 & Hab2).
  assert (Hbl : Forall block_ok (h :: t1 ++ (n, sz) :: t2)).
  { rewrite Forall_cons, Forall_app, Forall_cons in *. tauto. }
  assert (Hx : exts_apart (h :: t1 ++ (n, sz) :: t2)).
  { rewrite app_comm_cons in *. apply exts_apart_app in Ha as (Ha1 & Ha2 & Ha3).
    apply Forall_app in Hap as [Hap1 Hap2]. apply exts_apart_app.
    split_and!; [done|split; done|]. rewrite Forall_forall in *. intros b Hin.
    constructor; [|by apply Ha3]. by apply apart2_sym, Hap1. }
  split; [done|done|]. simpl in *. unfold block_ok in Hn. simpl in Hn.
  apply descending_app in Ho as (Ho1 & mid & Ho2 & Hmid & Ho3).
  apply descending_app. split; [done|]. exists (n + 1). simpl.
  split_and!; [lia| |unfold HDRSIZE in *; lia|eapply Forall_impl; [exact Hab1|]; simpl; lia].
  destruct t2 as [|b t2]; [done|]. simpl in *. split; [|by apply Ho2].
  specialize (Hab2 b t2 eq_refl). apply Forall_cons in Hap as [_ Hap].
  apply Forall_app in Hap as [_ [Hap _]%Forall_cons].
  apply Forall_cons in Hb as [_ Hb]. apply Forall_app in Hb as [_ [Hb _]%Forall_cons].
  unfold exts_apart2, apart, block_ok, HDRSIZE in *. simpl in *. lia.
Qed.

Lemma insert_free_merged h t :
  l = h :: t -> fst h + HDRSIZE + snd h = n -> heap_ok ((fst h, snd h + (sz + HDRSIZE)) :: t).
Proof.
  intros -> He. destruct Hok as [Hb Ha Ho].
  apply Forall_cons in Hb as [Hh Hb]. destruct Ha as [Ha1 Ha2]. apply Forall_cons in Hap as [_ Hap'].
  split; [| |done].
  - constructor; [|done]. unfold block_ok in *. simpl in *. unfold HDRSIZE in *. lia.
  - split; [|done]. rewrite Forall_forall in *. intros b Hin.
    specialize (Ha1 b Hin). specialize (Hap' b Hin). specialize (Hb b Hin).
    unfold exts_apart2, apart, block_ok, HDRSIZE in *. simpl in *. lia.
Qed.

(** Inserting a block keeps the list well formed ... *)
Lemma insert_free_ok : heap_ok (insert_free n sz l).
Proof.
  pose proof insert_free_linked as Hlink. pose proof insert_free_merged as Hmerge.
  destruct l as [|h t] eqn:El; simpl.
  - split; [by constructor|done|done].
  - destruct (above n t) as [t1 t2] eqn:Eab. pose proof Eab as (Ht & _ & _)%above_spec. subst t.
    destruct t1 as [|b t1]; [|by apply (Hlink h (b :: t1) t2)].
    destruct (Z.eqb_spec (fst h + HDRSIZE + snd h) n) as [He|He].
    + by apply Hmerge.
    + by apply (Hlink h [] t2).
Qed.

(** ... and adds exactly its bytes to it. *)
Lemma insert_free_exts x : in_exts (insert_free n sz l) x <-> in_exts l x \/ ext (n, sz) x.
Proof.
  unfold block_ok in Hn. simpl in Hn. destruct l as [|h t] eqn:El; simpl.
  - rewrite in_exts_cons. tauto.
  - destruct (above n t) as [t1 t2] eqn:Eab. pose proof Eab as (Ht & _ & _)%above_spec. subst t.
    destruct t1 as [|b t1].
    + destruct (Z.eqb_spec (fst h + HDRSIZE + snd h) n) as [He|He].
      * destruct Hok as [[Hh _]%Forall_cons _ _]. unfold block_ok in Hh.
        rewrite !in_exts_cons. simpl. unfold ext, within, HDRSIZE in *. simpl.
        assert (fst h <= x < fst h + (16 + (snd h + (sz + 16))) <->
          fst h <= x < fst h + (16 + snd h) \/ n <= x < n + (16 + sz)) by lia. tauto.
      * simpl. rewrite !in_exts_cons. tauto.
    + rewrite !in_exts_cons, !in_exts_app, !in_exts_cons. tauto.
Qed.
End insert.

(** ** The free list in memory *)

(** The cell at address [c] heads the free list [l]. *)
Record heap_at (m : gmap Z Z) (c : Z) (l : blocks) : Prop := {
  ha_ok : heap_ok l;
  ha_seg : seg m c 0 l;
  ha_cell : mapped m c 8;
  ha_mapped : forall x, in_exts l x -> is_Some (m !! x);
  ha_apart : forall x, within c 8 x -> ~ in_exts l x;
}.

Definition heap_fp (c : Z) (l : blocks) (x : Z) : Prop := within c 8 x \/ in_exts l x.

Lemma ext_hdr b l x : Forall block_ok l -> b ∈ l -> within (fst b) HDRSIZE x -> in_exts l x.
Proof.
  intros Hl Hb Hx. exists b. split; [done|]. rewrite Forall_forall in Hl.
  specialize (Hl b Hb). unfold ext, within, block_ok in *. lia.
Qed.

Lemma heap_at_nil m c : read64 m c = Some 0 -> mapped m c 8 -> heap_at m c [].
Proof.
  intros H Hm. split; [by split|exact H|exact Hm| |]; by intros ? ?%in_exts_nil || intros ? _ ?%in_exts_nil.
Qed.

Lemma heap_at_changes m m' c l P :
  heap_at m c l -> changes P m m' -> (forall x, P x -> ~ heap_fp c l x) -> heap_at m' c l.
Proof.
  intros [Ho Hs Hc Hm Ha] Hch HP. split; [done| |by eapply changes_mapped| |done].
  - eapply seg_same; [| |exact Hs].
    + eapply changes_same_on; [exact Hch|]. intros x Hx Hp. apply (HP x Hp). by left.
    + eapply changes_same_on; [exact Hch|]. intros x (b & Hb & Hx) Hp. apply (HP x Hp). right.
      eapply ext_hdr; [apply Ho|done|done].
  - intros x Hx. by apply (ch_mapped _ _ _ Hch), Hm.
Qed.

(** Ranges without a common byte are apart. *)
Lemma apart_points a n b k :
  0 < n -> 0 < k -> (forall x, within a n x -> ~ within b k x) -> apart a n b k.
Proof. intros Hn Hk H. specialize (H (Z.max a b)). unfold within, apart in *. lia. Qed.

Lemma apart_exts b l :
  block_ok b -> Forall block_ok l -> (forall x, ext b x -> ~ in_exts l x) ->
  Forall (exts_apart2 b) l.
Proof.
  intros Hb Hl H. rewrite Forall_forall in *. intros c Hc. specialize (Hl c Hc).
  unfold block_ok, exts_apart2, HDRSIZE in *. apply apart_points; [lia|lia|].
  intros x Hx Hx'. apply (H x Hx). by exists c.
Qed.

Lemma heap_cell_apart c l :
  Forall block_ok l -> (forall x, within c 8 x -> ~ in_exts l x) -> cell_apart c l.
Proof.
  intros Hl H. unfold cell_apart. rewrite Forall_forall in *. intros b Hb. specialize (Hl b Hb).
  unfold block_ok, HDRSIZE in *. apply apart_points; [lia|lia|].
  intros x Hx Hx'. apply (H x Hx). exists b. split; [done|]. unfold ext, within, HDRSIZE in *. lia.
Qed.

Lemma first_range l : heap_ok l -> 0 <= first 0 l < 2 ^ 64.
Proof.
  intros [Hb _ _]. destruct l as [|[a s] l]; simpl; [lia|].
  apply Forall_cons in Hb as [Hb _]. unfold block_ok, HDRSIZE in Hb. simpl in Hb. lia.
Qed.

Lemma heap_ok_tail l1 l2 : heap_ok (l1 ++ l2) -> 0 <= first 0 l2 < 2 ^ 64.
Proof.
  intros [Hb _ _]. apply Forall_app in Hb as [_ Hb].
  destruct l2 as [|[a s] l2]; simpl; [lia|].
  apply Forall_cons in Hb as [Hb _]. unfold block_ok, HDRSIZE in Hb. simpl in Hb. lia.
Qed.

Lemma insert_walk_spec n t fuel (s : kernel) prev t1 t2 :
  (length t < fuel)%nat -> 0 < n -> seg (k_mem s) (prev + NEXT) 0 t -> above n t = (t1, t2) ->
  insert_walk fuel n prev (first 0 t) s = Done (prev_of prev t1, first 0 t2) s.
Proof.
  intros Hf Hn. revert fuel prev t1 t2 Hf.
  induction t as [|[a sz] t IH]; intros [|fuel] prev t1 t2 Hf Hseg Hab; simpl in Hf; try lia.
  - injection Hab as <- <-. simpl. by destruct (Z.ltb_spec n 0); [lia|].
  - simpl in Hab. cbn [insert_walk first]. destruct (Z.ltb_spec n a).
    + destruct (above n t) as [x y] eqn:E. injection Hab as <- <-.
      destruct Hseg as (_ & _ & Hseg).
      erewrite run_bind.
      2:{ unfold load64. change (mem_of s) with (k_mem s). by rewrite (seg_head _ _ _ _ Hseg). }
      cbv beta. simpl prev_of. apply IH; [lia|done|done].
    + by injection Hab as <- <-.
Qed.

Lemma last_block (h : Z * Z) t :
  exists pre ps, h :: t = pre ++ [(prev_of (fst h) t, ps)].
Proof.
  destruct h as [a sz]. simpl. revert a sz. induction t as [|[b sb] t IH]; intros a sz; simpl.
  - by exists [], sz.
  - destruct (IH b sb) as (pre & ps & E). exists ((a, sz) :: pre), ps. by rewrite E.
Qed.

(** Reading a word of a header of the list. *)
Lemma wp_load_size (s : kernel) a e l1 p ps l2 (Q : Z -> kernel -> Prop) :
  seg (k_mem s) a e (l1 ++ (p, ps) :: l2) -> Q ps s -> wp (load64 p) Q s.
Proof. intros [H _]%seg_size HQ. by apply (wp_load64 _ ps). Qed.

Lemma wp_load_next (s : kernel) a e l1 p ps l2 (Q : Z -> kernel -> Prop) :
  seg (k_mem s) a e (l1 ++ (p, ps) :: l2) -> Q (first e l2) s -> wp (load64 (p + NEXT)) Q s.
Proof. intros [_ H]%seg_size HQ. by apply (wp_load64 _ (first e l2)). Qed.

Section insert_block.
Context (c n sz : Z) (l : blocks).
Context (Hn : block_ok (n, sz)).
Context (Hnl : forall x, ext (n, sz) x -> ~ in_exts l x).
Context (Hcn : forall x, within c 8 x -> ~ ext (n, sz) x).

(** The bytes [insert_block] may write. *)
Definition insert_fp (x : Z) : Prop := heap_fp c l x \/ ext (n, sz) x.

Lemma insert_heap_at m m' :
  heap_at m c l -> mapped m n (HDRSIZE + sz) -> changes insert_fp m m' ->
  seg m' c 0 (insert_free n sz l) -> heap_at m' c (insert_free n sz l).
Proof.
  intros [Ho Hs Hc Hm Ha] Hmn Hch Hs'.
  assert (Hap : Forall (exts_apart2 (n, sz)) l) by (apply apart_exts; [done|apply Ho|done]).
  split; [by apply insert_free_ok|done|by eapply changes_mapped| |].
  - intros x [Hx|Hx]%insert_free_exts; [|..]; try done; apply (ch_mapped _ _ _ Hch); [by apply Hm|].
    by apply Hmn.
  - intros x Hx [Hx'|Hx']%insert_free_exts; try done; [by eapply Ha|by eapply Hcn].
Qed.

Lemma insert_fp_hdr a k x : heap_ok l -> (a ∈ l.*1 \/ a = n) -> 0 <= k -> within (a + k) 8 x -> k + 8 <= HDRSIZE -> insert_fp x.
Proof.
  intros [Hb _ _] [Hin| ->] Hk Hx Hle.
  - left. right. apply list_elem_of_fmap in Hin as (b & -> & Hin). exists b. split; [done|].
    rewrite Forall_forall in Hb. specialize (Hb b Hin). unfold ext, within, block_ok in *. lia.
  - right. unfold ext, within, block_ok in *. simpl in *. lia.
Qed.

Lemma insert_block_nil fuel s :
  l = [] -> heap_at (k_mem s) c l -> mapped (k_mem s) n (HDRSIZE + sz) ->
  read64 (k_mem s) n = Some sz ->
  wp (insert_block fuel c n) (fun _ s' => exists m, s' = set_mem m s /\
    heap_at m c (insert_free n sz l) /\ changes insert_fp (k_mem s) m) s.
Proof.
  intros El Hat Hmn Hsz. pose proof Hn as Hn'. unfold block_ok, HDRSIZE in Hn'. simpl in Hn'.
  unfold insert_block. apply wp_bind, (wp_load64 _ 0).
  { pose proof (ha_seg _ _ _ Hat) as H. by rewrite El in H. }
  rewrite Z.eqb_refl. apply wp_bind, wp_store64.
  { eapply mapped_sub; [exact Hmn|unfold NEXT; lia|unfold NEXT, HDRSIZE; lia]. }
  apply wp_store64; [apply write64_mapped, Hat|]. simpl. eexists. split; [done|].
  set (m := write64 _ c n). assert (Hch : changes insert_fp (k_mem s) m).
  { apply changes_then_write; [apply changes_then_write; [apply changes_refl|]|].
    - intros x Hx. apply (insert_fp_hdr n NEXT); [apply Hat|by right|done|done|done].
    - intros x Hx. by left; left. }
  split; [|done]. apply (insert_heap_at (k_mem s)); [done|done|done|]. rewrite El.
  apply (seg_cons_block _ c 0 0 [] n sz []); simpl; try done; [|lia|].
  - unfold cell_apart. apply Forall_singleton. simpl. apply apart_points; [lia|unfold HDRSIZE; lia|].
    intros x Hx Hx'. apply (Hcn x Hx). unfold ext, within, HDRSIZE in *. simpl. lia.
  - pose proof (ha_seg _ _ _ Hat) as H. by rewrite El in H.
Qed.
(** The two stores that link the block in behind [h :: t1]. *)
Lemma insert_link_seg m h t1 t2 :
  l = h :: t1 ++ t2 -> above n (t1 ++ t2) = (t1, t2) -> heap_at m c l ->
  read64 m n = Some sz ->
  seg (write64 (write64 m (prev_of (fst h) t1 + NEXT) n) (n + NEXT) (first 0 t2)) c 0
    ((h :: t1) ++ (n, sz) :: t2).
Proof.
  intros El Hab Hat Hsz. pose proof Hn as Hn'. unfold block_ok, HDRSIZE in Hn'. simpl in Hn'.
  pose proof (ha_ok _ _ _ Hat) as Hok. pose proof (ho_blocks _ Hok) as Hbl.
  assert (Hcell : cell c (h :: t1) = prev_of (fst h) t1 + NEXT).
  { rewrite prev_of_cell.
    - destruct h as [a k]. simpl. destruct (Z.eqb_spec (prev_of a t1) 0) as [E|]; [|done].
      exfalso. destruct (last_block (a, k) t1) as (pre & ps & Hp). simpl in Hp.
      rewrite El, app_comm_cons, Hp, <- app_assoc in Hbl.
      apply Forall_app in Hbl as [_ [Hx _]%Forall_cons]. unfold block_ok in Hx. simpl in Hx. lia.
    - rewrite El, app_comm_cons in Hbl. apply Forall_app in Hbl as [Hbl _].
      eapply Forall_impl; [exact Hbl|]. intros b Hb. apply Hb. }
  rewrite <- Hcell. apply seg_insert; [| |lia| |done|].
  - assert (Hok' : heap_ok (h :: t1 ++ (n, sz) :: t2)).
    { apply (insert_free_linked n sz l); try done. apply apart_exts; [done|apply Hok|done]. }
    apply (exts_hdrs_apart (h :: t1 ++ (n, sz) :: t2)); apply Hok'.
  - rewrite El, app_comm_cons in Hat, Hbl. pose proof (ha_apart _ _ _ Hat) as Hca.
    apply Forall_app in Hbl as [Hbl1 Hbl2].
    apply (heap_cell_apart c ((h :: t1) ++ (n, sz) :: t2)).
    + apply Forall_app. split; [done|by constructor].
    + intros x Hx. pose proof (Hca x Hx) as H. rewrite in_exts_app in H.
      rewrite (in_exts_app (h :: t1)), (in_exts_cons (n, sz)). pose proof (Hcn x Hx). tauto.
  - rewrite El, app_comm_cons in Hok. by apply heap_ok_tail in Hok.
  - rewrite <- app_comm_cons, <- El. apply Hat.
Qed.

(** The block after the inserted one starts below it, so it is never merged. *)
Lemma next_below h t1 t2 :
  l = h :: t1 ++ t2 -> above n (t1 ++ t2) = (t1, t2) -> Forall block_ok l -> first 0 t2 < n.
Proof.
  intros El (_ & _ & Hab)%above_spec Hbl. pose proof Hn as Hn'. unfold block_ok, HDRSIZE in Hn'. simpl in Hn'.
  destruct t2 as [|[a k] t2]; simpl; [lia|]. specialize (Hab _ _ eq_refl). simpl in Hab.
  destruct (decide (a = n)) as [->|]; [|lia]. exfalso. apply (Hnl n).
  - unfold ext, within, HDRSIZE. simpl. lia.
  - rewrite El. exists (n, k). split; [set_solver|].
    rewrite El, app_comm_cons in Hbl. apply Forall_app in Hbl as [_ [Hk _]%Forall_cons].
    unfold block_ok in Hk. unfold ext, within, HDRSIZE. simpl in *. lia.
Qed.

(** Merging the block into the head in front of it. *)
Lemma wp_merge_head s a k t :
  l = (a, k) :: t -> above n t = ([], t) -> a + HDRSIZE + k = n ->
  heap_ok l -> (forall x, within c 8 x -> ~ in_exts l x) ->
  seg (k_mem s) c 0 ((a, k) :: (n, sz) :: t) -> mapped (k_mem s) a HDRSIZE ->
  wp (nnext ← load64 (n + NEXT); store64 (a + NEXT) nnext ;;
      psize ← load64 a; nsize ← load64 n;
      store64 a (add64 psize (add64 nsize HDRSIZE)) ;; mret a)
    (fun r s' => r = a /\ exists m, s' = set_mem m s /\
      seg m c 0 ((a, k + (sz + HDRSIZE)) :: t) /\ changes (within a HDRSIZE) (k_mem s) m) s.
Proof.
  intros El Hab He Hok Hca Hs Hm. pose proof Hn as Hn'. unfold block_ok, HDRSIZE in Hn'. simpl in Hn'.
  assert (Hap : Forall (exts_apart2 (n, sz)) l) by (apply apart_exts; [done|apply Hok|done]).
  assert (Hok' : heap_ok ((a, k) :: [] ++ (n, sz) :: t)).
  { by apply (insert_free_linked n sz l). }
  pose proof (ho_blocks _ Hok') as [Hak _]%Forall_cons. unfold block_ok, HDRSIZE in Hak. simpl in Hak.
  assert (Hhd : hdrs_apart ((a, k) :: (n, sz) :: t)) by (apply exts_hdrs_apart; apply Hok').
  assert (Hce : cell_apart c ((a, k) :: (n, sz) :: t)).
  { apply heap_cell_apart; [apply Hok'|]. intros x Hx. pose proof (Hca x Hx) as H. rewrite El in H.
    rewrite !in_exts_cons in *. pose proof (Hcn x Hx). tauto. }
  assert (Hfirst : 0 <= first 0 t < 2 ^ 64) by (apply (heap_ok_tail [(a, k); (n, sz)]); done).
  unfold HDRSIZE in *.
  apply wp_bind, (wp_load_next _ c 0 [(a, k)] n sz t); [done|].
  apply wp_bind, wp_store64; [eapply mapped_sub; [exact Hm|unfold NEXT; lia|unfold NEXT; lia]|].
  simpl. set (m3 := write64 _ _ _).
  assert (R1 : read64 m3 a = Some k).
  { unfold m3. rewrite read64_write64_ne by (unfold NEXT; lia). apply Hs. }
  assert (R2 : read64 m3 n = Some sz).
  { unfold m3. rewrite read64_write64_ne by (unfold NEXT; lia). apply Hs. }
  apply wp_bind, (wp_load64 _ k); [done|]. apply wp_bind, (wp_load64 _ sz); [done|].
  rewrite (add64_small sz), add64_small by lia.
  apply wp_bind, wp_store64; [apply write64_mapped; eapply mapped_sub; [exact Hm|lia|lia]|].
  simpl. apply wp_ret. split; [done|]. eexists. split; [done|]. split.
  - apply (seg_merge _ c 0 [] a k n sz t); try done. lia.
  - apply changes_then_write; [apply changes_then_write; [apply changes_refl|]|];
      unfold within, NEXT; lia.
Qed.

(** The block in front of the place for the new one. *)
Lemma prev_block m h t1 t2 pre p ps : l = h :: t1 ++ t2 -> h :: t1 = pre ++ [(p, ps)] -> heap_at m c l ->
  (p, ps) ∈ l /\ block_ok (p, ps) /\ mapped m p HDRSIZE /\ p ∈ l.*1.
Proof.
  intros El Hp Hat. assert (Hin : (p, ps) ∈ l) by (rewrite El, app_comm_cons, Hp; set_solver).
  pose proof (ho_blocks _ (ha_ok _ _ _ Hat)) as Hbl. rewrite Forall_forall in Hbl. pose proof (Hbl _ Hin) as Hb.
  split; [done|]. split; [done|]. split; [|by apply (list_elem_of_fmap_2 fst l (p, ps))].
  unfold block_ok in Hb. simpl in Hb. intros x Hx. apply (ha_mapped _ _ _ Hat). exists (p, ps). split; [done|].
  unfold ext, within, HDRSIZE in *. simpl. lia.
Qed.

(** The merge is with the head, if at all, as [insert_free] has it. *)
Lemma merges_head a k t1 t2 pre ps : above n (t1 ++ t2) = (t1, t2) -> (a, k) :: t1 = pre ++ [(prev_of a t1, ps)] ->
  0 <= ps -> prev_of a t1 + HDRSIZE + ps = n -> t1 = [] /\ pre = [] /\ ps = k.
Proof.
  intros (_ & Hhi & _)%above_spec Hp Hps He. destruct t1 as [|b t1] using rev_ind.
  - destruct pre as [|? pre]; [by simplify_eq/=|]. apply (f_equal length) in Hp. rewrite length_app in Hp. simpl in Hp. lia.
  - exfalso. apply Forall_app in Hhi as [_ [Hhi _]%Forall_cons]. rewrite prev_of_app in He. destruct b as [b kb]. simpl in *.
    unfold HDRSIZE in *. lia.
Qed.

Lemma insert_free_apart a k t1 t2 pre ps : above n (t1 ++ t2) = (t1, t2) -> (a, k) :: t1 = pre ++ [(prev_of a t1, ps)] ->
  prev_of a t1 + HDRSIZE + ps <> n -> insert_free n sz ((a, k) :: t1 ++ t2) = ((a, k) :: t1) ++ (n, sz) :: t2.
Proof.
  intros Hab Hp He. simpl. rewrite Hab. destruct t1 as [|b t1]; [|done]. simpl in *.
  destruct (Z.eqb_spec (a + HDRSIZE + k) n) as [He2|]; [|done].
  destruct He. destruct pre as [|? pre]; simplify_eq/=; [done|]. by destruct pre.
Qed.

(** The rest of [insert_block] when the block is merged into the head. *)
Lemma insert_merged s a k t m2 :
  l = (a, k) :: t -> above n t = ([], t) -> a + HDRSIZE + k = n -> heap_at (k_mem s) c l ->
  mapped (k_mem s) n (HDRSIZE + sz) -> changes insert_fp (k_mem s) m2 -> seg m2 c 0 ((a, k) :: (n, sz) :: t) ->
  0 <= first 0 t < n -> mapped m2 a HDRSIZE ->
  wp (nnext ← load64 (n + NEXT); store64 (a + NEXT) nnext ;;
      psize ← load64 a; nsize ← load64 n;
      store64 a (add64 psize (add64 nsize HDRSIZE)) ;; mret a)
    (fun r => wp (nsize ← load64 r;
       if add64 (r + HDRSIZE) nsize =? first 0 t then
         cnext ← load64 (first 0 t + NEXT); store64 (r + NEXT) cnext ;;
         nsize ← load64 r; csize ← load64 (first 0 t);
         store64 r (add64 nsize (add64 csize HDRSIZE))
       else mret tt)
     (fun _ s' => exists m, s' = set_mem m s /\ heap_at m c (insert_free n sz l) /\ changes insert_fp (k_mem s) m)) (set_mem m2 s).
Proof.
  intros El Hab He Hat Hmn Hch Hs Hlo Hpm. pose proof Hn as Hn'. unfold block_ok, HDRSIZE in Hn'. simpl in Hn'.
  pose proof (ho_blocks _ (ha_ok _ _ _ Hat)) as Hb. rewrite El in Hb. apply Forall_cons in Hb as [Hb _]. unfold block_ok in Hb. simpl in Hb.
  eapply wp_conseq; [apply (wp_merge_head (set_mem m2 s) a k t El Hab He (ha_ok _ _ _ Hat) (ha_apart _ _ _ Hat) Hs Hpm)|].
  intros r s' (-> & m3 & -> & Hs3 & Hch3). simpl in Hs3, Hch3.
  apply wp_bind, (wp_load_size _ c 0 [] a (k + (sz + HDRSIZE)) t); [done|].
  unfold HDRSIZE in *. rewrite add64_small by lia.
  destruct (Z.eqb_spec (a + 16 + (k + (sz + 16))) (first 0 t)); [lia|].
  apply wp_ret. exists m3. split; [done|].
  assert (Hch' : changes insert_fp (k_mem s) m3).
  { eapply changes_trans; [exact Hch|]. eapply changes_weaken; [exact Hch3|].
    intros x Hx. left. right. exists (a, k). split; [rewrite El; set_solver|]. unfold ext, within, HDRSIZE in *. simpl. lia. }
  split; [|done]. apply (insert_heap_at (k_mem s)); [done|done|done|].
  rewrite El. simpl. rewrite Hab. unfold HDRSIZE. by rewrite He, Z.eqb_refl.
Qed.

(** The two stores that link the block in write the heap and the block only. *)
Lemma insert_link_changes m p : heap_at m c l -> p ∈ l.*1 ->
  changes insert_fp m (write64 (write64 m (p + NEXT) n) (n + NEXT) (first 0 (above n (tail l)).2)).
Proof.
  intros Hat Hp. apply changes_then_write; [apply changes_then_write; [apply changes_refl|]|]; intros x Hx.
  - by apply (insert_fp_hdr p NEXT x); [apply Hat|left|..].
  - apply (insert_fp_hdr n NEXT x); [apply Hat|by right|done|done|done].
Qed.

Lemma insert_block_cons fuel s h t :
  l = h :: t -> (length l <= fuel)%nat ->
  heap_at (k_mem s) c l -> mapped (k_mem s) n (HDRSIZE + sz) -> read64 (k_mem s) n = Some sz ->
  wp (insert_block fuel c n) (fun _ s' => exists m, s' = set_mem m s /\
    heap_at m c (insert_free n sz l) /\ changes insert_fp (k_mem s) m) s.
Proof.
  intros El Hf Hat Hmn Hsz. pose proof Hn as Hn'. unfold block_ok, HDRSIZE in Hn'. simpl in Hn'.
  destruct (above n t) as [t1 t2] eqn:Hab. pose proof Hab as (Ht & _ & _)%above_spec. subst t.
  pose proof (next_below h t1 t2 El Hab (ho_blocks _ (ha_ok _ _ _ Hat))) as Hlow.
  pose proof (insert_link_seg (k_mem s) h t1 t2 El Hab Hat Hsz) as Hs.
  destruct (last_block h t1) as (pre & ps & Hp). destruct (prev_block (k_mem s) h t1 t2 pre _ ps El Hp Hat) as (_ & Hpb & Hpmap & Hpl).
  pose proof (insert_link_changes (k_mem s) _ Hat Hpl) as Hch. rewrite El in Hch. simpl in Hch. rewrite Hab in Hch. simpl in Hch.
  pose proof (ha_seg _ _ _ Hat) as Hseg. rewrite El in Hseg.
  assert (Hlo : 0 <= first 0 t2 < n).
  { split; [|lia]. pose proof (ho_blocks _ (ha_ok _ _ _ Hat)) as Hbl. rewrite El, app_comm_cons in Hbl. apply Forall_app in Hbl as [_ Hbl].
    destruct t2 as [|[b kb] t2]; simpl; [lia|]. apply Forall_cons in Hbl as [Hbl _]. unfold block_ok in Hbl. simpl in Hbl. lia. }
  set (p := prev_of (fst h) t1) in *. destruct h as [a k]. cbn [fst snd] in *.
  unfold block_ok, HDRSIZE in Hpb. simpl in Hpb.
  unfold insert_block. apply wp_bind, (wp_load64 _ a); [apply (seg_head _ _ _ _ Hseg)|].
  assert (Ha : 0 < a) by (pose proof (ho_blocks _ (ha_ok _ _ _ Hat)) as Hbl; rewrite El in Hbl; apply Forall_cons in Hbl as [Hbl _]; apply Hbl).
  destruct (Z.eqb_spec a 0); [lia|].
  apply wp_bind, (wp_load_next _ c 0 [] a k (t1 ++ t2)); [done|].
  apply wp_bind. eapply wp_run.
  { apply (insert_walk_spec n (t1 ++ t2) fuel s a t1 t2); [rewrite El in Hf; simpl in Hf; lia|lia|apply Hseg|done]. }
  fold p. cbv beta iota. destruct (Z.eqb_spec n (first 0 t2)); [lia|].
  apply wp_bind, wp_store64; [eapply mapped_sub; [exact Hpmap|unfold NEXT; lia|unfold NEXT, HDRSIZE; lia]|].
  apply wp_bind, wp_store64.
  { apply write64_mapped. eapply mapped_sub; [exact Hmn|unfold NEXT; lia|unfold NEXT, HDRSIZE; lia]. }
  set (m2 := write64 _ _ _) in *. change (upd_mem m2 _) with (set_mem m2 s).
  apply wp_bind, (wp_load_size _ c 0 pre p ps ((n, sz) :: t2)); [by rewrite Hp, <- app_assoc in Hs|].
  rewrite add64_small by (unfold HDRSIZE; lia).
  destruct (Z.eqb_spec (p + HDRSIZE + ps) n) as [He|He]; apply wp_bind.
  - destruct (merges_head a k t1 t2 pre ps Hab Hp ltac:(lia) He) as (-> & -> & ->).
    by apply (insert_merged s a k t2 m2); [|..|do 2 apply write64_mapped].
  - apply wp_ret. apply wp_bind, (wp_load_size _ c 0 ((a, k) :: t1) n sz t2); [done|].
    rewrite add64_small by (unfold HDRSIZE; lia).
    destruct (Z.eqb_spec (n + HDRSIZE + sz) (first 0 t2)); [unfold HDRSIZE in *; lia|].
    apply wp_ret. exists m2. split_and!; [done| |done].
    apply (insert_heap_at (k_mem s)); [done|done|done|]. by rewrite El, (insert_free_apart a k t1 t2 pre ps).
Qed.
End insert_block.

(** ** kalloc *)

(** Sizes for which no sum of [kalloc] wraps. *)
Definition MAX_HEAP : Z := 2 ^ 62 + ALLOC_ALIGN.

Lemma block_disjoint l1 b l2 x : heap_ok (l1 ++ b :: l2) -> ext b x -> ~ in_exts (l1 ++ l2) x.
Proof.
  intros [_ (_ & [H2 _] & H1)%exts_apart_app _] Hx (d & Hd & Hx').
  rewrite Forall_forall in H1, H2. unfold ext, within in *.
  apply elem_of_app in Hd as [Hd|Hd].
  - specialize (H1 d Hd). apply Forall_cons in H1 as [H1 _]. unfold exts_apart2, apart in H1. lia.
  - specialize (H2 d Hd). unfold exts_apart2, apart in H2. lia.
Qed.

Lemma canary_range x : 0 <= canary x < 2 ^ 64.
Proof. apply w64_range. Qed.

(** The header at [a] is the one of an allocated block of [size] bytes. *)
Definition allocated_at (m : gmap Z Z) (a size : Z) : Prop :=
  read64 m a = Some size /\ read64 m (a + CANARY) = Some (canary a).

Section cut.
Context (s : kernel) (c : Z) (l1 l2 : blocks) (a cs size : Z).
Context (Hat : heap_at (k_mem s) c (l1 ++ (a, cs) :: l2)).
Context (Hsize : 0 <= size) (Hfit : size + HDRSIZE <= cs).

Let new := a + HDRSIZE + size.
Let ns := cs - size - HDRSIZE.
Let m3 := write64 (write64 (write64 (k_mem s) new ns) (new + NEXT) (first 0 l2)) (cell c l1) new.

Lemma cut_bounds : 0 < a /\ a + 16 + cs < 2 ^ 64 /\ 0 <= size /\ size + 16 <= cs.
Proof.
  pose proof (ho_blocks _ (ha_ok _ _ _ Hat)) as Hb. apply Forall_app in Hb as [_ [Hb _]%Forall_cons].
  unfold block_ok, HDRSIZE in *. simpl in Hb. lia.
Qed.

Lemma cut_block_mapped : mapped (k_mem s) a (HDRSIZE + cs).
Proof. intros x Hx. apply (ha_mapped _ _ _ Hat). exists (a, cs). split; [set_solver|done]. Qed.

Lemma cut_changes : changes (heap_fp c (l1 ++ (a, cs) :: l2)) (k_mem s) m3.
Proof.
  pose proof cut_bounds as Hb. unfold m3.
  assert (Hin : forall x, ext (a, cs) x -> heap_fp c (l1 ++ (a, cs) :: l2) x).
  { intros x Hx. right. exists (a, cs). split; [set_solver|done]. }
  apply changes_then_write; [apply changes_then_write; [apply changes_then_write; [apply changes_refl|]|]|].
  - intros x Hx. apply Hin. unfold ext, within, new, HDRSIZE in *. simpl. lia.
  - intros x Hx. apply Hin. unfold ext, within, new, NEXT, HDRSIZE in *. simpl. lia.
  - intros x Hx. destruct (cell_cases c l1) as [E|(b & Hb1 & E)]; rewrite E in Hx; [by left|].
    right. eapply ext_hdr; [apply Hat| |]; [apply elem_of_app; by left|].
    unfold within, NEXT, HDRSIZE in *. lia.
Qed.

Lemma cut_heap_at : heap_at m3 c (l1 ++ (new, ns) :: l2).
Proof.
  pose proof cut_bounds as Hb. pose proof (cut_ok _ _ _ _ size (ha_ok _ _ _ Hat) Hsize Hfit) as Hok.
  assert (Hex := cut_exts l1 a cs l2 size). fold new ns in Hok, Hex.
  pose proof (ha_apart _ _ _ Hat) as Hca. split.
  - done.
  - assert (Hcell : cell_apart c (l1 ++ (new, ns) :: l2)).
    { apply heap_cell_apart; [apply Hok|]. intros x Hx Hin. apply (Hca x Hx), Hex; [done|done|by left]. }
    assert (Hhd : hdrs_apart (l1 ++ (new, ns) :: l2)) by (apply exts_hdrs_apart; apply Hok).
    pose proof Hhd as (_ & [Hh2 _] & Hh1)%hdrs_apart_app.
    pose proof Hcell as (_ & [Hnc _]%Forall_cons)%cell_apart_app. simpl in Hnc.
    pose proof (ha_seg _ _ _ Hat) as (H1 & _ & _ & H2)%seg_app. apply seg_body in H2 as [_ H2].
    apply (seg_cons_block _ c a 0 l1 new ns l2); try done; [unfold new, HDRSIZE; lia| | | |].
    + apply (heap_ok_tail (l1 ++ [(new, ns)])). by rewrite <- app_assoc.
    + rewrite read64_write64_eq; [done|unfold ns, HDRSIZE; lia].
    + apply seg_write; [unfold apart, HDRSIZE in *; lia| |done].
      eapply Forall_impl; [exact Hh1|]. intros b [Hx _]%Forall_cons. simpl in Hx.
      unfold apart, HDRSIZE in *. lia.
    + apply body_write; [|done]. eapply Forall_impl; [exact Hh2|]. intros b Hx. simpl in Hx.
      unfold apart, HDRSIZE in *. lia.
  - eapply changes_mapped; [apply cut_changes|apply Hat].
  - intros x Hx. apply (ch_mapped _ _ _ cut_changes), (ha_mapped _ _ _ Hat), Hex; [done|done|by left].
  - intros x Hx Hin. apply (Hca x Hx), Hex; [done|done|by left].
Qed.

Lemma cut_fresh x : ext (a, size) x -> ~ heap_fp c (l1 ++ (new, ns) :: l2) x.
Proof.
  pose proof cut_bounds as Hb. intros Hx [Hc|Hin].
  - apply (ha_apart _ _ _ Hat x Hc). exists (a, cs). split; [set_solver|].
    unfold ext, within, HDRSIZE in *. simpl in *. lia.
  - rewrite in_exts_app, in_exts_cons in Hin.
    assert (Hx' : ext (a, cs) x) by (unfold ext, within, HDRSIZE in *; simpl in *; lia).
    pose proof (block_disjoint _ _ _ x (ha_ok _ _ _ Hat) Hx') as Hd. rewrite in_exts_app in Hd.
    destruct Hin as [Hin|[Hin|Hin]]; [tauto| |tauto].
    unfold ext, within, new, HDRSIZE in *. simpl in *. lia.
Qed.
(** The stores of [kalloc] that cut the block. *)
Lemma wp_cut (k : M kernel (option Z)) (Q : option Z -> kernel -> Prop) :
  Forall block_ok l1 ->
  (forall m, heap_at m c (l1 ++ (new, ns) :: l2) ->
     changes (heap_fp c (l1 ++ (a, cs) :: l2)) (k_mem s) m -> allocated_at m a size ->
     wp k Q (set_mem m s)) ->
  wp (csize ← load64 a; store64 new (sub64 (sub64 csize size) HDRSIZE) ;;
      cnext ← load64 (a + NEXT); store64 (new + NEXT) cnext ;;
      (if negb (prev_of 0 l1 =? 0) then store64 (prev_of 0 l1 + NEXT) new else store64 c new) ;;
      store64 a size ;;
      store64 (a + CANARY) (canary a) ;; k) Q s.
Proof.
  intros Hl1 Hk. pose proof cut_bounds as Hb. pose proof cut_block_mapped as Hmap.
  pose proof (seg_size _ _ _ _ _ _ _ (ha_seg _ _ _ Hat)) as [R1 R2].
  apply wp_bind, (wp_load64 _ cs); [done|].
  rewrite (sub64_small cs), sub64_small by (unfold HDRSIZE; lia). fold ns.
  unfold NEXT, HDRSIZE in *.
  apply wp_bind, wp_store64; [eapply mapped_sub; [exact Hmap|unfold new, HDRSIZE; lia|unfold new, HDRSIZE; lia]|].
  apply wp_bind, (wp_load64 _ (first 0 l2)).
  { simpl. unfold new, HDRSIZE. rewrite read64_write64_ne by lia. done. }
  apply wp_bind, wp_store64.
  { apply write64_mapped. eapply mapped_sub; [exact Hmap|unfold new, HDRSIZE; lia|unfold new, HDRSIZE; lia]. }
  apply wp_bind. simpl. apply (wp_conseq _ (fun _ s' => s' = set_mem m3 s)).
  { assert (Hcm : mapped (k_mem s) (cell c l1) 8).
    { intros x Hx. destruct (cell_cases c l1) as [E|(b & Hin & E)]; rewrite E in Hx.
      - by apply (ha_cell _ _ _ Hat).
      - apply (ha_mapped _ _ _ Hat). eapply ext_hdr; [apply Hat|apply elem_of_app; by left|].
        unfold within, NEXT, HDRSIZE in *. lia. }
    assert (Hpos : Forall (fun b => 0 < fst b) l1).
    { eapply Forall_impl; [exact Hl1|]. intros b Hb'. apply Hb'. }
    unfold m3. rewrite (prev_of_cell c l1 Hpos) in Hcm |- *. unfold NEXT in *. destruct (prev_of 0 l1 =? 0); apply wp_store64; by repeat apply write64_mapped. }
  intros [] s' ->. pose proof cut_heap_at as Hat3. pose proof cut_changes as Hch3.
  assert (Hm3 : mapped m3 a (16 + cs)) by (by eapply changes_mapped).
  apply wp_bind, wp_store64; [eapply mapped_sub; [exact Hm3|lia|lia]|].
  apply wp_bind, wp_store64.
  { apply write64_mapped. eapply mapped_sub; [exact Hm3|unfold CANARY, NEXT; lia|unfold CANARY, NEXT; lia]. }
  simpl. set (m5 := write64 _ (a + CANARY) _).
  assert (Hch5 : changes (within a 16) m3 m5).
  { apply changes_then_write; [apply changes_then_write; [apply changes_refl|]|];
      unfold within, CANARY, NEXT; lia. }
  apply Hk.
  - eapply heap_at_changes; [exact Hat3|exact Hch5|]. intros x Hx. apply cut_fresh.
    unfold ext, within, HDRSIZE in *. simpl in *. lia.
  - eapply changes_trans; [exact Hch3|]. eapply changes_weaken; [exact Hch5|].
    intros x Hx. right. exists (a, cs). split; [set_solver|]. unfold ext, within, HDRSIZE in *. simpl. lia.
  - pose proof (canary_range a). unfold m5, allocated_at, CANARY, NEXT. by autorewrite with mem.
Qed.
End cut.

Lemma scan_hit s c size a cs l1 l2 :
  heap_at (k_mem s) c (l1 ++ (a, cs) :: l2) -> 0 <= size -> size + HDRSIZE <= cs ->
  exists m,
    (let new := a + HDRSIZE + size in
     csize ← load64 a; store64 new (sub64 (sub64 csize size) HDRSIZE) ;;
     cnext ← load64 (a + NEXT); store64 (new + NEXT) cnext ;;
     (if negb (prev_of 0 l1 =? 0) then store64 (prev_of 0 l1 + NEXT) new else store64 c new) ;;
     store64 a size ;;
     store64 (a + CANARY) (canary a) ;;
     assert_test (a =? a + HDRSIZE - HDRSIZE) ;;
     mret (Some (a + HDRSIZE))) s = Done (Some (a + HDRSIZE)) (set_mem m s) /\
    heap_at m c (l1 ++ (a + HDRSIZE + size, cs - size - HDRSIZE) :: l2) /\
    changes (heap_fp c (l1 ++ (a, cs) :: l2)) (k_mem s) m /\ allocated_at m a size.
Proof.
  intros Hat Hs Hle. pose proof (ho_blocks _ (ha_ok _ _ _ Hat)) as [Hl1 _]%Forall_app.
  pose proof (wp_cut s c l1 l2 a cs size Hat Hs Hle
    (assert_test (a =? a + HDRSIZE - HDRSIZE) ;; mret (Some (a + HDRSIZE)))
    (fun r s' => r = Some (a + HDRSIZE) /\ exists m, s' = set_mem m s /\
       heap_at m c (l1 ++ (a + HDRSIZE + size, cs - size - HDRSIZE) :: l2) /\
       changes (heap_fp c (l1 ++ (a, cs) :: l2)) (k_mem s) m /\ allocated_at m a size) Hl1) as H.
  apply wp_done in H.
  - destruct H as (r & s' & Hrun & -> & m & -> & Hm). by exists m.
  - intros m Hm Hch Hal. apply wp_bind, wp_assert; [apply Z.eqb_eq; lia|]. apply wp_ret.
    split; [done|]. by exists m.
Qed.

Lemma kalloc_scan_spec s c size l2 : 0 <= size <= MAX_HEAP ->
  forall l1 fuel, (length l2 < fuel)%nat -> heap_at (k_mem s) c (l1 ++ l2) ->
  match take_fit size l2 with
  | Some (r, l2') => exists m,
      kalloc_scan fuel c size (prev_of 0 l1) (first 0 l2) s = Done (Some (r + HDRSIZE)) (set_mem m s) /\
      heap_at m c (l1 ++ l2') /\ changes (heap_fp c (l1 ++ l2)) (k_mem s) m /\ allocated_at m r size
  | None => kalloc_scan fuel c size (prev_of 0 l1) (first 0 l2) s = Done None s
  end.
Proof.
  intros Hsize. unfold MAX_HEAP, ALLOC_ALIGN in Hsize. induction l2 as [|[a cs] l2 IH]; intros l1 [|fuel] Hf Hat; simpl in Hf; try lia.
  - done.
  - pose proof (ho_blocks _ (ha_ok _ _ _ Hat)) as [Hl1 [Ha _]%Forall_cons]%Forall_app.
    unfold block_ok in Ha. simpl in Ha.
    pose proof (seg_size _ _ _ _ _ _ _ (ha_seg _ _ _ Hat)) as [R1 R2].
    cbn [take_fit first kalloc_scan]. destruct (Z.eqb_spec a 0); [lia|].
    rewrite (run_bind _ _ s cs s) by (unfold load64; simpl; by rewrite R1).
    rewrite add64_small by (unfold HDRSIZE; lia).
    destruct (Z.leb_spec (size + HDRSIZE) cs) as [Hle|Hgt].
    + apply scan_hit; try done. lia.
    + rewrite (run_bind _ _ s (first 0 l2) s) by (unfold load64; simpl; by rewrite R2).
      specialize (IH (l1 ++ [(a, cs)]) fuel ltac:(lia)). rewrite <- app_assoc in IH.
      specialize (IH Hat). rewrite prev_of_app in IH. simpl in IH.
      destruct (take_fit size l2) as [[r l2']|]; [|done].
      simpl. destruct IH as (m & Hrun & Hm & Hch & Hal). exists m.
      rewrite <- app_assoc in Hm. done.
Qed.

Lemma align_up_bounds sz : 0 <= sz <= 2 ^ 62 ->
  sz <= align_up sz < sz + 16 /\ align_up sz <= 2 ^ 62 /\ (16 | align_up sz).
Proof.
  intros Hsz. unfold align_up, ALLOC_ALIGN. rewrite add64_small by lia.
  replace (sz + (16 - 1)) with (sz + 15) by lia.
  rewrite (align_down_spec (sz + 15) 4 ltac:(lia) ltac:(lia) : align_down (sz + 15) 16 = _).
  change (2 ^ 4) with 16.
  assert ((sz + 15) / 16 < 2 ^ 58 + 1) by (apply Z.div_lt_upper_bound; lia).
  split_and!; [divlia|divlia|lia|apply Z.divide_factor_l].
Qed.

Lemma insert_block_spec fuel s c n sz l :
  heap_at (k_mem s) c l -> block_ok (n, sz) ->
  (forall x, ext (n, sz) x -> ~ heap_fp c l x) -> mapped (k_mem s) n (HDRSIZE + sz) ->
  read64 (k_mem s) n = Some sz -> (length l <= fuel)%nat ->
  exists m, insert_block fuel c n s = Done tt (set_mem m s) /\
    heap_at m c (insert_free n sz l) /\ changes (insert_fp c n sz l) (k_mem s) m.
Proof.
  intros Hat Hn Hfp Hmap Hsz Hf.
  assert (Hnl : forall x, ext (n, sz) x -> ~ in_exts l x) by (intros x Hx Hl; apply (Hfp x Hx); by right).
  assert (Hcn : forall x, within c 8 x -> ~ ext (n, sz) x) by (intros x Hx Hl; apply (Hfp x Hl); by left).
  assert (H : wp (insert_block fuel c n) (fun _ s' => exists m, s' = set_mem m s /\
    heap_at m c (insert_free n sz l) /\ changes (insert_fp c n sz l) (k_mem s) m) s).
  { destruct l as [|h t] eqn:E; [by apply insert_block_nil|].
    by apply (insert_block_cons c n sz (h :: t) Hn Hnl Hcn fuel s h t). }
  apply wp_done in H as ([] & s' & Hrun & m & -> & Hm). by exists m.
Qed.

(** ** The heap and the pages below it *)

Section heap.
Context {PA : PageInv}.

(** The heap of this CPU, on top of the page allocator. *)
Definition heap_inv (s : kernel) (F : Z -> Prop) : Prop :=
  exists G l, pg_inv s G /\ heap_at (k_mem s) (cpu_state s) l /\
    (forall x, G x -> ~ heap_fp (cpu_state s) l x) /\ blocks_aligned l /\
    forall x, F x <-> G x \/ heap_fp (cpu_state s) l x.

(** It depends on the memory and the globals of the two allocators only. *)
Lemma heap_inv_same s s' F : k_mem s' = k_mem s -> k_pa s' = k_pa s -> k_cpu s' = k_cpu s ->
  heap_inv s F -> heap_inv s' F.
Proof.
  intros Em Ep Ec (G & l & HG & Hat & Hd & HF).
  assert (Es : cpu_state s' = cpu_state s) by (unfold cpu_state; by rewrite Ec).
  exists G, l. rewrite Em, Es. split; [by apply (pg_same s)|done].
Qed.

Lemma heap_inv_frame s F m P :
  heap_inv s F -> changes P (k_mem s) m -> (forall x, P x -> ~ F x) -> heap_inv (set_mem m s) F.
Proof.
  intros (G & l & HG & Hat & Hd & Hal & HF) Hch HP. exists G, l. split_and!; [| |done|done|done].
  - eapply pg_frame; [done|done|]. intros x Hx HGx. apply (HP x Hx), HF. by left.
  - eapply heap_at_changes; [done|done|]. intros x Hx Hl. apply (HP x Hx), HF. by right.
Qed.

Lemma insert_free_fp c n sz l x :
  heap_ok l -> block_ok (n, sz) -> (forall x, ext (n, sz) x -> ~ heap_fp c l x) ->
  heap_fp c (insert_free n sz l) x <-> insert_fp c n sz l x.
Proof.
  intros Hok Hn Hd. unfold insert_fp, heap_fp. rewrite insert_free_exts; [tauto|done|done|].
  apply apart_exts; [done|apply Hok|]. intros y Hy Hl. apply (Hd y Hy). by right.
Qed.

(** Giving the bytes of a block back to the list. *)
Lemma heap_inv_insert s F n sz :
  heap_inv s F -> block_ok (n, sz) -> (16 | n) -> (forall x, ext (n, sz) x -> ~ F x) ->
  mapped (k_mem s) n (HDRSIZE + sz) -> read64 (k_mem s) n = Some sz ->
  exists m, eventually (fun fuel => insert_block fuel (cpu_state s) n) s (Done tt (set_mem m s)) /\
    heap_inv (set_mem m s) (fun x => F x \/ ext (n, sz) x) /\
    changes (fun x => F x \/ ext (n, sz) x) (k_mem s) m.
Proof.
  intros (G & l & HG & Hat & Hd & Hall & HF) Hn Hn16 Hfp Hmap Hsz.
  assert (Hnl : forall x, ext (n, sz) x -> ~ heap_fp (cpu_state s) l x).
  { intros x Hx Hl. apply (Hfp x Hx), HF. by right. }
  destruct (insert_block_spec (length l) s _ n sz l Hat Hn Hnl Hmap Hsz (Nat.le_refl _))
    as (m & Hrun & Hat' & Hch).
  assert (HGn : forall x, G x -> ~ insert_fp (cpu_state s) n sz l x).
  { intros x Hx [Hl|He]; [by apply (Hd x)|]. apply (Hfp x He), HF. by left. }
  assert (Hiff : forall x, heap_fp (cpu_state s) (insert_free n sz l) x <-> insert_fp (cpu_state s) n sz l x).
  { intros x. apply insert_free_fp; [apply Hat|done|done]. }
  exists m. split_and!.
  - eapply eventually_mono; [intros; by apply insert_block_mono|exact Hrun|done].
  - exists G, (insert_free n sz l). change (cpu_state (set_mem m s)) with (cpu_state s). split_and!.
    + eapply pg_frame; [done|done|]. intros x Hx HGx. by apply (HGn x).
    + done.
    + intros x Hx. rewrite Hiff. by apply HGn.
    + by apply insert_free_aligned.
    + intros x. rewrite HF, Hiff. unfold insert_fp. tauto.
  - eapply changes_weaken; [exact Hch|]. unfold insert_fp. intros x. rewrite HF. tauto.
Qed.

Lemma next_pow2_page_round x :
  0 < x <= 2 ^ 63 -> x <= next_pow2 x <= page_round x.
Proof.
  intros Hx. destruct (next_pow2_small x Hx) as [E Hb]. rewrite <- E in Hb.
  unfold page_round. destruct (Z.ltb_spec (next_pow2 x) PAGE_SIZE); lia.
Qed.

(** The run of [kalloc_pages] from the runs of the functions it calls. *)
Lemma kalloc_pages_run s size r m1 m3 want blk :
  add64 size (HDRSIZE * 2) = want -> next_pow2 want = blk ->
  eventually (fun fuel => page_alloc fuel want) s (Done r (set_mem m1 s)) ->
  0 <= size -> size + 32 <= blk -> blk < 2 ^ 64 -> mapped m1 r (32 + size) ->
  eventually (fun fuel => insert_block fuel (cpu_state s) (r + HDRSIZE + size))
    (set_mem (write64 (write64 (write64 m1 r size) (r + CANARY) (canary r))
                (r + HDRSIZE + size) (blk - size - 32)) s) (Done tt (set_mem m3 s)) ->
  eventually (fun fuel => kalloc_pages fuel (cpu_state s) size) s
    (Done (r + HDRSIZE) (set_mem m3 s)).
Proof.
  intros Hw Hb H1 Hs Hle Hlt Hm H2. unfold kalloc_pages. rewrite Hw, Hb.
  eapply (eventually_bind (fun f => page_alloc f want)); [exact H1|].
  unfold HDRSIZE, CANARY, NEXT in *. rewrite (sub64_small blk), sub64_small by lia.
  eapply (eventually_bind (fun _ => _)).
  { apply eventually_const, run_store64. simpl. eapply mapped_sub; [exact Hm|lia|lia]. }
  eapply (eventually_bind (fun _ => _)).
  { apply eventually_const, run_store64. simpl. apply write64_mapped. eapply mapped_sub; [exact Hm|lia|lia]. }
  eapply (eventually_bind (fun _ => _)).
  { apply eventually_const, run_store64. simpl. do 2 apply write64_mapped.
    eapply mapped_sub; [exact Hm|lia|lia]. }
  simpl. replace (blk - size - 16 * 2) with (blk - size - 32) by lia.
  eapply (eventually_bind (fun f => insert_block f (cpu_state s) (r + 16 + size))); [exact H2|].
  apply eventually_const. by rewrite (proj2 (Z.eqb_eq r (r + 16 - 16))) by lia.
Qed.

(** A block of [size] bytes at the start of fresh pages at [r], the rest of it a free block. *)
Section pages.
Context (s : kernel) (F G G1 : Z -> Prop) (l : blocks) (m1 : gmap Z Z) (r size : Z).
Context (HG1 : pg_inv (set_mem m1 s) G1) (Hat : heap_at (k_mem s) (cpu_state s) l) (Hall : blocks_aligned l).
Context (Hd : forall x, G x -> ~ heap_fp (cpu_state s) l x) (HF : forall x, F x <-> G x \/ heap_fp (cpu_state s) l x).
Context (Hgr : granted 0 (page_round (size + 32)) r G G1 (k_mem s) m1).
Context (Hsize : 0 <= size) (Hblk : size + 32 <= next_pow2 (size + 32) <= page_round (size + 32)).

Local Abbreviation blk := (next_pow2 (size + 32)).
Local Abbreviation n := (r + HDRSIZE + size).
Local Abbreviation ns := (blk - size - 32).
Local Abbreviation m2 := (write64 (write64 (write64 m1 r size) (r + CANARY) (canary r)) n ns).

Lemma pages_in x : within r (32 + size + ns) x -> G x /\ ~ G1 x.
Proof.
  intros Hx. assert (Hw : within r (page_round (size + 32)) x) by (unfold within in *; lia). destruct Hgr as [_ _ H3 H4 _ _ _].
  rewrite Z.sub_0_r, Z.add_0_l in *. split; [by apply H3|]. intros H. by destruct (H4 x H).
Qed.

Lemma pages_changes : changes (within r (32 + size + ns)) m1 m2.
Proof.
  do 3 (apply changes_then_write; [|intros x Hx; unfold within, CANARY, NEXT, HDRSIZE in *; lia]). apply changes_refl.
Qed.

Lemma pages_far x : within r (32 + size + ns) x -> ~ (G1 x \/ heap_fp (cpu_state s) l x).
Proof. intros [H1 H2]%pages_in [H|H]; [done|by apply (Hd x)]. Qed.

Lemma pages_inv : heap_inv (set_mem m2 s) (fun x => G1 x \/ heap_fp (cpu_state s) l x).
Proof.
  exists G1, l. change (cpu_state (set_mem m2 s)) with (cpu_state s). split_and!; [| | |done|done].
  - apply (pg_frame (set_mem m1 s) G1 m2 _ HG1 pages_changes). intros x Hx. by apply pages_in.
  - apply (heap_at_changes m1 m2 _ _ _ (heap_at_changes _ _ _ _ _ Hat (gr_mem _ _ _ _ _ _ _ Hgr) Hd) pages_changes).
    intros x Hx. by apply Hd, pages_in.
  - intros x Hx. apply Hd. by apply (gr_rest _ _ _ _ _ _ _ Hgr).
Qed.

Lemma pages_granted m3 : changes (fun x => (G1 x \/ heap_fp (cpu_state s) l x) \/ ext (n, ns) x) m2 m3 ->
  granted HDRSIZE size (r + HDRSIZE) F (fun x => (G1 x \/ heap_fp (cpu_state s) l x) \/ ext (n, ns) x) (k_mem s) m3.
Proof.
  intros Hch3. destruct Hgr as [Hr Hrend Hrin Hrest Hch1 Hmap1 Hr16]. rewrite Z.sub_0_r, Z.add_0_l in *.
  assert (HrF : forall x, within r (32 + size + ns) x -> F x) by (intros x Hx; apply HF; left; by apply pages_in).
  unfold HDRSIZE in *. split; replace (r + 16 - 16) with r by lia.
  - lia.
  - lia.
  - intros x Hx. apply HrF. unfold within in *. lia.
  - intros x [Hx|Hx].
    + split; [apply HF; destruct Hx as [Hx|Hx]; [left; by apply Hrest|by right]|]. intros Hw'. apply (pages_far x); [|exact Hx].
      unfold within in *. lia.
    + unfold ext, within, HDRSIZE in *. simpl in *. split; [apply HrF; lia|lia].
  - eapply changes_trans; [eapply changes_weaken; [exact Hch1|]; intros x Hx; apply HF; by left|].
    eapply changes_trans; [eapply changes_weaken; [exact pages_changes|exact HrF]|].
    eapply changes_weaken; [exact Hch3|]. intros x [[Hx|Hx]|Hx]; [apply HF; left; by apply Hrest|apply HF; by right|].
    apply HrF. unfold ext, within, HDRSIZE in *. simpl in *. lia.
  - eapply changes_mapped; [exact Hch3|]. eapply changes_mapped; [exact pages_changes|]. eapply mapped_sub; [exact Hmap1|lia|lia].
  - done.
Qed.

Lemma pages_allocated m3 : changes (fun x => (G1 x \/ heap_fp (cpu_state s) l x) \/ ext (n, ns) x) m2 m3 ->
  size < 2 ^ 64 -> allocated_at m3 r size.
Proof.
  intros Hch3 Hsz. assert (Hhdr : same_on (within r HDRSIZE) m2 m3).
  { eapply changes_same_on; [exact Hch3|]. intros x Hx [Hx'|Hx'].
    - apply (pages_far x); [|done]. unfold within, HDRSIZE in *. lia.
    - unfold ext, within, HDRSIZE in *. simpl in *. lia. }
  pose proof (canary_range r). unfold allocated_at.
  rewrite !(read64_same m2 m3) by (eapply same_on_weaken; [exact Hhdr|]; unfold within, CANARY, NEXT, HDRSIZE; lia).
  unfold CANARY, NEXT, HDRSIZE. by autorewrite with mem.
Qed.
End pages.

(** The part of [kalloc] that asks for fresh pages. *)
Lemma kalloc_pages_spec s F size :
  heap_inv s F -> 0 <= size <= 2 ^ 62 -> (16 | size) ->
  (exists r m G, eventually (fun fuel => kalloc_pages fuel (cpu_state s) size) s
       (Done (r + HDRSIZE) (set_mem m s)) /\
     heap_inv (set_mem m s) G /\ granted HDRSIZE size (r + HDRSIZE) F G (k_mem s) m /\
     allocated_at m r size) \/
  eventually (fun fuel => kalloc_pages fuel (cpu_state s) size) s (Stop Panic).
Proof.
  intros (G & l & HG & Hat & Hd & Hall & HF) Hsize Hs16.
  assert (Hw : add64 size (HDRSIZE * 2) = size + 32) by (apply add64_small; unfold HDRSIZE; lia).
  destruct (pg_alloc s G (size + 32) HG ltac:(lia)) as [(r & m1 & G1 & Hrun1 & HG1 & Hgr)|Hp].
  2:{ right. unfold kalloc_pages. rewrite Hw. by apply (eventually_bind_stop (fun f => page_alloc f (size + 32))). }
  pose proof (next_pow2_page_round (size + 32) ltac:(lia)) as Hblk. set (blk := next_pow2 (size + 32)) in *.
  pose proof (gr_pos _ _ _ _ _ _ _ Hgr) as Hr. pose proof (gr_end _ _ _ _ _ _ _ Hgr) as Hrend.
  pose proof (gr_mapped _ _ _ _ _ _ _ Hgr) as Hm1. pose proof (gr_align _ _ _ _ _ _ _ Hgr) as Hr16. rewrite Z.sub_0_r, Z.add_0_l in *.
  pose proof (pages_inv s G G1 l m1 r size HG1 Hat Hall Hd Hgr (proj1 Hsize) Hblk) as Hinv2.
  pose proof (pages_far s G G1 l m1 r size Hd Hgr Hblk) as Hfar.
  destruct (heap_inv_insert _ _ (r + HDRSIZE + size) (blk - size - 32) Hinv2) as (m3 & Hrun3 & Hinv3 & Hch3).
  - unfold block_ok, HDRSIZE. simpl. lia.
  - apply Z.divide_add_r; [apply Z.divide_add_r; [done|by exists 1]|done].
  - intros x Hx. apply Hfar. unfold ext, within, HDRSIZE in *. simpl in *. lia.
  - simpl. do 3 apply write64_mapped. eapply mapped_sub; [exact Hm1| |]; unfold HDRSIZE; lia.
  - simpl. apply read64_write64_eq. lia.
  - left. exists r, m3, (fun x => (G1 x \/ heap_fp (cpu_state s) l x) \/ ext (r + HDRSIZE + size, blk - size - 32) x). split_and!.
    + apply (kalloc_pages_run s size r m1 m3 (size + 32) blk Hw eq_refl Hrun1); [lia|lia|lia| |exact Hrun3].
      eapply mapped_sub; [exact Hm1|lia|lia].
    + done.
    + exact (pages_granted s F G G1 l m1 r size Hd HF Hgr (proj1 Hsize) Hblk m3 Hch3).
    + apply (pages_allocated s G G1 l m1 r size Hd Hgr ltac:(lia) Hblk m3 Hch3). lia.
Qed.

(** The heap once a block of [size] bytes is cut off the block [r] of its list. *)
Lemma cut_granted s F G l1 r cs l2 size m : let c := cpu_state s in let l' := l1 ++ (r + HDRSIZE + size, cs - size - HDRSIZE) :: l2 in
  pg_inv s G -> heap_at (k_mem s) c (l1 ++ (r, cs) :: l2) -> (forall x, G x -> ~ heap_fp c (l1 ++ (r, cs) :: l2) x) ->
  (forall x, F x <-> G x \/ heap_fp c (l1 ++ (r, cs) :: l2) x) -> 0 <= size -> size + HDRSIZE <= cs -> (16 | r) -> blocks_aligned l' ->
  heap_at m c l' -> changes (heap_fp c (l1 ++ (r, cs) :: l2)) (k_mem s) m ->
  heap_inv (set_mem m s) (fun x => G x \/ heap_fp c l' x) /\
  granted HDRSIZE size (r + HDRSIZE) F (fun x => G x \/ heap_fp c l' x) (k_mem s) m.
Proof.
  intros c l' HG Hat Hd HF Hs Hle Hr16 Hall' Hat' Hch.
  assert (Hout : forall x, ext (r, size) x -> ~ heap_fp c l' x) by (intros x; exact (cut_fresh s _ _ _ _ _ size Hat Hs Hle x)).
  pose proof (cut_exts l1 r cs l2 size) as Hex. pose proof (cut_bounds s _ _ _ _ _ size Hat Hs Hle) as Hb.
  assert (Hin : forall x, ext (r, size) x -> heap_fp c (l1 ++ (r, cs) :: l2) x) by (intros x Hx; right; apply Hex; [lia|done|by right]).
  assert (Hkeep : forall x, heap_fp c l' x -> heap_fp c (l1 ++ (r, cs) :: l2) x).
  { intros x [Hx|Hx]; [by left|]. right. apply Hex; [lia|done|by left]. }
  split.
  - eexists G, _. change (cpu_state (set_mem m s)) with c. split_and!; [|exact Hat'| |exact Hall'|done].
    + eapply pg_frame; [done|done|]. intros x Hx HGx. by apply (Hd x).
    + intros x HGx Hx%Hkeep. by apply (Hd x).
  - unfold HDRSIZE in *. split; replace (r + 16 - 16) with r by lia; [lia|lia| | | | |done].
    + intros x Hx. apply HF. right. by apply Hin.
    + intros x [Hx|Hx]; (split; [apply HF; auto|]).
      * intros Hw. apply (Hd x Hx). by apply Hin.
      * intros Hw. by apply (Hout x).
    + eapply changes_weaken; [exact Hch|]. intros x Hx. apply HF. by right.
    + eapply changes_mapped; [exact Hch|]. eapply mapped_sub; [exact (cut_block_mapped s _ _ _ _ _ size Hat Hs Hle)|lia|unfold HDRSIZE; lia].
Qed.

Lemma kalloc_spec s F sz :
  heap_inv s F -> 0 <= sz <= 2 ^ 62 ->
  (exists r m G, eventually (fun fuel => kalloc fuel sz) s (Done (r + HDRSIZE) (set_mem m s)) /\
     heap_inv (set_mem m s) G /\
     granted HDRSIZE (align_up sz) (r + HDRSIZE) F G (k_mem s) m /\
     allocated_at m r (align_up sz)) \/
  eventually (fun fuel => kalloc fuel sz) s (Stop Panic).
Proof.
  intros Hinv Hsz. pose proof (align_up_bounds sz Hsz) as (Hal & Hmax & Hs16).
  set (size := align_up sz) in *. pose proof Hinv as (G & l & HG & Hat & Hd & Hall & HF).
  assert (Hscan := fun fuel Hf => kalloc_scan_spec s (cpu_state s) size l
    ltac:(unfold MAX_HEAP, ALLOC_ALIGN; lia) [] fuel Hf Hat).
  assert (Hstart : load64 (cpu_state s) s = Done (first 0 l) s).
  { apply run_load64. apply (seg_head _ _ _ _ (ha_seg _ _ _ Hat)). }
  destruct (take_fit size l) as [[r l']|] eqn:Efit.
  - destruct (take_fit_aligned _ _ _ _ Hs16 Hall Efit) as [Hr16 Hall'].
    left. pose proof Efit as (l1 & cs & l2 & -> & Hle & _ & ->)%take_fit_Some.
    destruct (Hscan (S (length (l1 ++ (r, cs) :: l2))) (Nat.lt_succ_diag_r _)) as (m & Hrun & Hat' & Hch & Ha).
    destruct (cut_granted s F G l1 r cs l2 size m HG Hat Hd HF ltac:(lia) Hle Hr16 Hall' Hat' Hch) as [HI Hgr].
    eexists r, m, _. split; [|by split]. eapply eventually_mono; [intros; by apply kalloc_mono| |done].
    unfold kalloc. fold size. rewrite (run_bind _ _ s (cpu_state s) s) by done.
    rewrite (run_bind _ _ _ _ _ Hstart), (run_bind _ _ _ _ _ Hrun). done.
  - assert (Hpages : forall res,
      eventually (fun fuel => kalloc_pages fuel (cpu_state s) size) s res ->
      eventually (fun fuel => kalloc fuel sz) s res).
    { intros res [N HN]. exists (N + S (length l))%nat. intros fuel Hf. unfold kalloc. fold size.
      rewrite (run_bind _ _ s (cpu_state s) s) by done. rewrite (run_bind _ _ _ _ _ Hstart).
      rewrite (run_bind _ _ _ _ _ (Hscan fuel ltac:(lia))). apply HN. lia. }
    destruct (kalloc_pages_spec s F size Hinv ltac:(lia) Hs16) as [(r & m & G' & Hrun & Hrest)|Hp].
    + left. exists r, m, G'. split; [by apply Hpages|done].
    + right. by apply Hpages.
Qed.

(** ** kfree *)

Lemma kfree_spec s F r n :
  heap_inv s F -> allocated_at (k_mem s) (r - HDRSIZE) n ->
  0 < r - HDRSIZE -> 0 <= n -> r + n < 2 ^ 64 ->
  mapped (k_mem s) (r - HDRSIZE) (HDRSIZE + n) ->
  (forall x, within (r - HDRSIZE) (HDRSIZE + n) x -> ~ F x) -> (16 | r - HDRSIZE) ->
  exists m, eventually (fun fuel => kfree fuel r) s (Done tt (set_mem m s)) /\
    heap_inv (set_mem m s) (fun x => F x \/ within (r - HDRSIZE) (HDRSIZE + n) x) /\
    changes (fun x => F x \/ within (r - HDRSIZE) (HDRSIZE + n) x) (k_mem s) m.
Proof.
  intros Hinv [Hsz Hcan] Hr Hn Hend Hmap Hfp Hr16.
  destruct (heap_inv_insert s F (r - HDRSIZE) n Hinv) as (m & Hrun & Hinv' & Hch); try done.
  { unfold block_ok. simpl. lia. }
  exists m. split_and!; [|done|done].
  destruct Hrun as [N HN]. exists N. intros fuel Hf. unfold kfree.
  rewrite sub64_small by (unfold HDRSIZE in *; lia).
  rewrite (run_bind _ _ s (canary (r - HDRSIZE)) s) by by apply run_load64.
  rewrite Z.eqb_refl. cbn [negb]. rewrite (run_bind _ _ s (cpu_state s) s) by done. by apply HN.
Qed.

#[export] Instance kernel_heap_allocator : Allocator HDRSIZE kalloc.
Proof.
  refine {| al_inv := heap_inv |}; [apply heap_inv_frame|].
  intros s F sz Hinv Hsz. destruct (kalloc_spec s F sz Hinv Hsz) as [(r & m & G & Hrun & HG & Hgr & _)|H]; [|by right].
  left. exists (r + HDRSIZE), m, G. split_and!; [done|done|].
  pose proof (align_up_bounds sz Hsz) as (Hal & _). destruct Hgr as [H1 H2 H3 H4 H5 H6 H7].
  split; try done; [lia| | |].
  - intros x Hx. apply H3. unfold within in *. lia.
  - intros x Hx. destruct (H4 x Hx) as [HF Hw]. split; [done|]. unfold within in *. lia.
  - eapply mapped_sub; [exact H6|lia|lia].
Defined.

#[export] Instance kernel_heap : Heap HDRSIZE kalloc kfree.
Proof.
  refine {| hp_allocator := kernel_heap_allocator;
            hp_block := fun m r n => allocated_at m (r - HDRSIZE) n /\ 0 <= n |}.
  - intros m m' r n [[H1 H2] Hn] Hs. split; [|done].
    split; rewrite (read64_same m m'); try done;
      (eapply same_on_weaken; [exact Hs|]; unfold within, CANARY, NEXT, HDRSIZE; lia).
  - intros s F sz Hinv Hsz.
    destruct (kalloc_spec s F sz Hinv Hsz) as [(r & m & G & Hrun & HG & Hgr & Ha)|H]; [|by right].
    pose proof (align_up_bounds sz Hsz) as (Hal & _).
    left. exists (r + HDRSIZE), m, G, (align_up sz). split_and!; try done; [lia| |lia].
    by replace (r + HDRSIZE - HDRSIZE) with r by lia.
  - intros s F r n Hinv [Ha _] H1 H2 H3 Hm Hd Hr. by apply kfree_spec.
Defined.

(** ** krealloc *)

Lemma memcpy_run (s : kernel) dst src n bs :
  0 <= n -> read_bytes (k_mem s) src (Z.to_nat n) = Some bs -> mapped (k_mem s) dst n ->
  memcpy dst src n s = Done dst (set_mem (write_bytes (k_mem s) dst bs) s).
Proof.
  intros Hn Hr Hd.
  pose proof (wp_memmove dst src n bs s (fun r s' => r = dst /\ s' = set_mem (write_bytes (k_mem s) dst bs) s)
    Hn Hr Hd (conj eq_refl eq_refl)) as H.
  by apply wp_done in H as (r & s' & Hrun & -> & ->).
Qed.

(** What the caller of [krealloc] and [kfree] holds: an allocated block of [n] bytes
    at [r], outside the heap's footprint. *)
Record owned (s : kernel) (F : Z -> Prop) (r n : Z) : Prop := {
  ow_hdr : allocated_at (k_mem s) (r - HDRSIZE) n;
  ow_pos : 0 < r - HDRSIZE;
  ow_len : 0 <= n;
  ow_end : r + n < 2 ^ 64;
  ow_mapped : mapped (k_mem s) (r - HDRSIZE) (HDRSIZE + n);
  ow_out : forall x, within (r - HDRSIZE) (HDRSIZE + n) x -> ~ F x;
  ow_align : (16 | r - HDRSIZE);
}.

Lemma allocated_at_same m m' a n :
  same_on (within a HDRSIZE) m m' -> allocated_at m a n -> allocated_at m' a n.
Proof.
  intros Hs [H1 H2]. split; rewrite (read64_same m m'); try done;
    (eapply same_on_weaken; [exact Hs|]; unfold within, CANARY, NEXT, HDRSIZE; lia).
Qed.

(** The old block survives whatever happens inside [F], and stays owned by the caller
    in a footprint without it. *)
Lemma owned_changes s F G P r n m :
  owned s F r n -> changes P (k_mem s) m ->
  (forall x, within (r - HDRSIZE) (HDRSIZE + n) x -> ~ P x) ->
  (forall x, within (r - HDRSIZE) (HDRSIZE + n) x -> ~ G x) ->
  owned (set_mem m s) G r n.
Proof.
  intros [H1 H2 H3 H4 H5 H6 H7] Hch HP HG. split; try done.
  - eapply allocated_at_same; [|exact H1]. eapply changes_same_on; [exact Hch|].
    intros x Hx. apply HP. unfold within in *. lia.
  - by eapply changes_mapped.
Qed.

(** The owner may write the data of its block. *)
Lemma owned_write s F P r n m :
  owned s F r n -> changes P (k_mem s) m -> (forall x, P x -> ~ within (r - HDRSIZE) HDRSIZE x) ->
  owned (set_mem m s) F r n.
Proof.
  intros [H1 H2 H3 H4 H5 H6 H7] Hch HP. split; try done.
  - eapply allocated_at_same; [|exact H1]. eapply changes_same_on; [exact Hch|].
    intros x Hx Hp. by apply (HP x Hp).
  - by eapply changes_mapped.
Qed.

Lemma granted_owned s h n r F G m :
  granted HDRSIZE n r F G (k_mem s) m -> allocated_at m (r - HDRSIZE) n -> 0 <= n -> h = m ->
  owned (set_mem h s) G r n.
Proof.
  intros [H1 H2 H3 H4 H5 H6 H7] Ha Hn ->. split; try done.
  intros x Hx HG. by apply (H4 x HG).
Qed.

(** After [krealloc] has copied the [n] bytes at [old] to the new block at [r]. *)
Lemma krealloc_copied s F G old n bs r sz m1 : owned s F old n -> heap_inv (set_mem m1 s) G ->
  granted HDRSIZE sz r F G (k_mem s) m1 -> owned (set_mem m1 s) G r sz -> n <= sz ->
  read_bytes (k_mem s) old (Z.to_nat n) = Some bs ->
  let m2 := write_bytes m1 r bs in
  read_bytes m1 old (Z.to_nat n) = Some bs /\ changes (within r n) m1 m2 /\ heap_inv (set_mem m2 s) G /\
  owned (set_mem m1 s) G old n /\ owned (set_mem m2 s) G old n /\ owned (set_mem m2 s) G r sz /\
  forall x, within (old - HDRSIZE) (HDRSIZE + n) x -> ~ within (r - HDRSIZE) (HDRSIZE + sz) x.
Proof.
  intros Ho HG Hgr Hnew Hle Hbs m2. pose proof (ow_out _ _ _ _ Ho) as Hout. pose proof (ow_len _ _ _ _ Ho) as Hn.
  pose proof (read_bytes_length _ _ _ _ Hbs) as Hlen.
  assert (Hdis : forall x, within (old - HDRSIZE) (HDRSIZE + n) x -> ~ within (r - HDRSIZE) (HDRSIZE + sz) x).
  { intros x Hx Hw. apply (Hout x Hx), (gr_in _ _ _ _ _ _ _ Hgr), Hw. }
  assert (Hold1 : owned (set_mem m1 s) G old n).
  { eapply owned_changes; [exact Ho|apply (gr_mem _ _ _ _ _ _ _ Hgr)|done|].
    intros x Hx HGx. apply (Hout x Hx). by apply (gr_rest _ _ _ _ _ _ _ Hgr). }
  assert (Hch2 : changes (within r n) m1 m2).
  { eapply changes_weaken; [apply changes_write_bytes|]. intros x. unfold within. lia. }
  assert (Hsub : forall x, within r n x -> within (r - HDRSIZE) (HDRSIZE + sz) x) by (unfold within, HDRSIZE; lia).
  split_and!; [|exact Hch2| |exact Hold1| | |exact Hdis].
  - rewrite <- Hbs. apply read_bytes_same. eapply changes_same_on; [apply (gr_mem _ _ _ _ _ _ _ Hgr)|].
    intros x Hx. apply Hout. unfold within, HDRSIZE in *. lia.
  - apply (heap_inv_frame (set_mem m1 s) G m2 _ HG Hch2). intros x Hx. by apply (ow_out _ _ _ _ Hnew), Hsub.
  - apply (owned_changes (set_mem m1 s) G G _ _ _ m2 Hold1 Hch2); [|apply Hold1].
    intros x Hx Hw. by apply (Hdis x Hx), Hsub.
  - apply (owned_write (set_mem m1 s) G (within r n) _ _ m2 Hnew Hch2). unfold within. lia.
Qed.

Lemma krealloc_spec s F old n bs newsize :
  heap_inv s F -> owned s F old n -> 0 <= newsize <= 2 ^ 62 -> n <= align_up newsize ->
  read_bytes (k_mem s) old (Z.to_nat n) = Some bs ->
  (exists r m G, eventually (fun fuel => krealloc fuel old newsize) s (Done r (set_mem m s)) /\
     heap_inv (set_mem m s) G /\ owned (set_mem m s) G r (align_up newsize) /\
     read_bytes m r (Z.to_nat n) = Some bs /\
     (forall x, within (old - HDRSIZE) (HDRSIZE + n) x -> G x) /\
     changes (fun x => F x \/ within (old - HDRSIZE) (HDRSIZE + n) x) (k_mem s) m) \/
  eventually (fun fuel => krealloc fuel old newsize) s (Stop Panic).
Proof.
  intros Hinv Ho Hns Hle Hbs. pose proof Ho as [_ Hpos Hn Hend _ Hout _].
  pose proof (read_bytes_length _ _ _ _ Hbs) as Hlen.
  destruct (kalloc_spec s F newsize Hinv Hns) as [(r0 & m1 & G & Hrun1 & HG & Hgr & Ha)|Hp].
  2:{ right. by apply (eventually_bind_stop (fun f => kalloc f newsize)). }
  set (r := r0 + HDRSIZE) in *. set (sz := align_up newsize) in *.
  assert (Er : r - HDRSIZE = r0) by (unfold r; lia). rewrite <- Er in Ha.
  assert (Hnew : owned (set_mem m1 s) G r sz) by (eapply granted_owned; [exact Hgr|done|lia|done]).
  destruct (krealloc_copied s F G old n bs r sz m1 Ho HG Hgr Hnew Hle Hbs) as (Hbs1 & Hch2 & Hinv2 & Hold1 & Hold2 & Hnew2 & Hdis).
  set (m2 := write_bytes m1 r bs) in *.
  assert (Hsub : forall x, within r n x -> within (r - HDRSIZE) (HDRSIZE + sz) x) by (unfold within, HDRSIZE; lia).
  destruct Hold2 as [Q1 Q2 Q3 Q4 Q5 Q6 Q7].
  destruct (kfree_spec (set_mem m2 s) G old n Hinv2 Q1 Q2 Q3 Q4 Q5 Q6 Q7) as (m3 & Hrun3 & Hinv3 & Hch3).
  simpl in Hch3. left. exists r, m3, (fun x => G x \/ within (old - HDRSIZE) (HDRSIZE + n) x).
  assert (Hr3 : forall x, within (r - HDRSIZE) (HDRSIZE + sz) x ->
    ~ (G x \/ within (old - HDRSIZE) (HDRSIZE + n) x)).
  { intros x Hx [HGx|Hw]; [by apply (ow_out _ _ _ _ Hnew x Hx)|by apply (Hdis x)]. }
  split_and!; [|exact Hinv3| | |by right|].
  - unfold krealloc. rewrite sub64_small by (unfold HDRSIZE in *; lia).
    eapply (eventually_bind (fun f => kalloc f newsize)); [exact Hrun1|]. fold r.
    rewrite (proj2 (Z.eqb_neq old 0)) by (unfold HDRSIZE in *; lia). cbn [negb].
    eapply (eventually_bind (fun f => _)).
    2: { by apply eventually_const. }
    eapply (eventually_bind (fun f => _)).
    { apply eventually_const, run_load64. apply Hold1. }
    eapply (eventually_bind (fun f => _)).
    { apply eventually_const. apply memcpy_run; [done|exact Hbs1|].
      eapply mapped_sub; [apply Hnew|unfold HDRSIZE; lia|lia]. }
    exact Hrun3.
  - by apply (owned_changes (set_mem m2 s) G _ _ _ _ m3 Hnew2 Hch3).
  - rewrite (read_bytes_same m2 m3).
    + pose proof (read_write_bytes m1 r bs) as H. by rewrite Hlen in H.
    + eapply changes_same_on; [exact Hch3|]. intros x Hx. apply Hr3, Hsub. unfold within in *. lia.
  - eapply changes_trans; [eapply changes_weaken; [apply (gr_mem _ _ _ _ _ _ _ Hgr)|]; tauto|].
    eapply changes_trans; [eapply changes_weaken; [exact Hch2|]; intros x Hx; left|].
    + by apply (gr_in _ _ _ _ _ _ _ Hgr), Hsub.
    + eapply changes_weaken; [exact Hch3|]. intros x [Hx|Hx]; [left|by right].
      by apply (gr_rest _ _ _ _ _ _ _ Hgr).
Qed.
End heap.
