(* ===== verification/KallocTheorems.v ===== *)
(** * The kernel heap: theorems

    The contract of kernel/kalloc.c towards the rest of the kernel, and the runs on
    which the code departs from what its comments and its callers expect. *)
From S2P Require Import Prelude Memory Mem Pow2 Rand State FreeList PageSpec PageAlloc PageRefine PageTheorems Allocator Kalloc KallocRefine.

(** ** A state to run the heap in *)

(** One free page pool of 8192 bytes and an empty heap whose list head is at 32768. *)
Definition demo_heap_mem : gmap Z Z := zeros 32768 8 (demo_mem 8192).

(** A kernel with one pool and [n] CPUs. *)
Definition pool_heap (m : gmap Z Z) (n : Z) : kernel :=
  quiet_kernel m (PageAllocGlobals 4096 1 false) (CpuGlobals 32768 n 0 0)
    (ProcGlobals 0 false 0 0 false) no_paging.
Definition demo_heap : kernel := pool_heap demo_heap_mem 1.

Lemma demo_heap_changes : changes (within 32768 8) (demo_mem 8192) demo_heap_mem.
Proof. apply (changes_write_bytes _ 32768 (replicate (Z.to_nat 8) 0)). Qed.

Lemma demo_heap_mapped : mapped demo_heap_mem 32768 8.
Proof. apply (mapped_zeros 32768 8). lia. Qed.

Lemma demo_heap_read : read64 demo_heap_mem 32768 = Some 0.
Proof. vm_compute. reflexivity. Qed.

#[local] Opaque demo_heap_mem.

Lemma demo_footprint size s x : pools (k_pa s) = 4096 ->
  pa_footprint s [demo_pool size] x <-> within 4096 24 x \/ within 65536 size x.
Proof.
  intros Es. unfold pa_footprint. rewrite Es. split.
  - intros [Hw|(p & Hp & b & Hb & Hw)]; [by left|].
    apply list_elem_of_singleton in Hp as ->. apply list_elem_of_singleton in Hb as ->. by right.
  - intros [Hw|Hw]; [by left|right]. exists (demo_pool size). split; [by left|]. exists (65536, size). split; [by left|done].
Qed.

Lemma pool_heap_inv size m n : page_pow2 size -> size <= 2 ^ 40 -> changes (within 32768 8) (demo_mem size) m ->
  read64 m 32768 = Some 0 -> mapped m 32768 8 ->
  heap_inv (pool_heap m n) (fun x => pa_footprint (pool_heap m n) [demo_pool size] x \/ heap_fp 32768 [] x).
Proof.
  intros Hs Hle Hch Hr Hm. exists (pa_footprint (pool_heap m n) [demo_pool size]), []. split_and!.
  - exists [demo_pool size]. split_and!; [|reflexivity|done].
    apply (repr_same (set_mem m (demo size))); [reflexivity|reflexivity|].
    apply (repr_frame _ _ _ (within 32768 8)); [by apply demo_repr|exact Hch|].
    intros x Hx Hf. apply demo_footprint in Hf; [|reflexivity]. unfold within in *. lia.
  - by apply heap_at_nil.
  - intros x Hf [Hx|Hx%in_exts_nil]; [|done]. apply demo_footprint in Hf; [|reflexivity].
    change (within 32768 8 x) in Hx. unfold within in *. lia.
  - by constructor.
  - reflexivity.
Qed.

Lemma demo_heap_inv :
  heap_inv demo_heap (fun x => pa_footprint demo_heap [demo_pool 8192] x \/ heap_fp 32768 [] x).
Proof.
  apply pool_heap_inv; [by exists 13|lia|exact demo_heap_changes|exact demo_heap_read|exact demo_heap_mapped].
Qed.

Definition demo_F (x : Z) : Prop :=
  pa_footprint demo_heap [demo_pool 8192] x \/ heap_fp 32768 [] x.

(** The same kernel with an allocated block of 32 bytes at 49168. *)
Definition demo_block_mem : gmap Z Z :=
  write64 (write64 (zeros 49152 48 demo_heap_mem) 49152 32) 49160 (canary 49152).

Lemma demo_block_changes : changes (within 49152 48) demo_heap_mem demo_block_mem.
Proof.
  apply changes_then_write; [apply changes_then_write|]; [|unfold within; lia..].
  apply (changes_write_bytes _ 49152 (replicate (Z.to_nat 48) 0)).
Qed.

Lemma demo_block_mapped : mapped demo_block_mem 49152 48.
Proof. do 2 apply write64_mapped. apply mapped_zeros. lia. Qed.

Lemma demo_block_hdr : allocated_at demo_block_mem 49152 32.
Proof.
  pose proof (canary_range 49152). unfold allocated_at, demo_block_mem.
  change (49152 + CANARY) with 49160. by autorewrite with mem.
Qed.

#[local] Opaque demo_block_mem.
Definition demo_block : kernel := set_mem demo_block_mem demo_heap.

Lemma demo_F_out x : within 49152 48 x -> ~ demo_F x.
Proof.
  intros Hx [Hf|[Hf|Hf%in_exts_nil]]; [|unfold within in *; lia|done].
  apply demo_footprint in Hf; [|reflexivity]. unfold within in *. lia.
Qed.

Lemma demo_block_inv : heap_inv demo_block demo_F.
Proof.
  apply (heap_inv_frame demo_heap demo_F demo_block_mem (within 49152 48)).
  - exact demo_heap_inv.
  - exact demo_block_changes.
  - exact demo_F_out.
Qed.

Lemma demo_block_owned : owned demo_block demo_F 49168 32.
Proof.
  split; change (49168 - HDRSIZE) with 49152; try (unfold HDRSIZE; lia).
  - exact demo_block_hdr.
  - exact demo_block_mapped.
  - exact demo_F_out.
  - by exists 3072.
Qed.

(** ** The contract of the heap *)

(** C3. [kalloc] of at most 2^62 bytes, on a well-formed heap: given enough fuel it
    either returns an aligned block of at least that many bytes behind an intact header,
    taken out of the heap's footprint, which shrinks by that block and of which
    alone bytes are written; or the page allocator is exhausted and it panics. *)
Theorem kalloc_correct s F sz :
  heap_inv s F -> 0 <= sz <= 2 ^ 62 ->
  (exists r m G,
     eventually (fun fuel => kalloc fuel sz) s (Done r (set_mem m s)) /\
     heap_inv (set_mem m s) G /\
     granted HDRSIZE (align_up sz) r F G (k_mem s) m /\
     allocated_at m (r - HDRSIZE) (align_up sz) /\
     sz <= align_up sz < sz + ALLOC_ALIGN /\ (ALLOC_ALIGN | r)) \/
  eventually (fun fuel => kalloc fuel sz) s (Stop Panic).
Proof.
  intros Hinv Hsz. pose proof (align_up_bounds sz Hsz) as (Hal & _).
  destruct (kalloc_spec s F sz Hinv Hsz) as [(r & m & G & Hrun & HG & Hgr & Ha)|H]; [|by right].
  left. exists (r + HDRSIZE), m, G. split_and!; try done.
  - by replace (r + HDRSIZE - HDRSIZE) with r by lia.
  - lia.
  - apply Hal.
  - pose proof (gr_align _ _ _ _ _ _ _ Hgr) as Hr. replace (r + HDRSIZE) with (r + HDRSIZE - HDRSIZE + 16) by (unfold HDRSIZE; lia).
    by apply Z.divide_add_r; [|exists 1].
Qed.

Lemma kalloc_correct_witness :
  (exists r m G,
     eventually (fun fuel => kalloc fuel 100) demo_heap (Done r (set_mem m demo_heap)) /\
     heap_inv (set_mem m demo_heap) G /\
     granted HDRSIZE (align_up 100) r
       (fun x => pa_footprint demo_heap [demo_pool 8192] x \/ heap_fp 32768 [] x) G
       (k_mem demo_heap) m /\
     allocated_at m (r - HDRSIZE) (align_up 100) /\
     100 <= align_up 100 < 100 + ALLOC_ALIGN /\ (ALLOC_ALIGN | r)) \/
  eventually (fun fuel => kalloc fuel 100) demo_heap (Stop Panic).
Proof. apply kalloc_correct; [apply demo_heap_inv|lia]. Defined.

(** C4. [kfree] of a block its caller owns (its header is intact and its bytes are
    not the heap's) returns: the block becomes part of the heap's footprint, the
    free list stays well formed, and nothing outside is written. *)
Theorem kfree_correct s F r n :
  heap_inv s F -> owned s F r n ->
  exists m, eventually (fun fuel => kfree fuel r) s (Done tt (set_mem m s)) /\
    heap_inv (set_mem m s) (fun x => F x \/ within (r - HDRSIZE) (HDRSIZE + n) x) /\
    changes (fun x => F x \/ within (r - HDRSIZE) (HDRSIZE + n) x) (k_mem s) m.
Proof. intros Hinv []. by apply kfree_spec. Qed.

Lemma kfree_correct_witness :
  exists m, eventually (fun fuel => kfree fuel 49168) demo_block (Done tt (set_mem m demo_block)) /\
    heap_inv (set_mem m demo_block) (fun x => demo_F x \/ within (49168 - HDRSIZE) (HDRSIZE + 32) x) /\
    changes (fun x => demo_F x \/ within (49168 - HDRSIZE) (HDRSIZE + 32) x) (k_mem demo_block) m.
Proof.
  apply (kfree_correct demo_block demo_F 49168 32); [exact demo_block_inv|exact demo_block_owned].
Defined.

(** C5. [krealloc] to a size not below the block's own returns a block of the new
    size that starts with the old bytes, and gives the old block back to the heap;
    or it panics for want of memory. *)
Theorem krealloc_correct s F old n bs newsize :
  heap_inv s F -> owned s F old n -> 0 <= newsize <= 2 ^ 62 -> n <= align_up newsize ->
  read_bytes (k_mem s) old (Z.to_nat n) = Some bs ->
  (exists r m G, eventually (fun fuel => krealloc fuel old newsize) s (Done r (set_mem m s)) /\
     heap_inv (set_mem m s) G /\ owned (set_mem m s) G r (align_up newsize) /\
     read_bytes m r (Z.to_nat n) = Some bs /\
     (forall x, within (old - HDRSIZE) (HDRSIZE + n) x -> G x) /\
     changes (fun x => F x \/ within (old - HDRSIZE) (HDRSIZE + n) x) (k_mem s) m) \/
  eventually (fun fuel => krealloc fuel old newsize) s (Stop Panic).
Proof. apply krealloc_spec. Qed.

Lemma krealloc_correct_witness :
  exists bs,
  (exists r m G, eventually (fun fuel => krealloc fuel 49168 64) demo_block (Done r (set_mem m demo_block)) /\
     heap_inv (set_mem m demo_block) G /\ owned (set_mem m demo_block) G r (align_up 64) /\
     read_bytes m r (Z.to_nat 32) = Some bs /\
     (forall x, within (49168 - HDRSIZE) (HDRSIZE + 32) x -> G x) /\
     changes (fun x => demo_F x \/ within (49168 - HDRSIZE) (HDRSIZE + 32) x) (k_mem demo_block) m) \/
  eventually (fun fuel => krealloc fuel 49168 64) demo_block (Stop Panic).
Proof.
  assert (Hm : mapped demo_block_mem 49168 (Z.of_nat (Z.to_nat 32))).
  { eapply mapped_sub; [exact demo_block_mapped|lia|lia]. }
  apply read_bytes_is_Some in Hm as [bs Hbs]. exists bs.
  apply (krealloc_correct demo_block demo_F 49168 32 bs 64).
  - exact demo_block_inv.
  - exact demo_block_owned.
  - lia.
  - vm_compute. discriminate.
  - exact Hbs.
Defined.

(** C40. [kfree] stops the kernel when the word in front of the block is not the
    canary of its header. *)
Theorem kfree_detects_overflow fuel r v s :
  HDRSIZE <= r < 2 ^ 64 -> read64 (k_mem s) (r - 8) = Some v -> v <> canary (r - HDRSIZE) ->
  kfree fuel r s = Stop Panic.
Proof.
  intros Hr Hv Hne. unfold kfree. rewrite sub64_small by (unfold HDRSIZE in *; lia).
  rewrite (run_bind _ _ s v s).
  - by rewrite (proj2 (Z.eqb_neq v _) Hne).
  - apply run_load64. unfold CANARY, NEXT, HDRSIZE. by replace (r - 16 + 8) with (r - 8) by lia.
Qed.

Lemma kfree_detects_overflow_witness : kfree 1 32776 demo_heap = Stop Panic.
Proof.
  apply (kfree_detects_overflow 1 32776 0).
  - unfold HDRSIZE. lia.
  - apply demo_heap_read.
  - vm_compute. discriminate.
Defined.

(** ** Runs that depart from the intent of the code *)

(** The free list of the heap of [demo_heap]. *)
Definition heap_list_of {A} (r : res kernel A) : option blocks :=
  match r with
  | Done _ s => start ← read64 (k_mem s) 32768; Some (read_list 8 (k_mem s) start 0)
  | Stop _ => None
  end.

Definition alloc3 : M kernel (Z * Z * Z) :=
  a ← kalloc 70 32; b ← kalloc 70 32; c ← kalloc 70 32; mret (a, b, c).

Definition free_neighbours : M kernel unit :=
  p ← kalloc 70 2000; kfree 70 p ;;
  '(a, b, c) ← alloc3; kfree 70 a ;; kfree 70 b.

(** The free list is not ordered by address and freed neighbours stay apart:
    after freeing the adjacent blocks at 65536 and 65584 both are in the list, behind
    a head that is above one of them and below another block. *)
Theorem kfree_does_not_coalesce :
  heap_list_of (free_neighbours demo_heap) =
    Some [(67552, 16); (65680, 1856); (65584, 32); (65536, 32)].
Proof. vm_compute. reflexivity. Qed.

(** A request served from fresh pages records only the next power of two of the
    request as free, not the whole page it got: three requests of 32 bytes exhaust
    8192 bytes of free memory. *)
Theorem kalloc_loses_rest_of_page : alloc3 demo_heap = Stop Panic.
Proof. vm_compute. reflexivity. Qed.

(** [krealloc] to a smaller size copies the old size: the bytes of the old block
    spill over the header of the block behind the new one. *)
Definition shrink_block : M kernel unit :=
  p ← kalloc 70 2000; kfree 70 p ;;
  a ← kalloc 70 64; memset a 255 64 ;;
  krealloc 70 a 16 ;; mret tt.

(** Shrinking a block with [krealloc] destroys the heap: copying 64 bytes into a
    16-byte block overwrites the next free block's header, and freeing the old block
    then follows the overwritten link and faults. *)
Theorem krealloc_shrink_overflows : shrink_block demo_heap = Stop Fault.
Proof. vm_compute. reflexivity. Qed.
