(* ===== verification/HashMap.v ===== *)
(** * kernel/map.c: the hash map

    A map is a block {max, cap, cell[cap]} on the kernel heap; a cell holds the hash
    of its key and pointers to two heap blocks {n, item[n]} with the bytes of the key
    and of the value.  Keys and values are passed by value here (their bytes), where
    the C functions take a pointer to the caller's object and its length. *)
From S2P Require Import Prelude Memory Mem Pow2 State FreeList PageAlloc Kalloc.

(** [map], [struct map_item], [Flex(T)]: offsets and sizes. *)
Definition MAP_MAX : Z := 0.
Definition MAP_CAP : Z := 8.
Definition MAP_CELL : Z := 16.
Definition CELL_H : Z := 0.
Definition CELL_K : Z := 8.
Definition CELL_V : Z := 16.
Definition CELL_SIZE : Z := 24.
Definition FLEX_N : Z := 0.
Definition FLEX_ITEM : Z := 8.

(** [FlexAlloc(int8_t, n)] *)
Definition FlexAlloc (fuel : nat) (item n : Z) : M kernel Z := kzalloc fuel (add64 8 (mul64 item n)).

(** The conversion of an [int8_t] byte to [uint64_t]. *)
Definition sext8 (b : Z) : Z := w64 (s8 b).

Definition FNV_OFFSET : Z := 0xcbf29ce484222325.
Definition FNV_PRIME : Z := 0x100000001b3.

Fixpoint hash_from (h : Z) (c : list Z) : Z :=
  match c with
  | [] => h
  | b :: c' => hash_from (mul64 (Z.lxor h (sext8 b)) FNV_PRIME) c'
  end.

Definition hash (c : list Z) : Z := hash_from FNV_OFFSET c.

Definition cell_addr (m i : Z) : Z := m + MAP_CELL + i * CELL_SIZE.

(** [memcpy] of the caller's bytes to [a]. *)
Fixpoint store_bytes (a : Z) (bs : list Z) : M kernel unit :=
  match bs with
  | [] => mret tt
  | b :: bs' => store8 a b ;; store_bytes (a + 1) bs'
  end.

(** [memcmp(p, k, kn) == 0] against the caller's bytes, last byte first. *)
Fixpoint equal_bytes (n : nat) (p : Z) (k : list Z) : M kernel bool :=
  match n with
  | O => mret true
  | S n' =>
      x ← load8 (p + Z.of_nat n');
      if x =? nth n' k 0 then equal_bytes n' p k else mret false
  end.

Definition map_new (fuel : nat) (n : Z) : M kernel Z :=
  let n := if n <? 8 then 8 else n in
  res ← kzalloc fuel (add64 MAP_CELL (mul64 CELL_SIZE n));
  store64 (res + MAP_CAP) n ;;
  mret res.

(** [m->cell[i].k && m->cell[i].h == h && m->cell[i].k->n == kn && memcmp(...) == 0] *)
Definition cell_matches (m i h : Z) (k : list Z) : M kernel bool :=
  kp ← load64 (cell_addr m i + CELL_K);
  if kp =? 0 then mret false else
  ch ← load64 (cell_addr m i + CELL_H);
  if negb (ch =? h) then mret false else
  n ← load64 (kp + FLEX_N);
  if negb (n =? Z.of_nat (length k)) then mret false else
  equal_bytes (length k) (kp + FLEX_ITEM) k.

(** [do { i = (i + 1) % (m->max + 1); if (match) return i; } while (i != idx);] *)
Fixpoint map_probe (fuel : nat) (m max h idx i : Z) (k : list Z) : M kernel (option Z) :=
  match fuel with
  | O => halt OutOfFuel
  | S f =>
      let i := (i + 1) mod (max + 1) in
      hit ← cell_matches m i h k;
      if (hit : bool) then mret (Some i)
      else if i =? idx then mret None else map_probe f m max h idx i k
  end.

(** The part [map_get] and [map_del] share: the index of the key's cell. *)
Definition map_find (fuel : nat) (m : Z) (k : list Z) : M kernel (option Z) :=
  let h := hash k in
  cap ← load64 (m + MAP_CAP);
  let idx := h mod cap in
  max ← load64 (m + MAP_MAX);
  if max =? 0 then mret None else
  let idx := if max <? idx then max else idx in
  map_probe fuel m max h idx idx k.

Definition map_get (fuel : nat) (m : Z) (k : list Z) : M kernel Z :=
  r ← map_find fuel m k;
  match r with
  | None => mret 0
  | Some i => v ← load64 (cell_addr m i + CELL_V); mret (v + FLEX_ITEM)
  end.

(** [while (new->cell[idx].k) idx = (idx + 1) % m->cap;] *)
Fixpoint grow_probe (fuel : nat) (new cap idx : Z) : M kernel Z :=
  match fuel with
  | O => halt OutOfFuel
  | S f =>
      kp ← load64 (cell_addr new idx + CELL_K);
      if kp =? 0 then mret idx else grow_probe f new cap ((idx + 1) mod cap)
  end.

Definition map_grow (fuel : nat) (m n : Z) : M kernel Z :=
  cap ← load64 (m + MAP_CAP);
  if n <=? cap then mret m else
  new ← map_new fuel n;
  max ← load64 (m + MAP_MAX);
  for_range (Z.to_nat (max + 1)) 0 (fun i =>
    kp ← load64 (cell_addr m i + CELL_K);
    if kp =? 0 then mret tt else
    h ← load64 (cell_addr m i + CELL_H);
    ncap ← load64 (new + MAP_CAP);
    idx ← grow_probe fuel new cap (h mod ncap);
    store64 (cell_addr new idx + CELL_H) h ;;
    store64 (cell_addr new idx + CELL_K) kp ;;
    v ← load64 (cell_addr m i + CELL_V);
    store64 (cell_addr new idx + CELL_V) v) ;;
  kfree fuel m ;;
  mret new.

(** [do { i = (i + 1) % m->cap; } while (m->cell[i].k && i != idx);] *)
Fixpoint insert_probe (fuel : nat) (m cap idx i : Z) : M kernel Z :=
  match fuel with
  | O => halt OutOfFuel
  | S f =>
      let i := (i + 1) mod cap in
      kp ← load64 (cell_addr m i + CELL_K);
      if negb (kp =? 0) && negb (i =? idx) then insert_probe f m cap idx i else mret i
  end.

Definition bump_max (m i : Z) : M kernel unit :=
  max ← load64 (m + MAP_MAX);
  if max <? i then store64 (m + MAP_MAX) i else mret tt.

(** [map_insert(map **mp, ...)]: [mp] is the address of the map pointer. *)
Definition map_insert (fuel : nat) (mp : Z) (k v : list Z) : M kernel unit :=
  m ← load64 mp;
  let h := hash k in
  let kn := Z.of_nat (length k) in
  let vn := Z.of_nat (length v) in
  cap ← load64 (m + MAP_CAP);
  i ← insert_probe fuel m cap (h mod cap) (h mod cap);
  kp ← load64 (cell_addr m i + CELL_K);
  if kp =? 0 then
    store64 (cell_addr m i + CELL_H) h ;;
    kp ← FlexAlloc fuel 1 kn;
    store64 (cell_addr m i + CELL_K) kp ;;
    store64 (kp + FLEX_N) kn ;;
    store_bytes (kp + FLEX_ITEM) k ;;
    vp ← FlexAlloc fuel 1 vn;
    store64 (cell_addr m i + CELL_V) vp ;;
    store64 (vp + FLEX_N) vn ;;
    store_bytes (vp + FLEX_ITEM) v ;;
    bump_max m i
  else
  m ← map_grow fuel m (cap + cap / 2);
  cap ← load64 (m + MAP_CAP);
  let idx := h mod cap in
  i ← insert_probe fuel m cap idx idx;
  assert_test (negb (i =? idx)) ;;
  store64 (cell_addr m i + CELL_H) h ;;
  kp ← FlexAlloc fuel 1 kn;
  store64 (cell_addr m i + CELL_K) kp ;;
  store64 (kp + FLEX_N) kn ;;
  store_bytes kp k ;;
  vp ← FlexAlloc fuel 1 vn;
  store64 (cell_addr m i + CELL_V) vp ;;
  store64 (vp + FLEX_N) vn ;;
  store_bytes vp v ;;
  bump_max m i ;;
  store64 mp m.

Definition map_del (fuel : nat) (m : Z) (k : list Z) : M kernel unit :=
  r ← map_find fuel m k;
  match r with
  | None => mret tt
  | Some i =>
      kp ← load64 (cell_addr m i + CELL_K); kfree fuel kp ;;
      v ← load64 (cell_addr m i + CELL_V); kfree fuel v ;;
      store64 (cell_addr m i + CELL_K) 0
  end.

Definition map_set (fuel : nat) (mp : Z) (k v : list Z) : M kernel unit :=
  m ← load64 mp; map_del fuel m k ;; map_insert fuel mp k v.

Definition map_free (fuel : nat) (m : Z) : M kernel unit :=
  max ← load64 (m + MAP_MAX);
  for_range (Z.to_nat (max + 1)) 0 (fun i =>
    kp ← load64 (cell_addr m i + CELL_K);
    if kp =? 0 then mret tt else
    kfree fuel kp ;;
    v ← load64 (cell_addr m i + CELL_V); kfree fuel v) ;;
  kfree fuel m.
