(* ===== verification/Vec.v ===== *)
(** * kernel/vec.c: growable arrays

    A vector is a heap block {c, n, item[]}: the capacity and the length, both in bytes,
    and the items.  [vec_push_fn] takes the address of the vector's pointer; the item is
    passed by value (its bytes). *)
From S2P Require Import Prelude Memory Mem State FreeList PageAlloc PageTheorems Kalloc HashMap.

(** [struct vec_g] *)
Definition VEC_C : Z := 0.
Definition VEC_N : Z := 8.
Definition VEC_ITEM : Z := 16.

(** [sizeof(struct vec_g) + 1.5 * v->c], the argument of [krealloc]: the sum is made in
    [double], exact for the capacities the heap can hold, and truncated. *)
Definition vec_grow_size (c : Z) : Z := w64 (VEC_ITEM + 3 * c / 2).

Definition vec_push_fn (fuel : nat) (vv : Z) (x : list Z) : M kernel unit :=
  let itemsz := Z.of_nat (length x) in
  v ← load64 vv;
  v ← (if v =? 0 then
         v ← kzalloc fuel (add64 VEC_ITEM (mul64 8 itemsz));
         store64 (v + VEC_C) (mul64 8 itemsz) ;;
         store_bytes (v + VEC_ITEM) x ;;
         mret v
       else
         c ← load64 (v + VEC_C);
         n ← load64 (v + VEC_N);
         v ← (if c =? n then krealloc fuel v (vec_grow_size c) else mret v);
         n ← load64 (v + VEC_N);
         store_bytes (v + VEC_ITEM + n) x ;;
         n ← load64 (v + VEC_N);
         store64 (v + VEC_N) (add64 n itemsz) ;;
         mret v);
  store64 vv v.

Definition vec_pop_fn (v itemsz : Z) : M kernel unit :=
  n ← load64 (v + VEC_N); store64 (v + VEC_N) (sub64 n itemsz).

(** ** A vector with room *)

(** The vector at [v] has capacity [c] and holds the bytes [xs]. *)
Record vec_at (m : gmap Z Z) (v c : Z) (xs : list Z) : Prop := {
  va_c : read64 m (v + VEC_C) = Some c;
  va_n : read64 m (v + VEC_N) = Some (Z.of_nat (length xs));
  va_item : read_bytes m (v + VEC_ITEM) (length xs) = Some xs;
}.

Lemma write_bytes_insert m a b c bs : a < c -> write_bytes (<[a := b]> m) c bs = <[a := b]> (write_bytes m c bs).
Proof.
  revert c. induction bs as [|d bs IH]; intros c Hc; simpl; [done|].
  rewrite IH by lia. apply insert_insert_ne. lia.
Qed.

Lemma store_bytes_run (s : kernel) a bs : mapped (k_mem s) a (Z.of_nat (length bs)) ->
  store_bytes a bs s = Done tt (set_mem (write_bytes (k_mem s) a bs) s).
Proof.
  revert s a. induction bs as [|b bs IH]; intros s a Hm; simpl.
  - by rewrite set_mem_same.
  - assert (Hst : store8 a b s = Done tt (set_mem (<[a := b]> (k_mem s)) s)).
    { unfold store8. change (mem_of s) with (k_mem s). destruct (Hm a) as [v ->]; [simpl; lia|done]. }
    rewrite (run_bind _ _ _ _ _ Hst), IH.
    + simpl. by rewrite write_bytes_insert, set_mem_mem by lia.
    + intros x Hx. simpl. rewrite lookup_insert_is_Some'. right. apply Hm. simpl. lia.
Qed.

Section push.
Context (s : kernel) (vv v c : Z) (xs x : list Z).
Context (Hv : vec_at (k_mem s) v c xs) (Hptr : read64 (k_mem s) vv = Some v) (Hv0 : v <> 0).
Context (Hroom : mapped (k_mem s) (v + VEC_ITEM + Z.of_nat (length xs)) (Z.of_nat (length x))).
Context (Hsize : Z.of_nat (length xs) + Z.of_nat (length x) < 2 ^ 64).
Context (Hap : vv + 8 <= v \/ v + VEC_ITEM + Z.of_nat (length xs) + Z.of_nat (length x) <= vv).

Local Abbreviation n := (Z.of_nat (length xs)).
Local Abbreviation k := (Z.of_nat (length x)).

(** The memory after a push that needs no reallocation. *)
Definition pushed : gmap Z Z :=
  write64 (write64 (write_bytes (k_mem s) (v + VEC_ITEM + n) x) (v + VEC_N) (n + k)) vv v.

Lemma pushed_changes : changes (fun a => within (v + VEC_N) 8 a \/ within (v + VEC_ITEM + n) k a \/ within vv 8 a)
  (k_mem s) pushed.
Proof.
  unfold pushed. apply changes_then_write; [apply changes_then_write|]; [|tauto..].
  eapply changes_weaken; [apply changes_write_bytes|]. tauto.
Qed.

Lemma pushed_at : vec_at pushed v c (xs ++ x).
Proof.
  destruct Hv as [Hc Hn Hi]. split.
  - rewrite <- Hc. eapply changes_read64; [apply pushed_changes|].
    unfold within, VEC_C, VEC_N, VEC_ITEM in *. lia.
  - unfold pushed. rewrite read64_write64_ne by (unfold VEC_N, VEC_ITEM in *; lia).
    rewrite length_app, Nat2Z.inj_add. apply read64_write64_eq. lia.
  - assert (Hx : read_bytes pushed (v + VEC_ITEM + n) (length x) = Some x).
    { rewrite <- (read_write_bytes (k_mem s) (v + VEC_ITEM + n) x). apply read_bytes_same. intros a Ha. unfold pushed.
      rewrite !write64_lookup_ne; [done|unfold within, VEC_N, VEC_ITEM in *; lia..]. }
    assert (Hxs : read_bytes pushed (v + VEC_ITEM) (length xs) = Some xs).
    { rewrite <- Hi. apply read_bytes_same. intros a Ha. apply (ch_same _ _ _ pushed_changes).
      unfold within, VEC_N, VEC_ITEM in *. lia. }
    rewrite read_bytes_spec in Hx, Hxs |- *. destruct Hx as [_ Hx], Hxs as [_ Hxs]. split; [done|].
    intros i Hlt. rewrite length_app in Hlt. destruct (decide (i < length xs)%nat) as [Hlo|Hhi].
    + rewrite lookup_app_l by done. by apply Hxs.
    + rewrite lookup_app_r, Hx by lia. f_equal. lia.
Qed.

Lemma push_runs fuel : c <> n -> vec_push_fn fuel vv x s = Done tt (set_mem pushed s).
Proof.
  intros Hcn. destruct Hv as [Hc Hn _]. unfold vec_push_fn. rewrite (run_bind _ _ _ _ _ (kload64 s _ _ Hptr)).
  rewrite (proj2 (Z.eqb_neq v 0)) by done.
  set (m1 := write_bytes (k_mem s) (v + VEC_ITEM + n) x). set (m2 := write64 m1 (v + VEC_N) (n + k)).
  assert (Hn1 : read64 m1 (v + VEC_N) = Some n).
  { rewrite <- Hn. apply read64_same. intros a Ha. unfold m1. rewrite lookup_write_bytes, decide_False; [done|].
    unfold within, VEC_N, VEC_ITEM in *. lia. }
  assert (Hin : (c0 ← load64 (v + VEC_C); n0 ← load64 (v + VEC_N);
    v0 ← (if c0 =? n0 then krealloc fuel v (vec_grow_size c0) else mret v);
    n1 ← load64 (v0 + VEC_N); store_bytes (v0 + VEC_ITEM + n1) x ;;
    n2 ← load64 (v0 + VEC_N); store64 (v0 + VEC_N) (add64 n2 k) ;; mret v0) s = Done v (set_mem m2 s)).
  { rewrite (run_bind _ _ _ _ _ (kload64 s _ _ Hc)), (run_bind _ _ _ _ _ (kload64 s _ _ Hn)).
    rewrite (proj2 (Z.eqb_neq c n)) by done. rewrite (run_bind (mret v) _ s v s eq_refl).
    rewrite (run_bind _ _ _ _ _ (kload64 s _ _ Hn)), (run_bind _ _ _ _ _ (store_bytes_run s _ x Hroom)). fold m1.
    rewrite (run_bind _ _ _ _ _ (kload64 (set_mem m1 s) _ _ Hn1)).
    assert (Hst : store64 (v + VEC_N) (add64 n k) (set_mem m1 s) = Done tt (set_mem m2 s)).
    { rewrite add64_small by lia. apply (kstore64 (set_mem m1 s)). apply read64_is_Some. by eexists. }
    by rewrite (run_bind _ _ _ _ _ Hst). }
  rewrite (run_bind _ _ _ _ _ Hin). apply (kstore64 (set_mem m2 s)). simpl. unfold m2, m1.
  apply write64_mapped, write_bytes_mapped_range, read64_is_Some. by eexists.
Qed.
End push.

Lemma pop_runs (s : kernel) v c xs x : vec_at (k_mem s) v c (xs ++ x) ->
  Z.of_nat (length xs) + Z.of_nat (length x) < 2 ^ 64 ->
  vec_pop_fn v (Z.of_nat (length x)) s = Done tt (set_mem (write64 (k_mem s) (v + VEC_N) (Z.of_nat (length xs))) s) /\
  vec_at (write64 (k_mem s) (v + VEC_N) (Z.of_nat (length xs))) v c xs.
Proof.
  intros [Hc Hn Hi] Hs. rewrite length_app, Nat2Z.inj_add in Hn. split.
  - unfold vec_pop_fn. rewrite (run_bind _ _ _ _ _ (kload64 s _ _ Hn)).
    rewrite sub64_small by lia. replace (Z.of_nat (length xs) + Z.of_nat (length x) - Z.of_nat (length x)) with (Z.of_nat (length xs)) by lia.
    apply kstore64, read64_is_Some. by eexists.
  - split.
    + by rewrite read64_write64_ne by (unfold VEC_N, VEC_C; lia).
    + apply read64_write64_eq. lia.
    + rewrite read_bytes_spec in Hi |- *. destruct Hi as [_ Hi]. split; [done|]. intros i Hlt.
      rewrite write64_lookup_ne by (unfold within, VEC_N, VEC_ITEM; lia).
      rewrite <- Hi by (rewrite length_app; lia). by rewrite lookup_app_l.
Qed.

(** C39. On a vector whose length is not its capacity, and whose block has room for the
    item, [vec_push_fn] appends the item's bytes and [vec_pop_fn] takes them off again,
    leaving the bytes that were there before; nothing is written but the length, the
    item's place and the pointer. *)
Theorem vec_push_pop fuel (s : kernel) vv v c xs x :
  vec_at (k_mem s) v c xs -> read64 (k_mem s) vv = Some v -> 0 < v < 2 ^ 64 -> c <> Z.of_nat (length xs) ->
  mapped (k_mem s) (v + VEC_ITEM + Z.of_nat (length xs)) (Z.of_nat (length x)) ->
  Z.of_nat (length xs) + Z.of_nat (length x) < 2 ^ 64 ->
  vv + 8 <= v \/ v + VEC_ITEM + Z.of_nat (length xs) + Z.of_nat (length x) <= vv ->
  exists m m', vec_push_fn fuel vv x s = Done tt (set_mem m s) /\ vec_at m v c (xs ++ x) /\
    read64 m vv = Some v /\
    vec_pop_fn v (Z.of_nat (length x)) (set_mem m s) = Done tt (set_mem m' s) /\ vec_at m' v c xs /\
    changes (fun a => within (v + VEC_N) 8 a \/ within (v + VEC_ITEM + Z.of_nat (length xs)) (Z.of_nat (length x)) a \/
      within vv 8 a) (k_mem s) m'.
Proof.
  intros Hv Hptr Hv0 Hcn Hroom Hsize Hap. pose proof (pushed_at s vv v c xs x Hv Hsize Hap) as Hat.
  destruct (pop_runs (set_mem (pushed s vv v xs x) s) v c xs x Hat Hsize) as [Hpop Hat'].
  exists (pushed s vv v xs x), (write64 (pushed s vv v xs x) (v + VEC_N) (Z.of_nat (length xs))).
  split; [apply (push_runs s vv v c xs x); (done || lia)|]. split; [exact Hat|].
  split; [apply read64_write64_eq; lia|]. split; [exact Hpop|]. split; [exact Hat'|].
  apply changes_then_write; [by apply pushed_changes|tauto].
Qed.

(** A vector of capacity 8 at 4096 that holds the byte 5. *)
Definition small_vec_mem : gmap Z Z :=
  <[4112 := 5]> (write64 (write64 (write64 (zeros 4096 64 ∅) 4096 8) 4104 1) 4144 4096).
Definition small_vec : kernel :=
  quiet_kernel small_vec_mem (PageAllocGlobals 0 0 false) (CpuGlobals 0 1 0 0) (ProcGlobals 0 false 0 0 false) no_paging.

Lemma vec_push_pop_witness : exists m m',
  vec_push_fn 1 4144 [6; 7] small_vec = Done tt (set_mem m small_vec) /\ vec_at m 4096 8 [5; 6; 7] /\
  read64 m 4144 = Some 4096 /\
  vec_pop_fn 4096 2 (set_mem m small_vec) = Done tt (set_mem m' small_vec) /\ vec_at m' 4096 8 [5] /\
  changes (fun a => within (4096 + VEC_N) 8 a \/ within (4096 + VEC_ITEM + 1) 2 a \/ within 4144 8 a) small_vec_mem m'.
Proof.
  apply (vec_push_pop 1 small_vec 4144 4096 8 [5] [6; 7]).
  - split; vm_compute; reflexivity.
  - vm_compute. reflexivity.
  - lia.
  - simpl. lia.
  - apply (mappedb_spec _ _ 2). vm_compute. reflexivity.
  - simpl. lia.
  - right. unfold VEC_ITEM. simpl. lia.
Defined.

(** ** Runs *)

(** A heap with room, an item at a time pushed on the vector whose pointer is at 32776;
    what the vector's length and its first bytes are afterwards. *)
Definition vec_kernel : kernel :=
  quiet_kernel (zeros 32768 16 (demo_mem 16384)) (PageAllocGlobals 4096 1 false) (CpuGlobals 32768 1 0 0)
    (ProcGlobals 0 false 0 0 false) no_paging.

Definition vec_after (xs : list Z) : option (Z * Z * list Z) :=
  match (p ← kalloc 100 3000; kfree 100 p ;; foldr (fun x m => vec_push_fn 100 32776 [x] ;; m) (mret tt) xs) vec_kernel with
  | Done _ s =>
      v ← read64 (k_mem s) 32776; c ← read64 (k_mem s) (v + VEC_C); n ← read64 (k_mem s) (v + VEC_N);
      bs ← read_bytes (k_mem s) (v + VEC_ITEM) 8; Some (c, n, bs)
  | Stop _ => None
  end.

(** The first item pushed on an empty vector is not counted and the second one
    overwrites it; and the capacity is that of the first push for ever, also after the
    push that makes the vector grow. *)
Theorem vec_first_push_lost :
  vec_after [1] = Some (8, 0, [1; 0; 0; 0; 0; 0; 0; 0]) /\
  vec_after [1; 2] = Some (8, 1, [2; 0; 0; 0; 0; 0; 0; 0]) /\
  vec_after [1; 2; 3; 4; 5; 6; 7; 8; 9; 10] = Some (8, 9, [2; 3; 4; 5; 6; 7; 8; 9]).
Proof. split_and!; vm_compute; reflexivity. Qed.
