(* ===== verification/HashMapTheorems.v ===== *)
(** * The hash map: theorems

    What a lookup of kernel/map.c finds, for which keys its hash is FNV-1a, and the
    runs on which entries are lost. *)
From S2P Require Import Prelude Memory Mem Pow2 State FreeList PageSpec PageAlloc PageRefine PageTheorems Kalloc HashMap.

(** ** The hash *)

(** FNV-1a on bytes. *)
Fixpoint fnv1a_from (h : Z) (c : list Z) : Z :=
  match c with
  | [] => h
  | b :: c' => fnv1a_from ((Z.lxor h b * FNV_PRIME) mod 2 ^ 64) c'
  end.

Definition fnv1a (c : list Z) : Z := fnv1a_from FNV_OFFSET c.

Lemma sext8_small b : 0 <= b < 128 -> sext8 b = b.
Proof. intros Hb. unfold sext8, s8. rewrite Z.mod_small by lia. rewrite w64_small; lia. Qed.

(** On keys all of whose bytes are below 128 the hash is FNV-1a. *)
Theorem hash_is_fnv1a c : Forall (fun b => 0 <= b < 128) c -> hash c = fnv1a c.
Proof.
  unfold hash, fnv1a. generalize FNV_OFFSET. induction c as [|b c IH]; intros h; simpl; [done|].
  intros [Hb Hc]%Forall_cons. rewrite sext8_small by done. by apply IH.
Qed.

Lemma hash_is_fnv1a_witness : hash [104; 101; 108; 108; 111] = fnv1a [104; 101; 108; 108; 111].
Proof. apply hash_is_fnv1a. repeat constructor; lia. Defined.

(** ** Lookups *)

(** The contents of a cell in use. *)
Record cell := Cell { c_hash : Z; c_key : list Z; c_val : Z }.

(** Cell [i] of the map at [m] holds [c]. *)
Definition cell_at (mem : gmap Z Z) (m i : Z) (c : option cell) : Prop :=
  match c with
  | None => read64 mem (cell_addr m i + CELL_K) = Some 0
  | Some c => exists kp,
      kp <> 0 /\
      read64 mem (cell_addr m i + CELL_H) = Some (c_hash c) /\
      read64 mem (cell_addr m i + CELL_K) = Some kp /\
      read64 mem (cell_addr m i + CELL_V) = Some (c_val c) /\
      read64 mem (kp + FLEX_N) = Some (Z.of_nat (length (c_key c))) /\
      read_bytes mem (kp + FLEX_ITEM) (length (c_key c)) = Some (c_key c)
  end.

(** The map at [m] scans the cells [0 .. max] and they hold [cs]. *)
Record map_at (mem : gmap Z Z) (m max cap : Z) (cs : Z -> option cell) : Prop := {
  mp_max : read64 mem (m + MAP_MAX) = Some max;
  mp_cap : read64 mem (m + MAP_CAP) = Some cap;
  mp_range : 0 <= max < cap;
  mp_cells : forall i, 0 <= i <= max -> cell_at mem m i (cs i);
}.

(** The cell holds the key [k]. *)
Definition holds (k : list Z) (c : option cell) : bool :=
  match c with
  | None => false
  | Some c => (c_hash c =? hash k) && bool_decide (c_key c = k)
  end.

Lemma equal_bytes_run (s : kernel) p xs k n :
  read_bytes (k_mem s) p (length xs) = Some xs -> length k = length xs -> (n <= length xs)%nat ->
  equal_bytes n p k s = Done (bool_decide (take n xs = take n k)) s.
Proof.
  intros Hr Hl. induction n as [|n IH]; intros Hn; cbn [equal_bytes]; [done|].
  destruct (lookup_lt_is_Some_2 xs n) as [x Hx]; [lia|].
  destruct (lookup_lt_is_Some_2 k n) as [y Hy]; [lia|].
  assert (Hld : load8 (p + Z.of_nat n) s = Done x s).
  { unfold load8. apply read_bytes_spec in Hr as [_ Hi]. simpl.
    rewrite <- (Hi n) by lia. by rewrite Hx. }
  rewrite (run_bind _ _ _ _ _ Hld). rewrite (nth_lookup_Some _ _ _ _ Hy).
  rewrite (take_S_r _ _ _ Hx), (take_S_r _ _ _ Hy). destruct (Z.eqb_spec x y) as [->|Hne].
  - rewrite IH by lia. f_equal. apply bool_decide_ext. split; [by intros ->|].
    intros H. by apply app_inj_tail in H as [H _].
  - unfold mret, M_ret. f_equal. symmetry. apply bool_decide_eq_false. intros H.
    apply app_inj_tail in H as [_ H]. done.
Qed.

Lemma cell_matches_run (s : kernel) m i k c :
  cell_at (k_mem s) m i c -> cell_matches m i (hash k) k s = Done (holds k c) s.
Proof.
  intros Hc. unfold cell_matches. destruct c as [c|]; simpl in Hc.
  - destruct Hc as (kp & Hkp & Hh & Hk & _ & Hn & Hb).
    rewrite (run_bind _ _ _ _ _ (kload64 s _ _ Hk)), (proj2 (Z.eqb_neq kp 0)) by done.
    rewrite (run_bind _ _ _ _ _ (kload64 s _ _ Hh)). simpl.
    destruct (Z.eqb_spec (c_hash c) (hash k)) as [He|]; [|done]. simpl.
    rewrite (run_bind _ _ _ _ _ (kload64 s _ _ Hn)).
    destruct (Z.eqb_spec (Z.of_nat (length (c_key c))) (Z.of_nat (length k))) as [Hl|Hl]; simpl.
    + apply Nat2Z.inj in Hl. rewrite <- Hl, (equal_bytes_run s _ (c_key c)) by done.
      by rewrite take_ge, take_ge by lia.
    + unfold mret, M_ret. f_equal. symmetry. apply bool_decide_eq_false.
      intros E. apply Hl. f_equal. f_equal. exact E.
  - by rewrite (run_bind _ _ _ _ _ (kload64 s _ _ Hc)).
Qed.

(** [t] steps after [idx] the probe is at cell [(idx + t) mod (max + 1)]; it stops at a
    match or when it is back at [idx]. *)
Lemma map_probe_run (s : kernel) m max cap cs idx k fuel t :
  map_at (k_mem s) m max cap cs -> 0 <= idx <= max -> (t <= Z.to_nat max)%nat ->
  (Z.to_nat max - t < fuel)%nat ->
  (forall u, (1 <= u <= t)%nat -> holds k (cs ((idx + Z.of_nat u) mod (max + 1))) = false) ->
  exists r, map_probe fuel m max (hash k) idx ((idx + Z.of_nat t) mod (max + 1)) k s = Done r s /\
    match r with
    | Some i => 0 <= i <= max /\ holds k (cs i) = true
    | None => forall u, (1 <= u <= S (Z.to_nat max))%nat ->
                holds k (cs ((idx + Z.of_nat u) mod (max + 1))) = false
    end.
Proof.
  intros Hm Hidx. pose proof (mp_range _ _ _ _ _ Hm) as Hr.
  revert t. induction fuel as [|fuel IH]; intros t Ht Hf Hno; [lia|]. cbn [map_probe].
  rewrite Zplus_mod_idemp_l. replace (idx + Z.of_nat t + 1) with (idx + Z.of_nat (S t)) by lia.
  set (i := (idx + Z.of_nat (S t)) mod (max + 1)).
  assert (Hi : 0 <= i <= max) by (unfold i; pose proof (Z.mod_pos_bound (idx + Z.of_nat (S t)) (max + 1)); lia).
  rewrite (run_bind _ _ _ _ _ (cell_matches_run s m i k _ (mp_cells _ _ _ _ _ Hm i Hi))).
  destruct (holds k (cs i)) eqn:Eh; [by exists (Some i)|].
  assert (Hno' : forall u, (1 <= u <= S t)%nat -> holds k (cs ((idx + Z.of_nat u) mod (max + 1))) = false).
  { intros u Hu. destruct (decide (u = S t)) as [->|]; [done|]. apply Hno. lia. }
  destruct (Z.eqb_spec i idx) as [He|He].
  - exists None. split; [done|]. intros u Hu. destruct (decide (u <= S t)%nat); [by apply Hno'; lia|].
    exfalso. unfold i in He. assert (Hlt : Z.of_nat (S t) < max + 1) by lia.
    destruct (decide (idx + Z.of_nat (S t) < max + 1)).
    + rewrite Z.mod_small in He by lia. lia.
    + replace (idx + Z.of_nat (S t)) with (idx + Z.of_nat (S t) - (max + 1) + 1 * (max + 1)) in He by lia.
      rewrite Z_mod_plus_full, Z.mod_small in He by lia. lia.
  - assert (S t <= Z.to_nat max)%nat; [|apply IH; [lia|lia|done]].
    destruct (decide (S t = S (Z.to_nat max))) as [E|]; [|lia].
    exfalso. apply He. unfold i. rewrite E.
    replace (idx + Z.of_nat (S (Z.to_nat max))) with (idx + 1 * (max + 1)) by lia.
    rewrite Z_mod_plus_full, Z.mod_small by lia. done.
Qed.

(** Every cell is visited: each index is some number of steps after [idx]. *)
Lemma probe_covers idx max i : 0 <= idx <= max -> 0 <= i <= max ->
  exists u, (1 <= u <= S (Z.to_nat max))%nat /\ (idx + Z.of_nat u) mod (max + 1) = i.
Proof.
  intros Hidx Hi. destruct (decide (idx < i)).
  - exists (Z.to_nat (i - idx)). split; [lia|]. rewrite Z2Nat.id by lia.
    rewrite Z.mod_small; lia.
  - exists (Z.to_nat (i - idx + (max + 1))). split; [lia|]. rewrite Z2Nat.id by lia.
    replace (idx + (i - idx + (max + 1))) with (i + 1 * (max + 1)) by lia.
    rewrite Z_mod_plus_full, Z.mod_small; lia.
Qed.

(** The search of [map_get] and [map_del]. *)
Lemma map_find_run (s : kernel) m max cap cs k fuel :
  map_at (k_mem s) m max cap cs -> 0 < max -> (Z.to_nat max < fuel)%nat ->
  exists r, map_find fuel m k s = Done r s /\
    match r with
    | Some i => 0 <= i <= max /\ holds k (cs i) = true
    | None => forall i, 0 <= i <= max -> holds k (cs i) = false
    end.
Proof.
  intros Hm Hpos Hf. pose proof (mp_range _ _ _ _ _ Hm) as Hr.
  set (idx := if max <? hash k mod cap then max else hash k mod cap).
  assert (Hidx : 0 <= idx <= max).
  { unfold idx. pose proof (Z.mod_pos_bound (hash k) cap ltac:(lia)).
    destruct (Z.ltb_spec max (hash k mod cap)); lia. }
  destruct (map_probe_run s m max cap cs idx k fuel 0 Hm Hidx) as (r & Hrun & Hres); [lia|lia|lia|].
  rewrite Z.add_0_r, (Z.mod_small idx) in Hrun by lia. exists r. split.
  - unfold map_find.
    rewrite (run_bind _ _ _ _ _ (kload64 s _ _ (mp_cap _ _ _ _ _ Hm))).
    rewrite (run_bind _ _ _ _ _ (kload64 s _ _ (mp_max _ _ _ _ _ Hm))).
    by rewrite (proj2 (Z.eqb_neq max 0)) by lia.
  - destruct r as [i|]; [done|]. intros i Hi.
    destruct (probe_covers idx max i Hidx Hi) as (u & Hu & <-). by apply Hres.
Qed.

(** The whole lookup. *)
Lemma map_get_run (s : kernel) m max cap cs k fuel :
  map_at (k_mem s) m max cap cs -> 0 < max -> (Z.to_nat max < fuel)%nat ->
  exists r, map_get fuel m k s = Done r s /\
    ((exists i c, 0 <= i <= max /\ cs i = Some c /\ c_key c = k /\ c_hash c = hash k /\
        r = c_val c + FLEX_ITEM) \/
     (r = 0 /\ forall i c, 0 <= i <= max -> cs i = Some c -> c_key c = k -> c_hash c <> hash k)).
Proof.
  intros Hm Hpos Hf. destruct (map_find_run s m max cap cs k fuel Hm Hpos Hf) as (r & Hfind & Hres).
  unfold map_get. rewrite (run_bind _ _ _ _ _ Hfind). destruct r as [i|].
  - destruct Hres as [Hi Hh]. pose proof (mp_cells _ _ _ _ _ Hm i Hi) as Hc.
    destruct (cs i) as [c|] eqn:Ec; [|done]. simpl in Hh.
    apply andb_true_iff in Hh as [Hh%Z.eqb_eq Hk%bool_decide_eq_true].
    destruct Hc as (kp & _ & _ & _ & Hv & _).
    rewrite (run_bind _ _ _ _ _ (kload64 s _ _ Hv)). eexists. split; [reflexivity|].
    left. by exists i, c.
  - eexists. split; [reflexivity|]. right. split; [done|]. intros i c Hi Ec Ek Eh. specialize (Hres i Hi).
    rewrite Ec in Hres. simpl in Hres. rewrite Eh, Z.eqb_refl in Hres.
    by rewrite bool_decide_eq_true_2 in Hres.
Qed.

(** A lookup in a map with [max > 0] terminates within [max + 1] probes, changes
    nothing, and is exact: it returns the address of the value of a cell that holds
    the key, or NULL when no cell in [0 .. max] does. *)
Theorem map_get_exact (s : kernel) m max cap cs k fuel :
  map_at (k_mem s) m max cap cs -> 0 < max -> (Z.to_nat max < fuel)%nat ->
  exists r, map_get fuel m k s = Done r s /\
    ((exists i c, 0 <= i <= max /\ cs i = Some c /\ c_key c = k /\ c_hash c = hash k /\
        r = c_val c + FLEX_ITEM) \/
     (r = 0 /\ forall i c, 0 <= i <= max -> cs i = Some c -> c_key c = k -> c_hash c <> hash k)).
Proof. apply map_get_run. Qed.

(** The bytes of a map: its cells up to [max], and the keys they point to. *)
Definition map_bytes (mem : gmap Z Z) (m max : Z) (cs : Z -> option cell) (x : Z) : Prop :=
  within m (MAP_CELL + (max + 1) * CELL_SIZE) x \/
  exists i c kp, 0 <= i <= max /\ cs i = Some c /\ read64 mem (cell_addr m i + CELL_K) = Some kp /\
    within kp (FLEX_ITEM + Z.of_nat (length (c_key c))) x.

Lemma map_at_changes mem mem' m max cap cs W : map_at mem m max cap cs -> changes W mem mem' ->
  (forall x, map_bytes mem m max cs x -> ~ W x) -> map_at mem' m max cap cs.
Proof.
  intros [Hmax Hcap Hr Hc] Hch Hout.
  assert (H64 : forall a, (forall x, within a 8 x -> ~ W x) -> read64 mem' a = read64 mem a).
  { intros a Ha. by eapply changes_read64. }
  assert (Hword : forall o, 0 <= o -> o + 8 <= MAP_CELL + (max + 1) * CELL_SIZE -> read64 mem' (m + o) = read64 mem (m + o)).
  { intros o Ho Hl. apply H64. intros x Hx. apply Hout. left. unfold within in *. lia. }
  split; [| |done|].
  - rewrite Hword; [done|unfold MAP_MAX, MAP_CELL, CELL_SIZE; lia..].
  - rewrite Hword; [done|unfold MAP_CAP, MAP_CELL, CELL_SIZE; lia..].
  - intros i Hi. specialize (Hc i Hi).
    assert (Hcell : forall o, 0 <= o <= 16 -> read64 mem' (cell_addr m i + o) = read64 mem (cell_addr m i + o)).
    { intros o Ho. unfold cell_addr. rewrite <- !Z.add_assoc. apply Hword; unfold MAP_CELL, CELL_SIZE in *; lia. }
    unfold cell_at in *. destruct (cs i) as [c|] eqn:Ec; [|by rewrite Hcell by (unfold CELL_K; lia)].
    destruct Hc as (kp & Hkp & Hh & Hk & Hv & Hn & Hb). exists kp.
    rewrite !Hcell by (unfold CELL_K, CELL_H, CELL_V; lia). split_and!; try done.
    + rewrite H64; [done|]. intros x Hx. apply Hout. right. exists i, c, kp. split_and!; try done; try lia.
      unfold within, FLEX_N, FLEX_ITEM in *. lia.
    + rewrite <- Hb. apply read_bytes_same. intros x Hx. apply (ch_same _ _ _ Hch). apply Hout.
      right. exists i, c, kp. split_and!; try done; try lia. unfold within, FLEX_ITEM in *. lia.
Qed.

(** A map of one entry, in cell 1, with the key [7]. *)
Definition small_map_mem : gmap Z Z :=
  let m := zeros 96 512 ∅ in
  let m := write64 (write64 m (96 + MAP_MAX) 1) (96 + MAP_CAP) 8 in
  let c := cell_addr 96 1 in
  let m := write64 (write64 (write64 m (c + CELL_H) (hash [7])) (c + CELL_K) 400) (c + CELL_V) 500 in
  <[408 := 7]> (write64 m (400 + FLEX_N) 1).

Definition small_map : kernel :=
  quiet_kernel small_map_mem (PageAllocGlobals 0 0 false) (CpuGlobals 0 1 0 0)
    (ProcGlobals 0 false 0 0 false) no_paging.

Definition small_cells (i : Z) : option cell := if i =? 1 then Some (Cell (hash [7]) [7] 500) else None.

Lemma small_map_at : map_at small_map_mem 96 1 8 small_cells.
Proof.
  split; [vm_compute; reflexivity|vm_compute; reflexivity|lia|].
  intros i Hi. assert (i = 0 \/ i = 1) as [->| ->] by lia.
  - vm_compute. reflexivity.
  - exists 400. split; [done|]. split_and!; vm_compute; reflexivity.
Qed.

Lemma map_get_exact_witness :
  exists r, map_get 2 96 [7] small_map = Done r small_map /\
    ((exists i c, 0 <= i <= 1 /\ small_cells i = Some c /\ c_key c = [7] /\ c_hash c = hash [7] /\
        r = c_val c + FLEX_ITEM) \/
     (r = 0 /\ forall i c, 0 <= i <= 1 -> small_cells i = Some c -> c_key c = [7] -> c_hash c <> hash [7])).
Proof.
  apply (map_get_exact small_map 96 1 8 small_cells [7] 2).
  - exact small_map_at.
  - lia.
  - simpl. lia.
Defined.

(** ** Runs *)

Definition demo_map_kernel : kernel :=
  quiet_kernel (zeros 32768 16 (demo_mem 16384)) (PageAllocGlobals 4096 1 false) (CpuGlobals 32768 1 0 0)
    (ProcGlobals 0 false 0 0 false) no_paging.

(** A map of 8 cells whose pointer is kept at 32776, on a heap with room for it. *)
Definition MP : Z := 32776.
Definition new_map : M kernel unit :=
  p ← kalloc 100 3000; kfree 100 p ;;
  m ← map_new 100 8; store64 MP m.

Definition get_key (k : list Z) : M kernel Z := m ← load64 MP; map_get 100 m k.
Definition put_key (k v : list Z) : M kernel unit := map_insert 100 MP k v.

(** An entry that lands in cell 0 of an otherwise empty map cannot be found:
    [max] stays 0, and [map_get] takes 0 to mean empty. *)
Theorem map_cell0_lost :
  value_of ((new_map ;; put_key [0] [42] ;; get_key [0]) demo_map_kernel) = Some 0 /\
  (exists a, value_of ((new_map ;; put_key [0] [42] ;; put_key [1] [43] ;; get_key [0]) demo_map_kernel)
     = Some a /\ a <> 0).
Proof. split; [vm_compute; reflexivity|]. eexists. split; [vm_compute; reflexivity|discriminate]. Qed.

Definition fill_map : M kernel unit :=
  new_map ;; put_key [0] [1] ;; put_key [1] [1] ;; put_key [2] [1] ;; put_key [3] [1] ;;
  put_key [4] [1] ;; put_key [5] [1] ;; put_key [6] [1] ;; put_key [7] [1].

Definition found {A} (m : M kernel A) (k : list Z) : bool :=
  match value_of ((m ;; get_key k) demo_map_kernel) with
  | Some a => negb (a =? 0)
  | None => false
  end.

(** The insertion that makes the map grow loses what it inserts: the key's bytes
    are copied over the length field of its block, so a lookup of the key just
    inserted fails, although the eight earlier keys were all found before. *)
Theorem map_grow_loses_key :
  forallb (fun b => found fill_map [b]) (seqZ 0 8) = true /\
  found (fill_map ;; put_key [9] [1]) [9] = false /\
  (exists a, value_of ((fill_map ;; put_key [9] [1] ;; get_key [9]) demo_map_kernel) = Some a).
Proof.
  split; [vm_compute; reflexivity|]. split; [vm_compute; reflexivity|].
  eexists. vm_compute. reflexivity.
Qed.
