(* ===== verification/MapTable.v ===== *)
(** * The blocks of a hash map

    A hash map of kernel/map.c is a table and, for every cell in use, two blocks with the
    bytes of its key and of its value; each is a block of the kernel heap of its own.
    [table] describes them, with room for one cell that is being written. *)
From S2P Require Import Prelude Memory Mem Pow2 State FreeList PageSpec PageAlloc PageRefine Allocator Kalloc KallocRefine HashMap HashMapTheorems Vec.

(** ** Flexible arrays on the heap *)

(** [Flex(int8_t)] of the bytes [bs] at [p]. *)
Definition flex_at (m : gmap Z Z) (p : Z) (bs : list Z) : Prop :=
  read64 m (p + FLEX_N) = Some (Z.of_nat (length bs)) /\
  read_bytes m (p + FLEX_ITEM) (length bs) = Some bs.

(** The size of its heap block. *)
Definition flex_size (bs : list Z) : Z := align_up (8 + Z.of_nat (length bs)).

(** Small enough that no size overflows. *)
Definition short (bs : list Z) : Prop := Z.of_nat (length bs) <= 2 ^ 40.

Lemma flex_size_bounds bs : short bs -> 8 + Z.of_nat (length bs) <= flex_size bs < 2 ^ 41.
Proof.
  unfold short, flex_size. intros H. destruct (align_up_bounds (8 + Z.of_nat (length bs)) ltac:(lia)) as ([H1 H2] & _).
  unfold ALLOC_ALIGN in *. lia.
Qed.

Lemma flex_at_same m m' p bs : flex_at m p bs -> (forall x, within p (8 + Z.of_nat (length bs)) x -> m' !! x = m !! x) ->
  flex_at m' p bs.
Proof.
  intros [H1 H2] Hs. split.
  - rewrite (read64_same m m'); [done|]. intros x Hx. apply Hs. unfold within, FLEX_N in *. lia.
  - rewrite <- H2. apply read_bytes_same. intros x Hx. apply Hs. unfold within, FLEX_ITEM in *. lia.
Qed.

(** The block kalloc grants, with its bytes cleared. *)
Lemma kzalloc_spec {PA : PageInv} s F sz : heap_inv s F -> 0 <= sz <= 2 ^ 62 ->
  (exists p m G, eventually (fun fuel => kzalloc fuel sz) s (Done p (set_mem m s)) /\
     heap_inv (set_mem m s) G /\ owned (set_mem m s) G p (align_up sz) /\ changes F (k_mem s) m /\
     (forall x, within p sz x -> m !! x = Some 0) /\
     (forall x, G x -> F x) /\ (forall x, within (p - HDRSIZE) (HDRSIZE + align_up sz) x -> F x)) \/
  eventually (fun fuel => kzalloc fuel sz) s (Stop Panic).
Proof.
  intros Hinv Hsz. pose proof (align_up_bounds sz Hsz) as (Hal & _).
  destruct (kalloc_spec s F sz Hinv Hsz) as [(r & m1 & G & Hrun & HG & Hgr & Ha)|Hp].
  2:{ right. by apply (eventually_bind_stop (fun f => kalloc f sz)). }
  set (p := r + HDRSIZE) in *. assert (Ep : p - HDRSIZE = r) by (unfold p; lia). rewrite <- Ep in Ha.
  assert (Hown : owned (set_mem m1 s) G p (align_up sz)) by (eapply granted_owned; [exact Hgr|exact Ha|lia|done]).
  set (m := write_bytes m1 p (replicate (Z.to_nat sz) (w8 0))).
  assert (Hch : changes (within p sz) m1 m).
  { eapply changes_weaken; [apply changes_write_bytes|]. rewrite length_replicate. intros x. unfold within. lia. }
  assert (Hsub : forall x, within p sz x -> within (p - HDRSIZE) (HDRSIZE + align_up sz) x) by (unfold within, HDRSIZE; lia).
  left. exists p, m, G. split_and!.
  - unfold kzalloc. eapply (eventually_bind (fun f => kalloc f sz)); [exact Hrun|].
    pose proof (ow_pos _ _ _ _ Hown) as Hpos. rewrite (proj2 (Z.eqb_neq p 0)) by (unfold HDRSIZE in *; lia). cbn [negb].
    assert (Hset : wp (memset p 0 sz) (fun _ s' => s' = set_mem m s) (set_mem m1 s)).
    { apply wp_memset; [lia| |done]. eapply mapped_sub; [apply Hown|unfold HDRSIZE; lia|unfold HDRSIZE; lia]. }
    apply wp_done in Hset as (a & s' & Hset & ->). apply eventually_const.
    unfold mbind, M_bind. by rewrite Hset.
  - apply (heap_inv_frame (set_mem m1 s) G m _ HG Hch). intros x Hx. by apply (ow_out _ _ _ _ Hown), Hsub.
  - apply (owned_write (set_mem m1 s) G (within p sz) _ _ m Hown Hch). unfold within, HDRSIZE. lia.
  - eapply changes_trans; [apply (gr_mem _ _ _ _ _ _ _ Hgr)|]. eapply changes_weaken; [exact Hch|].
    intros x Hx. by apply (gr_in _ _ _ _ _ _ _ Hgr), Hsub.
  - intros x Hx. unfold m. rewrite lookup_write_bytes, length_replicate. unfold within in Hx.
    rewrite decide_True by lia. apply lookup_replicate_2. lia.
  - intros x Hx. by apply (gr_rest _ _ _ _ _ _ _ Hgr).
  - exact (gr_in _ _ _ _ _ _ _ Hgr).
Qed.

(** [c] is where the pointer goes: the part of [map_insert] it has twice. *)
Definition flex_new (fuel : nat) (c : Z) (bs : list Z) {B} (K : Z -> M kernel B) : M kernel B :=
  p ← FlexAlloc fuel 1 (Z.of_nat (length bs));
  store64 c p ;;
  store64 (p + FLEX_N) (Z.of_nat (length bs)) ;;
  store_bytes (p + FLEX_ITEM) bs ;;
  K p.

(** The words and bytes [flex_new] writes, the cell [c] apart from the block [p]. *)
Definition flex_written (m : gmap Z Z) (c p : Z) (bs : list Z) : gmap Z Z :=
  write_bytes (write64 (write64 m c p) (p + FLEX_N) (Z.of_nat (length bs))) (p + FLEX_ITEM) bs.

Lemma flex_written_changes m c p bs : short bs ->
  exists m2, changes (within c 8) m m2 /\ changes (within p (flex_size bs)) m2 (flex_written m c p bs) /\ m2 = write64 m c p.
Proof.
  intros Hbs. pose proof (flex_size_bounds bs Hbs). exists (write64 m c p). split; [apply changes_write64|]. split; [|done].
  eapply changes_trans; eapply changes_weaken; [apply changes_write64| |apply changes_write_bytes|];
    intros x Hx; unfold within, FLEX_N, FLEX_ITEM in *; lia.
Qed.

Lemma flex_written_at m c p bs : short bs -> 0 <= p < 2 ^ 64 -> (forall x, within c 8 x -> ~ within p (flex_size bs) x) ->
  flex_at (flex_written m c p bs) p bs /\ read64 (flex_written m c p bs) c = Some p.
Proof.
  intros Hbs Hp Hdis. unfold short in Hbs. split; [split|].
  - unfold flex_written. rewrite (read64_same (write64 (write64 m c p) (p + FLEX_N) (Z.of_nat (length bs))));
      [|apply write_bytes_same; unfold within, FLEX_N, FLEX_ITEM; lia].
    apply read64_write64_eq. lia.
  - apply read_write_bytes.
  - destruct (flex_written_changes m c p bs Hbs) as (m2 & _ & Hch & ->).
    rewrite (changes_read64 _ _ _ _ Hch Hdis). by apply read64_write64_eq.
Qed.

Lemma flex_new_spec {PA : PageInv} s F c bs : heap_inv s F -> short bs -> mapped (k_mem s) c 8 -> (forall x, within c 8 x -> ~ F x) ->
  (exists p m G, (forall B (K : nat -> Z -> M kernel B) r, eventually (fun fuel => K fuel p) (set_mem m s) r ->
       eventually (fun fuel => flex_new fuel c bs (K fuel)) s r) /\
     heap_inv (set_mem m s) G /\ owned (set_mem m s) G p (flex_size bs) /\ flex_at m p bs /\ read64 m c = Some p /\
     changes (fun x => F x \/ within c 8 x) (k_mem s) m /\
     (forall x, G x -> F x) /\ (forall x, within (p - HDRSIZE) (HDRSIZE + flex_size bs) x -> F x)) \/
  forall B (K : nat -> Z -> M kernel B), eventually (fun fuel => flex_new fuel c bs (K fuel)) s (Stop Panic).
Proof.
  intros Hinv Hbs Hc HcF. pose proof (flex_size_bounds bs Hbs) as Hsz. pose proof Hbs as Hbs'. unfold short in Hbs'.
  assert (Esz : add64 8 (mul64 1 (Z.of_nat (length bs))) = 8 + Z.of_nat (length bs)).
  { unfold mul64. rewrite Z.mul_1_l, w64_small by lia. apply add64_small. lia. }
  unfold flex_new, FlexAlloc. rewrite Esz.
  destruct (kzalloc_spec s F (8 + Z.of_nat (length bs)) Hinv ltac:(lia)) as [(p & m1 & G & Hrun & HG & Hown & Hch & _ & HGF & HpF)|Hp].
  2:{ right. intros B K. by apply (eventually_bind_stop (fun f => kzalloc f _)). }
  change (align_up (8 + Z.of_nat (length bs))) with (flex_size bs) in *.
  assert (Hin : forall x, within p (flex_size bs) x -> within (p - HDRSIZE) (HDRSIZE + flex_size bs) x) by (unfold within, HDRSIZE; lia).
  assert (Hp1 : mapped m1 p (flex_size bs)) by (eapply mapped_sub; [apply Hown|unfold HDRSIZE; lia|unfold HDRSIZE; lia]).
  pose proof (ow_pos _ _ _ _ Hown) as Hpos. pose proof (ow_end _ _ _ _ Hown) as Hend.
  destruct (flex_written_changes m1 c p bs Hbs) as (m2 & Hch2 & Hch3 & E2). set (m := flex_written m1 c p bs) in *.
  destruct (flex_written_at m1 c p bs Hbs) as [Hat Hcell]; [unfold HDRSIZE in *; lia|intros x Hx Hx'; by apply (HcF x Hx), HpF, Hin|].
  left. exists p, m, G. split_and!; try done.
  - intros B K r HK. eapply (eventually_bind (fun f => kzalloc f _)); [exact Hrun|].
    eapply (eventually_bind (fun f => _)); [apply eventually_const, kstore64; by eapply changes_mapped|].
    eapply (eventually_bind (fun f => _)); [apply eventually_const, kstore64; apply write64_mapped;
      eapply mapped_sub; [exact Hp1|unfold FLEX_N; lia|unfold FLEX_N; lia]|].
    eapply (eventually_bind (fun f => _)); [apply eventually_const, store_bytes_run; do 2 apply write64_mapped;
      eapply mapped_sub; [exact Hp1|unfold FLEX_ITEM; lia|unfold FLEX_ITEM; lia]|]. exact HK.
  - apply (heap_inv_frame (set_mem m1 s) G m (fun x => within c 8 x \/ within p (flex_size bs) x) HG).
    + eapply changes_trans; eapply changes_weaken; [exact Hch2|by left|exact Hch3|by right].
    + intros x [Hx|Hx] HGx; [by apply (HcF x Hx), HGF|]. by apply (ow_out _ _ _ _ Hown x), HGx; apply Hin.
  - apply (owned_write (set_mem m2 s) G (within p (flex_size bs)) _ _ m); [|exact Hch3|unfold within, HDRSIZE; lia].
    apply (owned_write (set_mem m1 s) G (within c 8) _ _ m2 Hown Hch2).
    intros x Hx Hh. apply (HcF x Hx), HpF. pose proof (ow_len _ _ _ _ Hown). unfold within, HDRSIZE in *. lia.
  - eapply changes_trans; [eapply changes_weaken; [exact Hch|by left]|].
    eapply changes_trans; [eapply changes_weaken; [exact Hch2|by right]|].
    eapply changes_weaken; [exact Hch3|]. intros x Hx. left. by apply HpF, Hin.
Qed.

(** ** The table and its blocks *)

(** The contents of a cell in use: its two blocks and what they hold. *)
Record slot := Slot { e_kp : Z; e_vp : Z; e_key : list Z; e_val : list Z }.

Definition slots := Z -> option slot.

(** The cell as [map_at] has it. *)
Definition slot_cell (e : slot) : cell := Cell (hash (e_key e)) (e_key e) (e_vp e).

Inductive part : Set := Table | Key (i : Z) | Val (i : Z).

#[export] Instance part_eq_dec : EqDecision part.
Proof. solve_decision. Defined.

Definition table_size (cap : Z) : Z := align_up (MAP_CELL + CELL_SIZE * cap).

(** A heap block of the map: its address and its size. *)
Definition block_of (m cap : Z) (cs : slots) (p : part) : option (Z * Z) :=
  match p with
  | Table => Some (m, table_size cap)
  | Key i => e ← cs i; Some (e_kp e, flex_size (e_key e))
  | Val i => e ← cs i; Some (e_vp e, flex_size (e_val e))
  end.

(** The bytes of a heap block, header included. *)
Definition block_bytes (b : Z * Z) (x : Z) : Prop := within (b.1 - HDRSIZE) (HDRSIZE + b.2) x.

(** The map's blocks are the map's own: each is a block of the heap, no two share a byte. *)
Record blocks_own (s : kernel) (F : Z -> Prop) (m cap : Z) (cs : slots) : Prop := {
  bo_owned p b : block_of m cap cs p = Some b -> owned s F b.1 b.2;
  bo_apart p q b c x : p <> q -> block_of m cap cs p = Some b -> block_of m cap cs q = Some c ->
    block_bytes b x -> ~ block_bytes c x;
}.

(** The cell at [i]. *)
Definition slot_at (mem : gmap Z Z) (m i : Z) (o : option slot) : Prop :=
  match o with
  | None => read64 mem (cell_addr m i + CELL_K) = Some 0
  | Some e =>
      read64 mem (cell_addr m i + CELL_H) = Some (hash (e_key e)) /\
      read64 mem (cell_addr m i + CELL_K) = Some (e_kp e) /\
      read64 mem (cell_addr m i + CELL_V) = Some (e_vp e) /\
      flex_at mem (e_kp e) (e_key e) /\ flex_at mem (e_vp e) (e_val e) /\
      short (e_key e) /\ short (e_val e)
  end.

#[export] Instance slot_at_dec mem m i o : Decision (slot_at mem m i o).
Proof. unfold slot_at, flex_at, short. destruct o; apply _. Defined.

(** The whole map; the cell [hole] is being written. *)
Record table (s : kernel) (F : Z -> Prop) (m max cap : Z) (cs : slots) (hole : Z) : Prop := {
  tb_max : read64 (k_mem s) (m + MAP_MAX) = Some max;
  tb_cap : read64 (k_mem s) (m + MAP_CAP) = Some cap;
  tb_range : 0 <= max < cap /\ cap <= 2 ^ 40;
  tb_slot i : 0 <= i < cap -> i <> hole -> slot_at (k_mem s) m i (cs i);
  tb_used i e : cs i = Some e -> 0 <= i <= max;
  tb_own : blocks_own s F m cap cs;
  tb_hole : 0 <= hole < cap -> cs hole = None;
}.

Lemma table_size_bounds cap : 0 <= cap <= 2 ^ 40 -> MAP_CELL + CELL_SIZE * cap <= table_size cap < 2 ^ 46.
Proof.
  unfold table_size, MAP_CELL, CELL_SIZE. intros H.
  destruct (align_up_bounds (16 + 24 * cap) ltac:(lia)) as ([H1 H2] & _). lia.
Qed.

Section frame.
Context (s : kernel) (F : Z -> Prop) (m max cap : Z) (cs : slots) (hole : Z).
Context (HT : table s F m max cap cs hole).

Lemma table_owned : owned s F m (table_size cap).
Proof. exact (bo_owned _ _ _ _ _ (tb_own _ _ _ _ _ _ _ HT) Table _ eq_refl). Qed.

Lemma table_bytes x : within m (MAP_CELL + CELL_SIZE * cap) x -> block_bytes (m, table_size cap) x.
Proof.
  pose proof (tb_range _ _ _ _ _ _ _ HT). pose proof (table_size_bounds cap ltac:(lia)).
  unfold block_bytes, within, HDRSIZE in *. simpl. lia.
Qed.

Lemma cell_bytes_in i o x : 0 <= i < cap -> 0 <= o <= 16 -> within (cell_addr m i + o) 8 x ->
  within m (MAP_CELL + CELL_SIZE * cap) x.
Proof. unfold within, cell_addr, MAP_CELL, CELL_SIZE. nia. Qed.

Lemma slot_mapped i o : 0 <= i < cap -> 0 <= o <= 16 -> mapped (k_mem s) (cell_addr m i + o) 8.
Proof.
  intros Hi Ho x Hx. apply (ow_mapped _ _ _ _ table_owned). 
  apply (table_bytes x), (cell_bytes_in i o x Hi Ho Hx).
Qed.

Lemma cell_out i o x : 0 <= i < cap -> 0 <= o <= 16 -> within (cell_addr m i + o) 8 x -> ~ F x.
Proof.
  intros Hi Ho Hx. apply (ow_out _ _ _ _ table_owned). apply (table_bytes x), (cell_bytes_in i o x Hi Ho Hx).
Qed.

Lemma blocks_own_changes (P G : Z -> Prop) m' : changes P (k_mem s) m' ->
  (forall p b x, block_of m cap cs p = Some b -> block_bytes b x -> ~ G x /\ (x < b.1 -> ~ P x)) ->
  blocks_own (set_mem m' s) G m cap cs.
Proof.
  intros Hch HP. destruct (tb_own _ _ _ _ _ _ _ HT) as [Ho Ha]. split; [|exact Ha].
  intros p b Hb. destruct (Ho p b Hb) as [O1 O2 O3 O4 O5 O6 O7]. split; try done.
  - eapply allocated_at_same; [|exact O1]. eapply changes_same_on; [exact Hch|].
    intros x Hx. apply (HP p b x Hb); unfold block_bytes, within, HDRSIZE in *; lia.
  - by eapply changes_mapped.
  - intros x Hx. by apply (HP p b x Hb).
Qed.

(** Nothing of the map changes when its blocks are left alone. *)
Lemma table_changes (P G : Z -> Prop) m' : changes P (k_mem s) m' ->
  (forall p b x, block_of m cap cs p = Some b -> block_bytes b x -> ~ P x /\ ~ G x) ->
  table (set_mem m' s) G m max cap cs hole.
Proof.
  intros Hch HP. destruct HT as [H1 H2 H3 H4 H5 H6 H7].
  assert (Htab : forall a, (forall x, within a 8 x -> within m (MAP_CELL + CELL_SIZE * cap) x) -> read64 m' a = read64 (k_mem s) a).
  { intros a Ha. eapply changes_read64; [exact Hch|]. intros x Hx. apply (HP Table _ x eq_refl), table_bytes, Ha, Hx. }
  split; try done.
  - etrans; [apply Htab|exact H1]. intros x. unfold within, MAP_MAX, MAP_CELL, CELL_SIZE. lia.
  - etrans; [apply Htab|exact H2]. intros x. unfold within, MAP_CAP, MAP_CELL, CELL_SIZE. lia.
  - intros i Hi Hh. specialize (H4 i Hi Hh). unfold slot_at in *. simpl.
    assert (Hc : forall o, 0 <= o <= 16 -> read64 m' (cell_addr m i + o) = read64 (k_mem s) (cell_addr m i + o)).
    { intros o Ho. apply Htab. intros x. by apply cell_bytes_in. }
    destruct (cs i) as [e|] eqn:Ei; [|rewrite Hc; [done|unfold CELL_K; lia]].
    destruct H4 as (Q1 & Q2 & Q3 & Q4 & Q5 & Q6 & Q7).
    assert (Hfl : forall p b bs, block_of m cap cs p = Some b -> b.2 = flex_size bs -> short bs -> flex_at (k_mem s) b.1 bs -> flex_at m' b.1 bs).
    { intros p b bs Hb Eb Hbs Hf. eapply flex_at_same; [exact Hf|]. intros x Hx. apply (ch_same _ _ _ Hch).
      apply (HP p b x Hb). pose proof (flex_size_bounds bs Hbs). unfold block_bytes, within, HDRSIZE in *. lia. }
    rewrite !Hc by (unfold CELL_H, CELL_K, CELL_V; lia). split_and!; try done.
    + apply (Hfl (Key i) (e_kp e, flex_size (e_key e))); [simpl; by rewrite Ei|done..].
    + apply (Hfl (Val i) (e_vp e, flex_size (e_val e))); [simpl; by rewrite Ei|done..].
  - eapply blocks_own_changes; [exact Hch|]. intros p b x Hb Hx. destruct (HP p b x Hb Hx). by split.
Qed.

(** Writes to the heap's bytes and to the table itself leave the other blocks alone, and
    the cells they spare. *)
Lemma table_inner (P G : Z -> Prop) m' : changes P (k_mem s) m' ->
  (forall x, P x -> F x \/ within m (MAP_CELL + CELL_SIZE * cap) x) -> (forall x, G x -> F x) ->
  blocks_own (set_mem m' s) G m cap cs /\
  forall i, 0 <= i < cap -> i <> hole -> (forall x, within (cell_addr m i) CELL_SIZE x -> ~ P x) -> slot_at m' m i (cs i).
Proof.
  intros Hch HP HG. pose proof (tb_own _ _ _ _ _ _ _ HT) as HO.
  assert (HF : forall p b x, block_of m cap cs p = Some b -> block_bytes b x -> ~ F x).
  { intros p b x Hb. apply (ow_out _ _ _ _ (bo_owned _ _ _ _ _ HO p b Hb)). }
  split.
  - eapply blocks_own_changes; [exact Hch|]. intros p b x Hb Hx. split; [by intros HGx; eapply HF, HG|].
    intros Hlt [Hx'|Hx']%HP; [by eapply HF|]. destruct (decide (p = Table)) as [->|Hp].
    + injection Hb as <-. unfold within in Hx'. simpl in Hlt. lia.
    + by apply (bo_apart _ _ _ _ _ HO p Table b _ x Hp Hb eq_refl Hx), table_bytes.
  - intros i Hi Hne Hcell. pose proof (tb_slot _ _ _ _ _ _ _ HT i Hi Hne) as Hs. unfold slot_at in *.
    assert (Hc : forall o, 0 <= o <= 16 -> read64 m' (cell_addr m i + o) = read64 (k_mem s) (cell_addr m i + o)).
    { intros o Ho. eapply changes_read64; [exact Hch|]. intros x Hx. apply Hcell. unfold within, CELL_SIZE in *. lia. }
    destruct (cs i) as [e|] eqn:Ei; [|rewrite Hc; [done|unfold CELL_K; lia]].
    destruct Hs as (Q1 & Q2 & Q3 & Q4 & Q5 & Q6 & Q7).
    assert (Hfl : forall p b bs, p <> Table -> block_of m cap cs p = Some b -> b.2 = flex_size bs -> short bs -> flex_at (k_mem s) b.1 bs -> flex_at m' b.1 bs).
    { intros p b bs Hp Hb Eb Hbs Hf. eapply flex_at_same; [exact Hf|]. intros x Hx. apply (ch_same _ _ _ Hch). intros Hx'.
      pose proof (flex_size_bounds bs Hbs).
      assert (Hbx : block_bytes b x) by (unfold block_bytes, within, HDRSIZE in *; lia).
      apply HP in Hx' as [Hx'|Hx']; [by eapply HF|].
      by apply (bo_apart _ _ _ _ _ HO p Table b _ x Hp Hb eq_refl Hbx), table_bytes. }
    rewrite !Hc by (unfold CELL_H, CELL_K, CELL_V; lia). split_and!; try done.
    + apply (Hfl (Key i) (e_kp e, flex_size (e_key e))); [done|simpl; by rewrite Ei|done..].
    + apply (Hfl (Val i) (e_vp e, flex_size (e_val e))); [done|simpl; by rewrite Ei|done..].
Qed.

(** The cell being written. *)
Lemma table_hole_write (P G : Z -> Prop) m' : 0 <= hole < cap -> changes P (k_mem s) m' ->
  (forall x, P x -> F x \/ within (cell_addr m hole) CELL_SIZE x) -> (forall x, G x -> F x) ->
  table (set_mem m' s) G m max cap cs hole.
Proof.
  intros Hh Hch HP HG. destruct (table_inner _ G m' Hch) as [HO HS]; [|done|].
  { intros x [Hx|Hx]%HP; [by left|right]. unfold within, cell_addr, MAP_CELL, CELL_SIZE in *. nia. }
  assert (Hrd : forall a, (forall x, within a 8 x -> within m (MAP_CELL + CELL_SIZE * cap) x /\ ~ within (cell_addr m hole) CELL_SIZE x) ->
    read64 m' a = read64 (k_mem s) a).
  { intros a Ha. eapply changes_read64; [exact Hch|]. intros x [Hx Hx']%Ha [HF|?]%HP; [|done].
    by apply (ow_out _ _ _ _ table_owned x), HF; apply table_bytes. }
  pose proof HT as [H1 H2 H3 _ H5 _ H7]. split; try done.
  - etrans; [apply Hrd|exact H1]. unfold within, cell_addr, CELL_SIZE, MAP_MAX, MAP_CELL. nia.
  - etrans; [apply Hrd|exact H2]. unfold within, cell_addr, CELL_SIZE, MAP_CAP, MAP_CELL. nia.
  - intros i Hi Hne. apply HS; [done..|]. intros x Hx [HF|Hx']%HP.
    + apply (ow_out _ _ _ _ table_owned x); [|done]. apply table_bytes. unfold within, cell_addr, MAP_CELL, CELL_SIZE in *. nia.
    + unfold within, cell_addr, CELL_SIZE in *. nia.
Qed.

(** The largest used index moves up. *)
Lemma table_bump i : 0 <= i < cap ->
  exists m', bump_max m i s = Done tt (set_mem m' s) /\ table (set_mem m' s) F m (Z.max max i) cap cs hole /\
    changes (within m 8) (k_mem s) m'.
Proof.
  intros Hi. pose proof HT as [H1 H2 [H3 H3'] _ H5 _ H7]. unfold bump_max.
  rewrite (run_bind _ _ _ _ _ (kload64 s _ _ H1)). destruct (Z.ltb_spec max i) as [Hmi|Hmi].
  2:{ exists (k_mem s). rewrite set_mem_same. split; [done|]. by rewrite Z.max_l by lia. }
  rewrite Z.max_r by lia. set (m' := write64 (k_mem s) (m + MAP_MAX) i).
  assert (Hch : changes (within m 8) (k_mem s) m').
  { eapply changes_weaken; [apply changes_write64|]. unfold within, MAP_MAX. lia. }
  exists m'. split; [|split; [|exact Hch]]; [apply kstore64, read64_is_Some; by eexists|].
  destruct (table_inner _ F m' Hch) as [HO HS]; [intros x Hx; right; unfold within, MAP_CELL, CELL_SIZE in *; lia|done|]. split; try done.
  - unfold m'. simpl. apply read64_write64_eq. lia.
  - etrans; [eapply changes_read64; [exact Hch|]|exact H2]. unfold within, MAP_CAP. lia.
  - intros j Hj Hne. apply HS; [done..|]. unfold within, cell_addr, MAP_CELL, CELL_SIZE. nia.
  - intros j e Hj. specialize (H5 j e Hj). lia.
Qed.
End frame.

(** ** Writing a cell *)

Definition update (cs : slots) (i : Z) (o : option slot) : slots := fun j => if decide (j = i) then o else cs j.

Lemma update_eq cs i o : update cs i o i = o.
Proof. unfold update. by rewrite decide_True. Qed.

Lemma update_ne cs i o j : j <> i -> update cs i o j = cs j.
Proof. intros. unfold update. by rewrite decide_False. Qed.

Definition no_hole : Z := -1.

Lemma table_open s F m max cap (cs : slots) i : table s F m max cap cs no_hole -> cs i = None -> table s F m max cap cs i.
Proof. intros [H1 H2 H3 H4 H5 H6 H7] Hi. split; try done. intros j Hj _. apply H4; [done|unfold no_hole; lia]. Qed.

Section fill.
Context (s : kernel) (F : Z -> Prop) (m max cap : Z) (cs : slots) (i : Z) (e : slot).
Context (HT : table s F m max cap cs i) (Hi : 0 <= i <= max) (Hslot : slot_at (k_mem s) m i (Some e)).
Context (Hk : owned s F (e_kp e) (flex_size (e_key e))) (Hv : owned s F (e_vp e) (flex_size (e_val e))).
Context (Hkv : forall x, block_bytes (e_kp e, flex_size (e_key e)) x -> ~ block_bytes (e_vp e, flex_size (e_val e)) x).
Context (Hnew : forall p b x, block_of m cap cs p = Some b -> block_bytes b x ->
  ~ block_bytes (e_kp e, flex_size (e_key e)) x /\ ~ block_bytes (e_vp e, flex_size (e_val e)) x).

Lemma fill_block p b : block_of m cap (update cs i (Some e)) p = Some b ->
  p = Key i /\ b = (e_kp e, flex_size (e_key e)) \/ p = Val i /\ b = (e_vp e, flex_size (e_val e)) \/
  block_of m cap cs p = Some b /\ p <> Key i /\ p <> Val i.
Proof.
  destruct p as [|j|j]; simpl.
  - by right; right.
  - unfold update. destruct (decide (j = i)) as [->|]; simpl; [intros [= <-]; by left|right; right]. by split_and!; [|congruence|].
  - unfold update. destruct (decide (j = i)) as [->|]; simpl; [intros [= <-]; by right; left|right; right]. by split_and!; [| |congruence].
Qed.

Lemma table_fill : table s F m max cap (update cs i (Some e)) no_hole.
Proof.
  destruct HT as [H1 H2 H3 H4 H5 [Ho Ha] H7]. split; try done.
  - intros j Hj _. destruct (decide (j = i)) as [->|Hne]; [by rewrite update_eq|]. rewrite update_ne by done. by apply H4.
  - intros j f. unfold update. destruct (decide (j = i)) as [->|]; [done|apply H5].
  - split.
    + intros p b [[_ ->]|[[_ ->]|[Hb _]]]%fill_block; [exact Hk|exact Hv|by eapply Ho].
    + intros p q b c x Hpq Hb%fill_block Hc%fill_block Hx Hx'.
      destruct Hb as [[-> ->]|[[-> ->]|[Hb _]]], Hc as [[-> ->]|[[-> ->]|[Hc _]]]; try done.
      * by apply (Hkv x).
      * by destruct (Hnew q c x Hc Hx').
      * by apply (Hkv x).
      * by destruct (Hnew q c x Hc Hx').
      * by destruct (Hnew p b x Hb Hx).
      * by destruct (Hnew p b x Hb Hx).
      * by apply (Ha p q b c x).
  - unfold no_hole. lia.
Qed.
End fill.


(** ** Inserting *)

(** The part of [map_insert] that fills the free cell [i]. *)
Definition insert_cell (fuel : nat) (m i : Z) (k v : list Z) : M kernel unit :=
  store64 (cell_addr m i + CELL_H) (hash k) ;;
  flex_new fuel (cell_addr m i + CELL_K) k (fun _ =>
  flex_new fuel (cell_addr m i + CELL_V) v (fun _ => bump_max m i)).

Lemma hash_range c : 0 <= hash c < 2 ^ 64.
Proof.
  unfold hash. assert (H : 0 <= FNV_OFFSET < 2 ^ 64) by (unfold FNV_OFFSET; lia). revert H.
  generalize FNV_OFFSET. induction c as [|b c IH]; intros h Hh; [done|]. simpl. apply IH, w64_range.
Qed.

(** The bytes of the table's block. *)
Definition table_block (m cap : Z) : Z -> Prop := block_bytes (m, table_size cap).

Section insert.
Context {PA : PageInv}.
Context (s : kernel) (F : Z -> Prop) (m max cap : Z) (cs : slots) (i : Z) (k v : list Z).
Context (Hheap : heap_inv s F) (HT : table s F m max cap cs no_hole).
Context (Hi : 0 <= i < cap) (Hfree : cs i = None) (Hk : short k) (Hv : short v).

Local Abbreviation c := (cell_addr m i).

Lemma cell_part o x : 0 <= o <= 16 -> within (c + o) 8 x -> within c CELL_SIZE x.
Proof. unfold within, CELL_SIZE. lia. Qed.

Lemma cell_of_table x : within c CELL_SIZE x -> table_block m cap x.
Proof. intros Hx. apply (table_bytes _ _ _ _ _ _ _ HT). unfold within, cell_addr, MAP_CELL, CELL_SIZE in *. nia. Qed.

Lemma max_in_table x : within m 8 x -> table_block m cap x.
Proof. pose proof (tb_range _ _ _ _ _ _ _ HT). intros Hx. apply (table_bytes _ _ _ _ _ _ _ HT). unfold within, MAP_CELL, CELL_SIZE in *. lia. Qed.

Lemma word_in_table o x : 0 <= o <= 16 -> within (c + o) 8 x -> table_block m cap x /\ ~ within m 8 x.
Proof.
  intros Ho Hx. split; [by apply cell_of_table, (cell_part o)|]. unfold within, cell_addr, MAP_CELL, CELL_SIZE in *. nia.
Qed.

Lemma table_not_heap x : table_block m cap x -> ~ F x.
Proof. apply (ow_out _ _ _ _ (table_owned _ _ _ _ _ _ _ HT)). Qed.

(** The memory after each step: the hash, the key and its pointer, the value and its
    pointer, the largest index. *)
Section parts.
Context (m1 m2 m3 m4 : gmap Z Z) (G G' : Z -> Prop) (kp vp : Z).
Context (Hch1 : changes (within c CELL_SIZE) (k_mem s) m1) (W1 : read64 m1 (c + CELL_H) = Some (hash k)).
Context (Hch2 : changes (fun x => F x \/ within (c + CELL_K) 8 x) m1 m2) (W2 : read64 m2 (c + CELL_K) = Some kp).
Context (Own2 : owned (set_mem m2 s) G kp (flex_size k)) (Fl2 : flex_at m2 kp k).
Context (HGF : forall x, G x -> F x) (HkF : forall x, within (kp - HDRSIZE) (HDRSIZE + flex_size k) x -> F x).
Context (Hch3 : changes (fun x => G x \/ within (c + CELL_V) 8 x) m2 m3) (W3 : read64 m3 (c + CELL_V) = Some vp).
Context (Own3 : owned (set_mem m3 s) G' vp (flex_size v)) (Fl3 : flex_at m3 vp v).
Context (HGG : forall x, G' x -> G x) (HvG : forall x, within (vp - HDRSIZE) (HDRSIZE + flex_size v) x -> G x).
Context (Hch4 : changes (within m 8) m3 m4).

Lemma key_bytes x : block_bytes (kp, flex_size k) x -> F x /\ ~ G x.
Proof. intros Hx. split; [by apply HkF|by apply (ow_out _ _ _ _ Own2)]. Qed.

Lemma val_bytes x : block_bytes (vp, flex_size v) x -> F x /\ G x.
Proof. intros Hx%HvG. split; [by apply HGF|done]. Qed.

Lemma key_owned : owned (set_mem m4 s) G' kp (flex_size k).
Proof.
  eapply (owned_changes (set_mem m3 s) G' G' (within m 8)); [|exact Hch4| |].
  - eapply (owned_changes (set_mem m2 s) G G'); [exact Own2|exact Hch3| |].
    + intros x Hx [HG|Hc]; [by apply key_bytes in Hx as [_ ?]|]. apply (table_not_heap x); [|by apply key_bytes].
      eapply word_in_table; [|exact Hc]. unfold CELL_V. lia.
    + intros x Hx HG. by apply key_bytes in Hx as [_ Hn]; apply Hn, HGG.
  - intros x Hx Hm. by apply (table_not_heap x); [apply max_in_table|apply key_bytes].
  - intros x Hx HG. by apply key_bytes in Hx as [_ Hn]; apply Hn, HGG.
Qed.

Lemma val_owned : owned (set_mem m4 s) G' vp (flex_size v).
Proof.
  eapply (owned_changes (set_mem m3 s) G' G' (within m 8)); [exact Own3|exact Hch4| |apply (ow_out _ _ _ _ Own3)].
  intros x Hx Hm. by apply (table_not_heap x); [apply max_in_table|apply val_bytes].
Qed.

(** The key's bytes after the value's and the index's. *)
Lemma key_kept : flex_at m4 kp k.
Proof.
  pose proof (flex_size_bounds k Hk) as Hks. eapply flex_at_same; [exact Fl2|]. intros x Hx.
  assert (Hb : block_bytes (kp, flex_size k) x) by (unfold block_bytes, within, HDRSIZE in *; simpl; lia).
  apply key_bytes in Hb as [HF HG]. rewrite (ch_same _ _ _ Hch4), (ch_same _ _ _ Hch3); [done| |].
  - intros [?|Hx']; [done|]. apply (table_not_heap x); [|done]. eapply word_in_table; [|exact Hx']. unfold CELL_V. lia.
  - intros Hx'. by apply (table_not_heap x); [apply max_in_table|].
Qed.

Lemma val_kept : flex_at m4 vp v.
Proof.
  pose proof (flex_size_bounds v Hv) as Hvs. eapply flex_at_same; [exact Fl3|]. intros x Hx. apply (ch_same _ _ _ Hch4).
  intros Hx'. apply (table_not_heap x); [by apply max_in_table|]. apply val_bytes. unfold block_bytes, within, HDRSIZE in *; simpl; lia.
Qed.

Lemma slot_filled : slot_at m4 m i (Some (Slot kp vp k v)).
Proof.
  unfold slot_at. simpl.
  assert (R4 : forall o, 0 <= o <= 16 -> read64 m4 (c + o) = read64 m3 (c + o)).
  { intros o Ho. eapply changes_read64; [exact Hch4|]. intros x Hx. by eapply word_in_table. }
  assert (R3 : forall o, o = CELL_H \/ o = CELL_K -> read64 m3 (c + o) = read64 m2 (c + o)).
  { intros o Ho. eapply changes_read64; [exact Hch3|]. intros x Hx [HG|Hx'].
    - apply (table_not_heap x); [|by apply HGF]. eapply word_in_table; [|exact Hx]. unfold CELL_H, CELL_K in Ho. lia.
    - unfold within, CELL_H, CELL_K, CELL_V in *. lia. }
  rewrite !R4 by (unfold CELL_H, CELL_K, CELL_V; lia). rewrite !R3 by tauto. rewrite W2, W3. split_and!; try done; [|exact key_kept|exact val_kept].
  rewrite <- W1. eapply changes_read64; [exact Hch2|]. intros x Hx [HF|Hx'].
  - apply (table_not_heap x); [|done]. eapply word_in_table; [|exact Hx]. unfold CELL_H. lia.
  - unfold within, CELL_H, CELL_K in *. lia.
Qed.

Lemma parts_changes : changes (fun x => F x \/ table_block m cap x) (k_mem s) m4.
Proof.
  eapply changes_trans; [eapply changes_weaken; [exact Hch1|]; intros x Hx; right; by apply cell_of_table|].
  eapply changes_trans; [eapply changes_weaken; [exact Hch2|]|].
  { intros x [Hx|Hx]; [by left|right]. eapply word_in_table; [|exact Hx]. unfold CELL_K. lia. }
  eapply changes_trans; [eapply changes_weaken; [exact Hch3|]|].
  { intros x [Hx|Hx]; [left; by apply HGF|right]. eapply word_in_table; [|exact Hx]. unfold CELL_V. lia. }
  eapply changes_weaken; [exact Hch4|]. intros x Hx. right. by apply max_in_table.
Qed.
End parts.

(** The hash is written. *)
Lemma hash_written : let m1 := write64 (k_mem s) (c + CELL_H) (hash k) in
  store64 (c + CELL_H) (hash k) s = Done tt (set_mem m1 s) /\ changes (within c CELL_SIZE) (k_mem s) m1 /\
  table (set_mem m1 s) F m max cap cs i /\ heap_inv (set_mem m1 s) F.
Proof.
  intros m1. pose proof (table_open _ _ _ _ _ _ i HT Hfree) as T0.
  assert (Hch1 : changes (within c CELL_SIZE) (k_mem s) m1).
  { eapply changes_weaken; [apply changes_write64|]. intros x. apply cell_part. unfold CELL_H. lia. }
  split; [apply kstore64, (slot_mapped _ _ _ _ _ _ _ T0); [done|unfold CELL_H; lia]|]. split; [done|]. split.
  - eapply table_hole_write; [exact T0|exact Hi|exact Hch1|by right|done].
  - apply (heap_inv_frame s F m1 _ Hheap Hch1). intros x Hx. by apply table_not_heap, cell_of_table.
Qed.

Lemma insert_cell_spec :
  (exists m' G e, e_key e = k /\ e_val e = v /\
     eventually (fun fuel => insert_cell fuel m i k v) s (Done tt (set_mem m' s)) /\
     heap_inv (set_mem m' s) G /\ table (set_mem m' s) G m (Z.max max i) cap (update cs i (Some e)) no_hole /\
     changes (fun x => F x \/ table_block m cap x) (k_mem s) m' /\ (forall x, G x -> F x) /\
     (forall x, block_bytes (e_kp e, flex_size k) x \/ block_bytes (e_vp e, flex_size v) x -> F x)) \/
  eventually (fun fuel => insert_cell fuel m i k v) s (Stop Panic).
Proof.
  destruct hash_written as (Hstore & Hch1 & T1 & H1). set (m1 := write64 (k_mem s) (c + CELL_H) (hash k)) in *.
  assert (W1 : read64 m1 (c + CELL_H) = Some (hash k)) by apply read64_write64_eq, hash_range.
  unfold insert_cell.
  (* the key *)
  destruct (flex_new_spec (set_mem m1 s) F (c + CELL_K) k H1 Hk) as [(kp & m2 & G & Hrun2 & H2 & Own2 & Fl2 & W2 & Hch2 & HGF & HkF)|Hp].
  { apply (slot_mapped _ _ _ _ _ _ _ T1); [done|unfold CELL_K; lia]. }
  { intros x. apply (cell_out _ _ _ _ _ _ _ T1); [done|unfold CELL_K; lia]. }
  2:{ right. eapply (eventually_bind (fun f => _)); [apply eventually_const, Hstore|]. apply (Hp _ (fun fuel _ => flex_new fuel _ v _)). }
  simpl in Hch2. change (set_mem m2 (set_mem m1 s)) with (set_mem m2 s) in *.
  assert (T2 : table (set_mem m2 s) G m max cap cs i).
  { eapply (table_hole_write _ _ _ _ _ _ _ T1); [exact Hi|exact Hch2| |exact HGF].
    intros x [Hx|Hx]; [by left|right]. eapply cell_part; [|exact Hx]. unfold CELL_K. lia. }
  (* the value *)
  destruct (flex_new_spec (set_mem m2 s) G (c + CELL_V) v H2 Hv) as [(vp & m3 & G' & Hrun3 & H3 & Own3 & Fl3 & W3 & Hch3 & HGG & HvG)|Hp].
  { apply (slot_mapped _ _ _ _ _ _ _ T2); [done|unfold CELL_V; lia]. }
  { intros x. apply (cell_out _ _ _ _ _ _ _ T2); [done|unfold CELL_V; lia]. }
  2:{ right. eapply (eventually_bind (fun f => _)); [apply eventually_const, Hstore|].
      apply (Hrun2 _ (fun fuel _ => flex_new fuel _ v _)). apply (Hp _ (fun fuel _ => bump_max m i)). }
  simpl in Hch3. change (set_mem m3 (set_mem m2 s)) with (set_mem m3 s) in *.
  assert (T3 : table (set_mem m3 s) G' m max cap cs i).
  { eapply (table_hole_write _ _ _ _ _ _ _ T2); [exact Hi|exact Hch3| |exact HGG].
    intros x [Hx|Hx]; [by left|right]. eapply cell_part; [|exact Hx]. unfold CELL_V. lia. }
  (* the largest index *)
  destruct (table_bump _ _ _ _ _ _ _ T3 i Hi) as (m4 & Hrun4 & T4 & Hch4). simpl in Hch4.
  change (set_mem m4 (set_mem m3 s)) with (set_mem m4 s) in *.
  pose proof (fun x => key_bytes m2 G kp Own2 HkF x) as KF. pose proof (fun x => val_bytes G vp HGF HvG x) as VG.
  left. exists m4, G', (Slot kp vp k v). split_and!; try done.
  - eapply (eventually_bind (fun f => _)); [apply eventually_const, Hstore|].
    apply (Hrun2 _ (fun fuel _ => flex_new fuel _ v _)), (Hrun3 _ (fun fuel _ => bump_max m i)), eventually_const, Hrun4.
  - apply (heap_inv_frame (set_mem m3 s) G' m4 _ H3 Hch4). intros x Hx HG. apply (table_not_heap x); [by apply max_in_table|]. by apply HGF, HGG.
  - apply table_fill; try done; [lia|simpl; eapply slot_filled; eassumption|exact (key_owned m2 m3 m4 G G' kp Own2 HkF Hch3 HGG Hch4)|exact (val_owned m3 m4 G G' vp HGF Own3 HvG Hch4)| |].
    + intros x Hx Hx'. apply KF in Hx as [_ Hx]. by apply Hx, VG.
    + intros p b x Hb Hx. pose proof (ow_out _ _ _ _ (bo_owned _ _ _ _ _ (tb_own _ _ _ _ _ _ _ HT) p b Hb) x Hx) as HF.
      split; intros Hx'; apply HF; [by apply KF|by apply VG].
  - apply (parts_changes m1 m2 m3 m4 G); assumption.
  - intros x Hx. by apply HGF, HGG.
  - intros x [Hx|Hx]; [by apply KF|by apply VG].
Qed.
End insert.
