(* ===== verification/MapRefine.v ===== *)
(** * kernel/map.c against a finite map

    [kvmap] relates a hash map on the heap to a finite map from keys to values and to the
    bytes it owns: [map_get] looks up, [map_insert], [map_set] and [map_del] update as long
    as the table has room, [map_new] and [map_free] take from and give to the heap. *)
From S2P Require Import Prelude Memory Mem Pow2 State FreeList PageSpec PageAlloc PageRefine PageTheorems Allocator Kalloc KallocRefine KallocTheorems HashMap HashMapTheorems Vec MapTable.

(** ** The map as a finite map *)

(** The bytes of the map's blocks. *)
Definition map_owns (m cap : Z) (cs : slots) (x : Z) : Prop :=
  exists p b, block_of m cap cs p = Some b /\ block_bytes b x.

(** The map at [m], with [cap] cells, holds [M] and owns the bytes [B]: every entry of [M]
    is in exactly one cell, and a map that is not empty is not taken for an empty one. *)
Definition kvmap (s : kernel) (F B : Z -> Prop) (m cap : Z) (M : gmap (list Z) (list Z)) : Prop :=
  exists max cs, table s F m max cap cs no_hole /\ (forall x, B x <-> map_owns m cap cs x) /\
    (forall k v, M !! k = Some v <-> exists i e, cs i = Some e /\ e_key e = k /\ e_val e = v) /\
    (forall i j e f, cs i = Some e -> cs j = Some f -> e_key e = e_key f -> i = j) /\
    (M <> ∅ -> 0 < max).

Section kv.
Context (s : kernel) (F : Z -> Prop) (m max cap : Z) (cs : slots).
Context (HT : table s F m max cap cs no_hole).

Lemma table_slot i e : cs i = Some e -> slot_at (k_mem s) m i (Some e) /\ 0 <= i <= max.
Proof.
  intros Hi. pose proof (tb_used _ _ _ _ _ _ _ HT i e Hi). pose proof (tb_range _ _ _ _ _ _ _ HT). split; [|done].
  rewrite <- Hi. apply (tb_slot _ _ _ _ _ _ _ HT); unfold no_hole; lia.
Qed.

Lemma key_block_pos i e : cs i = Some e -> HDRSIZE < e_kp e < 2 ^ 64 /\ HDRSIZE < e_vp e.
Proof.
  intros Hi. pose proof (tb_own _ _ _ _ _ _ _ HT) as HO.
  pose proof (bo_owned _ _ _ _ _ HO (Key i) (e_kp e, flex_size (e_key e)) ltac:(simpl; by rewrite Hi)) as [_ H1 H2 H3 _ _ _].
  pose proof (bo_owned _ _ _ _ _ HO (Val i) (e_vp e, flex_size (e_val e)) ltac:(simpl; by rewrite Hi)) as [_ H4 _ _ _ _ _].
  simpl in *. lia.
Qed.

(** The table is a map as HashMapTheorems.v has it. *)
Lemma table_map_at : map_at (k_mem s) m max cap (fun i => slot_cell <$> cs i).
Proof.
  pose proof (tb_range _ _ _ _ _ _ _ HT) as Hr. split; [apply HT|apply HT|lia|].
  intros i Hi. unfold cell_at. destruct (cs i) as [e|] eqn:Ei; simpl.
  - destruct (table_slot i e Ei) as [(H1 & H2 & H3 & [H4 H5] & _) _]. exists (e_kp e).
    split; [|done]. pose proof (key_block_pos i e Ei). unfold HDRSIZE in *. lia.
  - pose proof (tb_slot _ _ _ _ _ _ _ HT i ltac:(lia) ltac:(unfold no_hole; lia)) as H. by rewrite Ei in H.
Qed.

(** The probe of [map_insert] ends at a free cell, or has seen that there is none. *)
Lemma insert_probe_run idx fuel t : 0 <= idx < cap -> (t < Z.to_nat cap)%nat -> (Z.to_nat cap - t <= fuel)%nat ->
  (forall u, (1 <= u <= t)%nat -> cs ((idx + Z.of_nat u) mod cap) <> None) ->
  exists u, (1 <= u <= Z.to_nat cap)%nat /\
    insert_probe fuel m cap idx ((idx + Z.of_nat t) mod cap) s = Done ((idx + Z.of_nat u) mod cap) s /\
    (forall w, (1 <= w < u)%nat -> cs ((idx + Z.of_nat w) mod cap) <> None) /\
    (cs ((idx + Z.of_nat u) mod cap) = None \/ u = Z.to_nat cap).
Proof.
  intros Hidx. revert t. induction fuel as [|fuel IH]; intros t Ht Hf Hno; [lia|]. cbn [insert_probe].
  rewrite Zplus_mod_idemp_l. replace (idx + Z.of_nat t + 1) with (idx + Z.of_nat (S t)) by lia.
  set (i := (idx + Z.of_nat (S t)) mod cap).
  assert (Hi : 0 <= i < cap) by (apply Z.mod_pos_bound; lia).
  pose proof (tb_slot _ _ _ _ _ _ _ HT i Hi ltac:(unfold no_hole; lia)) as Hs.
  destruct (cs i) as [e|] eqn:Ei; simpl in Hs.
  - destruct Hs as (_ & Hk & _). rewrite (run_bind _ _ _ _ _ (kload64 s _ _ Hk)).
    pose proof (key_block_pos i e Ei) as [Hpos _]. rewrite (proj2 (Z.eqb_neq (e_kp e) 0)) by (unfold HDRSIZE in *; lia). cbn [negb andb].
    assert (Hno' : forall u, (1 <= u <= S t)%nat -> cs ((idx + Z.of_nat u) mod cap) <> None).
    { intros u Hu. destruct (decide (u = S t)) as [->|]; [fold i; by rewrite Ei|]. apply Hno. lia. }
    destruct (Z.eqb_spec i idx) as [He|He]; cbn [negb].
    + exists (S t). split; [lia|]. split; [done|]. split; [intros w Hw; apply Hno'; lia|]. right.
      destruct (decide (S t = Z.to_nat cap)); [done|]. exfalso. unfold i in He.
      destruct (decide (idx + Z.of_nat (S t) < cap)); [rewrite Z.mod_small in He by lia; lia|].
      replace (idx + Z.of_nat (S t)) with (idx + Z.of_nat (S t) - cap + 1 * cap) in He by lia.
      rewrite Z_mod_plus_full, Z.mod_small in He by lia. lia.
    + apply IH; [|lia|done]. destruct (decide (S t = Z.to_nat cap)) as [E|]; [|lia]. exfalso. apply He.
      unfold i. rewrite E. replace (idx + Z.of_nat (Z.to_nat cap)) with (idx + 1 * cap) by lia.
      by rewrite Z_mod_plus_full, Z.mod_small by lia.
  - rewrite (run_bind _ _ _ _ _ (kload64 s _ _ Hs)). cbn [Z.eqb negb andb].
    exists (S t). split; [lia|]. split; [done|]. split; [intros w Hw; apply Hno; lia|by left].
Qed.
End kv.

(** A map with fewer entries than cells has a free cell. *)
Lemma kv_free_cell (s : kernel) (F : Z -> Prop) (m max cap : Z) (cs : slots) (M : gmap (list Z) (list Z)) : table s F m max cap cs no_hole ->
  (forall k v, M !! k = Some v <-> exists i e, cs i = Some e /\ e_key e = k /\ e_val e = v) ->
  (forall i j e f, cs i = Some e -> cs j = Some f -> e_key e = e_key f -> i = j) ->
  Z.of_nat (size M) < cap -> ~ forall i, 0 <= i < cap -> cs i <> None.
Proof.
  intros HT HM Huniq Hsz Hall. set (key i := match cs i with Some e => e_key e | None => [] end).
  set (ks := key <$> seqZ 0 cap).
  assert (Hnd : NoDup ks).
  { apply NoDup_alt. intros a b x Ha Hb. unfold ks in *. rewrite list_lookup_fmap in Ha, Hb.
    destruct (seqZ 0 cap !! a) as [i|] eqn:Ea; [|done]. destruct (seqZ 0 cap !! b) as [j|] eqn:Eb; [|done].
    apply lookup_seqZ in Ea as [-> Ha'], Eb as [-> Hb']. simpl in Ha, Hb. unfold key in *.
    destruct (cs (0 + Z.of_nat a)) as [e|] eqn:E1; [|by apply Hall in E1; [|lia]].
    destruct (cs (0 + Z.of_nat b)) as [f|] eqn:E2; [|by apply Hall in E2; [|lia]].
    pose proof (Huniq _ _ e f E1 E2 ltac:(congruence)). lia. }
  assert (Hsub : (list_to_set ks : gset (list Z)) ⊆ dom M).
  { intros x Hx. apply elem_of_list_to_set, list_elem_of_fmap in Hx as (i & -> & Hi%elem_of_seqZ). unfold key.
    destruct (cs i) as [e|] eqn:Ei; [|by apply Hall in Ei; [|lia]]. apply elem_of_dom. exists (e_val e). apply HM. by exists i, e. }
  apply subseteq_size in Hsub. rewrite size_list_to_set, size_dom in Hsub by done. unfold ks in Hsub.
  rewrite length_fmap, length_seqZ in Hsub. lia.
Qed.

Definition map_growing (fuel : nat) (mp m cap : Z) (k v : list Z) : M kernel unit :=
  m ← map_grow fuel m (cap + cap / 2);
  cap ← load64 (m + MAP_CAP);
  let idx := hash k mod cap in
  i ← insert_probe fuel m cap idx idx;
  assert_test (negb (i =? idx)) ;;
  store64 (cell_addr m i + CELL_H) (hash k) ;;
  kp ← FlexAlloc fuel 1 (Z.of_nat (length k));
  store64 (cell_addr m i + CELL_K) kp ;;
  store64 (kp + FLEX_N) (Z.of_nat (length k)) ;;
  store_bytes kp k ;;
  vp ← FlexAlloc fuel 1 (Z.of_nat (length v));
  store64 (cell_addr m i + CELL_V) vp ;;
  store64 (vp + FLEX_N) (Z.of_nat (length v)) ;;
  store_bytes vp v ;;
  bump_max m i ;;
  store64 mp m.

(** [map_insert] in terms of its two ways to go on. *)
Lemma map_insert_eq fuel mp k v : map_insert fuel mp k v =
  (m ← load64 mp; cap ← load64 (m + MAP_CAP);
   i ← insert_probe fuel m cap (hash k mod cap) (hash k mod cap);
   kp ← load64 (cell_addr m i + CELL_K);
   if kp =? 0 then insert_cell fuel m i k v else map_growing fuel mp m cap k v).
Proof. reflexivity. Qed.

Lemma kv_empty (cs : slots) (M : gmap (list Z) (list Z)) :
  (forall k v, M !! k = Some v <-> exists i e, cs i = Some e /\ e_key e = k /\ e_val e = v) ->
  M = ∅ -> forall i, cs i = None.
Proof.
  intros HM -> i. destruct (cs i) as [e|] eqn:Ei; [|done].
  assert (H : (∅ : gmap (list Z) (list Z)) !! e_key e = Some (e_val e)) by (apply HM; by exists i, e).
  by rewrite lookup_empty in H.
Qed.

Lemma kv_insert (cs : slots) (M : gmap (list Z) (list Z)) i e : cs i = None -> M !! e_key e = None ->
  (forall k v, M !! k = Some v <-> exists i e, cs i = Some e /\ e_key e = k /\ e_val e = v) ->
  (forall i j e f, cs i = Some e -> cs j = Some f -> e_key e = e_key f -> i = j) ->
  (forall k v, <[e_key e := e_val e]> M !! k = Some v <->
     exists j f, update cs i (Some e) j = Some f /\ e_key f = k /\ e_val f = v) /\
  (forall j j' f f', update cs i (Some e) j = Some f -> update cs i (Some e) j' = Some f' -> e_key f = e_key f' -> j = j').
Proof.
  intros Hi Hk HM Huniq.
  assert (Hother : forall j f, update cs i (Some e) j = Some f -> j = i /\ f = e \/ j <> i /\ cs j = Some f /\ e_key f <> e_key e).
  { intros j f. unfold update. destruct (decide (j = i)) as [->|Hne]; [intros [= ->]; by left|].
    intros Hj. right. split_and!; [done..|]. intros E. 
    assert (M !! e_key e = Some (e_val f)) by (apply HM; by exists j, f). congruence. }
  split.
  - intros k v. rewrite lookup_insert_Some, HM. split.
    + intros [[<- <-]|[Hne (j & f & Hj & <- & <-)]]; [exists i, e; by rewrite update_eq|].
      exists j, f. rewrite update_ne; [done|]. intros ->. congruence.
    + intros (j & f & [[-> ->]|(Hne & Hj & Hkf)]%Hother & <- & <-); [by left|right]. split; [by intros E; apply Hkf|].
      by exists j, f.
  - intros j j' f f' [[-> ->]|(? & Hj & Hf)]%Hother [[-> ->]|(? & Hj' & Hf')]%Hother E; try done; try congruence. by apply (Huniq j j' f f').
Qed.

(** The cell that [map_insert] fills: the first free one after the key's own. *)
Lemma map_insert_target (s : kernel) (F : Z -> Prop) (m max cap : Z) (cs : slots) (M : gmap (list Z) (list Z)) (mp : Z) (k v : list Z) : table s F m max cap cs no_hole ->
  (forall k v, M !! k = Some v <-> exists i e, cs i = Some e /\ e_key e = k /\ e_val e = v) ->
  (forall i j e f, cs i = Some e -> cs j = Some f -> e_key e = e_key f -> i = j) ->
  read64 (k_mem s) mp = Some m -> Z.of_nat (size M) < cap ->
  let idx := hash k mod cap in exists u, (1 <= u <= Z.to_nat cap)%nat /\ let i := (idx + Z.of_nat u) mod cap in
    (forall w, (1 <= w < u)%nat -> cs ((idx + Z.of_nat w) mod cap) <> None) /\ cs i = None /\
    forall r, eventually (fun fuel => insert_cell fuel m i k v) s r -> eventually (fun fuel => map_insert fuel mp k v) s r.
Proof.
  intros HT HM Huniq Hmp Hsz.
  pose proof (tb_range _ _ _ _ _ _ _ HT) as Hr. intros idx.
  assert (Hidx : 0 <= idx < cap) by (apply Z.mod_pos_bound; lia).
  assert (Hprobe : forall fuel, (Z.to_nat cap <= fuel)%nat -> exists u, (1 <= u <= Z.to_nat cap)%nat /\
    insert_probe fuel m cap idx idx s = Done ((idx + Z.of_nat u) mod cap) s /\
    (forall w, (1 <= w < u)%nat -> cs ((idx + Z.of_nat w) mod cap) <> None) /\ cs ((idx + Z.of_nat u) mod cap) = None).
  { intros fuel Hf. destruct (insert_probe_run _ _ _ _ _ _ HT idx fuel 0 Hidx) as (u & Hu & Hrun & Hbefore & Hend); [lia..|].
    rewrite Z.add_0_r, (Z.mod_small idx) in Hrun by lia. exists u. split; [done|]. split; [done|]. split; [done|].
    destruct Hend as [Hend|E]; [done|]. destruct (cs ((idx + Z.of_nat u) mod cap)) as [e|] eqn:Eu; [|done]. exfalso.
    apply (kv_free_cell _ _ _ _ _ _ _ HT HM Huniq Hsz). intros j Hj.
    destruct (probe_covers idx (cap - 1) j ltac:(lia) ltac:(lia)) as (w & Hw & Ew). replace (cap - 1 + 1) with cap in Ew by lia.
    destruct (decide (w = u)) as [->|]; [rewrite <- Ew; congruence|]. rewrite <- Ew. apply Hbefore. lia. }
  destruct (Hprobe (Z.to_nat cap) (Nat.le_refl _)) as (u & Hu & _ & Hbefore & Hfree).
  exists u. split; [done|]. intros i. fold i in Hfree. assert (Hi : 0 <= i < cap) by (apply Z.mod_pos_bound; lia). split; [done|]. split; [done|].
  intros r [N HN]. exists (N + Z.to_nat cap)%nat. intros fuel Hf. rewrite map_insert_eq.
    rewrite (run_bind _ _ _ _ _ (kload64 s _ _ Hmp)), (run_bind _ _ _ _ _ (kload64 s _ _ (tb_cap _ _ _ _ _ _ _ HT))). fold idx.
    destruct (Hprobe fuel ltac:(lia)) as (u' & Hu' & Hrun & Hbefore' & Hfree').
    assert (u' = u) as ->.
    { destruct (decide (u' < u)%nat); [by destruct (Hbefore u'); [lia|]|].
      destruct (decide (u < u')%nat); [by destruct (Hbefore' u); [lia|]|lia]. }
    rewrite (run_bind _ _ _ _ _ Hrun). fold i.
    pose proof (tb_slot _ _ _ _ _ _ _ HT i Hi ltac:(unfold no_hole; lia)) as Hs. rewrite Hfree in Hs.
    rewrite (run_bind _ _ _ _ _ (kload64 s _ _ Hs)). apply HN. lia.
Qed.

(** What [map_insert] does to the finite map. *)
Lemma map_insert_run {PA : PageInv} s F B mp m cap M k v :
  heap_inv s F -> kvmap s F B m cap M -> read64 (k_mem s) mp = Some m -> short k -> short v ->
  M !! k = None -> Z.of_nat (size M) < cap -> (M = ∅ -> hash k mod cap <> cap - 1) ->
  (exists m' G B', eventually (fun fuel => map_insert fuel mp k v) s (Done tt (set_mem m' s)) /\
     heap_inv (set_mem m' s) G /\ kvmap (set_mem m' s) G B' m cap (<[k := v]> M) /\
     changes (fun x => F x \/ B x) (k_mem s) m' /\
     (forall x, G x -> F x) /\ (forall x, B' x -> F x \/ B x)) \/
  eventually (fun fuel => map_insert fuel mp k v) s (Stop Panic).
Proof.
  intros Hheap (max & cs & HT & HB & HM & Huniq & Hmax) Hmp Hk Hv Hnew Hsz Hcell0.
  pose proof (tb_range _ _ _ _ _ _ _ HT) as Hr. set (idx := hash k mod cap) in *.
  destruct (map_insert_target s F m max cap cs M mp k v HT HM Huniq Hmp Hsz) as (u & Hu & Hbefore & Hfree & Hstart). fold idx in Hbefore, Hfree, Hstart.
  assert (Hidx : 0 <= idx < cap) by (apply Z.mod_pos_bound; lia).
  set (i := (idx + Z.of_nat u) mod cap) in *. assert (Hi : 0 <= i < cap) by (apply Z.mod_pos_bound; lia).
  destruct (insert_cell_spec s F m max cap cs i k v Hheap HT Hi Hfree Hk Hv)
    as [(m' & G & e & <- & <- & Hrun & HG & HT' & Hch & HGF & HeF)|Hp]; [left|right; by apply Hstart].
  exists m', G, (map_owns m cap (update cs i (Some e))). split_and!; [by apply Hstart|done| | |done|].
  2:{ eapply changes_weaken; [exact Hch|]. intros x [Hx|Hx]; [by left|right]. apply HB. by exists Table, (m, table_size cap). }
  2:{ intros x (p & b & [[_ ->]|[[_ ->]|[Hb _]]]%fill_block & Hx); [left; apply HeF; by left|left; apply HeF; by right|right].
      apply HB. by exists p, b. }
  destruct (kv_insert cs M i e Hfree Hnew HM Huniq) as [HM' Hu'].
  exists (Z.max max i), (update cs i (Some e)). split_and!; [done..|]. intros _.
  destruct (decide (M = ∅)) as [->|Hne]; [|specialize (Hmax Hne); lia].
  pose proof (kv_empty cs ∅ HM eq_refl) as Hall.
  assert (u = 1%nat) as E.
  { destruct (decide (u = 1%nat)); [done|]. by destruct (Hbefore 1%nat); [lia|]. }
  specialize (Hcell0 eq_refl). fold idx in Hcell0. unfold i. rewrite E, Z.mod_small by lia. lia.
Qed.

(** C23. [map_insert] of a key the map does not hold adds the entry, as long as a cell is
    free, and writes nothing but the heap's bytes and the table; it fails only by the
    heap's panic.  (In a map without entries the key must not land in cell 0, where
    lookups do not find it.) *)
Theorem map_insert_refines s F B mp m cap M k v :
  heap_inv s F -> kvmap s F B m cap M -> read64 (k_mem s) mp = Some m -> short k -> short v ->
  M !! k = None -> Z.of_nat (size M) < cap -> (M = ∅ -> hash k mod cap <> cap - 1) ->
  (exists m' G B', eventually (fun fuel => map_insert fuel mp k v) s (Done tt (set_mem m' s)) /\
     heap_inv (set_mem m' s) G /\ kvmap (set_mem m' s) G B' m cap (<[k := v]> M) /\
     changes (fun x => F x \/ B x) (k_mem s) m' /\
     (forall x, G x -> F x) /\ (forall x, B' x -> F x \/ B x)) \/
  eventually (fun fuel => map_insert fuel mp k v) s (Stop Panic).
Proof. intros. eapply map_insert_run; eassumption. Qed.

(** ** Looking up and deleting *)

(** The index of a key's cell. *)
Lemma kv_find (s : kernel) (F : Z -> Prop) (m cap max : Z) (cs : slots) (M : gmap (list Z) (list Z)) (k : list Z) : table s F m max cap cs no_hole ->
  (forall k v, M !! k = Some v <-> exists i e, cs i = Some e /\ e_key e = k /\ e_val e = v) ->
  (M <> ∅ -> 0 < max) ->
  match M !! k with
  | Some v => exists i e, cs i = Some e /\ e_key e = k /\ e_val e = v /\
      forall fuel, (Z.to_nat cap <= fuel)%nat -> exists j, map_find fuel m k s = Done (Some j) s /\
        exists f, cs j = Some f /\ e_key f = k
  | None => forall fuel, (Z.to_nat cap <= fuel)%nat -> map_find fuel m k s = Done None s
  end.
Proof.
  intros HT HM Hmax. pose proof (tb_range _ _ _ _ _ _ _ HT) as Hr. pose proof (table_map_at _ _ _ _ _ _ HT) as Hat.
  assert (Hrun : 0 < max -> forall fuel, (Z.to_nat cap <= fuel)%nat -> exists r, map_find fuel m k s = Done r s /\
    match r with
    | Some i => exists f, cs i = Some f /\ e_key f = k
    | None => forall i e, cs i = Some e -> e_key e <> k
    end).
  { intros Hpos fuel Hf. destruct (map_find_run s m max cap _ k fuel Hat Hpos ltac:(lia)) as (r & Hrun & Hres).
    exists r. split; [done|]. destruct r as [i|].
    - destruct Hres as [_ Hh]. destruct (cs i) as [f|]; [|done]. simpl in Hh.
      apply andb_true_iff in Hh as [_ Hk%bool_decide_eq_true]. by exists f.
    - intros i e Hi Hk. pose proof (table_slot _ _ _ _ _ _ HT i e Hi) as [_ Hb]. specialize (Hres i Hb).
      rewrite Hi in Hres. simpl in Hres. rewrite Hk, Z.eqb_refl, bool_decide_eq_true_2 in Hres; done. }
  destruct (M !! k) as [v|] eqn:Ek.
  - pose proof Ek as (i & e & Hi & Hke & Hve)%HM. exists i, e. split_and!; [done..|]. intros fuel Hf.
    destruct (Hrun ltac:(apply Hmax; intros ->; by rewrite lookup_empty in Ek) fuel Hf) as ([j|] & Hj & Hres); [|by destruct (Hres i e)].
    by exists j.
  - intros fuel Hf. destruct (decide (0 < max)) as [Hpos|Hpos].
    + destruct (Hrun Hpos fuel Hf) as ([j|] & Hj & Hres); [|done]. destruct Hres as (f & Hf' & <-).
      assert (M !! e_key f = Some (e_val f)) by (apply HM; by exists j, f). congruence.
    + unfold map_find. rewrite (run_bind _ _ _ _ _ (kload64 s _ _ (tb_cap _ _ _ _ _ _ _ HT))).
      rewrite (run_bind _ _ _ _ _ (kload64 s _ _ (tb_max _ _ _ _ _ _ _ HT))). by rewrite (proj2 (Z.eqb_eq max 0)) by lia.
Qed.

Lemma map_get_finds s F B m cap M k :
  kvmap s F B m cap M ->
  exists r, (forall fuel, (Z.to_nat cap <= fuel)%nat -> map_get fuel m k s = Done r s) /\
    match M !! k with
    | Some v => r <> 0 /\ read_bytes (k_mem s) r (length v) = Some v
    | None => r = 0
    end.
Proof.
  intros (max & cs & HT & _ & HM & Huniq & Hmax). pose proof (kv_find _ _ _ _ _ _ _ k HT HM Hmax) as Hfind.
  destruct (M !! k) as [v|] eqn:Ek.
  - destruct Hfind as (i & e & Hi & Hke & Hve & Hfind). exists (e_vp e + FLEX_ITEM).
    pose proof (key_block_pos _ _ _ _ _ _ HT i e Hi) as [_ Hpos].
    destruct (table_slot _ _ _ _ _ _ HT i e Hi) as [(_ & _ & Hv & _ & [_ Hb] & _) _]. split.
    + intros fuel Hf. destruct (Hfind fuel Hf) as (j & Hj & f & Hcf & Hkf).
      assert (j = i) as -> by (apply (Huniq j i f e); congruence).
      unfold map_get. rewrite (run_bind _ _ _ _ _ Hj). by rewrite (run_bind _ _ _ _ _ (kload64 s _ _ Hv)).
    + split; [unfold FLEX_ITEM, HDRSIZE in *; lia|]. by rewrite <- Hve.
  - exists 0. split; [|done]. intros fuel Hf. unfold map_get. by rewrite (run_bind _ _ _ _ _ (Hfind fuel Hf)).
Qed.

(** C24. [map_get] is the lookup of the finite map: it returns a pointer to a copy of the
    value's bytes, or NULL for a key the map does not hold, and changes nothing. *)
Theorem map_get_refines s F B m cap M k :
  kvmap s F B m cap M ->
  exists r, (forall fuel, (Z.to_nat cap <= fuel)%nat -> map_get fuel m k s = Done r s) /\
    match M !! k with
    | Some v => r <> 0 /\ read_bytes (k_mem s) r (length v) = Some v
    | None => r = 0
    end.
Proof. apply map_get_finds. Qed.

Lemma update_None_Some cs i j e : update cs i None j = Some e -> j <> i /\ cs j = Some e.
Proof. unfold update. by destruct (decide (j = i)). Qed.

Lemma block_of_del m cap cs i p b : block_of m cap (update cs i None) p = Some b ->
  block_of m cap cs p = Some b /\ p <> Key i /\ p <> Val i.
Proof.
  destruct p as [|j|j]; simpl; [done|..]; unfold update; (destruct (decide (j = i)) as [->|]; [done|]);
    intros H; (split; [done|split; congruence]).
Qed.

(** The cell [i] is emptied... *)
Lemma table_clear s F m max cap cs i : table s F m max cap cs no_hole -> table s F m max cap (update cs i None) i.
Proof.
  intros [H1 H2 H3 H4 H5 [Ho Ha] H7]. split; try done.
  - intros j Hj Hne. rewrite update_ne by done. apply H4; [done|unfold no_hole; lia].
  - intros j e [_ Hj]%update_None_Some. by eapply H5.
  - split.
    + intros p b [Hb _]%block_of_del. by eapply Ho.
    + intros p q b c x Hpq [Hb _]%block_of_del [Hc _]%block_of_del. by apply (Ha p q).
  - intros _. apply update_eq.
Qed.

(** ... and described again. *)
Lemma table_close s F m max cap cs i : table s F m max cap cs i -> 0 <= i < cap ->
  read64 (k_mem s) (cell_addr m i + CELL_K) = Some 0 -> table s F m max cap cs no_hole.
Proof.
  intros [H1 H2 H3 H4 H5 H6 H7] Hi Hk. split; try done.
  - intros j Hj _. destruct (decide (j = i)) as [->|Hne]; [|by apply H4]. by rewrite H7.
  - unfold no_hole. lia.
Qed.

(** [kfree] of a block the caller owns. *)
Lemma kfree_owned s F r n : heap_inv s F -> owned s F r n ->
  exists m, eventually (fun fuel => kfree fuel r) s (Done tt (set_mem m s)) /\
    heap_inv (set_mem m s) (fun x => F x \/ block_bytes (r, n) x) /\
    changes (fun x => F x \/ block_bytes (r, n) x) (k_mem s) m.
Proof. intros Hinv []. by apply kfree_spec. Qed.

(** The two blocks of a cell go back to the heap. *)
Definition free_slot (fuel : nat) (m i : Z) : M kernel unit :=
  kp ← load64 (cell_addr m i + CELL_K); kfree fuel kp ;;
  v ← load64 (cell_addr m i + CELL_V); kfree fuel v.

Lemma free_slot_bind {B} fuel m i (K : M kernel B) s :
  (kp ← load64 (cell_addr m i + CELL_K); kfree fuel kp ;;
   v ← load64 (cell_addr m i + CELL_V); kfree fuel v ;; K) s = (free_slot fuel m i ;; K) s.
Proof.
  unfold free_slot, mbind, M_bind. destruct (load64 _ s) as [kp s1|]; [|done]. destruct (kfree fuel kp s1) as [? s2|]; [|done].
  by destruct (load64 _ s2).
Qed.

Section free.
Context (s : kernel) (F : Z -> Prop) (m cap : Z) (cs : slots) (i : Z) (e : slot).
Context (Hheap : heap_inv s F) (HO : blocks_own s F m cap cs) (Hi : cs i = Some e).
Context (HK : read64 (k_mem s) (cell_addr m i + CELL_K) = Some (e_kp e)).
Context (HV : read64 (k_mem s) (cell_addr m i + CELL_V) = Some (e_vp e)).
Context (Hcell : forall x, within (cell_addr m i + CELL_V) 8 x -> table_block m cap x).

Local Abbreviation kb := (e_kp e, flex_size (e_key e)).
Local Abbreviation vb := (e_vp e, flex_size (e_val e)).

Lemma other_apart p b x : block_of m cap (update cs i None) p = Some b -> block_bytes b x ->
  ~ F x /\ ~ block_bytes kb x /\ ~ block_bytes vb x.
Proof.
  destruct HO as [Ho Ha]. intros (Hp & Hpk & Hpv)%block_of_del Hx. split_and!.
  - by apply (ow_out _ _ _ _ (Ho p b Hp)).
  - apply (Ha p (Key i) b kb x); [done|done|by simpl; rewrite Hi|done].
  - apply (Ha p (Val i) b vb x); [done|done|by simpl; rewrite Hi|done].
Qed.

Lemma free_slot_spec : exists m' G, eventually (fun fuel => free_slot fuel m i) s (Done tt (set_mem m' s)) /\
  heap_inv (set_mem m' s) G /\ blocks_own (set_mem m' s) G m cap (update cs i None) /\
  (forall x, G x <-> F x \/ block_bytes kb x \/ block_bytes vb x) /\ changes G (k_mem s) m'.
Proof.
  pose proof HO as [Ho Ha].
  assert (Bk : block_of m cap cs (Key i) = Some kb) by (simpl; by rewrite Hi).
  assert (Bv : block_of m cap cs (Val i) = Some vb) by (simpl; by rewrite Hi).
  pose proof (Ho _ _ Bk) as Ok. pose proof (Ho _ _ Bv) as Ov. simpl in Ok, Ov.
  destruct (kfree_owned s F _ _ Hheap Ok) as (m1 & Hrun1 & H1 & Hch1).
  set (F1 := fun x => F x \/ block_bytes kb x) in *.
  assert (Ov1 : owned (set_mem m1 s) F1 (e_vp e) (flex_size (e_val e))).
  { eapply owned_changes; [exact Ov|exact Hch1| |]; intros x Hx [HF|Hx'];
      [by apply (ow_out _ _ _ _ Ov x)|by apply (Ha (Key i) (Val i) kb vb x)|by apply (ow_out _ _ _ _ Ov x)|by apply (Ha (Key i) (Val i) kb vb x)]. }
  destruct (kfree_owned (set_mem m1 s) F1 _ _ H1 Ov1) as (m2 & Hrun2 & H2 & Hch2). simpl in Hch2.
  set (F2 := fun x => F1 x \/ block_bytes vb x) in *. change (set_mem m2 (set_mem m1 s)) with (set_mem m2 s) in *.
  assert (Hch : changes F2 (k_mem s) m2).
  { eapply changes_trans; [eapply changes_weaken; [exact Hch1|unfold F2; tauto]|exact Hch2]. }
  exists m2, F2. split_and!; [|done| |unfold F2, F1; tauto|done].
  - eapply (eventually_bind (fun f => _)); [by apply eventually_const, kload64|].
    eapply (eventually_bind (fun f => kfree f _)); [exact Hrun1|].
    eapply (eventually_bind (fun f => _)); [apply eventually_const, kload64|exact Hrun2].
    rewrite <- HV. eapply changes_read64; [exact Hch1|]. intros x Hx%Hcell.
    destruct (other_apart Table _ x eq_refl Hx) as (? & ? & ?). unfold F1. tauto.
  - split.
    + intros p b Hp. pose proof Hp as [Hp' _]%block_of_del.
      eapply owned_changes; [exact (Ho p b Hp')|exact Hch| |]; intros x Hx; destruct (other_apart p b x Hp Hx) as (? & ? & ?); unfold F2, F1; tauto.
    + intros p q b c x Hpq [Hp _]%block_of_del [Hq _]%block_of_del. by apply (Ha p q).
Qed.
End free.

Section del.
Context (s : kernel) (F : Z -> Prop) (m max cap : Z) (cs : slots) (i : Z) (e : slot).
Context (Hheap : heap_inv s F) (HT : table s F m max cap cs no_hole) (Hi : cs i = Some e).

Local Abbreviation kb := (e_kp e, flex_size (e_key e)).
Local Abbreviation vb := (e_vp e, flex_size (e_val e)).

Lemma cell_in_table o x : 0 <= i < cap -> 0 <= o <= 16 -> within (cell_addr m i + o) 8 x -> table_block m cap x.
Proof. intros Hic Ho Hx. apply (table_bytes _ _ _ _ _ _ _ HT). by apply (cell_bytes_in m cap i o). Qed.

(** The part of [map_del] that empties the cell found. *)
Lemma del_cell_spec : exists m' G,
  eventually (fun fuel => kp ← load64 (cell_addr m i + CELL_K); kfree fuel kp ;;
     v ← load64 (cell_addr m i + CELL_V); kfree fuel v ;; store64 (cell_addr m i + CELL_K) 0) s (Done tt (set_mem m' s)) /\
  heap_inv (set_mem m' s) G /\ table (set_mem m' s) G m max cap (update cs i None) no_hole /\
  (forall x, G x <-> F x \/ block_bytes kb x \/ block_bytes vb x) /\
  changes (fun x => G x \/ table_block m cap x) (k_mem s) m'.
Proof.
  destruct (table_slot _ _ _ _ _ _ HT i e Hi) as [(_ & HK & HV & _) Hb].
  pose proof (tb_range _ _ _ _ _ _ _ HT) as Hr. assert (Hic : 0 <= i < cap) by lia.
  destruct (free_slot_spec s F m cap cs i e Hheap (tb_own _ _ _ _ _ _ _ HT) Hi HK HV) as (m2 & G & Hrun2 & H2 & _ & HG & Hch2).
  { intros x. apply cell_in_table; [done|unfold CELL_V; lia]. }
  assert (T2 : table (set_mem m2 s) G m max cap (update cs i None) i).
  { eapply (table_changes _ _ _ _ _ _ _ (table_clear _ _ _ _ _ _ i HT) _ G m2 Hch2). intros p b x Hp Hx.
    destruct (other_apart s F m cap cs i e (tb_own _ _ _ _ _ _ _ HT) Hi p b x Hp Hx) as (? & ? & ?). rewrite HG. tauto. }
  set (m3 := write64 m2 (cell_addr m i + CELL_K) 0).
  assert (Hch3 : changes (within (cell_addr m i + CELL_K) 8) m2 m3) by apply changes_write64.
  assert (Hin : forall x, within (cell_addr m i + CELL_K) 8 x -> table_block m cap x).
  { intros x. apply cell_in_table; [done|unfold CELL_K; lia]. }
  assert (T3 : table (set_mem m3 s) G m max cap (update cs i None) i).
  { eapply (table_hole_write _ _ _ _ _ _ _ T2); [done|exact Hch3| |done]. right. unfold within, CELL_K, CELL_SIZE in *. lia. }
  exists m3, G. split_and!; [| | |done|].
  - destruct Hrun2 as [N HN]. exists N. intros fuel Hf. rewrite free_slot_bind, (run_bind _ _ _ _ _ (HN fuel Hf)).
    apply (kstore64 (set_mem m2 s)), (slot_mapped _ _ _ _ _ _ _ T2); [done|unfold CELL_K; lia].
  - apply (heap_inv_frame (set_mem m2 s) G m3 _ H2 Hch3). intros x Hx.
    by apply (ow_out _ _ _ _ (table_owned _ _ _ _ _ _ _ T2)), Hin.
  - apply (table_close _ _ _ _ _ _ i T3 Hic). unfold m3. simpl. by apply read64_write64_eq.
  - eapply changes_trans; [eapply changes_weaken; [exact Hch2|by left]|].
    eapply changes_weaken; [exact Hch3|]. intros x Hx. right. by apply Hin.
Qed.
End del.

Lemma kv_delete (cs : slots) (M : gmap (list Z) (list Z)) i e : cs i = Some e ->
  (forall k v, M !! k = Some v <-> exists i e, cs i = Some e /\ e_key e = k /\ e_val e = v) ->
  (forall i j e f, cs i = Some e -> cs j = Some f -> e_key e = e_key f -> i = j) ->
  (forall k v, delete (e_key e) M !! k = Some v <-> exists j f, update cs i None j = Some f /\ e_key f = k /\ e_val f = v) /\
  (forall j j' f f', update cs i None j = Some f -> update cs i None j' = Some f' -> e_key f = e_key f' -> j = j').
Proof.
  intros Hi HM Huniq. split.
  - intros k v. rewrite lookup_delete_Some, HM. split.
    + intros [Hne (j & f & Hj & <- & <-)]. exists j, f. rewrite update_ne; [done|]. intros ->. congruence.
    + intros (j & f & [Hne Hj]%update_None_Some & <- & <-). split; [|by exists j, f].
      intros E. by apply Hne, (Huniq j i f e).
  - intros j j' f f' [_ Hj]%update_None_Some [_ Hj']%update_None_Some. by apply Huniq.
Qed.

(** What [map_del] does to it. *)
Lemma map_del_run s F B m cap M k :
  heap_inv s F -> kvmap s F B m cap M ->
  exists m' G B', eventually (fun fuel => map_del fuel m k) s (Done tt (set_mem m' s)) /\
    heap_inv (set_mem m' s) G /\ kvmap (set_mem m' s) G B' m cap (delete k M) /\
    changes (fun x => F x \/ B x) (k_mem s) m' /\
    (forall x, F x -> G x) /\ (forall x, B' x -> B x) /\ (forall x, G x \/ B' x <-> F x \/ B x) /\
    (M !! k = None -> m' = k_mem s).
Proof.
  intros Hheap Hkv. pose proof Hkv as (max & cs & HT & HB & HM & Huniq & Hmax).
  pose proof (kv_find _ _ _ _ _ _ _ k HT HM Hmax) as Hfind. destruct (M !! k) as [v|] eqn:Ek.
  - destruct Hfind as (i & e & Hi & <- & _ & Hfind).
    destruct (del_cell_spec s F m max cap cs i e Hheap HT Hi) as (m' & G & [N Hrun] & HG & HT' & HF & Hch).
    set (B' := map_owns m cap (update cs i None)).
    assert (HBB : forall x, B' x -> B x).
    { intros x (p & b & [Hp _]%block_of_del & Hx). apply HB. by exists p, b. }
    assert (HGB : forall x, G x -> F x \/ B x).
    { intros x [Hx|[Hx|Hx]]%HF; [by left|right; apply HB; eexists (Key i), _|right; apply HB; eexists (Val i), _];
        (split; [simpl; by rewrite Hi|exact Hx]). }
    exists m', G, B'. split_and!; [|done| | |intros x Hx; apply HF; by left|done| |done].
    + exists (N + Z.to_nat cap)%nat. intros fuel Hf. destruct (Hfind fuel ltac:(lia)) as (j & Hj & f & Hcf & Hkf).
      assert (j = i) as -> by (apply (Huniq j i f e); congruence).
      unfold map_del. rewrite (run_bind _ _ _ _ _ Hj). apply Hrun. lia.
    + destruct (kv_delete cs M i e Hi HM Huniq) as [HM' Hu']. exists max, (update cs i None). split_and!; try done.
      intros Hne. apply Hmax. intros ->. by rewrite lookup_empty in Ek.
    + eapply changes_weaken; [exact Hch|]. intros x [Hx|Hx]; [by apply HGB|right; apply HB; by exists Table, (m, table_size cap)].
    + intros x. split; [intros [Hx|Hx]; [by apply HGB|right; by apply HBB]|]. intros [Hx|(p & b & Hp & Hx)%HB]; [left; apply HF; by left|].
      destruct (decide (p = Key i)) as [->|]; [|destruct (decide (p = Val i)) as [->|]].
      * simpl in Hp. rewrite Hi in Hp. injection Hp as <-. left. apply HF. by right; left.
      * simpl in Hp. rewrite Hi in Hp. injection Hp as <-. left. apply HF. by right; right.
      * right. exists p, b. split; [|done]. destruct p as [|j|j]; [done|..]; simpl in *; rewrite update_ne by congruence; done.
  - exists (k_mem s), F, B. rewrite !set_mem_same. split_and!; try done.
    + exists (Z.to_nat cap). intros fuel Hf. unfold map_del. by rewrite (run_bind _ _ _ _ _ (Hfind fuel Hf)).
    + by rewrite delete_id.
Qed.

(** C25. [map_del] deletes the key's entry, if there is one, and gives its two blocks back
    to the heap, so that together they own what they owned before; without one it changes
    nothing. *)
Theorem map_del_refines s F B m cap M k :
  heap_inv s F -> kvmap s F B m cap M ->
  exists m' G B', eventually (fun fuel => map_del fuel m k) s (Done tt (set_mem m' s)) /\
    heap_inv (set_mem m' s) G /\ kvmap (set_mem m' s) G B' m cap (delete k M) /\
    changes (fun x => F x \/ B x) (k_mem s) m' /\
    (forall x, F x -> G x) /\ (forall x, B' x -> B x) /\ (forall x, G x \/ B' x <-> F x \/ B x) /\
    (M !! k = None -> m' = k_mem s).
Proof. intros. eapply map_del_run; eassumption. Qed.

(** What happens outside a map's bytes does not concern it. *)
Lemma kvmap_frame s F G B m cap M (P : Z -> Prop) m' : kvmap s F B m cap M -> changes P (k_mem s) m' ->
  (forall x, B x -> ~ P x /\ ~ G x) -> kvmap (set_mem m' s) G B m cap M.
Proof.
  intros (max & cs & HT & HB & Hrest) Hch HP. exists max, cs. split; [|done].
  apply (table_changes _ _ _ _ _ _ _ HT P G m' Hch). intros p b x Hp Hx. apply HP, HB. by exists p, b.
Qed.

(** Only the memory matters to it. *)
Lemma kvmap_same s s' F B m cap M : k_mem s' = k_mem s -> kvmap s F B m cap M -> kvmap s' F B m cap M.
Proof.
  intros Em (max & cs & [H1 H2 H3 H4 H5 [H6 H6'] H7] & Hrest). exists max, cs. split; [|done].
  split; rewrite ?Em; try done. split; [|done]. intros p b Hb.
  destruct (H6 p b Hb) as [O1 O2 O3 O4 O5 O6 O7]. split; rewrite ?Em; done.
Qed.

Lemma kvmap_apart s F B m cap M x : kvmap s F B m cap M -> B x -> ~ F x.
Proof.
  intros (max & cs & HT & HB & _) (p & b & Hp & Hx)%HB. by apply (ow_out _ _ _ _ (bo_owned _ _ _ _ _ (tb_own _ _ _ _ _ _ _ HT) p b Hp)).
Qed.

(** C26. [map_set] binds the key to the value, whether the map holds it or not. *)
Theorem map_set_refines s F B mp m cap M k v :
  heap_inv s F -> kvmap s F B m cap M -> read64 (k_mem s) mp = Some m ->
  (forall x, within mp 8 x -> ~ F x /\ ~ B x) -> short k -> short v ->
  Z.of_nat (size (delete k M)) < cap -> (delete k M = ∅ -> hash k mod cap <> cap - 1) ->
  (exists m' G B', eventually (fun fuel => map_set fuel mp k v) s (Done tt (set_mem m' s)) /\
     heap_inv (set_mem m' s) G /\ kvmap (set_mem m' s) G B' m cap (<[k := v]> M) /\
     changes (fun x => F x \/ B x) (k_mem s) m' /\ (forall x, G x \/ B' x -> F x \/ B x)) \/
  eventually (fun fuel => map_set fuel mp k v) s (Stop Panic).
Proof.
  intros Hheap Hkv Hmp Hout Hk Hv Hsz Hcell0.
  destruct (map_del_run s F B m cap M k Hheap Hkv) as (m1 & G1 & B1 & Hrun1 & H1 & Hkv1 & Hch1 & _ & HBB & HGB & _).
  assert (Hmp1 : read64 m1 mp = Some m).
  { rewrite <- Hmp. eapply changes_read64; [exact Hch1|]. intros x Hx%Hout. tauto. }
  assert (Hstart : forall r, eventually (fun fuel => map_insert fuel mp k v) (set_mem m1 s) r ->
    eventually (fun fuel => map_set fuel mp k v) s r).
  { intros r Hr. eapply (eventually_bind (fun f => _)); [by apply eventually_const, kload64|].
    by eapply (eventually_bind (fun f => map_del f _ _)). }
  destruct (map_insert_run (set_mem m1 s) G1 B1 mp m cap (delete k M) k v H1 Hkv1 Hmp1 Hk Hv (lookup_delete_eq M k) Hsz Hcell0)
    as [(m2 & G & B2 & Hrun2 & H2 & Hkv2 & Hch2 & HG & HB)|Hp]; [left|right; by apply Hstart].
  exists m2, G, B2. rewrite insert_delete_eq in Hkv2. split_and!; [by apply Hstart|done|done| |].
  - eapply changes_trans; [exact Hch1|]. eapply changes_weaken; [exact Hch2|]. intros x. apply HGB.
  - intros x [Hx|Hx]; apply HGB; [left; by apply HG|by apply HB].
Qed.

(** ** Making and freeing maps *)

(** [map_new] makes an empty map of at least eight cells on the heap. *)
Theorem map_new_refines {PA : PageInv} s F n :
  heap_inv s F -> 0 <= n <= 2 ^ 40 ->
  (exists m m' G B, eventually (fun fuel => map_new fuel n) s (Done m (set_mem m' s)) /\
     heap_inv (set_mem m' s) G /\ kvmap (set_mem m' s) G B m (Z.max n 8) ∅ /\
     changes F (k_mem s) m' /\ (forall x, G x \/ B x -> F x)) \/
  eventually (fun fuel => map_new fuel n) s (Stop Panic).
Proof.
  intros Hheap Hn. set (cap := Z.max n 8). unfold map_new.
  assert (Ecap : (if n <? 8 then 8 else n) = cap) by (unfold cap; destruct (Z.ltb_spec n 8); lia). rewrite Ecap.
  assert (Hcap : 8 <= cap <= 2 ^ 40) by lia. pose proof (table_size_bounds cap ltac:(lia)) as Hts.
  assert (Esz : add64 MAP_CELL (mul64 CELL_SIZE cap) = MAP_CELL + CELL_SIZE * cap).
  { unfold mul64. unfold MAP_CELL, CELL_SIZE in *. rewrite w64_small by lia. apply add64_small. lia. }
  rewrite Esz. destruct (kzalloc_spec s F (MAP_CELL + CELL_SIZE * cap) Hheap) as [(m & m1 & G & Hrun & HG & Hown & Hch & Hz & HGF & HmF)|Hp].
  { unfold MAP_CELL, CELL_SIZE in *. lia. }
  2:{ right. by apply (eventually_bind_stop (fun f => kzalloc f _)). }
  change (align_up (MAP_CELL + CELL_SIZE * cap)) with (table_size cap) in *. left.
  set (m' := write64 m1 (m + MAP_CAP) cap).
  assert (Hch1 : changes (within (m + MAP_CAP) 8) m1 m') by apply changes_write64.
  assert (Hin : forall x, within (m + MAP_CAP) 8 x -> block_bytes (m, table_size cap) x).
  { intros x. unfold block_bytes, within, MAP_CAP, MAP_CELL, CELL_SIZE, HDRSIZE in *. simpl. lia. }
  assert (Hzero : forall a, m <= a -> a + 8 <= m + MAP_CELL + CELL_SIZE * cap ->
    (a + 8 <= m + MAP_CAP \/ m + MAP_CAP + 8 <= a) -> read64 m' a = Some 0).
  { intros a Ha Ha' Hne. unfold m'. rewrite read64_write64_ne by lia. apply read64_zero. intros x Hx. apply Hz. unfold within in *. lia. }
  assert (HT : table (set_mem m' s) G m 0 cap (fun _ => None) no_hole).
  { split; try done; simpl.
    - apply Hzero; unfold MAP_MAX, MAP_CAP, MAP_CELL, CELL_SIZE; lia.
    - unfold m'. apply read64_write64_eq. lia.
    - lia.
    - intros i Hi _. apply Hzero; unfold cell_addr, CELL_K, MAP_CAP, MAP_CELL, CELL_SIZE; lia.
    - split.
      + intros [|?|?] b Hb; try done. injection Hb as <-. apply (owned_write (set_mem m1 s) G _ _ _ m' Hown Hch1).
        unfold within, MAP_CAP, HDRSIZE. lia.
      + intros [|?|?] [|?|?] b c x Hpq; done. }
  exists m, m', G, (map_owns m cap (fun _ => None)). split_and!.
  - eapply (eventually_bind (fun f => kzalloc f _)); [exact Hrun|].
    eapply (eventually_bind (fun f => _)); [|by apply eventually_const].
    apply eventually_const, (kstore64 (set_mem m1 s)).
    eapply mapped_sub; [apply Hown|unfold MAP_CAP, HDRSIZE; lia|unfold MAP_CAP, MAP_CELL, CELL_SIZE, HDRSIZE in *; lia].
  - apply (heap_inv_frame (set_mem m1 s) G m' _ HG Hch1). intros x Hx. by apply (ow_out _ _ _ _ Hown), Hin.
  - exists 0, (fun _ => None). split_and!; try done. intros k v. rewrite lookup_empty. split; [done|]. by intros (? & ? & ? & _).
  - eapply changes_trans; [exact Hch|]. eapply changes_weaken; [exact Hch1|]. intros x Hx. by apply HmF, Hin.
  - intros x [Hx|([|?|?] & b & Hb & Hx)]; try done; [by apply HGF|]. injection Hb as <-. by apply HmF.
Qed.

(** The cells from [i] on. *)
Definition from (cs : slots) (i : Z) : slots := fun j => if decide (j < i) then None else cs j.

Lemma from_lookup cs i j e : from cs i j = Some e <-> i <= j /\ cs j = Some e.
Proof. unfold from. destruct (decide (j < i)); intuition (done || lia). Qed.

Lemma from_next_None cs i j : cs i = None -> from cs (i + 1) j = from cs i j.
Proof. unfold from. intros Hi. repeat case_decide; try done; [|lia]. by replace j with i by lia. Qed.

Lemma from_next cs i j : from cs (i + 1) j = update (from cs i) i None j.
Proof. unfold from, update. repeat case_decide; done || lia. Qed.

Lemma block_of_ext m cap cs cs' p : (forall j, cs j = cs' j) -> block_of m cap cs p = block_of m cap cs' p.
Proof. intros H. destruct p; simpl; by rewrite ?H. Qed.

Lemma blocks_own_ext s F m cap cs cs' : (forall j, cs j = cs' j) -> blocks_own s F m cap cs -> blocks_own s F m cap cs'.
Proof.
  intros H [Ho Ha]. split.
  - intros p b. rewrite <- (block_of_ext m cap cs cs') by done. apply Ho.
  - intros p q b c x. rewrite <- !(block_of_ext m cap cs cs') by done. apply Ha.
Qed.

(** [map_free] has reached cell [i]. *)
Record freeing (s : kernel) (F : Z -> Prop) (m max cap : Z) (cs : slots) (i : Z) : Prop := {
  fr_range : 0 <= max < cap /\ cap <= 2 ^ 40;
  fr_own : blocks_own s F m cap (from cs i);
  fr_cell j : i <= j <= max ->
    match cs j with
    | Some e => read64 (k_mem s) (cell_addr m j + CELL_K) = Some (e_kp e) /\ e_kp e <> 0 /\
        read64 (k_mem s) (cell_addr m j + CELL_V) = Some (e_vp e)
    | None => read64 (k_mem s) (cell_addr m j + CELL_K) = Some 0
    end;
}.

Definition free_cell (fuel : nat) (m i : Z) : M kernel unit :=
  kp ← load64 (cell_addr m i + CELL_K);
  if kp =? 0 then mret tt else
  kfree fuel kp ;; v ← load64 (cell_addr m i + CELL_V); kfree fuel v.

(** One round. *)
Lemma free_cell_spec s F m max cap cs i : heap_inv s F -> freeing s F m max cap cs i -> 0 <= i <= max ->
  exists m' G, eventually (fun fuel => free_cell fuel m i) s (Done tt (set_mem m' s)) /\
    heap_inv (set_mem m' s) G /\ freeing (set_mem m' s) G m max cap cs (i + 1) /\ changes G (k_mem s) m' /\
    (forall x, G x <-> F x \/ exists p b, (p = Key i \/ p = Val i) /\ block_of m cap cs p = Some b /\ block_bytes b x).
Proof.
  intros Hheap [[Hr Hr'] Ho Hc] Hi. pose proof (Hc i ltac:(lia)) as Hci. destruct (cs i) as [e|] eqn:Ei.
  - destruct Hci as (HK & Hk0 & HV). assert (Efr : from cs i i = Some e) by (apply from_lookup; split; [lia|done]).
    assert (Hin : forall j o x, 0 <= j < cap -> 0 <= o <= 16 -> within (cell_addr m j + o) 8 x -> table_block m cap x).
    { intros j o x Hj Ho' Hx. pose proof (table_size_bounds cap ltac:(lia)).
      pose proof (cell_bytes_in m cap j o x Hj Ho' Hx). unfold table_block, block_bytes, within, HDRSIZE in *. simpl. lia. }
    destruct (free_slot_spec s F m cap (from cs i) i e Hheap Ho Efr HK HV) as (m' & G & Hrun & HG & Ho' & HGx & Hch).
    { intros x. apply Hin; [lia|unfold CELL_V; lia]. }
    exists m', G. split_and!; [|done| |done|].
    + destruct Hrun as [N HN]. exists N. intros fuel Hf. rewrite <- (HN fuel Hf). unfold free_cell, free_slot.
      rewrite !(run_bind _ _ _ _ _ (kload64 s _ _ HK)). by rewrite (proj2 (Z.eqb_neq _ _) Hk0).
    + split; [done| |].
      * eapply blocks_own_ext; [|exact Ho']. intros j. by rewrite from_next.
      * intros j Hj. specialize (Hc j ltac:(lia)).
        assert (Hrd : forall o, 0 <= o <= 16 -> read64 m' (cell_addr m j + o) = read64 (k_mem s) (cell_addr m j + o)).
        { intros o Ho''. eapply changes_read64; [exact Hch|]. intros x Hx HGx'. apply Hin in Hx; [|lia..].
          by apply (ow_out _ _ _ _ (bo_owned _ _ _ _ _ Ho' Table _ eq_refl) x Hx). }
        simpl. destruct (cs j); rewrite !Hrd by (unfold CELL_K, CELL_V; lia); done.
    + intros x. rewrite HGx. split.
      * intros [Hx|[Hx|Hx]]; [by left|right; exists (Key i)|right; exists (Val i)]; eexists; (split; [tauto|]); simpl; rewrite Ei; done.
      * intros [Hx|(p & b & [->| ->] & Hb & Hx)]; [by left|..]; simpl in Hb; rewrite Ei in Hb; injection Hb as <-; tauto.
  - exists (k_mem s), F. rewrite !set_mem_same. split_and!; [|done| |done|].
    + exists O. intros fuel _. unfold free_cell. by rewrite (run_bind _ _ _ _ _ (kload64 s _ _ Hci)).
    + split; [done| |intros j Hj; apply Hc; lia]. eapply blocks_own_ext; [|exact Ho]. intros j. by rewrite from_next_None.
    + intros x. split; [by left|]. intros [Hx|(p & b & [->| ->] & Hb & Hx)]; [done|..]; simpl in Hb; by rewrite Ei in Hb.
Qed.

Lemma free_cells_spec n s F m max cap cs i : heap_inv s F -> freeing s F m max cap cs i -> 0 <= i ->
  Z.of_nat n + i = max + 1 ->
  exists m' G, eventually (fun fuel => for_range n i (free_cell fuel m)) s (Done tt (set_mem m' s)) /\
    heap_inv (set_mem m' s) G /\ freeing (set_mem m' s) G m max cap cs (max + 1) /\ changes G (k_mem s) m' /\
    (forall x, G x <-> F x \/ exists j p b, i <= j <= max /\ (p = Key j \/ p = Val j) /\ block_of m cap cs p = Some b /\ block_bytes b x).
Proof.
  revert s F i. induction n as [|n IH]; intros s F i Hheap Hfr Hi Hn.
  - exists (k_mem s), F. rewrite !set_mem_same. replace (max + 1) with i by lia. split_and!; try done.
    + by exists O.
    + intros x. split; [by left|]. intros [Hx|(j & p & b & Hj & _)]; [done|lia].
  - destruct (free_cell_spec s F m max cap cs i Hheap Hfr ltac:(lia)) as (m1 & G1 & Hrun1 & H1 & Hfr1 & Hch1 & HG1).
    destruct (IH (set_mem m1 s) G1 (i + 1) H1 Hfr1 ltac:(lia) ltac:(lia)) as (m2 & G & Hrun2 & H2 & Hfr2 & Hch2 & HG).
    exists m2, G. split_and!; [|done|done| |].
    + by eapply (eventually_bind (fun f => free_cell f m i)).
    + eapply changes_trans; [eapply changes_weaken; [exact Hch1|]|exact Hch2]. intros x Hx. apply HG. by left.
    + intros x. rewrite HG, HG1. split.
      * intros [[Hx|(p & b & Hp & Hb & Hx)]|(j & p & b & Hj & Hrest)]; [by left|right; exists i, p, b; split; [lia|done]|].
        right. exists j, p, b. split; [lia|done].
      * intros [Hx|(j & p & b & Hj & Hp & Hrest)]; [by left; left|]. destruct (decide (j = i)) as [->|].
        -- left. right. by exists p, b.
        -- right. exists j, p, b. split; [lia|done].
Qed.

(** C27. [map_free] gives everything the map owns back to the heap. *)
Theorem map_free_returns_all s F B m cap M :
  heap_inv s F -> kvmap s F B m cap M ->
  exists m' G, eventually (fun fuel => map_free fuel m) s (Done tt (set_mem m' s)) /\
    heap_inv (set_mem m' s) G /\ (forall x, G x <-> F x \/ B x) /\ changes (fun x => F x \/ B x) (k_mem s) m'.
Proof.
  intros Hheap (max & cs & HT & HB & _). pose proof (tb_range _ _ _ _ _ _ _ HT) as Hr.
  assert (Hused : forall j e, cs j = Some e -> 0 <= j <= max) by apply (tb_used _ _ _ _ _ _ _ HT).
  assert (Hfr : freeing s F m max cap cs 0).
  { split; [done| |].
    - eapply blocks_own_ext; [|apply (tb_own _ _ _ _ _ _ _ HT)]. intros j. unfold from.
      destruct (decide (j < 0)); [|done]. destruct (cs j) as [e|] eqn:Ej; [|done]. specialize (Hused j e Ej). lia.
    - intros j Hj. pose proof (tb_slot _ _ _ _ _ _ _ HT j ltac:(lia) ltac:(unfold no_hole; lia)) as Hs.
      destruct (cs j) as [e|] eqn:Ej; [|done]. destruct Hs as (_ & HK & HV & _). split_and!; try done.
      pose proof (key_block_pos _ _ _ _ _ _ HT j e Ej). unfold HDRSIZE in *. lia. }
  destruct (free_cells_spec (Z.to_nat (max + 1)) s F m max cap cs 0 Hheap Hfr ltac:(lia) ltac:(lia))
    as (m1 & G1 & Hrun1 & H1 & Hfr1 & Hch1 & HG1).
  pose proof (bo_owned _ _ _ _ _ (fr_own _ _ _ _ _ _ _ Hfr1) Table _ eq_refl) as Hown. simpl in Hown.
  destruct (kfree_owned _ _ _ _ H1 Hown) as (m2 & Hrun2 & H2 & Hch2). simpl in Hch2.
  assert (HGB : forall x, G1 x \/ block_bytes (m, table_size cap) x <-> F x \/ B x).
  { intros x. rewrite HG1, HB. split.
    - intros [[Hx|(j & p & b & _ & _ & Hb & Hx)]|Hx]; [by left|right; by exists p, b|right; by exists Table, (m, table_size cap)].
    - intros [Hx|(p & b & Hb & Hx)]; [by left; left|]. destruct p as [|j|j]; [injection Hb as <-; by right|..]; left; right;
        (destruct (cs j) as [e|] eqn:Ej; [|by simpl in Hb; rewrite Ej in Hb]); eexists j, _, b; (split; [by eapply Hused|]); (split; [|done]); tauto. }
  exists m2, (fun x => G1 x \/ block_bytes (m, table_size cap) x). split_and!; [|exact H2|exact HGB|].
  - eapply (eventually_bind (fun f => _)); [apply eventually_const, kload64, (tb_max _ _ _ _ _ _ _ HT)|].
    by eapply (eventually_bind (fun f => for_range _ 0 (free_cell f m))).
  - eapply changes_trans; eapply changes_weaken; [exact Hch1| |exact Hch2|]; intros x Hx; apply HGB; tauto.
Qed.

(** ** A map of one entry *)

(** The key [7] bound to [9] in cell 1 of a map at 49168; its pointer is at 49136. *)
Definition demo_kv_writes : list (Z * Z) :=
  [(49136, 49168); (49152, 208); (49160, canary 49152); (49168 + MAP_MAX, 1); (49168 + MAP_CAP, 8);
   (cell_addr 49168 1 + CELL_H, hash [7]); (cell_addr 49168 1 + CELL_K, 49424); (cell_addr 49168 1 + CELL_V, 49472);
   (49408, 16); (49416, canary 49408); (49424 + FLEX_N, 1); (49424 + FLEX_ITEM, 7);
   (49456, 16); (49464, canary 49456); (49472 + FLEX_N, 1); (49472 + FLEX_ITEM, 9)].

Definition demo_kv_mem : gmap Z Z :=
  foldl (fun m '(a, v) => write64 m a v) (zeros 49136 512 demo_heap_mem) demo_kv_writes.
Definition demo_kv : kernel := set_mem demo_kv_mem demo_heap.
Definition demo_kv_cells : slots := fun i => if decide (i = 1) then Some (Slot 49424 49472 [7] [9]) else None.

Lemma demo_kv_changes : changes (within 49136 512) demo_heap_mem demo_kv_mem.
Proof.
  unfold demo_kv_mem, demo_kv_writes. cbn [foldl].
  do 16 (eapply changes_then_write; [|unfold within, cell_addr, MAP_MAX, MAP_CAP, MAP_CELL, CELL_SIZE, CELL_H, CELL_K, CELL_V, FLEX_N, FLEX_ITEM; lia]).
  apply (changes_write_bytes _ 49136 (replicate (Z.to_nat 512) 0)).
Qed.

Lemma demo_kv_mapped : mapped demo_kv_mem 49136 512.
Proof. unfold demo_kv_mem, demo_kv_writes. cbn [foldl]. do 16 apply write64_mapped. apply mapped_zeros. lia. Qed.

Lemma demo_kv_out x : within 49136 512 x -> ~ demo_F x.
Proof.
  intros Hx [Hf|[Hf|Hf%in_exts_nil]]; [|unfold within in *; lia|done].
  apply demo_footprint in Hf; [|reflexivity]. unfold within in *. lia.
Qed.

Lemma demo_kv_heap : heap_inv demo_kv demo_F.
Proof. apply (heap_inv_frame demo_heap demo_F demo_kv_mem _ demo_heap_inv demo_kv_changes demo_kv_out). Qed.

Lemma demo_kv_block r n : 0 <= n -> 49152 <= r - HDRSIZE -> r + n <= 49648 -> allocated_at demo_kv_mem (r - HDRSIZE) n ->
  (16 | r - HDRSIZE) -> owned demo_kv demo_F r n.
Proof.
  intros Hn Hlo Hhi Ha Hal. split; try done; unfold HDRSIZE in *; try lia.
  - eapply mapped_sub; [exact demo_kv_mapped|lia|lia].
  - intros x Hx. apply demo_kv_out. unfold within in *. lia.
Qed.

Lemma demo_kv_blocks p b : block_of 49168 8 demo_kv_cells p = Some b ->
  p = Table /\ b = (49168, 208) \/ p = Key 1 /\ b = (49424, 16) \/ p = Val 1 /\ b = (49472, 16).
Proof.
  destruct p as [|i|i]; simpl; [intros [= <-]; by left|..]; unfold demo_kv_cells;
    (destruct (decide (i = 1)) as [->|]; [intros [= <-]|done]); [by right; left|by right; right].
Qed.

Lemma demo_kv_table : table demo_kv demo_F 49168 1 8 demo_kv_cells no_hole.
Proof.
  split.
  - vm_compute. reflexivity.
  - vm_compute. reflexivity.
  - lia.
  - intros i Hi _. assert (H : Forall (fun j => slot_at demo_kv_mem 49168 j (demo_kv_cells j)) (seqZ 0 8)).
    { apply (bool_decide_unpack _). vm_compute. exact Logic.I. }
    rewrite Forall_forall in H. apply H, elem_of_seqZ. lia.
  - intros i e. unfold demo_kv_cells. destruct (decide (i = 1)) as [->|]; [lia|done].
  - split.
    + intros p b [[_ ->]|[[_ ->]|[_ ->]]]%demo_kv_blocks; (apply demo_kv_block; [simpl; unfold HDRSIZE; lia..| |]);
        try (split; vm_compute; reflexivity); [by exists 3072|by exists 3088|by exists 3091].
    + intros p q b c x Hpq Hb Hc. apply demo_kv_blocks in Hb, Hc. unfold block_bytes, within, HDRSIZE.
      destruct Hb as [[-> ->]|[[-> ->]|[-> ->]]], Hc as [[-> ->]|[[-> ->]|[-> ->]]]; simpl; done || lia.
  - unfold no_hole. lia.
Qed.

Definition demo_kv_owns : Z -> Prop := map_owns 49168 8 demo_kv_cells.

Lemma demo_kv_at : kvmap demo_kv demo_F demo_kv_owns 49168 8 {[ [7] := [9] ]}.
Proof.
  exists 1, demo_kv_cells. split; [exact demo_kv_table|]. split; [done|]. unfold demo_kv_cells. split; [|split; [|lia]].
  - intros k v. rewrite lookup_singleton_Some. split.
    + intros [<- <-]. by exists 1, (Slot 49424 49472 [7] [9]).
    + intros (i & e & Hi & <- & <-). destruct (decide (i = 1)); [|done]. by injection Hi as <-.
  - intros i j e f Hi Hj _. destruct (decide (i = 1)), (decide (j = 1)); congruence.
Qed.

Lemma demo_kv_ptr : read64 demo_kv_mem 49136 = Some 49168.
Proof. vm_compute. reflexivity. Qed.

#[local] Opaque demo_kv_mem.

Lemma map_new_refines_witness :
  (exists m m' G B, eventually (fun fuel => map_new fuel 16) demo_heap (Done m (set_mem m' demo_heap)) /\
     heap_inv (set_mem m' demo_heap) G /\ kvmap (set_mem m' demo_heap) G B m (Z.max 16 8) ∅ /\
     changes demo_F (k_mem demo_heap) m' /\ (forall x, G x \/ B x -> demo_F x)) \/
  eventually (fun fuel => map_new fuel 16) demo_heap (Stop Panic).
Proof. apply (map_new_refines demo_heap demo_F 16); [exact demo_heap_inv|lia]. Defined.

Lemma map_get_refines_witness :
  exists r, (forall fuel, (Z.to_nat 8 <= fuel)%nat -> map_get fuel 49168 [7] demo_kv = Done r demo_kv) /\
    match ({[ [7] := [9] ]} : gmap (list Z) (list Z)) !! [7] with
    | Some v => r <> 0 /\ read_bytes (k_mem demo_kv) r (length v) = Some v
    | None => r = 0
    end.
Proof. exact (map_get_refines demo_kv demo_F demo_kv_owns 49168 8 {[ [7] := [9] ]} [7] demo_kv_at). Defined.

Lemma map_insert_refines_witness :
  (exists m' G B', eventually (fun fuel => map_insert fuel 49136 [3] [4; 5]) demo_kv (Done tt (set_mem m' demo_kv)) /\
     heap_inv (set_mem m' demo_kv) G /\ kvmap (set_mem m' demo_kv) G B' 49168 8 (<[ [3] := [4; 5] ]> {[ [7] := [9] ]}) /\
     changes (fun x => demo_F x \/ demo_kv_owns x) (k_mem demo_kv) m' /\
     (forall x, G x -> demo_F x) /\ (forall x, B' x -> demo_F x \/ demo_kv_owns x)) \/
  eventually (fun fuel => map_insert fuel 49136 [3] [4; 5]) demo_kv (Stop Panic).
Proof.
  apply (map_insert_refines demo_kv demo_F demo_kv_owns 49136 49168 8 {[ [7] := [9] ]} [3] [4; 5]).
  - exact demo_kv_heap.
  - exact demo_kv_at.
  - exact demo_kv_ptr.
  - unfold short. simpl. lia.
  - unfold short. simpl. lia.
  - reflexivity.
  - rewrite map_size_singleton. lia.
  - intros E. apply (f_equal (lookup [7])) in E. vm_compute in E. discriminate.
Defined.

Lemma map_del_refines_witness :
  exists m' G B', eventually (fun fuel => map_del fuel 49168 [7]) demo_kv (Done tt (set_mem m' demo_kv)) /\
    heap_inv (set_mem m' demo_kv) G /\ kvmap (set_mem m' demo_kv) G B' 49168 8 (delete [7] {[ [7] := [9] ]}) /\
    changes (fun x => demo_F x \/ demo_kv_owns x) (k_mem demo_kv) m' /\
    (forall x, demo_F x -> G x) /\ (forall x, B' x -> demo_kv_owns x) /\
    (forall x, G x \/ B' x <-> demo_F x \/ demo_kv_owns x) /\
    (({[ [7] := [9] ]} : gmap (list Z) (list Z)) !! [7] = None -> m' = k_mem demo_kv).
Proof. exact (map_del_refines demo_kv demo_F demo_kv_owns 49168 8 {[ [7] := [9] ]} [7] demo_kv_heap demo_kv_at). Defined.

Lemma map_set_refines_witness :
  (exists m' G B', eventually (fun fuel => map_set fuel 49136 [7] [1]) demo_kv (Done tt (set_mem m' demo_kv)) /\
     heap_inv (set_mem m' demo_kv) G /\ kvmap (set_mem m' demo_kv) G B' 49168 8 (<[ [7] := [1] ]> {[ [7] := [9] ]}) /\
     changes (fun x => demo_F x \/ demo_kv_owns x) (k_mem demo_kv) m' /\
     (forall x, G x \/ B' x -> demo_F x \/ demo_kv_owns x)) \/
  eventually (fun fuel => map_set fuel 49136 [7] [1]) demo_kv (Stop Panic).
Proof.
  apply (map_set_refines demo_kv demo_F demo_kv_owns 49136 49168 8 {[ [7] := [9] ]} [7] [1]).
  - exact demo_kv_heap.
  - exact demo_kv_at.
  - exact demo_kv_ptr.
  - intros x Hx. split; [apply demo_kv_out; unfold within in *; lia|].
    intros (p & b & [[_ ->]|[[_ ->]|[_ ->]]]%demo_kv_blocks & Hb); unfold block_bytes, within, HDRSIZE in *; simpl in Hb; lia.
  - unfold short. simpl. lia.
  - unfold short. simpl. lia.
  - vm_compute. reflexivity.
  - intros _. vm_compute. discriminate.
Defined.

Lemma map_free_returns_all_witness :
  exists m' G, eventually (fun fuel => map_free fuel 49168) demo_kv (Done tt (set_mem m' demo_kv)) /\
    heap_inv (set_mem m' demo_kv) G /\ (forall x, G x <-> demo_F x \/ demo_kv_owns x) /\
    changes (fun x => demo_F x \/ demo_kv_owns x) (k_mem demo_kv) m'.
Proof. exact (map_free_returns_all demo_kv demo_F demo_kv_owns 49168 8 {[ [7] := [9] ]} demo_kv_heap demo_kv_at). Defined.
