(* ===== verification/Paging.v ===== *)
(** * kernel/miniheap.c and kernel/arch/x86_64/paging.c, before the heap

    The early allocator and the part of the paging code that works on the kernel's own
    page tables: [premap_pages] and what is built on it.  The tables are in the kernel
    image, where a physical address and a virtual one differ by a constant. *)
From S2P Require Import Prelude Memory Mem Pow2 State.

(** ** kernel/miniheap.c *)

Definition miniheap_alloc (size : Z) : M kernel Z :=
  ACQUIRE (fun s => miniheap_lock (k_pg s)) set_miniheap_lock ;;
  res ← gets (fun s => brk (k_pg s));
  modify (set_brk (add64 res (round_up_page size))) ;;
  b ← gets (fun s => brk (k_pg s));
  e ← gets (fun s => miniheap_end (k_pg s));
  (if e <? b then halt Panic else mret tt) ;;
  RELEASE set_miniheap_lock ;;
  mret res.

(** ** Constants *)

(** kernel/include/paging.h *)
Definition PAGE_PRESENT : Z := 1.
Definition PAGE_WRITABLE : Z := 2.
Definition PAGE_USER : Z := 4.
Definition PAGE_NX : Z := 8.
Definition PAGE_NOCACHE : Z := 16.

Definition X86_PAGE_PRESENT : Z := 1.
Definition X86_PAGE_WRITABLE : Z := 2.
Definition X86_PAGE_USER : Z := 4.
Definition X86_PAGE_NOCACHE : Z := 16.
Definition X86_PAGE_NX : Z := 2 ^ 63.

(** [~(0xFFF | (1ULL << 63))] *)
Definition ADDR_MASK : Z := w64 (Z.lnot (Z.lor 0xFFF (2 ^ 63))).

Definition flag_bit (flags bit x86 : Z) : Z := if Z.land flags bit =? 0 then 0 else x86.

(** [int x86_flags = ...]: an [int] keeps 32 bits of the 64-bit expression.  The value
    is the one it has when it is or-ed into an entry. *)
Definition x86_flags (flags : Z) : Z :=
  w64 (s32 (Z.lor (Z.lor (Z.lor (Z.lor
    (flag_bit flags PAGE_PRESENT X86_PAGE_PRESENT)
    (flag_bit flags PAGE_USER X86_PAGE_USER))
    (flag_bit flags PAGE_WRITABLE X86_PAGE_WRITABLE))
    (flag_bit flags PAGE_NX X86_PAGE_NX))
    (flag_bit flags PAGE_NOCACHE X86_PAGE_NOCACHE))).

Definition top_flags : Z := Z.lor (Z.lor X86_PAGE_PRESENT X86_PAGE_USER) X86_PAGE_WRITABLE.

(** [(dst >> 39) & 0x1FF] and so on *)
Definition pml4_idx (va : Z) : Z := Z.land (Z.shiftr va 39) 0x1FF.
Definition pdpt_idx (va : Z) : Z := Z.land (Z.shiftr va 30) 0x1FF.
Definition pd_idx (va : Z) : Z := Z.land (Z.shiftr va 21) 0x1FF.
Definition pt_idx (va : Z) : Z := Z.land (Z.shiftr va 12) 0x1FF.

Definition VK2PHYSK (g : paging_globals) (x : Z) : Z := add64 (sub64 x (virtual_base g)) (physical_base g).
Definition PHYSK2VK (g : paging_globals) (x : Z) : Z := add64 (sub64 x (physical_base g)) (virtual_base g).

(** The address of entry [i] of a table. *)
Definition entry (tab i : Z) : Z := tab + 8 * i.

Definition page_end (x len : Z) : Z := Z.land (add64 (add64 x len) 0xFFF) (w64 (Z.lnot 0xFFF)).

(** ** Mapping pages in the kernel's tables *)

(** [if (!(tab[i] & X86_PAGE_PRESENT)) tab[i] = VK2PHYSK(miniheap_alloc(PAGE_SIZE)) | top_flags;]
    and then the table [PHYSK2VK(tab[i] & ADDR_MASK)]. *)
Definition premap_table (tab i : Z) : M kernel Z :=
  e ← load64 (entry tab i);
  (if Z.land e X86_PAGE_PRESENT =? 0 then
     p ← miniheap_alloc PAGE_SIZE;
     g ← gets k_pg;
     store64 (entry tab i) (Z.lor (VK2PHYSK g p) top_flags)
   else mret tt) ;;
  e ← load64 (entry tab i);
  g ← gets k_pg;
  mret (PHYSK2VK g (Z.land e ADDR_MASK)).

(** The body of the loop of [premap_pages]. *)
Definition premap_page (dst src xflags : Z) : M kernel unit :=
  pml4 ← gets (fun s => kpml4 (k_pg s));
  pdpt ← premap_table pml4 (pml4_idx dst);
  pd ← premap_table pdpt (pdpt_idx dst);
  pt ← premap_table pd (pd_idx dst);
  store64 (entry pt (pt_idx dst)) (Z.lor (Z.land src ADDR_MASK) xflags).

Fixpoint premap_loop (fuel : nat) (dst src dst_end src_end xflags : Z) : M kernel unit :=
  match fuel with
  | O => halt OutOfFuel
  | S k =>
      if (dst <? dst_end) && (src <? src_end) then
        premap_page dst src xflags ;;
        premap_loop k (add64 dst PAGE_SIZE) (add64 src PAGE_SIZE) dst_end src_end xflags
      else mret tt
  end.

Definition premap_pages (fuel : nat) (dst src length flags : Z) : M kernel unit :=
  premap_loop fuel dst src (page_end dst length) (page_end src length) (x86_flags flags).

(** ** The processor's walk

    The four levels of tables, read off the memory the way the hardware reads them; [see]
    tells at which address the kernel sees a page frame. *)

(** The frames of the kernel's image. *)
Abbreviation image g := (fun P => Some (PHYSK2VK g P)).

(** The table an entry of a table points to, if the entry is present. *)
Definition child (m : gmap Z Z) (see : Z -> option Z) (tab i : Z) : option Z :=
  e ← read64 m (entry tab i);
  if Z.land e X86_PAGE_PRESENT =? 0 then None else see (Z.land e ADDR_MASK).

(** The entry of a last-level table, if it is present. *)
Definition leaf (m : gmap Z Z) (pt i : Z) : option Z :=
  e ← read64 m (entry pt i); if Z.land e X86_PAGE_PRESENT =? 0 then None else Some e.

Definition walk (m : gmap Z Z) (see : Z -> option Z) (pml4 va : Z) : option Z :=
  pdpt ← child m see pml4 (pml4_idx va);
  pd ← child m see pdpt (pdpt_idx va);
  pt ← child m see pd (pd_idx va);
  leaf m pt (pt_idx va).

(** What is found at [page_tmp] through the kernel's tables as they are: the page frame
    they map there, at the address where the memory has it. *)
Definition window : M kernel Z :=
  e ← gets (fun s => walk (k_mem s) (image (k_pg s)) (kpml4 (k_pg s)) (page_tmp (k_pg s)));
  g ← gets k_pg;
  match e with
  | Some e => mret (alias g (Z.land e ADDR_MASK))
  | None => halt Fault
  end.

(** The caller goes on with the page it finds at [page_tmp]. *)
Definition map_page_tmp (fuel : nat) (phys : Z) : M kernel Z :=
  t ← gets (fun s => page_tmp (k_pg s));
  premap_pages fuel t phys PAGE_SIZE (Z.lor PAGE_PRESENT PAGE_WRITABLE) ;;
  emit (Invlpg t) ;;
  window.

(** [struct addrspace]: [addr] and [physmap]. *)
Definition SPACE_ADDR : Z := 0.
Definition SPACE_PHYSMAP : Z := 8.

Definition kvirt2phys (fuel : nat) (cur_space virt : Z) : M kernel Z :=
  pml4 ← (if negb (cur_space =? 0) then load64 (cur_space + SPACE_ADDR)
          else gets (fun s => kpml4 (k_pg s)));
  assert_test (negb (virt =? 0)) ;;
  e ← load64 (entry pml4 (pml4_idx virt));
  assert_test (negb (Z.land e X86_PAGE_PRESENT =? 0)) ;;
  pdpt ← map_page_tmp fuel (Z.land e ADDR_MASK);
  e ← load64 (entry pdpt (pdpt_idx virt));
  assert_test (negb (Z.land e X86_PAGE_PRESENT =? 0)) ;;
  pd ← map_page_tmp fuel (Z.land e ADDR_MASK);
  e ← load64 (entry pd (pd_idx virt));
  assert_test (negb (Z.land e X86_PAGE_PRESENT =? 0)) ;;
  pt ← map_page_tmp fuel (Z.land e ADDR_MASK);
  e ← load64 (entry pt (pt_idx virt));
  mret (Z.lor (Z.land e ADDR_MASK) (Z.land virt 0xFFF)).

(** [for (p = start & ~0xFFF; p < end; p += PAGE_SIZE) invlpg(p)] *)
Fixpoint refresh_loop (fuel : nat) (p e : Z) : M kernel unit :=
  match fuel with
  | O => halt OutOfFuel
  | S k => if p <? e then emit (Invlpg p) ;; refresh_loop k (add64 p PAGE_SIZE) e else mret tt
  end.

Definition refresh_pages (fuel : nat) (start e : Z) : M kernel unit :=
  refresh_loop fuel (Z.land start (w64 (Z.lnot 0xFFF))) e.

Definition premap_anon (fuel : nat) (phys len flags : Z) : M kernel Z :=
  let aligned := Z.land phys (w64 (Z.lnot 0xFFF)) in
  let offset := sub64 phys aligned in
  ACQUIRE (fun s => end_pos_lock (k_pg s)) set_end_pos_lock ;;
  ep ← gets (fun s => end_pos (k_pg s));
  let res := add64 ep offset in
  premap_pages fuel ep aligned len flags ;;
  modify (set_end_pos (round_up_page (add64 ep len))) ;;
  ep' ← gets (fun s => end_pos (k_pg s));
  refresh_pages fuel res ep' ;;
  RELEASE set_end_pos_lock ;;
  mret res.

Definition unmap_pages (fuel : nat) (virt len : Z) : M kernel unit :=
  premap_pages fuel virt 0 len 0 ;;
  refresh_pages fuel virt (round_up_page (add64 virt len)).

(** The linker's section bounds. *)
Record sections := Sections {
  text_start : Z; text_end : Z;
  rodata_start : Z; rodata_end : Z;
  data_start : Z; data_end : Z;
  kern_end : Z;
}.

Definition set_kern_resp (vb pb : Z) (s : kernel) : kernel :=
  let g := k_pg s in
  set_pg (PagingGlobals (brk g) (miniheap_end g) (miniheap_lock g) (end_pos g) (end_pos_lock g)
    vb pb (kpml4 g) (kspace g) (page_tmp g) (alias g)) s.

(** [kern_addr_req.response] is NULL or the pair (virtual_base, physical_base). *)
Definition map_kern_pages (fuel : nat) (response : option (Z * Z)) (sec : sections) : M kernel unit :=
  match response with
  | None => halt Panic
  | Some (vb, pb) =>
      modify (set_kern_resp vb pb) ;;
      ACQUIRE (fun s => end_pos_lock (k_pg s)) set_end_pos_lock ;;
      g ← gets k_pg;
      premap_pages fuel (text_start sec) (VK2PHYSK g (text_start sec))
        (sub64 (text_end sec) (text_start sec)) PAGE_PRESENT ;;
      premap_pages fuel (rodata_start sec) (VK2PHYSK g (rodata_start sec))
        (sub64 (rodata_end sec) (rodata_start sec)) (Z.lor PAGE_PRESENT PAGE_NX) ;;
      premap_pages fuel (data_start sec) (VK2PHYSK g (data_start sec))
        (sub64 (data_end sec) (data_start sec)) (Z.lor (Z.lor PAGE_PRESENT PAGE_NX) PAGE_WRITABLE) ;;
      modify (set_end_pos (round_up_page (kern_end sec))) ;;
      RELEASE set_end_pos_lock
  end.

Definition set_vaddr (v : Z) (s : kernel) : kernel :=
  let g := k_scr s in
  set_scr (ScreenGlobals v (scr_paddr g) (scr_width g) (scr_height g) (scr_pitch g)
    (scr_bpp g) (red_mask_shift g) (green_mask_shift g) (blue_mask_shift g)
    (con_x g) (con_y g) (con_color g) (serial_ok g)) s.

(** [size_t len = pitch * (bpp/8) * height] in [uint32_t] arithmetic. *)
Definition map_screen (fuel : nat) : M kernel unit :=
  g ← gets k_scr;
  let len := mul32 (mul32 (scr_pitch g) (scr_bpp g / 8)) (scr_height g) in
  ACQUIRE (fun s => end_pos_lock (k_pg s)) set_end_pos_lock ;;
  ep ← gets (fun s => end_pos (k_pg s));
  premap_pages fuel ep (scr_paddr g) len (Z.lor (Z.lor PAGE_PRESENT PAGE_WRITABLE) PAGE_NX) ;;
  modify (set_vaddr ep) ;;
  modify (set_end_pos (round_up_page (add64 ep len))) ;;
  RELEASE set_end_pos_lock.
