(* ===== verification/PageWalk.v ===== *)
(** * What the page tables mean

    [walk], of Paging.v, is the processor's four-level page walk; its [see] tells at which
    address the kernel sees a page frame, which for the tables of the boot is their place
    in the kernel's image, and for those of a process is in the process's own map.
    [tables_at] says that the tables below a root form a tree in which no page is shared,
    abstracted as the map [T] from the path of indices that leads to a table to the table's
    address.  Under it a walk is a lookup in [T], and a write to one entry changes the walks
    through that entry only. *)
From S2P Require Import Prelude Memory Mem Pow2 State Paging.

(** ** Addresses *)

(** The physical address an entry and a virtual address give. *)
Definition phys_of (e va : Z) : Z := Z.lor (Z.land e ADDR_MASK) (Z.land va 0xFFF).

(** The number of the page of [va] among the 2^36 a walk tells apart. *)
Definition vpn (va : Z) : Z := va / 2 ^ 12 mod 2 ^ 36.

(** The path to the last-level table of [va]. *)
Definition table_path (va : Z) : list Z := [pml4_idx va; pdpt_idx va; pd_idx va].

Lemma idx_eq va k : 0 <= k -> Z.land (Z.shiftr va k) 0x1FF = va / 2 ^ k mod 2 ^ 9.
Proof. intros. change 0x1FF with (Z.ones 9). rewrite Z.land_ones by lia. by rewrite Z.shiftr_div_pow2. Qed.

Lemma idx_range va k : 0 <= k -> 0 <= Z.land (Z.shiftr va k) 0x1FF < 512.
Proof. intros. rewrite idx_eq by done. apply Z.mod_pos_bound. lia. Qed.

Lemma path_range va i : i ∈ table_path va -> 0 <= i < 512.
Proof.
  unfold table_path, pml4_idx, pdpt_idx, pd_idx. rewrite !elem_of_cons.
  intros [-> |[-> |[-> |H%elem_of_nil]]]; [by apply idx_range..|done].
Qed.

(** The four indices determine the page. *)
Lemma vpn_inj a b : table_path a = table_path b -> pt_idx a = pt_idx b -> vpn a = vpn b.
Proof.
  unfold table_path, pml4_idx, pdpt_idx, pd_idx, pt_idx, vpn. rewrite !idx_eq by lia.
  intros [= H1 H2 H3] H4.
  assert (Hd : forall x k, 0 <= k -> x / 2 ^ (12 + k) = x / 2 ^ 12 / 2 ^ k).
  { intros x k Hk. rewrite Z.pow_add_r, Z.div_div; lia. }
  change 39 with (12 + 27) in H1. change 30 with (12 + 18) in H2. change 21 with (12 + 9) in H3.
  rewrite !(Hd _ 27), !(Hd _ 18), !(Hd _ 9) in * by lia.
  generalize dependent (a / 2 ^ 12). generalize dependent (b / 2 ^ 12). intros y x.
  clear. change (2 ^ 36) with (2 ^ 9 * (2 ^ 9 * (2 ^ 9 * 2 ^ 9))).
  rewrite !Z.rem_mul_r, !Z.div_div by lia. change (2 ^ 9 * 2 ^ 9) with (2 ^ 18).
  change (2 ^ 18 * 2 ^ 9) with (2 ^ 27). change (2 ^ 9 * 2 ^ 18) with (2 ^ 27). intros. congruence.
Qed.

Lemma idx_vpn va k : 0 <= k <= 27 -> va / 2 ^ (12 + k) mod 2 ^ 9 = vpn va / 2 ^ k mod 2 ^ 9.
Proof.
  intros Hk. unfold vpn. apply Z.bits_inj'. intros n Hn.
  destruct (decide (n < 9)).
  - rewrite !Z.mod_pow2_bits_low, !Z.div_pow2_bits, Z.mod_pow2_bits_low, Z.div_pow2_bits by lia.
    f_equal. lia.
  - by rewrite !Z.mod_pow2_bits_high by lia.
Qed.

(** ... and the page determines the indices. *)
Lemma vpn_path a b : vpn a = vpn b <-> table_path a = table_path b /\ pt_idx a = pt_idx b.
Proof.
  split; [|intros [? ?]; by apply vpn_inj]. intros H.
  unfold table_path, pml4_idx, pdpt_idx, pd_idx, pt_idx. rewrite !idx_eq by lia.
  change 39 with (12 + 27). change 30 with (12 + 18). change 21 with (12 + 9).
  change (2 ^ 12) with (2 ^ (12 + 0)). rewrite !idx_vpn by lia. by rewrite H.
Qed.

(** ** Trees of tables *)

Record tables_at (m : gmap Z Z) (see : Z -> option Z) (pml4 : Z) (T : gmap (list Z) Z) : Prop := {
  ta_root : T !! [] = Some pml4;
  ta_page p t : T !! p = Some t -> 0 <= t /\ (4096 | t) /\ mapped m t 4096;
  ta_inj p q t : T !! p = Some t -> T !! q = Some t -> p = q;
  ta_child p t i : T !! p = Some t -> (length p < 3)%nat -> 0 <= i < 512 ->
    child m see t i = T !! (p ++ [i]);
  ta_closed p i t : T !! (p ++ [i]) = Some t ->
    is_Some (T !! p) /\ 0 <= i < 512 /\ (length p < 3)%nat;
}.

(** The bytes of the tables. *)
Definition in_tables (T : gmap (list Z) Z) (x : Z) : Prop :=
  exists p t, T !! p = Some t /\ within t 4096 x.

Section tables.
Context {m : gmap Z Z} {see : Z -> option Z} {pml4 : Z} {T : gmap (list Z) Z}.
Context (HT : tables_at m see pml4 T).

(** Tables do not overlap. *)
Lemma tables_apart p q t u : T !! p = Some t -> T !! q = Some u -> p <> q ->
  t + 4096 <= u \/ u + 4096 <= t.
Proof.
  intros Hp Hq Hne. destruct (ta_page _ _ _ _ HT _ _ Hp) as (_ & [a Ha] & _).
  destruct (ta_page _ _ _ _ HT _ _ Hq) as (_ & [b Hb] & _).
  assert (a <> b); [|lia]. intros ->. apply Hne. subst t u. by eapply (ta_inj _ _ _ _ HT).
Qed.

Lemma entry_mapped p t i : T !! p = Some t -> 0 <= i < 512 -> mapped m (entry t i) 8.
Proof.
  intros Hp Hi. eapply mapped_sub; [by eapply ta_page| |]; unfold entry; lia.
Qed.

Lemma entry_value p t i : T !! p = Some t -> 0 <= i < 512 -> exists e, read64 m (entry t i) = Some e.
Proof. intros Hp Hi. apply read64_is_Some. by eapply entry_mapped. Qed.

(** Entries at different places do not overlap. *)
Lemma entries_apart p q t u i j : T !! p = Some t -> T !! q = Some u ->
  0 <= i < 512 -> 0 <= j < 512 -> (p, i) <> (q, j) ->
  entry t i + 8 <= entry u j \/ entry u j + 8 <= entry t i.
Proof.
  intros Hp Hq Hi Hj Hne. unfold entry. destruct (decide (p = q)) as [->|Hpq].
  - assert (t = u) as -> by congruence. assert (i <> j) by congruence. lia.
  - destruct (tables_apart p q t u Hp Hq Hpq); lia.
Qed.

(** One level down. *)
Lemma child_lookup p i {B} (k : Z -> option B) : (length p < 3)%nat -> 0 <= i < 512 ->
  (T !! p ≫= fun t => child m see t i ≫= k) = T !! (p ++ [i]) ≫= k.
Proof.
  intros Hl Hi. destruct (T !! p) as [t|] eqn:Hp; simpl.
  - by rewrite (ta_child _ _ _ _ HT p t i).
  - destruct (T !! (p ++ [i])) eqn:Hc; [|done].
    apply (ta_closed _ _ _ _ HT) in Hc as [[? ?] _]. congruence.
Qed.

(** A walk is a lookup of the last-level table and of its entry. *)
Lemma walk_lookup va : walk m see pml4 va = T !! table_path va ≫= fun pt => leaf m pt (pt_idx va).
Proof.
  unfold walk.
  transitivity (T !! [] ≫= fun t => child m see t (pml4_idx va) ≫= fun pdpt =>
    child m see pdpt (pdpt_idx va) ≫= fun pd => child m see pd (pd_idx va) ≫= fun pt =>
    leaf m pt (pt_idx va)); [by rewrite (ta_root _ _ _ _ HT)|].
  rewrite child_lookup by first [simpl; lia | by apply idx_range].
  rewrite child_lookup by first [simpl; lia | by apply idx_range].
  rewrite child_lookup by first [simpl; lia | by apply idx_range]. done.
Qed.
End tables.

(** ** Writing entries *)

(** A page of zeros has no present entry. *)
Lemma zero_blank m n : (forall x, within n 4096 x -> m !! x = Some 0) -> mapped m n 4096 /\
  forall j, 0 <= j < 512 -> exists e, read64 m (entry n j) = Some e /\ Z.land e X86_PAGE_PRESENT = 0.
Proof.
  intros Hz. split; [intros x Hx; rewrite Hz; [by eexists|exact Hx]|]. intros j Hj. exists 0. split; [|done].
  apply read64_zero. intros x Hx. apply Hz. unfold within, entry in *. lia.
Qed.

Lemma child_zero m see t i : read64 m (entry t i) = Some 0 -> child m see t i = None.
Proof. unfold child. by intros ->. Qed.

(** A root table without children. *)
Lemma lone_tables m see B : (4096 | B) -> 0 <= B -> mapped m B 4096 -> (forall i, 0 <= i < 512 -> child m see B i = None) ->
  tables_at m see B {[ [] := B ]}.
Proof.
  intros HB HB0 Hm Hc. assert (Ht : forall p t, ({[ [] := B ]} : gmap (list Z) Z) !! p = Some t -> p = [] /\ t = B).
  { intros p t H. by apply lookup_singleton_Some in H as [<- <-]. }
  split.
  - by apply lookup_singleton_Some.
  - by intros p t [-> ->]%Ht.
  - by intros p q t [-> _]%Ht [-> _]%Ht.
  - intros p t i [-> ->]%Ht _ Hi. rewrite Hc by done. symmetry. by apply lookup_singleton_None.
  - intros p i t [E' _]%Ht. by destruct p.
Qed.

Lemma blank_tables m see B : (4096 | B) -> 0 <= B -> (forall x, within B 4096 x -> m !! x = Some 0) ->
  tables_at m see B {[ [] := B ]}.
Proof.
  intros HB HB0 Hz. destruct (zero_blank m B Hz) as [Hm _]. apply lone_tables; [done..|].
  intros i Hi. apply child_zero, read64_zero. intros x Hx. apply Hz. unfold within, entry in *. lia.
Qed.

Lemma child_absent m see t i e : read64 m (entry t i) = Some e -> Z.land e X86_PAGE_PRESENT = 0 -> child m see t i = None.
Proof. intros He Hz. unfold child. rewrite He. simpl. by rewrite Hz. Qed.

Lemma leaf_absent m t i e : read64 m (entry t i) = Some e -> Z.land e X86_PAGE_PRESENT = 0 -> leaf m t i = None.
Proof. intros He Hz. unfold leaf. rewrite He. simpl. by rewrite Hz. Qed.

Lemma leaf_zero m t i : read64 m (entry t i) = Some 0 -> leaf m t i = None.
Proof. unfold leaf. by intros ->. Qed.

Lemma entry_in_table t i x : 0 <= i < 512 -> within (entry t i) 8 x -> within t 4096 x.
Proof. unfold within, entry. lia. Qed.

(** Writes outside the tables. *)
Lemma tables_same m m' see pml4 T :
  same_on (in_tables T) m m' -> tables_at m see pml4 T -> tables_at m' see pml4 T.
Proof.
  intros Hs HT. split; try by apply HT.
  - intros p t Hp. destruct (ta_page _ _ _ _ HT p t Hp) as (? & ? & Hm). repeat split; [done..|].
    intros x Hx. rewrite (Hs x) by (exists p, t; split; [done|exact Hx]). by apply Hm.
  - intros p t i Hp Hl Hi. rewrite <- (ta_child _ _ _ _ HT p t i) by done. unfold child.
    rewrite (read64_same m m'); [done|]. intros x Hx. apply Hs. exists p, t.
    split; [done|by eapply entry_in_table].
Qed.

Lemma walk_same m m' see pml4 T va :
  same_on (in_tables T) m m' -> tables_at m see pml4 T -> walk m' see pml4 va = walk m see pml4 va.
Proof.
  intros Hs HT. rewrite (walk_lookup HT), (walk_lookup (tables_same _ _ _ _ _ Hs HT)).
  destruct (T !! table_path va) as [pt|] eqn:Ep; [|done]. simpl. unfold leaf.
  rewrite (read64_same m); [done|]. intros x Hx. apply Hs. exists (table_path va), pt. split; [done|].
  by apply (entry_in_table pt (pt_idx va)); [apply idx_range|].
Qed.

(** Of [see] only the values matter. *)
Lemma child_sees m see see' t i : (forall P, see' P = see P) -> child m see' t i = child m see t i.
Proof. intros Hs. unfold child. destruct (read64 m (entry t i)); [|done]. simpl. by rewrite Hs. Qed.

Lemma tables_sees m see see' pml4 T : (forall P, see' P = see P) -> tables_at m see pml4 T -> tables_at m see' pml4 T.
Proof.
  intros Hs HT. split; try by apply HT. intros p t i ???. rewrite (child_sees m see see') by done. by apply HT.
Qed.

Lemma walk_sees m see see' pml4 va : (forall P, see' P = see P) -> walk m see' pml4 va = walk m see pml4 va.
Proof.
  intros Hs. unfold walk. rewrite (child_sees m see see') by done. destruct (child m see pml4 _); [|done]. simpl.
  rewrite (child_sees m see see') by done. destruct (child m see _ _); [|done]. simpl. by rewrite (child_sees m see see').
Qed.

Lemma image_bases g g' P : virtual_base g' = virtual_base g -> physical_base g' = physical_base g -> image g' P = image g P.
Proof. intros Hv Hp. unfold PHYSK2VK. by rewrite Hv, Hp. Qed.

Section write.
Context {m : gmap Z Z} {see : Z -> option Z} {pml4 : Z} {T : gmap (list Z) Z}.
Context (HT : tables_at m see pml4 T).
Context (p : list Z) (t i v : Z).
Context (Hp : T !! p = Some t) (Hi : 0 <= i < 512) (Hv : u64 v).

(** Every other entry keeps its value. *)
Lemma write_other q u j : T !! q = Some u -> 0 <= j < 512 -> (q, j) <> (p, i) ->
  read64 (write64 m (entry t i) v) (entry u j) = read64 m (entry u j).
Proof. intros Hq Hj Hne. apply read64_write64_ne. by eapply (entries_apart HT). Qed.

(** An entry of a last-level table: the tree stays, and so do the walks of every other
    page. *)
Lemma write_leaf_tables : length p = 3%nat -> tables_at (write64 m (entry t i) v) see pml4 T.
Proof.
  intros Hl. split; try by apply HT.
  - intros q u Hq. destruct (ta_page _ _ _ _ HT q u Hq) as (? & ? & ?).
    repeat split; [done..|by apply write64_mapped].
  - intros q u j Hq Hlq Hj. rewrite <- (ta_child _ _ _ _ HT q u j) by done. unfold child.
    rewrite (write_other q u j); [done..|]. intros [= -> _]. lia.
Qed.

Lemma write_leaf_walk va : length p = 3%nat ->
  walk (write64 m (entry t i) v) see pml4 va =
    if bool_decide (table_path va = p /\ pt_idx va = i)
    then (if Z.land v X86_PAGE_PRESENT =? 0 then None else Some v) else walk m see pml4 va.
Proof.
  intros Hl. rewrite (walk_lookup (write_leaf_tables Hl)), (walk_lookup HT).
  destruct (T !! table_path va) as [u|] eqn:Hu; simpl; case_bool_decide as Hc.
  - destruct Hc as [Hpt <-]. assert (u = t) as -> by congruence.
    unfold leaf. by rewrite read64_write64_eq.
  - unfold leaf. rewrite (write_other _ _ _ Hu); [done|by apply idx_range|naive_solver].
  - destruct Hc as [Hpt _]. congruence.
  - done.
Qed.

(** A new table [n], without a present entry, hung on an absent entry.  The kernel may
    see its frame from now on only, as long as no entry led there before. *)
Context (n : Z) (Hn : 0 <= n) (Hna : (4096 | n)) (Hnm : mapped m n 4096).
Context (Hblank : forall j, 0 <= j < 512 -> exists e, read64 m (entry n j) = Some e /\ Z.land e X86_PAGE_PRESENT = 0).
Context (Hfresh : forall x, within n 4096 x -> ~ in_tables T x).

Local Abbreviation m' := (write64 m (entry t i) v).
Local Abbreviation T' := (<[p ++ [i] := n]> T).

Lemma new_blank j : 0 <= j < 512 -> exists e, read64 m' (entry n j) = Some e /\ Z.land e X86_PAGE_PRESENT = 0.
Proof.
  intros Hj. destruct (Hblank j Hj) as (e & He & Hz). exists e. split; [|done]. rewrite <- He.
  apply read64_same. intros x Hx. apply write64_lookup_ne. intros Hx'.
  apply (Hfresh x); [by apply (entry_in_table n j)|]. exists p, t. split; [done|by apply (entry_in_table t i)].
Qed.

Lemma new_not_table q u : T !! q = Some u -> u <> n.
Proof.
  intros Hq ->. apply (Hfresh n); [unfold within; lia|]. exists q, n. split; [done|unfold within; lia].
Qed.

Context (Hl : (length p < 3)%nat) (Habs : T !! (p ++ [i]) = None).
Context (see' : Z -> option Z) (Hpres : Z.land v X86_PAGE_PRESENT <> 0) (Hptr : see' (Z.land v ADDR_MASK) = Some n).
Context (Hsee : forall q u j e, T !! q = Some u -> (length q < 3)%nat -> 0 <= j < 512 -> read64 m (entry u j) = Some e ->
  Z.land e X86_PAGE_PRESENT <> 0 -> see' (Z.land e ADDR_MASK) = see (Z.land e ADDR_MASK)).

Lemma child_grown q u j : T !! q = Some u -> (length q < 3)%nat -> 0 <= j < 512 -> (q, j) <> (p, i) ->
  child m' see' u j = child m see u j.
Proof.
  intros Hq Hlq Hj Hne. unfold child. rewrite (write_other q u j) by done.
  destruct (read64 m (entry u j)) as [e|] eqn:He; [|done]. simpl.
  destruct (Z.eqb_spec (Z.land e X86_PAGE_PRESENT) 0); [done|]. by eapply Hsee.
Qed.

Lemma grow_tables : tables_at m' see' pml4 T'.
Proof.
  split.
  - rewrite lookup_insert_ne; [by apply HT|]. by destruct p.
  - intros q u. rewrite lookup_insert_Some. intros [[<- <-]|[_ Hq]].
    + repeat split; [done..|]. by apply write64_mapped.
    + destruct (ta_page _ _ _ _ HT q u Hq) as (? & ? & ?). repeat split; [done..|by apply write64_mapped].
  - intros q r u. rewrite !lookup_insert_Some. intros [[<- <-]|[_ Hq]] [[<- Hr]|[_ Hr]]; [done|..].
    + by apply new_not_table in Hr.
    + subst u. by apply new_not_table in Hq.
    + by eapply (ta_inj _ _ _ _ HT).
  - intros q u j Hq Hlq Hj. apply lookup_insert_Some in Hq as [[<- <-]|[Hne Hq]].
    + destruct (new_blank j Hj) as (e & He & Hz). rewrite (child_absent _ _ _ _ e) by done.
      symmetry. apply lookup_insert_None. split.
      * destruct (T !! ((p ++ [i]) ++ [j])) eqn:E; [|done].
        apply (ta_closed _ _ _ _ HT) in E as [[? ?] _]. congruence.
      * intros E%(f_equal length). rewrite !length_app in E. simpl in E. lia.
    + destruct (decide ((q, j) = (p, i))) as [[= -> ->]|Hqj].
      * rewrite lookup_insert_eq. assert (u = t) as -> by congruence. unfold child.
        rewrite read64_write64_eq by done. simpl. by destruct (Z.eqb_spec (Z.land v X86_PAGE_PRESENT) 0).
      * rewrite lookup_insert_ne.
        -- rewrite <- (ta_child _ _ _ _ HT q u j) by done. by apply (child_grown q u j).
        -- intros E%app_inj_tail. destruct E as [-> ->]. done.
  - intros q j u. rewrite lookup_insert_Some. intros [[E <-]|[_ Hq]].
    + apply app_inj_tail in E as [-> ->]. repeat split; [|lia..|done].
      exists t. rewrite lookup_insert_ne; [done|]. intros E%(f_equal length).
      rewrite length_app in E. simpl in E. lia.
    + apply (ta_closed _ _ _ _ HT) in Hq as (Hq & ? & ?). repeat split; [|lia..|done].
      apply lookup_insert_is_Some'. by right.
Qed.

Lemma grow_walk va : walk m' see' pml4 va = walk m see pml4 va.
Proof.
  rewrite (walk_lookup grow_tables), (walk_lookup HT).
  destruct (decide (table_path va = p ++ [i])) as [E|E].
  - rewrite E, lookup_insert_eq, Habs. simpl. destruct (new_blank (pt_idx va)) as (e & He & Hz); [by apply idx_range|].
    by apply (leaf_absent _ _ _ e).
  - rewrite lookup_insert_ne by done. destruct (T !! table_path va) as [u|] eqn:Hu; simpl; [|done].
    unfold leaf. rewrite (write_other _ _ _ Hu); [done|by apply idx_range|].
    intros [= E' _]. rewrite <- E' in Hl. simpl in Hl. lia.
Qed.
End write.
