(* ===== verification/PagingTheorems.v ===== *)
(** * The early page tables are right

    [premap_pages], [premap_anon], [unmap_pages] and [kvirt2phys] of kernel/arch/x86_64/paging.c against
    the processor's page walk: the pages asked for are mapped to the frames asked for,
    every other page is translated as before, nothing outside the tables is written, and
    [kvirt2phys] computes the walk. *)
From S2P Require Import Prelude Memory Mem Pow2 State Devices Paging PageWalk.

(** The walk from the kernel's root table. *)
Definition kwalk (s : kernel) (va : Z) : option Z := walk (k_mem s) (image (k_pg s)) (kpml4 (k_pg s)) va.

(** The tables form a tree; the mini heap is the zeroed page range [brk, miniheap_end),
    apart from them and inside the kernel image. *)
Record paging_inv (s : kernel) (T : gmap (list Z) Z) : Prop := {
  pi_tables : tables_at (k_mem s) (image (k_pg s)) (kpml4 (k_pg s)) T;
  pi_lock : miniheap_lock (k_pg s) = false;
  pi_bases : (4096 | virtual_base (k_pg s)) /\ (4096 | physical_base (k_pg s)) /\
    0 <= virtual_base (k_pg s) <= brk (k_pg s) /\ 0 <= physical_base (k_pg s);
  pi_brk : (4096 | brk (k_pg s));
  pi_end : miniheap_end (k_pg s) <= 2 ^ 64 - 2 ^ 13 /\
    miniheap_end (k_pg s) - virtual_base (k_pg s) + physical_base (k_pg s) <= 2 ^ 63;
  pi_zero x : brk (k_pg s) <= x < miniheap_end (k_pg s) -> k_mem s !! x = Some 0;
  pi_apart x : in_tables T x -> x < brk (k_pg s) \/ miniheap_end (k_pg s) <= x;
}.

(** [k] more tables at most, all from the mini heap; [V] are the pages whose
    translation may change; nothing but the tables, the break of the mini heap and the
    hardware's log is written. *)
Record grown (V : Z -> Prop) (k : Z) (s : kernel) (T : gmap (list Z) Z) (s' : kernel) (T' : gmap (list Z) Z) : Prop := {
  gr_inv : paging_inv s' T';
  gr_state : exists m b d, s' = set_dev d (set_mem m (set_brk b s));
  gr_brk : brk (k_pg s') <= brk (k_pg s) + 4096 * k;
  gr_low : brk (k_pg s) <= brk (k_pg s');
  gr_tables : T ⊆ T';
  gr_same : same_on (fun x => ~ in_tables T' x) (k_mem s) (k_mem s');
  gr_walk va : ~ V (vpn va) -> kwalk s' va = kwalk s va;
  gr_fresh x : in_tables T' x -> in_tables T x \/ brk (k_pg s) <= x < miniheap_end (k_pg s);
}.

Lemma in_tables_mono T T' x : T ⊆ T' -> in_tables T x -> in_tables T' x.
Proof. intros H (p & t & Hp & Hx). exists p, t. split; [by eapply lookup_weaken|done]. Qed.

Lemma grown_end V k s T s' T' : grown V k s T s' T' -> miniheap_end (k_pg s') = miniheap_end (k_pg s).
Proof. intros H. by destruct (gr_state _ _ _ _ _ _ H) as (? & ? & ? & ->). Qed.

Lemma grown_refl V s T : paging_inv s T -> grown V 0 s T s T.
Proof. intros H. split; [done| |lia|lia|done|done|done|by left].
  exists (k_mem s), (brk (k_pg s)), (k_dev s). by destruct s as [? ? ? ? []]. Qed.

Lemma grown_trans V j k s1 T1 s2 T2 s3 T3 :
  grown V j s1 T1 s2 T2 -> grown V k s2 T2 s3 T3 -> grown V (j + k) s1 T1 s3 T3.
Proof.
  intros H1 H2. split; [by eapply gr_inv| | | | | | |].
  - destruct (gr_state _ _ _ _ _ _ H1) as (? & ? & ? & ->), (gr_state _ _ _ _ _ _ H2) as (m & b & d & ->).
    by exists m, b, d.
  - pose proof (gr_brk _ _ _ _ _ _ H1). pose proof (gr_brk _ _ _ _ _ _ H2). lia.
  - pose proof (gr_low _ _ _ _ _ _ H1). pose proof (gr_low _ _ _ _ _ _ H2). lia.
  - etrans; [by eapply gr_tables|by eapply gr_tables].
  - intros x Hx. rewrite (gr_same _ _ _ _ _ _ H2) by done. apply (gr_same _ _ _ _ _ _ H1).
    intros Hx'. apply Hx. by eapply in_tables_mono; [eapply gr_tables|].
  - intros va Hva. rewrite (gr_walk _ _ _ _ _ _ H2) by done. by eapply gr_walk.
  - intros x Hx. pose proof (grown_end _ _ _ _ _ _ H1) as He. pose proof (gr_low _ _ _ _ _ _ H1).
    destruct (gr_fresh _ _ _ _ _ _ H2 x Hx) as [Hx'|Hx']; [by apply (gr_fresh _ _ _ _ _ _ H1)|]. right. lia.
Qed.

Lemma grown_weaken (V W : Z -> Prop) j k s T s' T' :
  grown V j s T s' T' -> (forall n, V n -> W n) -> j <= k -> grown W k s T s' T'.
Proof.
  intros [? ? ? ? ? ? Hw ?] HVW Hjk. split; try done; [lia|]. intros va Hva. apply Hw. auto.
Qed.

(** Reads the globals of an updated state. *)
Ltac pg_simpl := cbn [k_pg k_mem set_mem set_brk set_pg brk miniheap_end miniheap_lock virtual_base
  physical_base kpml4 page_tmp alias] in *.

(** ** One table entry *)

Lemma addr_mask x : Z.land x ADDR_MASK = x / 4096 mod 2 ^ 51 * 4096.
Proof.
  change ADDR_MASK with (Z.shiftl (Z.ones 51) 12). change 4096 with (2 ^ 12).
  rewrite <- Z.shiftl_mul_pow2, <- Z.land_ones, <- Z.shiftr_div_pow2 by lia.
  apply Z.bits_inj'. intros n Hn. rewrite Z.land_spec, !Z.shiftl_spec, Z.land_spec by lia.
  destruct (decide (n < 12)).
  - rewrite !(Z.testbit_neg_r _ (n - 12)) by lia. by rewrite andb_false_r.
  - rewrite Z.shiftr_spec by lia. do 2 f_equal. lia.
Qed.

(** An aligned address with the flags of an entry. *)
Lemma lor_aligned P f : (4096 | P) -> 0 <= f < 4096 -> Z.lor P f = P + f.
Proof.
  intros [q ->] Hf. rewrite <- Z.lxor_lor; [symmetry; apply Z.add_nocarry_lxor|];
    (apply Z.bits_inj'; intros n Hn; rewrite Z.land_spec, Z.bits_0; change 4096 with (2 ^ 12);
     rewrite <- Z.shiftl_mul_pow2 by lia; destruct (decide (n < 12));
     [by rewrite Z.shiftl_spec_low|];
     rewrite (Z.bits_above_log2 f), andb_false_r; [done|lia|];
     destruct (decide (f = 0)) as [->|]; [simpl; lia|]; apply Z.log2_lt_pow2; [lia|];
     assert (2 ^ 12 <= 2 ^ n) by (apply Z.pow_le_mono_r; lia); lia).
Qed.

Lemma phys_entry P : 0 <= P < 2 ^ 63 -> (4096 | P) ->
  u64 (Z.lor P top_flags) /\ Z.land (Z.lor P top_flags) X86_PAGE_PRESENT <> 0 /\
  Z.land (Z.lor P top_flags) ADDR_MASK = P.
Proof.
  intros HP Ha. change top_flags with 7. rewrite lor_aligned by (done || lia). destruct Ha as [q ->].
  unfold u64. split; [lia|]. split.
  - change X86_PAGE_PRESENT with (Z.ones 1). rewrite Z.land_ones by lia. divlia.
  - rewrite addr_mask. rewrite Z.div_add_l, (Z.div_small 7), Z.mod_small by lia. lia.
Qed.

(** The kernel image's physical addresses. *)
Lemma image_phys s T n : paging_inv s T -> brk (k_pg s) <= n -> n + 4096 <= miniheap_end (k_pg s) ->
  (4096 | n) ->
  let P := VK2PHYSK (k_pg s) n in
  0 <= P < 2 ^ 63 /\ (4096 | P) /\ PHYSK2VK (k_pg s) P = n.
Proof.
  intros [_ _ (Hvb & Hpb & ? & ?) _ [? ?] _ _] Hn He Ha P.
  assert (HP : P = n - virtual_base (k_pg s) + physical_base (k_pg s)).
  { unfold P, VK2PHYSK. by rewrite sub64_small, add64_small by lia. }
  split; [lia|]. split.
  - rewrite HP. apply Z.divide_add_r; [by apply Z.divide_sub_r|done].
  - unfold PHYSK2VK, add64, sub64, w64. rewrite Zplus_mod_idemp_l, HP, Z.mod_small; lia.
Qed.

Lemma miniheap_run s : miniheap_lock (k_pg s) = false -> 0 <= brk (k_pg s) ->
  brk (k_pg s) + 4096 <= miniheap_end (k_pg s) -> miniheap_end (k_pg s) < 2 ^ 64 ->
  miniheap_alloc PAGE_SIZE s = Done (brk (k_pg s)) (set_brk (brk (k_pg s) + 4096) s).
Proof.
  intros Hl Hb He Hw. destruct s as [m pa cpu pr [b e l ep el vb pb k4 ks pt al] dv sc tm bt].
  cbn [k_pg brk miniheap_end miniheap_lock] in *. subst l.
  unfold miniheap_alloc. erewrite run_bind by reflexivity. erewrite run_bind by reflexivity.
  erewrite run_bind by reflexivity. erewrite run_bind by reflexivity. erewrite run_bind by reflexivity.
  cbn [k_pg set_brk set_pg set_miniheap_lock brk miniheap_end].
  change (round_up_page PAGE_SIZE) with 4096. rewrite add64_small by lia.
  rewrite (proj2 (Z.ltb_ge e _)) by lia. done.
Qed.

(** A table that is there is followed. *)
Lemma premap_table_hit s T p t i t' : paging_inv s T -> T !! p = Some t -> (length p < 3)%nat ->
  0 <= i < 512 -> T !! (p ++ [i]) = Some t' -> premap_table t i s = Done t' s.
Proof.
  intros HI Hp Hl Hi Hc. pose proof (pi_tables _ _ HI) as HT.
  rewrite <- (ta_child _ _ _ _ HT p t i) in Hc by done.
  destruct (entry_value HT p t i Hp Hi) as [e He]. unfold child in Hc. rewrite He in Hc. simpl in Hc.
  unfold premap_table. rewrite (run_bind _ _ _ _ _ (kload64 _ _ _ He)).
  destruct (Z.land e X86_PAGE_PRESENT =? 0); [done|]. injection Hc as <-.
  erewrite run_bind by reflexivity. by rewrite (run_bind _ _ _ _ _ (kload64 _ _ _ He)).
Qed.

(** A table that is not there is taken from the mini heap. *)
Lemma premap_table_new s T p t i : paging_inv s T -> T !! p = Some t -> (length p < 3)%nat ->
  0 <= i < 512 -> T !! (p ++ [i]) = None -> brk (k_pg s) + 4096 <= miniheap_end (k_pg s) ->
  let n := brk (k_pg s) in
  let v := Z.lor (VK2PHYSK (k_pg s) n) top_flags in
  premap_table t i s = Done n (set_mem (write64 (k_mem s) (entry t i) v) (set_brk (n + 4096) s)).
Proof.
  intros HI Hp Hl Hi Hc He n v. pose proof (pi_tables _ _ HI) as HT.
  pose proof (pi_end _ _ HI) as [? ?]. pose proof (pi_bases _ _ HI) as (_ & _ & ? & _).
  destruct (image_phys _ _ n HI) as (HP & HPa & HPv); [lia|done|by apply HI|].
  destruct (phys_entry _ HP HPa) as (Hv & Hpres & Hmask). fold v in Hv, Hpres, Hmask.
  rewrite <- (ta_child _ _ _ _ HT p t i) in Hc by done.
  destruct (entry_value HT p t i Hp Hi) as [e Hev]. unfold child in Hc. rewrite Hev in Hc. simpl in Hc.
  unfold premap_table. rewrite (run_bind _ _ _ _ _ (kload64 _ _ _ Hev)).
  destruct (Z.land e X86_PAGE_PRESENT =? 0); [|done].
  assert (Hw : (p ← miniheap_alloc PAGE_SIZE; g ← gets k_pg;
      store64 (entry t i) (Z.lor (VK2PHYSK g p) top_flags)) s =
    Done tt (set_mem (write64 (k_mem s) (entry t i) v) (set_brk (n + 4096) s))).
  { rewrite (run_bind _ _ _ _ _ (miniheap_run s (pi_lock _ _ HI) ltac:(lia) He ltac:(lia))).
    erewrite run_bind by reflexivity. rewrite kstore64 by by eapply (entry_mapped HT). done. }
  rewrite (run_bind _ _ _ _ _ Hw).
  rewrite (run_bind _ _ _ _ _ (kload64 (set_mem _ _) (entry t i) v
    (read64_write64_eq (k_mem s) (entry t i) v Hv))).
  erewrite run_bind by reflexivity. rewrite Hmask. unfold mret, M_ret. f_equal. exact HPv.
Qed.

Lemma premap_table_spec s T p t i : paging_inv s T -> T !! p = Some t -> (length p < 3)%nat ->
  0 <= i < 512 -> brk (k_pg s) + 4096 <= miniheap_end (k_pg s) ->
  wp (premap_table t i) (fun t' s' => exists T',
    grown (fun _ => False) 1 s T s' T' /\ T' !! (p ++ [i]) = Some t') s.
Proof.
  intros HI Hp Hl Hi He. destruct (T !! (p ++ [i])) as [t'|] eqn:Hc.
  { eapply wp_run; [by eapply premap_table_hit|]. exists T. split; [|done].
    apply (grown_weaken (fun _ => False) (fun _ => False) 0 1); [by apply grown_refl|tauto|lia]. }
  eapply wp_run; [by eapply premap_table_new|].
  pose proof HI as [HT Hlk Hb Hba Hend Hz Hap]. set (n := brk (k_pg s)) in *.
  assert (Hn0 : 0 <= n) by (destruct Hb as (_ & _ & ? & _); lia).
  destruct (image_phys _ _ n HI) as (HP & HPa & HPv); [lia|done|by apply HI|].
  destruct (phys_entry _ HP HPa) as (Hv & Hpres & Hmask).
  set (v := Z.lor (VK2PHYSK (k_pg s) n) top_flags) in *.
  assert (Hzero : forall x, within n 4096 x -> k_mem s !! x = Some 0).
  { intros x Hx. apply Hz. unfold within in Hx. lia. }
  destruct (zero_blank _ _ Hzero) as [Hnm Hblank].
  assert (Hfresh : forall x, within n 4096 x -> ~ in_tables T x).
  { intros x Hx [?|?]%Hap; unfold within in Hx; lia. }
  exists (<[p ++ [i] := n]> T).
  assert (Hin : forall x, within (entry t i) 8 x -> in_tables T x).
  { intros x Hx. exists p, t. split; [done|by apply (entry_in_table t i)]. }
  assert (HT' : T ⊆ <[p ++ [i] := n]> T) by by apply insert_subseteq.
  split; [|by rewrite lookup_insert_eq]. split.
  - split; try done; pg_simpl.
    + apply (tables_sees _ (image (k_pg s))); [intros P; by apply image_bases|].
      apply (grow_tables HT p t i v Hp Hi Hv n Hn0 Hba Hnm Hblank Hfresh Hl Hc); [done|by rewrite Hmask, HPv|done].
    + pg_simpl. destruct Hb as (? & ? & ? & ?). repeat split; try done; lia.
    + pg_simpl. by apply Z.divide_add_r; [|exists 1].
    + pg_simpl. intros x Hx. rewrite write64_lookup_ne; [apply Hz; lia|]. intros Hx'%Hin%Hap. lia.
    + pg_simpl. intros x (q & u & Hq & Hx). apply lookup_insert_Some in Hq as [[_ <-]|[_ Hq]].
      * unfold within in Hx. lia.
      * destruct (Hap x); [by exists q, u|lia|lia].
  - exists (write64 (k_mem s) (entry t i) v), (n + 4096), (k_dev s). by destruct s.
  - pg_simpl. lia.
  - pg_simpl. lia.
  - done.
  - intros x Hx. apply write64_lookup_ne. intros Hx'%Hin. apply Hx. by eapply in_tables_mono.
  - intros va _. unfold kwalk. etrans; [apply (walk_sees _ (image (k_pg s))); intros P; by apply image_bases|].
    apply (grow_walk HT p t i v Hp Hi Hv n Hn0 Hba Hnm Hblank Hfresh Hl Hc); [done|by rewrite Hmask, HPv|done].
  - intros x (q & u & Hq & Hx). apply lookup_insert_Some in Hq as [[_ <-]|[_ Hq]].
    + right. unfold within in Hx. lia.
    + left. by exists q, u.
Qed.

(** ** One page *)

(** The flags a caller's flags become: no-execute, bit 63, is not among them. *)
Lemma x86_flags_value flags :
  x86_flags flags = (if Z.land flags PAGE_PRESENT =? 0 then 0 else 1)
    + (if Z.land flags PAGE_WRITABLE =? 0 then 0 else 2)
    + (if Z.land flags PAGE_USER =? 0 then 0 else 4)
    + (if Z.land flags PAGE_NOCACHE =? 0 then 0 else 16).
Proof. unfold x86_flags, flag_bit. repeat case_match; reflexivity. Qed.

Lemma x86_flags_range flags : 0 <= x86_flags flags < 32.
Proof. rewrite x86_flags_value. repeat case_match; lia. Qed.

(** The entry written for a page, as a walk sees it. *)
Definition pte (src xflags : Z) : option Z :=
  let e := Z.lor (Z.land src ADDR_MASK) xflags in
  if Z.land e X86_PAGE_PRESENT =? 0 then None else Some e.

Lemma pte_u64 src xf : 0 <= xf < 32 -> u64 (Z.lor (Z.land src ADDR_MASK) xf).
Proof.
  intros Hx. rewrite addr_mask, lor_aligned by (lia || by eexists).
  pose proof (Z.mod_pos_bound (src / 4096) (2 ^ 51)). unfold u64. lia.
Qed.

Lemma pte_present src flags : Z.land flags PAGE_PRESENT <> 0 ->
  pte src (x86_flags flags) = Some (Z.lor (Z.land src ADDR_MASK) (x86_flags flags)).
Proof.
  intros Hp. unfold pte. pose proof (x86_flags_range flags).
  assert (Ho : x86_flags flags mod 2 = 1).
  { rewrite x86_flags_value, (proj2 (Z.eqb_neq _ _)) by done. repeat case_match; reflexivity. }
  assert (E : Z.land (Z.lor (Z.land src ADDR_MASK) (x86_flags flags)) X86_PAGE_PRESENT = 1).
  { change X86_PAGE_PRESENT with (Z.ones 1). rewrite Z.land_ones by lia.
    rewrite addr_mask, lor_aligned by (lia || by eexists). divlia. }
  by rewrite E.
Qed.

Lemma pte_absent src flags : Z.land flags PAGE_PRESENT = 0 -> pte src (x86_flags flags) = None.
Proof.
  intros Hp. unfold pte. pose proof (x86_flags_range flags).
  assert (Ho : x86_flags flags mod 2 = 0).
  { rewrite x86_flags_value, (proj2 (Z.eqb_eq _ _)) by done. repeat case_match; reflexivity. }
  assert (E : Z.land (Z.lor (Z.land src ADDR_MASK) (x86_flags flags)) X86_PAGE_PRESENT = 0).
  { change X86_PAGE_PRESENT with (Z.ones 1). rewrite Z.land_ones by lia.
    rewrite addr_mask, lor_aligned by (lia || by eexists). divlia. }
  by rewrite E.
Qed.

Definition pages (dst n v : Z) : Prop := exists i, 0 <= i < n /\ v = vpn (dst + 4096 * i).

Lemma pages_one dst v : pages dst 1 v <-> v = vpn dst.
Proof.
  split.
  - intros (i & Hi & ->). assert (i = 0) as -> by lia. by rewrite Z.mul_0_r, Z.add_0_r.
  - intros ->. exists 0. split; [lia|]. by rewrite Z.mul_0_r, Z.add_0_r.
Qed.

(** The last step: the entry of the page itself. *)
Lemma write_pte_spec s T dst src xf pt : paging_inv s T -> 0 <= xf < 32 ->
  T !! table_path dst = Some pt ->
  wp (store64 (entry pt (pt_idx dst)) (Z.lor (Z.land src ADDR_MASK) xf)) (fun _ s' =>
    grown (pages dst 1) 0 s T s' T /\
    forall va, vpn va = vpn dst -> kwalk s' va = pte src xf) s.
Proof.
  intros [HT Hlk Hb Hba Hend Hz Hap] Hxf Hpt.
  assert (Hi : 0 <= pt_idx dst < 512) by by apply idx_range.
  eapply wp_run; [apply kstore64; by eapply (entry_mapped HT)|].
  set (e := Z.lor (Z.land src ADDR_MASK) xf). assert (Hu : u64 e) by by apply pte_u64.
  assert (Hwalk : forall va, kwalk (set_mem (write64 (k_mem s) (entry pt (pt_idx dst)) e) s) va =
    if bool_decide (vpn va = vpn dst) then pte src xf else kwalk s va).
  { intros va. unfold kwalk at 1. cbn [k_pg k_mem set_mem].
    rewrite (write_leaf_walk HT _ _ _ _ Hpt Hi Hu) by done.
    by rewrite (bool_decide_ext _ _ (iff_sym (vpn_path va dst))). }
  assert (Hin : forall x, within (entry pt (pt_idx dst)) 8 x -> in_tables T x).
  { intros x Hx. exists (table_path dst), pt. split; [done|by apply (entry_in_table _ (pt_idx dst))]. }
  split; [|intros va Hva; rewrite Hwalk; by rewrite bool_decide_true]. split.
  - split; try done.
    + by apply (write_leaf_tables HT _ _ _ _ Hpt Hi).
    + pg_simpl. intros x Hx. rewrite write64_lookup_ne; [by apply Hz|]. intros Hx'%Hin%Hap. lia.
  - exists (write64 (k_mem s) (entry pt (pt_idx dst)) e), (brk (k_pg s)), (k_dev s). by destruct s as [? ? ? ? []].
  - pg_simpl. lia.
  - pg_simpl. lia.
  - done.
  - intros x Hx. apply write64_lookup_ne. by intros Hx'%Hin.
  - intros va Hva. rewrite Hwalk, bool_decide_false; [done|]. by rewrite <- pages_one.
  - by left.
Qed.

(** One level down, within the room of the mini heap. *)
Lemma descend V k s T s1 T1 p t i : grown V k s T s1 T1 -> T1 !! p = Some t ->
  (length p < 3)%nat -> 0 <= i < 512 -> brk (k_pg s) + (k + 1) * 4096 <= miniheap_end (k_pg s) ->
  wp (premap_table t i) (fun t' s2 => exists T2,
    grown V (k + 1) s T s2 T2 /\ T2 !! (p ++ [i]) = Some t') s1.
Proof.
  intros H Hp Hl Hi Hroom. pose proof (gr_brk _ _ _ _ _ _ H). pose proof (grown_end _ _ _ _ _ _ H).
  eapply wp_conseq; [apply (premap_table_spec s1 T1 p); [by eapply gr_inv|done..|lia]|].
  intros t' s2 (T2 & H2 & Ht). exists T2. split; [|done].
  eapply grown_trans; [exact H|]. by eapply grown_weaken; [exact H2| |].
Qed.

Lemma premap_page_spec s T dst src xf : paging_inv s T -> 0 <= xf < 32 ->
  brk (k_pg s) + 3 * 4096 <= miniheap_end (k_pg s) ->
  wp (premap_page dst src xf) (fun _ s' => exists T', is_Some (T' !! table_path dst) /\
    grown (pages dst 1) 3 s T s' T' /\ forall va, vpn va = vpn dst -> kwalk s' va = pte src xf) s.
Proof.
  intros HI Hxf Hroom. unfold premap_page. apply wp_bind, wp_gets.
  assert (Hidx : forall k, 0 <= k -> 0 <= Z.land (Z.shiftr dst k) 0x1FF < 512) by (intros; by apply idx_range).
  pose proof (ta_root _ _ _ _ (pi_tables _ _ HI)) as Hroot.
  apply wp_bind. eapply wp_conseq;
    [apply (descend (pages dst 1) 0 s T s T [] _ _ (grown_refl _ _ _ HI) Hroot); [simpl; lia|by apply Hidx|lia]|].
  intros pdpt s1 (T1 & H1 & Ht1). apply wp_bind. eapply wp_conseq;
    [apply (descend _ _ _ _ _ _ _ _ _ H1 Ht1); [simpl; lia|by apply Hidx|lia]|].
  intros pd s2 (T2 & H2 & Ht2). apply wp_bind. eapply wp_conseq;
    [apply (descend _ _ _ _ _ _ _ _ _ H2 Ht2); [simpl; lia|by apply Hidx|lia]|].
  intros pt s3 (T3 & H3 & Ht3). eapply wp_conseq;
    [apply (write_pte_spec s3 T3 dst src xf pt (gr_inv _ _ _ _ _ _ H3) Hxf Ht3)|].
  intros _ s4 [H4 Hw]. exists T3. split; [by exists pt|]. split; [|done]. exact (grown_trans _ _ _ _ _ _ _ _ _ H3 H4).
Qed.

(** A page whose tables are all there takes none from the mini heap. *)
Lemma premap_page_hit s T dst src xf pt : paging_inv s T -> 0 <= xf < 32 -> T !! table_path dst = Some pt ->
  wp (premap_page dst src xf) (fun _ s' =>
    grown (pages dst 1) 0 s T s' T /\ forall va, vpn va = vpn dst -> kwalk s' va = pte src xf) s.
Proof.
  intros HI Hxf H3. pose proof (pi_tables _ _ HI) as HT.
  assert (Hidx : forall k, 0 <= k -> 0 <= Z.land (Z.shiftr dst k) 0x1FF < 512) by (intros; by apply idx_range).
  destruct (ta_closed _ _ _ _ HT [pml4_idx dst; pdpt_idx dst] (pd_idx dst) pt H3) as [[pd H2] _].
  destruct (ta_closed _ _ _ _ HT [pml4_idx dst] (pdpt_idx dst) pd H2) as [[pdpt H1] _].
  unfold premap_page. apply wp_bind, wp_gets.
  apply wp_bind. eapply wp_run; [apply (premap_table_hit s T [] _ _ pdpt HI (ta_root _ _ _ _ HT)); [simpl; lia|by apply Hidx|done]|].
  apply wp_bind. eapply wp_run; [apply (premap_table_hit s T _ _ _ pd HI H1); [simpl; lia|by apply Hidx|done]|].
  apply wp_bind. eapply wp_run; [apply (premap_table_hit s T _ _ _ pt HI H2); [simpl; lia|by apply Hidx|done]|].
  by apply write_pte_spec.
Qed.

(** ** A range of pages *)

Lemma vpn_step dst i : 0 < i < 2 ^ 36 -> vpn (dst + 4096 * i) <> vpn dst.
Proof.
  intros Hi. unfold vpn. replace (dst + 4096 * i) with (dst + i * 2 ^ 12) by lia.
  rewrite Z.div_add by lia. divlia.
Qed.

(** [n] is the number of rounds of the loop: the guard holds before each of them and
    fails after the last. *)
Definition rounds (n dst src dst_end src_end : Z) : Prop :=
  0 <= n /\ (forall i, 0 <= i < n -> dst + 4096 * i < dst_end /\ src + 4096 * i < src_end) /\
  (dst_end <= dst + 4096 * n \/ src_end <= src + 4096 * n).

Lemma rounds_next n dst src de se : rounds (n + 1) dst src de se -> 0 <= n ->
  rounds n (dst + 4096) (src + 4096) de se.
Proof.
  intros (_ & Hi & He) Hn. split; [done|]. split; [|lia]. intros i Hin.
  specialize (Hi (i + 1)). lia.
Qed.

(** How many page tables the [n] pages from [dst] on are spread over. *)
Definition groups (dst n : Z) : Z := (dst / 4096 mod 512 + n + 511) / 512.

Lemma groups_step dst n : 0 <= dst -> 0 <= n ->
  groups (dst + 4096) n = groups dst (n + 1) /\ table_path (dst + 4096) = table_path dst \/
  groups (dst + 4096) n = groups dst (n + 1) - 1.
Proof.
  intros Hd Hn. unfold groups.
  assert (E : (dst + 4096) / 4096 = dst / 4096 + 1) by divlia. rewrite E.
  destruct (decide (dst / 4096 mod 512 = 511)) as [Hc|Hc]; [right; divlia|left]. split; [divlia|].
  assert (E2 : (dst + 4096) / 2 ^ 21 = dst / 2 ^ 21).
  { change (2 ^ 21) with (4096 * 512). rewrite <- !Z.div_div by lia. rewrite E. divlia. }
  unfold table_path, pml4_idx, pdpt_idx, pd_idx. rewrite !idx_eq by lia.
  change (2 ^ 39) with (2 ^ 21 * 2 ^ 18). change (2 ^ 30) with (2 ^ 21 * 2 ^ 9). rewrite <- !Z.div_div by lia. by rewrite E2.
Qed.

(** Tables the loop may have to make: three for each page table its pages are spread
    over, none for the first one when it is there. *)
Definition loop_room (T : gmap (list Z) Z) (dst n k : Z) : Prop :=
  0 <= k /\ 3 * groups dst n <= k + (if decide (is_Some (T !! table_path dst)) then 3 else 0).

Lemma loop_page s T dst src xf n k : paging_inv s T -> 0 <= xf < 32 -> 0 <= dst -> 0 <= n -> loop_room T dst (n + 1) k ->
  brk (k_pg s) + k * 4096 <= miniheap_end (k_pg s) ->
  wp (premap_page dst src xf) (fun _ s' => exists T' j, 0 <= j <= k /\ loop_room T' (dst + 4096) n (k - j) /\
    grown (pages dst 1) j s T s' T' /\ forall va, vpn va = vpn dst -> kwalk s' va = pte src xf) s.
Proof.
  intros HI Hxf Hd Hn [Hk Hr] Hroom. pose proof (groups_step dst n Hd Hn) as Hg.
  assert (Hg1 : 1 <= groups dst (n + 1)) by (unfold groups; divlia).
  destruct (decide (is_Some (T !! table_path dst))) as [[pt Hpt]|Hno].
  - eapply wp_conseq; [exact (premap_page_hit s T dst src xf pt HI Hxf Hpt)|]. intros [] s' [HG Hw]. exists T, 0. split; [lia|]. split; [|done].
    split; [lia|]. destruct Hg as [[-> ->]| ->]; [rewrite decide_True by (by exists pt); lia|case_decide; lia].
  - eapply wp_conseq; [apply (premap_page_spec s T); [done..|lia]|]. intros [] s' (T' & Hp & HG & Hw).
    exists T', 3. split; [lia|]. split; [|done]. split; [lia|].
    destruct Hg as [[-> ->]| ->]; [rewrite decide_True by done; lia|case_decide; lia].
Qed.

Lemma premap_loop_spec n fuel s T dst src de se xf k : (n < fuel)%nat -> paging_inv s T -> 0 <= xf < 32 ->
  rounds (Z.of_nat n) dst src de se -> Z.of_nat n <= 2 ^ 36 ->
  0 <= dst -> 0 <= src -> de <= 2 ^ 64 - 4096 -> se <= 2 ^ 64 - 4096 ->
  loop_room T dst (Z.of_nat n) k -> brk (k_pg s) + k * 4096 <= miniheap_end (k_pg s) ->
  wp (premap_loop fuel dst src de se xf) (fun _ s' => exists T',
    grown (pages dst (Z.of_nat n)) k s T s' T' /\
    forall i va, 0 <= i < Z.of_nat n -> vpn va = vpn (dst + 4096 * i) ->
      kwalk s' va = pte (src + 4096 * i) xf) s.
Proof.
  intros Hf HI Hxf. revert fuel s T dst src k Hf HI. induction n as [|n IH]; intros fuel s T dst src k Hf HI Hr.
  - intros _ _ _ _ _ [Hk _] _. destruct fuel as [|fuel]; [lia|]. destruct Hr as (_ & _ & Hr). simpl.
    replace ((dst <? de) && (src <? se)) with false; [|symmetry; apply andb_false_iff; lia].
    apply wp_ret. exists T. split; [|intros; lia].
    apply (grown_weaken (pages dst (Z.of_nat 0)) _ 0 k); [by apply grown_refl|done|lia].
  - intros Hn Hd Hs Hde Hse Hlr Hroom. destruct fuel as [|fuel]; [lia|]. cbn [premap_loop].
    destruct (proj1 (proj2 Hr) 0 ltac:(lia)) as [Hg1 Hg2].
    rewrite !(proj2 (Z.ltb_lt _ _)) by lia. cbn [andb].
    replace (Z.of_nat (S n)) with (Z.of_nat n + 1) in Hlr, Hr by lia.
    apply wp_bind. eapply wp_conseq; [apply (loop_page s T dst src xf (Z.of_nat n) k); done || lia|].
    intros [] s1 (T1 & j & Hj & Hlr1 & H1 & Hw1). pose proof (gr_brk _ _ _ _ _ _ H1).
    pose proof (grown_end _ _ _ _ _ _ H1). change PAGE_SIZE with 4096. rewrite !add64_small by lia.
    eapply wp_conseq; [apply (IH fuel s1 T1 _ _ (k - j)); try done; try lia; [by eapply gr_inv|by apply rounds_next; [|lia]]|].
    intros [] s2 (T2 & H2 & Hw2). exists T2. split.
    + eapply grown_weaken with (j := j + (k - j)); [eapply grown_trans| |lia].
      * eapply (grown_weaken _ (pages dst (Z.of_nat (S n)))); [exact H1| |done].
        intros v (i & Hi & ->). exists i. split; [lia|done].
      * eapply (grown_weaken _ (pages dst (Z.of_nat (S n)))); [exact H2| |done].
        intros v (i & Hi & ->). exists (i + 1). split; [lia|]. f_equal. lia.
      * done.
    + intros i va Hi Hva. destruct (decide (i = 0)) as [->|Hne].
      * rewrite !Z.mul_0_r, !Z.add_0_r in *. rewrite (gr_walk _ _ _ _ _ _ H2); [by apply Hw1|].
        intros (i & Hi' & E). rewrite Hva in E. apply (vpn_step dst (i + 1)); [lia|].
        rewrite E. f_equal. lia.
      * replace (src + 4096 * i) with (src + 4096 + 4096 * (i - 1)) by lia.
        apply Hw2; [lia|]. rewrite Hva. f_equal. lia.
Qed.

(** A bound for [n] pages wherever they start. *)
Definition tables_room (n : Z) : Z := 3 * ((n + 1022) / 512).

Lemma tables_room_ok T dst n : 0 <= n -> loop_room T dst n (tables_room n).
Proof.
  intros Hn. unfold loop_room, tables_room, groups. pose proof (Z.mod_pos_bound (dst / 4096) 512).
  split; [divlia|]. case_decide; divlia.
Qed.

Lemma tables_room_mono a b : a <= b -> tables_room a <= tables_room b.
Proof. intros H. unfold tables_room. divlia. Qed.

(** [page_end] rounds up to a page. *)
Lemma page_end_eq x len : 0 <= x -> 0 <= len -> x + len + 4095 < 2 ^ 64 ->
  page_end x len = 4096 * ((x + len + 4095) / 4096).
Proof.
  intros. unfold page_end. rewrite (add64_small x), add64_small by lia.
  change (w64 (Z.lnot 0xFFF)) with (w64 (Z.lnot (PAGE_SIZE - 1))). apply align_down_page. lia.
Qed.

(** The number of pages [premap_pages] maps. *)
Definition page_count (dst src len : Z) : Z :=
  Z.min ((page_end dst len - dst + 4095) / 4096) ((page_end src len - src + 4095) / 4096).

Lemma page_count_rounds dst src len : 0 <= dst -> 0 <= src -> 0 <= len ->
  dst + len + 4095 < 2 ^ 64 -> src + len + 4095 < 2 ^ 64 ->
  rounds (page_count dst src len) dst src (page_end dst len) (page_end src len).
Proof.
  intros. unfold page_count. rewrite !page_end_eq by lia. split; [divlia|]. split; [intros i Hi|]; divlia.
Qed.

Lemma premap_pages_spec fuel s T dst src len flags :
  paging_inv s T -> 0 <= dst -> 0 <= src -> 0 <= len < 2 ^ 47 ->
  dst + len < 2 ^ 64 - 2 ^ 13 -> src + len < 2 ^ 64 - 2 ^ 13 ->
  let n := page_count dst src len in
  n < Z.of_nat fuel -> brk (k_pg s) + tables_room n * 4096 <= miniheap_end (k_pg s) ->
  wp (premap_pages fuel dst src len flags) (fun _ s' => exists T',
    grown (pages dst n) (tables_room n) s T s' T' /\
    forall i va, 0 <= i < n -> vpn va = vpn (dst + 4096 * i) ->
      kwalk s' va = pte (src + 4096 * i) (x86_flags flags)) s.
Proof.
  intros HI Hd Hs Hl Hdl Hsl n Hf Hroom. unfold premap_pages.
  pose proof (page_count_rounds dst src len Hd Hs) as Hr. fold n in Hr.
  specialize (Hr ltac:(lia) ltac:(lia) ltac:(lia)). pose proof (proj1 Hr).
  assert (Hn : n = Z.of_nat (Z.to_nat n)) by lia.
  assert (n <= 2 ^ 36). { unfold n, page_count. rewrite !page_end_eq by lia. divlia. }
  rewrite Hn in Hr |- *. apply premap_loop_spec; try done; try lia.
  - apply x86_flags_range.
  - rewrite page_end_eq by lia; divlia.
  - rewrite page_end_eq by lia; divlia.
  - apply tables_room_ok; lia.
  - by rewrite <- Hn.
Qed.

(** ** What the callers see *)

(** The physical address of a kernel address, if it has one. *)
Definition ktrans (s : kernel) (va : Z) : option Z := (fun e => phys_of e va) <$> kwalk s va.

Lemma pte_phys src flags va : 0 <= src < 2 ^ 63 -> Z.land flags PAGE_PRESENT <> 0 ->
  (fun e => phys_of e va) <$> pte src (x86_flags flags) = Some (4096 * (src / 4096) + va mod 4096).
Proof.
  intros Hs Hf. rewrite pte_present by done. simpl. f_equal. unfold phys_of.
  pose proof (x86_flags_range flags). rewrite (addr_mask src), (lor_aligned _ (x86_flags _)) by (lia || by eexists).
  rewrite addr_mask, Z.div_add_l, (Z.div_small (x86_flags _)), Z.add_0_r, Z.mod_mod by lia.
  rewrite Z.mod_small by divlia. change 0xFFF with (Z.ones 12). rewrite Z.land_ones by lia.
  rewrite lor_aligned; [change (2 ^ 12) with 4096; lia|by eexists|apply Z.mod_pos_bound; lia].
Qed.

Lemma vpn_page x j : 0 <= j < 4096 -> (4096 | x) -> vpn (x + j) = vpn x.
Proof.
  intros Hj [q ->]. unfold vpn. change (2 ^ 12) with 4096.
  by rewrite Z.div_add_l, Z.div_mul, (Z.div_small j), Z.add_0_r by lia.
Qed.

Lemma page_count_aligned dst src len : 0 <= dst -> 0 <= src -> 0 <= len ->
  dst + len + 4095 < 2 ^ 64 -> src + len + 4095 < 2 ^ 64 -> (4096 | dst) -> (4096 | src) ->
  page_count dst src len = (len + 4095) / 4096.
Proof.
  intros ????? [a ->] [b ->]. unfold page_count. rewrite !page_end_eq by lia. divlia.
Qed.

(** ** A kernel with empty tables

    The root table at 4096 and a mini heap of 31 pages behind it, all zero. *)
Definition paging_demo_globals : paging_globals :=
  PagingGlobals 0x2000 0x21000 false 0x40000000 false 0 0 0x1000 0 0x30000000 w64.
Definition paging_demo_mem : gmap Z Z := write_bytes ∅ 0x1000 (replicate (Z.to_nat 0x20000) 0).
Definition paging_demo : kernel :=
  quiet_kernel paging_demo_mem (PageAllocGlobals 0 0 false) (CpuGlobals 0 1 0 0)
    (ProcGlobals 0 false 0 0 false) paging_demo_globals.
Definition paging_demo_tables : gmap (list Z) Z := {[ [] := 0x1000 ]}.

Lemma paging_demo_zero x : 0x1000 <= x < 0x21000 -> paging_demo_mem !! x = Some 0.
Proof.
  intros Hx. unfold paging_demo_mem. rewrite lookup_write_bytes, length_replicate, decide_True by lia.
  apply lookup_replicate_2. lia.
Qed.

#[local] Opaque paging_demo_mem.

(** A zeroed root table at [B], apart from a zeroed mini heap. *)
Lemma blank_paging_inv s B : kpml4 (k_pg s) = B -> miniheap_lock (k_pg s) = false ->
  (4096 | virtual_base (k_pg s)) /\ (4096 | physical_base (k_pg s)) /\
    0 <= virtual_base (k_pg s) <= brk (k_pg s) /\ 0 <= physical_base (k_pg s) ->
  (4096 | brk (k_pg s)) -> miniheap_end (k_pg s) <= 2 ^ 64 - 2 ^ 13 /\
    miniheap_end (k_pg s) - virtual_base (k_pg s) + physical_base (k_pg s) <= 2 ^ 63 -> (4096 | B) -> 0 <= B ->
  (forall x, within B 4096 x \/ brk (k_pg s) <= x < miniheap_end (k_pg s) -> k_mem s !! x = Some 0) ->
  (forall x, within B 4096 x -> x < brk (k_pg s) \/ miniheap_end (k_pg s) <= x) -> paging_inv s {[ [] := B ]}.
Proof.
  intros EB Elk Hbases Hbrk Hend HB HB0 Hz Hap. split; [|done|exact Hbases|done|exact Hend|auto|].
  - rewrite EB. by apply blank_tables; auto.
  - intros x (p & t & [<- <-]%lookup_singleton_Some & Hx). by apply Hap.
Qed.

(** ... with the mini heap behind it. *)
Lemma fresh_paging_inv s B E : kpml4 (k_pg s) = B -> brk (k_pg s) = B + 4096 -> miniheap_end (k_pg s) = E ->
  miniheap_lock (k_pg s) = false -> virtual_base (k_pg s) = 0 -> physical_base (k_pg s) = 0 -> (4096 | B) -> 0 <= B ->
  B + 4096 <= E -> E <= 2 ^ 63 -> (forall x, B <= x < E -> k_mem s !! x = Some 0) -> paging_inv s {[ [] := B ]}.
Proof.
  intros EB Ebrk Eend Elk Evb Epb HB HB0 HE HE' Hz.
  apply blank_paging_inv; rewrite ?Ebrk, ?Eend, ?Evb, ?Epb; try done.
  - split; [by exists 0|]. split; [by exists 0|]. lia.
  - apply Z.divide_add_r; [done|by exists 1].
  - lia.
  - intros x Hx. apply Hz. unfold within in Hx. lia.
  - intros x Hx. unfold within in Hx. lia.
Qed.

Lemma paging_demo_inv : paging_inv paging_demo paging_demo_tables.
Proof.
  apply (fresh_paging_inv paging_demo 0x1000 0x21000); [reflexivity..|by exists 1|lia|lia|lia|exact paging_demo_zero].
Qed.

(** C6. For page-aligned addresses, given enough fuel and room in the mini heap,
    [premap_pages] returns; every byte of the pages of [dst, dst + len) is then
    translated to the corresponding byte from [src] on, every other page is translated
    as before, and nothing but the tables and the mini heap has been written. *)
Theorem premap_pages_correct fuel dst src len flags s T :
  paging_inv s T -> 0 <= dst -> (4096 | dst) -> 0 <= src -> (4096 | src) -> 0 <= len < 2 ^ 47 ->
  dst + len < 2 ^ 64 - 2 ^ 13 -> src + len + 4096 <= 2 ^ 63 -> Z.land flags PAGE_PRESENT <> 0 ->
  let n := (len + 4095) / 4096 in
  n < Z.of_nat fuel -> brk (k_pg s) + tables_room n * 4096 <= miniheap_end (k_pg s) ->
  exists s' T', premap_pages fuel dst src len flags s = Done tt s' /\
    grown (pages dst n) (tables_room n) s T s' T' /\
    forall j, 0 <= j < 4096 * n -> ktrans s' (dst + j) = Some (src + j).
Proof.
  intros HI Hd Hda Hs Hsa Hl Hdl Hsl Hp n Hf Hroom.
  assert (Hn : page_count dst src len = n) by (apply page_count_aligned; done || lia).
  pose proof (premap_pages_spec fuel s T dst src len flags HI Hd Hs Hl ltac:(lia) ltac:(lia)) as H.
  cbv zeta in H. rewrite Hn in H. apply wp_done in H as ([] & s' & Hrun & T' & HG & Hw); [|done..].
  exists s', T'. split; [done|]. split; [done|]. intros j Hj. unfold ktrans.
  assert (Hj4 : 0 <= j / 4096 < n) by divlia. assert (4096 * n <= len + 4095) by (unfold n; divlia).
  rewrite (Hw (j / 4096)); [|done|].
  - rewrite pte_phys by (done || divlia). f_equal. destruct Hda as [a ->], Hsa as [b ->]. divlia.
  - rewrite (Z.div_mod j 4096) at 1 by lia. rewrite Z.add_assoc. apply vpn_page; [apply Z.mod_pos_bound; lia|].
    apply Z.divide_add_r; [done|by eexists (j / 4096); lia].
Qed.

Lemma premap_pages_correct_witness :
  exists s' T', premap_pages 9 0x100000 0x7000 0x2800 PAGE_PRESENT paging_demo = Done tt s' /\
    grown (pages 0x100000 3) 6 paging_demo paging_demo_tables s' T' /\
    forall j, 0 <= j < 0x3000 -> ktrans s' (0x100000 + j) = Some (0x7000 + j).
Proof.
  apply (premap_pages_correct 9 0x100000 0x7000 0x2800 PAGE_PRESENT); [apply paging_demo_inv|lia|
    by exists 0x100|lia|by exists 7|lia|lia|lia|done|divlia|
    by vm_compute].
Defined.

(** ** Invalidation *)

Definition invlpgs (p n : Z) : list io_event := reverse ((fun i => Invlpg (p + 4096 * i)) <$> seqZ 0 n).

Lemma refresh_loop_run n fuel p e s : (n < fuel)%nat -> 0 <= p -> e <= 2 ^ 64 - 4096 ->
  (forall i, 0 <= i < Z.of_nat n -> p + 4096 * i < e) -> e <= p + 4096 * Z.of_nat n ->
  refresh_loop fuel p e s = Done tt (logged (invlpgs p (Z.of_nat n)) s).
Proof.
  revert fuel p s. induction n as [|n IH]; intros fuel p s Hf Hp He Hi Hn; (destruct fuel as [|fuel]; [lia|]); cbn [refresh_loop].
  - rewrite (proj2 (Z.ltb_ge p e)) by lia. by destruct s as [? ? ? ? ? [] ? ? ?].
  - pose proof (Hi 0 ltac:(lia)). rewrite (proj2 (Z.ltb_lt p e)) by lia.
    rewrite (run_bind _ _ _ _ _ (emit_run _ s)). change PAGE_SIZE with 4096. rewrite add64_small by lia.
    rewrite IH; [|lia..| |lia].
    + rewrite logged_logged. do 3 f_equal. unfold invlpgs. rewrite Nat2Z.inj_succ, (seqZ_cons 0 (Z.succ _)) by lia.
      rewrite fmap_cons, reverse_cons, Z.mul_0_r, Z.add_0_r. do 2 f_equal.
      rewrite Z.pred_succ, <- (fmap_add_seqZ 1 0), <- list_fmap_compose.
      apply list_fmap_ext. intros ? ? _. simpl. f_equal. lia.
    + intros i Hi'. specialize (Hi (i + 1)). lia.
Qed.

Lemma kwalk_logged es s va : kwalk (logged es s) va = kwalk s va.
Proof. done. Qed.

Lemma inv_logged es s T : paging_inv s T -> paging_inv (logged es s) T.
Proof. by intros []. Qed.

(** [refresh_pages] over a range of whole pages. *)
Lemma refresh_pages_run fuel start e n s : 0 <= start -> 0 <= n < Z.of_nat fuel -> (4096 | e) ->
  e <= 2 ^ 64 - 4096 -> e = 4096 * (start / 4096) + 4096 * n ->
  refresh_pages fuel start e s = Done tt (logged (invlpgs (4096 * (start / 4096)) n) s).
Proof.
  intros Hs Hn Ha He E. unfold refresh_pages.
  change (Z.land start (w64 (Z.lnot 0xFFF))) with (align_down start PAGE_SIZE).
  rewrite align_down_page by divlia. replace n with (Z.of_nat (Z.to_nat n)) by lia.
  apply refresh_loop_run; divlia.
Qed.

Lemma page_of_byte x j : 0 <= x -> 0 <= j -> vpn (x + j) = vpn (x + 4096 * ((x mod 4096 + j) / 4096)).
Proof.
  intros Hx Hj. unfold vpn. change (2 ^ 12) with 4096. f_equal.
  rewrite (Z.mul_comm 4096), Z.div_add by lia. divlia.
Qed.

Lemma pages_of_byte x j n : 0 <= x -> 0 <= j < 2 ^ 47 -> 0 <= n <= 2 ^ 36 ->
  pages x n (vpn (x + j)) <-> (x mod 4096 + j) / 4096 < n.
Proof.
  intros Hx Hj Hn. rewrite page_of_byte by lia. set (k := (x mod 4096 + j) / 4096).
  assert (Hk : 0 <= k <= 2 ^ 36 - 1) by (unfold k; divlia). split.
  - intros (i & Hi & E). destruct (decide (i = k)) as [->|Hne]; [lia|]. exfalso.
    assert (Hs : forall a b, 0 <= a < b -> b <= 2 ^ 36 - 1 -> vpn (x + 4096 * b) <> vpn (x + 4096 * a)).
    { intros a b Hab Hb. replace (x + 4096 * b) with (x + 4096 * a + 4096 * (b - a)) by lia.
      apply vpn_step. lia. }
    destruct (decide (i < k)); [by apply (Hs i k); [lia..|]|]. by apply (Hs k i); [lia..|].
  - intros. exists k. split; [lia|done].
Qed.

(** [unmap_pages] unmaps as many pages as the length alone takes: bytes of
    [virt, virt + len) beyond that many pages, which a misaligned [virt] has, keep their
    translation; it invalidates every page of the range, those included. *)
Theorem unmap_pages_exact fuel virt len s T :
  paging_inv s T -> 0 <= virt -> 0 < len < 2 ^ 46 -> virt + len < 2 ^ 64 - 2 ^ 13 ->
  len < 4096 * (Z.of_nat fuel - 2) -> brk (k_pg s) + tables_room ((len + 4095) / 4096) * 4096 <= miniheap_end (k_pg s) ->
  exists s' T', unmap_pages fuel virt len s = Done tt s' /\ paging_inv s' T' /\
    (forall j, 0 <= j < len -> kwalk s' (virt + j) =
      if (virt mod 4096 + j) / 4096 <? (len + 4095) / 4096 then None else kwalk s (virt + j)) /\
    exists d, k_dev s' = Devices (dv_env d)
      (invlpgs (4096 * (virt / 4096)) ((virt mod 4096 + len + 4095) / 4096) ++ dv_log d).
Proof.
  intros HI Hv Hl Hvl Hf Hroom. set (n := page_count virt 0 len).
  assert (Hn : n = (len + 4095) / 4096).
  { unfold n, page_count. rewrite !page_end_eq by lia. divlia. }
  assert (Hn4 : 0 <= n /\ 4096 * n <= len + 4095) by (rewrite Hn; divlia). rewrite <- Hn in Hroom.
  pose proof (premap_pages_spec fuel s T virt 0 len 0 HI Hv ltac:(lia) ltac:(lia) ltac:(lia) ltac:(lia)) as H.
  cbv zeta in H. fold n in H. apply wp_done in H as ([] & s1 & Hrun & T' & HG & Hw); [|lia..].
  unfold unmap_pages. rewrite (run_bind _ _ _ _ _ Hrun). rewrite add64_small by lia.
  rewrite (refresh_pages_run _ _ _ ((virt mod 4096 + len + 4095) / 4096)).
  - exists (logged (invlpgs (4096 * (virt / 4096)) ((virt mod 4096 + len + 4095) / 4096)) s1), T'.
    split; [done|]. split; [by eapply inv_logged, gr_inv|]. split; [|by exists (k_dev s1)].
    intros j Hj. rewrite kwalk_logged, <- Hn. destruct (Z.ltb_spec ((virt mod 4096 + j) / 4096) n) as [Hlt|Hge].
    + rewrite (Hw ((virt mod 4096 + j) / 4096)); [|divlia|by apply page_of_byte; lia].
      by apply pte_absent.
    + apply (gr_walk _ _ _ _ _ _ HG). rewrite pages_of_byte by lia. lia.
  - done.
  - clear - Hv Hl Hf. divlia.
  - rewrite round_up_page_eq by lia. by eexists; apply Z.mul_comm.
  - rewrite round_up_page_eq by lia. clear - Hv Hl Hvl. divlia.
  - rewrite round_up_page_eq by lia. clear - Hv Hl Hvl. divlia.
Qed.

(** A range of 0x20 bytes across a page boundary: its second page stays mapped. *)
Lemma unmap_pages_exact_witness :
  exists s' T', unmap_pages 9 0x100FF0 0x20 paging_demo = Done tt s' /\ paging_inv s' T' /\
    (forall j, 0 <= j < 0x20 -> kwalk s' (0x100FF0 + j) =
      if (0x100FF0 mod 4096 + j) / 4096 <? (0x20 + 4095) / 4096 then None else kwalk paging_demo (0x100FF0 + j)) /\
    exists d, k_dev s' = Devices (dv_env d) (invlpgs (4096 * (0x100FF0 / 4096))
      ((0x100FF0 mod 4096 + 0x20 + 4095) / 4096) ++ dv_log d).
Proof.
  apply (unmap_pages_exact 9 0x100FF0 0x20 paging_demo paging_demo_tables);
    [apply paging_demo_inv|lia..|by vm_compute].
Defined.

(** ** The paging code's own memory *)

Definition paging_bytes (s : kernel) (T : gmap (list Z) Z) (x : Z) : Prop :=
  in_tables T x \/ brk (k_pg s) <= x < miniheap_end (k_pg s).

Lemma paging_inv_same s s' T : k_mem s' = k_mem s -> k_pg s' = k_pg s -> paging_inv s T -> paging_inv s' T.
Proof. intros Em Eg [H1 H2 H3 H4 H5 H6 H7]. split; rewrite ?Em, ?Eg; done. Qed.

Lemma paging_inv_frame s T m' (P : Z -> Prop) : paging_inv s T -> changes P (k_mem s) m' ->
  (forall x, P x -> ~ paging_bytes s T x) -> paging_inv (set_mem m' s) T.
Proof.
  intros [H1 H2 H3 H4 H5 H6 H7] Hch HP. split; try done.
  - eapply tables_same; [|exact H1]. intros x Hx. apply (ch_same _ _ _ Hch). intros Hp. by apply (HP x Hp); left.
  - simpl. intros x Hx. rewrite (ch_same _ _ _ Hch); [by apply H6|]. intros Hp. by apply (HP x Hp); right.
Qed.

Lemma kwalk_frame s T m' (P : Z -> Prop) va : paging_inv s T -> changes P (k_mem s) m' ->
  (forall x, P x -> ~ paging_bytes s T x) -> kwalk (set_mem m' s) va = kwalk s va.
Proof.
  intros HI Hch HP. apply (walk_same _ _ _ _ T); [|apply HI]. intros x Hx. apply (ch_same _ _ _ Hch).
  intros Hp. by apply (HP x Hp); left.
Qed.

(** What [grown] writes is the paging code's. *)
Lemma grown_changes V k s T s' T' : grown V k s T s' T' -> changes (paging_bytes s T) (k_mem s) (k_mem s').
Proof.
  intros HG. pose proof (gr_same _ _ _ _ _ _ HG) as Hs. split.
  - intros x Hx. apply Hs. intros Hx'. apply Hx. exact (gr_fresh _ _ _ _ _ _ HG x Hx').
  - intros x Hx. destruct (decide (map_Exists (fun _ t => within t 4096 x) T')) as [(p & t & Hp & Ht)|Hn].
    + destruct (ta_page _ _ _ _ (pi_tables _ _ (gr_inv _ _ _ _ _ _ HG)) p t Hp) as (_ & _ & Hm). by apply Hm.
    + rewrite (Hs x); [done|]. intros (p & t & Hp & Ht). apply Hn. by exists p, t.
Qed.

Lemma grown_same V k s T s' T' x : grown V k s T s' T' -> ~ paging_bytes s T x -> k_mem s' !! x = k_mem s !! x.
Proof. intros HG. apply (ch_same _ _ _ (grown_changes _ _ _ _ _ _ HG)). Qed.

Lemma grown_read64 V k s T s' T' a : grown V k s T s' T' -> (forall x, within a 8 x -> ~ paging_bytes s T x) ->
  read64 (k_mem s') a = read64 (k_mem s) a.
Proof. intros HG Ha. apply read64_same. intros x Hx. by eapply grown_same; [|apply Ha]. Qed.

Lemma grown_paging_bytes V k s T s' T' x : grown V k s T s' T' -> paging_bytes s' T' x -> paging_bytes s T x.
Proof.
  intros HG [Hx|Hx]; [by apply (gr_fresh _ _ _ _ _ _ HG)|right].
  pose proof (gr_low _ _ _ _ _ _ HG). pose proof (grown_end _ _ _ _ _ _ HG). lia.
Qed.

(** ** Anonymous mappings *)

Lemma inv_set_end_pos x s T : paging_inv s T -> paging_inv (set_end_pos x s) T.
Proof.
  intros [H1 H2 H3 H4 H5 H6 H7].
  exact (Build_paging_inv (set_end_pos x s) T (tables_sees _ (image (k_pg s)) (image (k_pg (set_end_pos x s))) _ _ (fun P => image_bases (k_pg s) (k_pg (set_end_pos x s)) P eq_refl eq_refl) H1) H2 H3 H4 H5 H6 H7).
Qed.

Lemma inv_set_end_pos_lock b s T : paging_inv s T -> paging_inv (set_end_pos_lock b s) T.
Proof.
  intros [H1 H2 H3 H4 H5 H6 H7].
  exact (Build_paging_inv (set_end_pos_lock b s) T (tables_sees _ (image (k_pg s)) (image (k_pg (set_end_pos_lock b s))) _ _ (fun P => image_bases (k_pg s) (k_pg (set_end_pos_lock b s)) P eq_refl eq_refl) H1) H2 H3 H4 H5 H6 H7).
Qed.

Lemma kwalk_set_end_pos x s va : kwalk (set_end_pos x s) va = kwalk s va.
Proof. exact (walk_sees (k_mem s) (image (k_pg s)) (image (k_pg (set_end_pos x s))) _ va (fun P => image_bases (k_pg s) (k_pg (set_end_pos x s)) P eq_refl eq_refl)). Qed.

Lemma kwalk_set_end_pos_lock b s va : kwalk (set_end_pos_lock b s) va = kwalk s va.
Proof. exact (walk_sees (k_mem s) (image (k_pg s)) (image (k_pg (set_end_pos_lock b s))) _ va (fun P => image_bases (k_pg s) (k_pg (set_end_pos_lock b s)) P eq_refl eq_refl)). Qed.

Lemma grown_end_pos V k s T s' T' : grown V k s T s' T' -> end_pos (k_pg s') = end_pos (k_pg s).
Proof. intros H. by destruct (gr_state _ _ _ _ _ _ H) as (? & ? & ? & ->). Qed.

Lemma grown_locked V k s T s' T' : end_pos_lock (k_pg s) = false -> grown V k (set_end_pos_lock true s) T s' T' ->
  grown V k s T (set_end_pos_lock false s') T'.
Proof.
  intros Hl [HI (m & b & d & E) Hb Hlow HT Hsame Hwalk Hfresh]. split; try done.
  - by apply inv_set_end_pos_lock.
  - exists m, b, d. rewrite E. destruct s as [? ? ? ? []]. cbn in Hl |- *. by rewrite Hl.
Qed.

(** The body of [premap_anon], between taking the lock and giving it back. *)
Lemma anon_body fuel phys len flags s T :
  paging_inv s T -> 0 <= phys -> phys + len + 4096 <= 2 ^ 63 -> 0 < len < 2 ^ 46 ->
  let ep := end_pos (k_pg s) in
  let n := (len + 4095) / 4096 in
  0 <= ep -> (4096 | ep) -> ep + len < 2 ^ 64 - 2 ^ 14 ->
  len < 4096 * (Z.of_nat fuel - 1) -> brk (k_pg s) + tables_room n * 4096 <= miniheap_end (k_pg s) ->
  exists s1 T', premap_pages fuel ep (4096 * (phys / 4096)) len flags s = Done tt s1 /\
    grown (pages ep n) (tables_room n) s T s1 T' /\
    (forall i va, 0 <= i < n -> vpn va = vpn (ep + 4096 * i) ->
      kwalk s1 va = pte (4096 * (phys / 4096) + 4096 * i) (x86_flags flags)) /\
    refresh_pages fuel (ep + phys mod 4096) (ep + 4096 * n) (set_end_pos (ep + 4096 * n) s1) =
      Done tt (logged (invlpgs ep n) (set_end_pos (ep + 4096 * n) s1)).
Proof.
  intros HI Hp Hpl Hl ep n Hep Hepa Hepl Hf Hroom.
  assert (Hn4 : 0 < n /\ 4096 * n <= len + 4095) by (unfold n; divlia).
  assert (Hal : 4096 * (phys / 4096) <= phys) by divlia.
  assert (Hpc : page_count ep (4096 * (phys / 4096)) len = n).
  { apply page_count_aligned; try lia; [divlia|done|by eexists; apply Z.mul_comm]. }
  pose proof (premap_pages_spec fuel s T ep (4096 * (phys / 4096)) len flags HI Hep ltac:(divlia) ltac:(lia) ltac:(lia) ltac:(lia)) as H.
  cbv zeta in H. rewrite Hpc in H. apply wp_done in H as ([] & s1 & Hrun & T' & HG & Hw); [|lia..].
  exists s1, T'. repeat (split; [done|]).
  assert (Hstart : 4096 * ((ep + phys mod 4096) / 4096) = ep).
  { destruct Hepa as [q ->]. clear. divlia. }
  assert (Hea : (4096 | ep + 4096 * n)) by (apply Z.divide_add_r; [done|by eexists; apply Z.mul_comm]).
  pose proof (refresh_pages_run fuel (ep + phys mod 4096) (ep + 4096 * n) n (set_end_pos (ep + 4096 * n) s1)) as H.
  rewrite Hstart in H. apply H; [clear - Hp Hep; divlia|lia|exact Hea|lia|reflexivity].
Qed.

(** The whole of it: the pages mapped, [end_pos] moved, the pages invalidated. *)
Lemma premap_anon_run fuel phys len flags s T :
  paging_inv s T -> end_pos_lock (k_pg s) = false -> 0 <= phys -> phys + len + 4096 <= 2 ^ 63 -> 0 < len < 2 ^ 46 ->
  let ep := end_pos (k_pg s) in
  let n := (len + 4095) / 4096 in
  0 <= ep -> (4096 | ep) -> ep + len < 2 ^ 64 - 2 ^ 14 ->
  len < 4096 * (Z.of_nat fuel - 1) -> brk (k_pg s) + tables_room n * 4096 <= miniheap_end (k_pg s) ->
  exists s1 T', premap_anon fuel phys len flags s =
      Done (ep + phys mod 4096) (set_end_pos (ep + 4096 * n) (logged (invlpgs ep n) s1)) /\
    grown (pages ep n) (tables_room n) s T s1 T' /\
    forall i va, 0 <= i < n -> vpn va = vpn (ep + 4096 * i) ->
      kwalk s1 va = pte (4096 * (phys / 4096) + 4096 * i) (x86_flags flags).
Proof.
  intros HI Hlk Hp Hpl Hl ep n Hep Hepa Hepl Hf Hroom.
  assert (Hn4 : 0 < n /\ 4096 * n <= len + 4095) by (unfold n; divlia).
  destruct (anon_body fuel phys len flags (set_end_pos_lock true s) T) as (s1 & T' & Hrun & HG & Hw & Href);
    [by apply inv_set_end_pos_lock|done..|]. cbn [k_pg set_end_pos_lock set_pg end_pos] in *. fold ep n in Hrun, HG, Hw, Href.
  exists (set_end_pos_lock false s1), T'. split; [|split; [by apply grown_locked|]].
  - unfold premap_anon. change (Z.land phys (w64 (Z.lnot 0xFFF))) with (align_down phys PAGE_SIZE).
    rewrite align_down_page by lia. rewrite sub64_small by divlia.
    replace (phys - 4096 * (phys / 4096)) with (phys mod 4096) by (clear; divlia).
    erewrite run_bind; [|unfold ACQUIRE; by rewrite Hlk]. erewrite run_bind by reflexivity.
    cbn [k_pg set_end_pos_lock set_pg end_pos]. fold ep. rewrite (run_bind _ _ _ _ _ Hrun).
    rewrite !add64_small by divlia. rewrite round_up_page_eq by lia.
    replace (4096 * ((ep + len + 4095) / 4096)) with (ep + 4096 * n) by (destruct Hepa as [q Hq]; rewrite Hq; unfold n; clear; divlia).
    erewrite run_bind by reflexivity. erewrite run_bind by reflexivity.
    cbn [k_pg set_end_pos set_pg end_pos]. by rewrite (run_bind _ _ _ _ _ Href).
  - intros i va Hi Hva. rewrite kwalk_set_end_pos_lock. by apply Hw.
Qed.

(** C33. [premap_anon] returns an address past the kernel's mappings with the byte offset
    of [phys], moves [end_pos] past the new pages and maps the [len] bytes from there on
    to [phys] on, as far as the pages the length alone takes go; a range that crosses one
    page boundary more than that is not mapped to its end. *)
Theorem premap_anon_exact fuel phys len flags s T :
  paging_inv s T -> end_pos_lock (k_pg s) = false -> Z.land flags PAGE_PRESENT <> 0 ->
  0 <= phys -> phys + len + 4096 <= 2 ^ 63 -> 0 < len < 2 ^ 46 ->
  let ep := end_pos (k_pg s) in
  let n := (len + 4095) / 4096 in
  0 <= ep -> (4096 | ep) -> ep + len < 2 ^ 64 - 2 ^ 14 ->
  len < 4096 * (Z.of_nat fuel - 1) -> brk (k_pg s) + tables_room n * 4096 <= miniheap_end (k_pg s) ->
  let r := ep + phys mod 4096 in
  exists s' T', premap_anon fuel phys len flags s = Done r s' /\ paging_inv s' T' /\
    end_pos (k_pg s') = ep + 4096 * n /\ end_pos_lock (k_pg s') = false /\
    (forall j, 0 <= j < len -> ktrans s' (r + j) =
      if (phys mod 4096 + j) / 4096 <? n then Some (phys + j) else ktrans s (r + j)) /\
    (forall va, ~ pages ep n (vpn va) -> ktrans s' va = ktrans s va).
Proof.
  intros HI Hlk Hfl Hp Hpl Hl ep n Hep Hepa Hepl Hf Hroom r.
  assert (Hn4 : 0 < n /\ 4096 * n <= len + 4095) by (unfold n; divlia).
  destruct (premap_anon_run fuel phys len flags s T) as (s1 & T' & Hrun & HG & Hw); try done. fold ep n in Hrun, HG, Hw.
  set (s' := set_end_pos (ep + 4096 * n) (logged (invlpgs ep n) s1)) in *.
  assert (Hk : forall va, kwalk s' va = kwalk s1 va) by (intros va; unfold s'; by rewrite kwalk_set_end_pos, kwalk_logged).
  assert (Hkeep : forall va, ~ pages ep n (vpn va) -> kwalk s' va = kwalk s va).
  { intros va Hva. by rewrite Hk, (gr_walk _ _ _ _ _ _ HG). }
  exists s', T'. split; [exact Hrun|]. split; [|split; [done|split; [|split]]].
  - by apply inv_set_end_pos, inv_logged, (gr_inv _ _ _ _ _ _ HG).
  - destruct (gr_state _ _ _ _ _ _ HG) as (? & ? & ? & E). unfold s'. rewrite E. exact Hlk.
  - intros j Hj. unfold r. rewrite <- Z.add_assoc. unfold ktrans.
    assert (Hpage : vpn (ep + (phys mod 4096 + j)) = vpn (ep + 4096 * ((phys mod 4096 + j) / 4096))).
    { rewrite page_of_byte by divlia. destruct Hepa as [q ->]. by rewrite Z.mod_mul, Z.add_0_l by lia. }
    destruct (Z.ltb_spec ((phys mod 4096 + j) / 4096) n) as [Hlt|Hge].
    + rewrite Hk, (Hw ((phys mod 4096 + j) / 4096)) by (done || divlia).
      rewrite pte_phys by (done || divlia). f_equal. destruct Hepa as [q ->]. clear. divlia.
    + rewrite Hkeep; [done|]. rewrite pages_of_byte by divlia.
      destruct Hepa as [q ->]. rewrite Z.mod_mul, Z.add_0_l by lia. lia.
  - intros va Hva. unfold ktrans. by rewrite Hkeep.
Qed.

Lemma premap_anon_exact_witness :
  exists s' T', premap_anon 9 0x7FF0 0x20 PAGE_PRESENT paging_demo = Done 0x40000FF0 s' /\
    paging_inv s' T' /\ end_pos (k_pg s') = 0x40001000 /\ end_pos_lock (k_pg s') = false /\
    (forall j, 0 <= j < 0x20 -> ktrans s' (0x40000FF0 + j) =
      if (0x7FF0 mod 4096 + j) / 4096 <? 1 then Some (0x7FF0 + j) else ktrans paging_demo (0x40000FF0 + j)) /\
    (forall va, ~ pages 0x40000000 1 (vpn va) -> ktrans s' va = ktrans paging_demo va).
Proof.
  apply (premap_anon_exact 9 0x7FF0 0x20 PAGE_PRESENT paging_demo paging_demo_tables);
    [apply paging_demo_inv|done|done|lia|lia|lia|change (0 <= 0x40000000); lia|by exists 0x40000|
    change (0x40000000 + 0x20 < 2 ^ 64 - 2 ^ 14); lia|lia|by vm_compute].
Defined.

(** ** Looking a translation up *)

(** The page frames of the tables are in the memory where the kernel's image has them. *)
Definition window_ok (s : kernel) (T : gmap (list Z) Z) : Prop :=
  (4096 | page_tmp (k_pg s)) /\ 0 <= page_tmp (k_pg s) < 2 ^ 64 - 2 ^ 14 /\
  forall P, in_tables T (PHYSK2VK (k_pg s) P) -> alias (k_pg s) P = PHYSK2VK (k_pg s) P.

(** The frame of an entry that [premap_pages] makes. *)
Lemma entry_frame P flags : Z.land (Z.lor (Z.land P ADDR_MASK) (x86_flags flags)) ADDR_MASK = Z.land P ADDR_MASK.
Proof.
  pose proof (x86_flags_range flags). rewrite (addr_mask P), (lor_aligned _ (x86_flags _)) by (lia || by eexists).
  rewrite addr_mask, Z.div_add_l, (Z.div_small (x86_flags _)), Z.add_0_r, Z.mod_mod by lia. done.
Qed.

Lemma aligned_frame P : 0 <= P < 2 ^ 63 -> (4096 | P) -> Z.land P ADDR_MASK = P.
Proof. intros HP [q ->]. rewrite addr_mask, Z.div_mul, Z.mod_small by lia. done. Qed.

(** The window shows what the tables map there. *)
Lemma wp_window s e (Q : Z -> kernel -> Prop) :
  kwalk s (page_tmp (k_pg s)) = Some e -> Q (alias (k_pg s) (Z.land e ADDR_MASK)) s -> wp window Q s.
Proof. intros He HQ. unfold window. apply wp_bind, wp_gets, wp_bind, wp_gets. fold (kwalk s (page_tmp (k_pg s))). rewrite He. by apply wp_ret. Qed.

Lemma map_page_tmp_spec fuel s T P : paging_inv s T -> 0 <= P < 2 ^ 63 -> (4096 | P) ->
  (4096 | page_tmp (k_pg s)) -> 0 <= page_tmp (k_pg s) < 2 ^ 64 - 2 ^ 14 -> (2 <= fuel)%nat ->
  brk (k_pg s) + 3 * 4096 <= miniheap_end (k_pg s) ->
  wp (map_page_tmp fuel P) (fun r s' => r = alias (k_pg s) P /\
    exists T', grown (pages (page_tmp (k_pg s)) 1) 3 s T s' T') s.
Proof.
  intros HI HP HPa Ht Htb Hf Hroom. unfold map_page_tmp. apply wp_bind, wp_gets, wp_bind.
  assert (Hn : page_count (page_tmp (k_pg s)) P 4096 = 1) by (rewrite page_count_aligned; done || lia).
  pose proof (premap_pages_spec fuel s T (page_tmp (k_pg s)) P 4096 (Z.lor PAGE_PRESENT PAGE_WRITABLE)
    HI ltac:(lia) ltac:(lia) ltac:(lia) ltac:(lia) ltac:(lia)) as H.
  cbv zeta in H. rewrite Hn in H. change (tables_room 1) with 3 in H. eapply wp_conseq; [apply H; lia|]. clear H.
  intros [] s1 (T1 & HG & Hw1). apply wp_bind. eapply wp_run; [apply emit_run|].
  apply wp_window with (e := Z.lor (Z.land P ADDR_MASK) (x86_flags (Z.lor PAGE_PRESENT PAGE_WRITABLE))).
  { rewrite kwalk_logged. assert (Etmp : page_tmp (k_pg s1) = page_tmp (k_pg s)) by by destruct (gr_state _ _ _ _ _ _ HG) as (? & ? & ? & ->).
    change (k_pg (logged _ s1)) with (k_pg s1). rewrite Etmp, (Hw1 0), Z.add_0_r by (lia || by rewrite Z.mul_0_r, Z.add_0_r). by apply pte_present. }
  rewrite entry_frame, aligned_frame by done. split.
  { by destruct (gr_state _ _ _ _ _ _ HG) as (? & ? & ? & ->). }
  exists T1. destruct HG as [HI1 (m & b & d & E) Hb Hlow HT Hsame Hwalk Hfresh]. split; try done.
  - by apply inv_logged.
  - subst s1. by eexists _, _, _.
Qed.

Lemma grown_globals V k s T s' T' : grown V k s T s' T' ->
  page_tmp (k_pg s') = page_tmp (k_pg s) /\ alias (k_pg s') = alias (k_pg s) /\
  forall P, PHYSK2VK (k_pg s') P = PHYSK2VK (k_pg s) P.
Proof. intros H. by destruct (gr_state _ _ _ _ _ _ H) as (? & ? & ? & ->). Qed.

Lemma addr_mask_ok e : 0 <= Z.land e ADDR_MASK < 2 ^ 63 /\ (4096 | Z.land e ADDR_MASK).
Proof.
  rewrite addr_mask. pose proof (Z.mod_pos_bound (e / 4096) (2 ^ 51)). split; [lia|by eexists].
Qed.

(** One level of the software walk. *)
Lemma follow fuel k s T s1 T1 p t i t' (K : Z -> M kernel Z) (Q : Z -> kernel -> Prop) :
  window_ok s T -> (2 <= fuel)%nat ->
  T !! p = Some t -> (length p < 3)%nat -> 0 <= i < 512 -> T !! (p ++ [i]) = Some t' ->
  grown (pages (page_tmp (k_pg s)) 1) k s T s1 T1 ->
  brk (k_pg s) + (k + 3) * 4096 <= miniheap_end (k_pg s) ->
  (forall s2 T2, grown (pages (page_tmp (k_pg s)) 1) (k + 3) s T s2 T2 -> wp (K t') Q s2) ->
  wp (e ← load64 (entry t i); assert_test (negb (Z.land e X86_PAGE_PRESENT =? 0)) ;;
      x ← map_page_tmp fuel (Z.land e ADDR_MASK); K x) Q s1.
Proof.
  intros (Hta & Htb & Hal) Hf Hp Hl Hi Hc HG Hroom HK.
  pose proof (gr_tables _ _ _ _ _ _ HG) as Hsub. pose proof (pi_tables _ _ (gr_inv _ _ _ _ _ _ HG)) as HT1.
  destruct (grown_globals _ _ _ _ _ _ HG) as (Etmp & Ealias & Ephys).
  assert (Hp1 : T1 !! p = Some t) by by eapply lookup_weaken.
  assert (Hc1 : T1 !! (p ++ [i]) = Some t') by by eapply lookup_weaken.
  rewrite <- (ta_child _ _ _ _ HT1 p t i) in Hc1 by done.
  destruct (entry_value HT1 p t i Hp1 Hi) as [e He]. unfold child in Hc1. rewrite He in Hc1. simpl in Hc1.
  apply wp_bind. eapply wp_run; [by apply kload64|]. apply wp_bind.
  destruct (Z.land e X86_PAGE_PRESENT =? 0); [done|]. injection Hc1 as Hc1. apply wp_assert; [done|].
  destruct (addr_mask_ok e) as [HP HPa]. pose proof (gr_brk _ _ _ _ _ _ HG). pose proof (grown_end _ _ _ _ _ _ HG).
  apply wp_bind. eapply wp_conseq; [apply (map_page_tmp_spec fuel s1 T1);
    [by eapply gr_inv|done|done|by rewrite Etmp|by rewrite Etmp|done|lia]|].
  intros r s2 (-> & T2 & H2). rewrite Etmp in H2.
  rewrite Ephys in Hc1. rewrite Ealias, Hal, Hc1.
  - eapply HK. by eapply grown_trans.
  - exists (p ++ [i]), t'. split; [done|]. rewrite Hc1. unfold within. lia.
Qed.

(** [root] is the top level table [kvirt2phys] starts from in the space [cur], the kernel's
    own for NULL, and it has the kernel's entry for [virt]. *)
Definition shares_kernel (s : kernel) (cur root virt : Z) : Prop :=
  (if cur =? 0 then root = kpml4 (k_pg s) else read64 (k_mem s) (cur + SPACE_ADDR) = Some root) /\
  read64 (k_mem s) (entry root (pml4_idx virt)) = read64 (k_mem s) (entry (kpml4 (k_pg s)) (pml4_idx virt)).

Lemma kvirt2phys_run fuel cur root virt e s T :
  paging_inv s T -> window_ok s T -> shares_kernel s cur root virt -> virt <> 0 -> kwalk s virt = Some e ->
  vpn virt <> vpn (page_tmp (k_pg s)) -> (2 <= fuel)%nat ->
  brk (k_pg s) + 9 * 4096 <= miniheap_end (k_pg s) ->
  exists s' T', kvirt2phys fuel cur virt s = Done (phys_of e virt) s' /\
    grown (pages (page_tmp (k_pg s)) 1) 9 s T s' T'.
Proof.
  intros HI Hwin [Hcur Hshare] Hv He Hne Hf Hroom. pose proof (pi_tables _ _ HI) as HT.
  assert (Hidx : forall k, 0 <= k -> 0 <= Z.land (Z.shiftr virt k) 0x1FF < 512) by (intros; by apply idx_range).
  unfold kwalk in He. rewrite (walk_lookup HT) in He.
  destruct (T !! table_path virt) as [pt|] eqn:H3; simpl in He; [|done].
  destruct (ta_closed _ _ _ _ HT [pml4_idx virt; pdpt_idx virt] (pd_idx virt) pt H3) as [[pd H2] _].
  destruct (ta_closed _ _ _ _ HT [pml4_idx virt] (pdpt_idx virt) pd H2) as [[pdpt H1] _].
  assert (Hload : forall B (K : Z -> M kernel B), (x ← load64 (entry root (pml4_idx virt)); K x) s =
    (x ← load64 (entry (kpml4 (k_pg s)) (pml4_idx virt)); K x) s).
  { intros B K. unfold mbind, M_bind, load64. change (mem_of s) with (k_mem s). by rewrite Hshare. }
  assert (Hgoal : wp (kvirt2phys fuel cur virt) (fun r s' => r = phys_of e virt /\
    exists T', grown (pages (page_tmp (k_pg s)) 1) 9 s T s' T') s).
  { unfold kvirt2phys. apply wp_bind. apply wp_run with (a := root) (s' := s).
    { destruct (cur =? 0); [by rewrite Hcur|by apply kload64]. }
    apply wp_bind, wp_assert; [by rewrite (proj2 (Z.eqb_neq virt 0))|].
    unfold wp. rewrite Hload.
    apply (follow fuel 0 s T s T [] _ _ pdpt); try done; try lia;
      [by apply HT|simpl; lia|by apply Hidx|by apply grown_refl|].
    intros s1 T1 G1. apply (follow fuel 3 s T s1 T1 [pml4_idx virt] _ _ pd); try done; try lia;
      [simpl; lia|by apply Hidx|].
    intros s2 T2 G2. apply (follow fuel 6 s T s2 T2 [pml4_idx virt; pdpt_idx virt] _ _ pt); try done; try lia;
      [simpl; lia|by apply Hidx|].
    intros s3 T3 G3. pose proof (pi_tables _ _ (gr_inv _ _ _ _ _ _ G3)) as HT3.
    assert (Hw : kwalk s3 virt = Some e).
    { rewrite (gr_walk _ _ _ _ _ _ G3).
      - unfold kwalk. rewrite (walk_lookup HT), H3. exact He.
      - by rewrite pages_one. }
    assert (H3' : T3 !! table_path virt = Some pt) by (eapply lookup_weaken; [done|by eapply gr_tables]).
    unfold kwalk in Hw. rewrite (walk_lookup HT3), H3' in Hw. simpl in Hw. unfold leaf in Hw.
    destruct (read64 (k_mem s3) (entry pt (pt_idx virt))) as [e'|] eqn:Hr; simpl in Hw; [|done].
    destruct (Z.land e' X86_PAGE_PRESENT =? 0); [done|]. injection Hw as ->.
    apply wp_bind. eapply wp_run; [by apply kload64|]. apply wp_ret. split; [done|]. by exists T3. }
  apply wp_done in Hgoal as (r & s' & Hrun & -> & T' & HG). by exists s', T'.
Qed.

(** C20. [kvirt2phys] computes the processor's walk, in the kernel's space and in every
    space that shares the kernel's entry for the address: for a mapped address outside the
    temporary window it returns the physical address, and but for that window every
    translation stays as it is.  It reads each table through the frame that its own write
    to the page tables maps at the window. *)
Theorem kvirt2phys_correct fuel cur root virt e s T :
  paging_inv s T -> window_ok s T -> shares_kernel s cur root virt -> virt <> 0 -> kwalk s virt = Some e ->
  vpn virt <> vpn (page_tmp (k_pg s)) -> (2 <= fuel)%nat ->
  brk (k_pg s) + 9 * 4096 <= miniheap_end (k_pg s) ->
  exists s' T', kvirt2phys fuel cur virt s = Done (phys_of e virt) s' /\
    grown (pages (page_tmp (k_pg s)) 1) 9 s T s' T'.
Proof. apply kvirt2phys_run. Qed.

Lemma paging_demo_window V k s T : grown V k paging_demo paging_demo_tables s T -> window_ok s T.
Proof.
  intros HG. destruct (grown_globals _ _ _ _ _ _ HG) as (E1 & E2 & E3). unfold window_ok. rewrite E1, E2.
  split; [by exists 0x30000|]. split; [cbn -[Z.pow]; lia|]. intros P _. rewrite E3.
  unfold PHYSK2VK, add64, sub64. cbn -[Z.pow w64]. by rewrite Z.sub_0_r, Z.add_0_r, w64_idem.
Qed.

(** On the empty tables with one page mapped. *)
Lemma kvirt2phys_correct_witness :
  exists s T s' T', kwalk s 0x5123 = Some 0x9001 /\ kvirt2phys 4 0 0x5123 s = Done 0x9123 s' /\
    grown (pages 0x30000000 1) 9 s T s' T'.
Proof.
  destruct (proj1 (wp_done _ _ _) (premap_page_spec paging_demo paging_demo_tables 0x5000 0x9000 1
    paging_demo_inv ltac:(lia) ltac:(cbn; lia))) as ([] & s & _ & T & _ & HG & Hw).
  specialize (Hw 0x5123 eq_refl). pose proof (paging_demo_window _ _ _ _ HG) as Hwin.
  pose proof (grown_globals _ _ _ _ _ _ HG) as (Etmp & _). pose proof (gr_brk _ _ _ _ _ _ HG) as Hb.
  pose proof (grown_end _ _ _ _ _ _ HG) as He.
  change (page_tmp (k_pg s) = 0x30000000) in Etmp. change (brk (k_pg s) <= 0x5000) in Hb.
  change (miniheap_end (k_pg s) = 0x21000) in He.
  destruct (kvirt2phys_correct 4 0 (kpml4 (k_pg s)) 0x5123 0x9001 s T) as (s' & T' & Hrun & HG');
    [exact (gr_inv _ _ _ _ _ _ HG)|exact Hwin|by split|lia|exact Hw|by rewrite Etmp|lia|lia|].
  rewrite Etmp in HG'. by exists s, T, s', T'.
Defined.

(** No-execute never reaches the tables: the entry's flags are computed in an [int],
    whose 32 bits do not hold bit 63. *)
Theorem x86_flags_drops_nx flags : x86_flags (Z.lor flags PAGE_NX) = x86_flags flags.
Proof.
  rewrite !x86_flags_value. unfold PAGE_NX.
  rewrite !Z.land_lor_distr_l.
  change (Z.land 8 PAGE_PRESENT) with 0. change (Z.land 8 PAGE_WRITABLE) with 0.
  change (Z.land 8 PAGE_USER) with 0. change (Z.land 8 PAGE_NOCACHE) with 0. by rewrite !Z.lor_0_r.
Qed.
