(* ===== verification/MapPages.v ===== *)
(** * kernel/arch/x86_64/paging.c, on top of the heap

    Address spaces: page tables made of allocated pages, with a hash map from the
    physical address of a table to the virtual address it was allocated at. *)
From S2P Require Import Prelude Memory Mem Pow2 State FreeList PageAlloc Kalloc HashMap Paging.

(** The bytes of a [uintptr_t] used as a key or a value. *)
Definition word_bytes (x : Z) : list Z := le_split 8 x.

(** [struct proc]: offsets of the fields (the [_packed] [struct arch_proc_state] takes
    the first 144 bytes), and its size. *)
Definition PROC_RSP : Z := 120.
Definition PROC_RIP : Z := 128.
Definition PROC_FLAGS : Z := 136.
Definition PROC_PID : Z := 144.
Definition PROC_FSFD : Z := 152.
Definition PROC_SEGS : Z := 160.
Definition PROC_SPACE : Z := 168.
Definition PROC_SIZE : Z := 176.
Definition ARCH_STATE_SIZE : Z := 144.

(** [struct segment] *)
Definition SEG_PERMS : Z := 0.
Definition SEG_KVIRT : Z := 8.
Definition SEG_BASE : Z := 16.
Definition SEG_LEN : Z := 24.
Definition SEG_SIZE : Z := 32.

(** arch/proc.h *)
Definition STACK_TOP : Z := 0x100000000.
Definition PROC_ENTRY : Z := 0x100000.

(** [cpu->proc_current ? cpu->proc_current->space : other] *)
Definition current_space (other : Z) : M kernel Z :=
  p ← gets (fun s => proc_current (k_cpu s));
  if negb (p =? 0) then load64 (p + PROC_SPACE) else mret other.

Definition flush_pages (fuel : nat) (space : Z) : M kernel unit :=
  phys ← (if space =? 0 then gets (fun s => VK2PHYSK (k_pg s) (kpml4 (k_pg s)))
          else
            p ← gets (fun s => proc_current (k_cpu s));
            cur ← load64 (p + PROC_SPACE);
            addr ← load64 (space + SPACE_ADDR);
            phys ← kvirt2phys fuel cur addr;
            store64 (p + PROC_SPACE) space ;;
            mret phys);
  emit (WCr3 phys).

Definition tab_new (fuel : nat) (space : Z) : M kernel Z :=
  cur_space ← current_space 0;
  virt ← page_alloc fuel PAGE_SIZE;
  phys ← kvirt2phys fuel cur_space virt;
  map_insert fuel (space + SPACE_PHYSMAP) (word_bytes phys) (word_bytes virt) ;;
  mret phys.

Definition tab_get (fuel : nat) (space phys : Z) : M kernel Z :=
  physmap ← load64 (space + SPACE_PHYSMAP);
  res ← map_get fuel physmap (word_bytes phys);
  g ← gets k_pg;
  if (res =? 0) && (space =? kspace g) then mret (PHYSK2VK g phys)
  else if res =? 0 then halt Panic
  else load64 res.

(** [if (!(tab[i] & PRESENT)) tab[i] = tab_new(space) | top_flags;] and then the table
    [tab_get(space, tab[i] & ADDR_MASK)]. *)
Definition map_table (fuel : nat) (space tab i : Z) : M kernel Z :=
  e ← load64 (entry tab i);
  (if Z.land e X86_PAGE_PRESENT =? 0 then
     p ← tab_new fuel space;
     store64 (entry tab i) (Z.lor p top_flags)
   else mret tt) ;;
  e ← load64 (entry tab i);
  tab_get fuel space (Z.land e ADDR_MASK).

Fixpoint map_loop (n fuel : nat) (space pml4 dst src dst_end src_end xflags : Z) : M kernel unit :=
  match n with
  | O => halt OutOfFuel
  | S k =>
      if (dst <? dst_end) && (src <? src_end) then
        pdpt ← map_table fuel space pml4 (pml4_idx dst);
        pd ← map_table fuel space pdpt (pdpt_idx dst);
        pt ← map_table fuel space pd (pd_idx dst);
        store64 (entry pt (pt_idx dst)) (Z.lor (Z.land src ADDR_MASK) xflags) ;;
        map_loop k fuel space pml4 (add64 dst PAGE_SIZE) (add64 src PAGE_SIZE) dst_end src_end xflags
      else mret tt
  end.

Definition map_pages (fuel : nat) (space dst src length flags : Z) : M kernel unit :=
  pml4 ← load64 (space + SPACE_ADDR);
  map_loop fuel fuel space pml4 dst src (page_end dst length) (page_end src length) (x86_flags flags).

Definition map_anon (fuel : nat) (phys len flags : Z) : M kernel Z :=
  let aligned := Z.land phys (w64 (Z.lnot 0xFFF)) in
  let offset := sub64 phys aligned in
  ks ← gets (fun s => kspace (k_pg s));
  space ← current_space ks;
  ACQUIRE (fun s => end_pos_lock (k_pg s)) set_end_pos_lock ;;
  ep ← gets (fun s => end_pos (k_pg s));
  let res := add64 ep offset in
  map_pages fuel space ep aligned len flags ;;
  modify (set_end_pos (round_up_page (add64 ep len))) ;;
  ep' ← gets (fun s => end_pos (k_pg s));
  refresh_pages fuel res ep' ;;
  RELEASE set_end_pos_lock ;;
  mret res.

Definition addrspace_free (fuel : nat) (addr : Z) : M kernel unit := page_free fuel addr PAGE_SIZE.

(** [p] is the process under construction (on the caller's stack); the allocated
    segment table's length field [n] is left as [kzalloc] made it, zero. *)
Definition proc_pages_init (fuel : nat) (p start len : Z) : M kernel unit :=
  space ← kalloc fuel 16;
  store64 (p + PROC_SPACE) space ;;
  pm ← map_new fuel 0x10;
  store64 (space + SPACE_PHYSMAP) pm ;;
  a ← page_alloc fuel PAGE_SIZE;
  store64 (space + SPACE_ADDR) a ;;
  k4 ← gets (fun s => kpml4 (k_pg s));
  e ← load64 (entry k4 511);
  store64 (entry a 511) e ;;
  segs ← FlexAlloc fuel SEG_SIZE 2;
  store64 (p + PROC_SEGS) segs ;;
  let seg0 := segs + FLEX_ITEM in
  let seg1 := segs + FLEX_ITEM + SEG_SIZE in
  store64 (seg0 + SEG_BASE) PROC_ENTRY ;;
  store64 (seg0 + SEG_KVIRT) start ;;
  store64 (seg0 + SEG_LEN) len ;;
  map_pages fuel space PROC_ENTRY start len (Z.lor PAGE_PRESENT PAGE_USER) ;;
  store64 (seg1 + SEG_BASE) STACK_TOP ;;
  store64 (seg1 + SEG_LEN) (64 * PAGE_SIZE) ;;
  kv ← page_alloc fuel (64 * PAGE_SIZE);
  store64 (seg1 + SEG_KVIRT) kv ;;
  map_pages fuel space STACK_TOP kv (64 * PAGE_SIZE)
    (Z.lor (Z.lor (Z.lor PAGE_PRESENT PAGE_USER) PAGE_NX) PAGE_WRITABLE).

Definition mp_pages (fuel : nat) : M kernel unit := flush_pages fuel 0.
