(* ===== verification/Timer.v ===== *)
(** * kernel/arch/x86_64/hpet.c, apic.c (timer) and rand.c

    The HPET counter, the sleeps built on it, and the calibration and programming of
    the local APIC timer.  Device registers are memory mapped: their accesses are
    events. *)
From S2P Require Import Prelude Memory State Devices.

(** ** HPET *)

(** [struct hpet]: offsets of [cap], [config], [main_ctr]; its size. *)
Definition HPET_CAP : Z := 0.
Definition HPET_CONFIG : Z := 16.
Definition HPET_MAIN_CTR : Z := 240.
Definition HPET_SIZE : Z := 1272.

Definition set_hpet (h clk : Z) (ready : bool) (s : kernel) : kernel :=
  let g := k_tm s in
  set_tm (TimerGlobals h clk ready (lapic_base g) (lapic_ticks g) (has_rdseed g)) s.

(** [hpet_init] after the table has been found and the registers mapped at [h]. *)
Definition hpet_start (h : Z) : M kernel unit :=
  cap ← ask (Mmio64 (h + HPET_CAP)) 64;
  modify (set_hpet h (w32 (Z.shiftr cap 32)) false) ;;
  emit (WMmio64 (h + HPET_CONFIG) 0) ;;
  emit (WMmio64 (h + HPET_MAIN_CTR) 0) ;;
  emit (WMmio64 (h + HPET_CONFIG) 1) ;;
  modify (set_hpet h (w32 (Z.shiftr cap 32)) true).

Definition read_hpet : M kernel Z :=
  ready ← gets (fun s => hpet_ready (k_tm s));
  if negb ready then halt Panic else
  h ← gets (fun s => hpet (k_tm s));
  ask (Mmio64 (h + HPET_MAIN_CTR)) 64.

Fixpoint sleep_loop (fuel : nat) (e : Z) : M kernel unit :=
  match fuel with
  | O => halt OutOfFuel
  | S k => cur ← read_hpet; if cur <? e then sleep_loop k e else mret tt
  end.

(** Division by [clk], 0 before [hpet_init], is the only partial operation. *)
Definition timer_sleep_us (fuel : nat) (us : Z) : M kernel unit :=
  now ← read_hpet;
  clk ← gets (fun s => hpet_clk (k_tm s));
  if clk =? 0 then halt Fault else
  sleep_loop fuel (add64 now (mul64 us 1000000000 / clk)).

Definition timer_sleep_ms (fuel : nat) (ms : Z) : M kernel unit := timer_sleep_us fuel (mul64 ms 1000).

Definition timer_count_ms : M kernel Z := v ← read_hpet; mret (v / 1000).

(** ** kernel/arch/x86_64/rand.c *)

(** [check_rdseed] is assembly: its result is the parameter. *)
Definition rand_init (check_rdseed : bool) : M kernel unit :=
  if check_rdseed then modify (fun s =>
    let g := k_tm s in
    set_tm (TimerGlobals (hpet g) (hpet_clk g) (hpet_ready g) (lapic_base g) (lapic_ticks g) true) s)
  else mret tt.

(** ** The local APIC *)

(** [enum] of include/arch/apic.h *)
Definition LAPIC_REG_EOI : Z := 0xB0.
Definition LAPIC_REG_SPURIOUS : Z := 0xF0.
Definition LAPIC_REG_LVT_TMR : Z := 0x320.
Definition LAPIC_REG_TMR_INITIAL : Z := 0x380.
Definition LAPIC_REG_TMR_CUR : Z := 0x390.
Definition LAPIC_REG_TMR_DIV : Z := 0x3E0.
Definition APIC_TMR_DIV_BY_16 : Z := 0x3.
Definition LAPIC_TMR_MASKED : Z := 0x10000.
Definition LAPIC_TMR_PERIODIC : Z := 0x20000.
Definition LAPIC_SPURIOUS_ALL : Z := 0xFF.
Definition LAPIC_SPURIOUS_ENABLE : Z := 0x100.

Definition lapic_read (reg : Z) : M kernel Z :=
  b ← gets (fun s => lapic_base (k_tm s)); ask (Mmio32 (add64 b reg)) 32.

Definition lapic_write (reg value : Z) : M kernel unit :=
  b ← gets (fun s => lapic_base (k_tm s)); emit (WMmio32 (add64 b reg) (w32 value)).

Definition lapic_eoi : M kernel unit := lapic_write LAPIC_REG_EOI 0.

Definition set_lapic_base (b : Z) (s : kernel) : kernel :=
  let g := k_tm s in
  set_tm (TimerGlobals (hpet g) (hpet_clk g) (hpet_ready g) b (lapic_ticks g) (has_rdseed g)) s.

Definition set_ticks (t : Z) (s : kernel) : kernel :=
  let g := k_tm s in
  set_tm (TimerGlobals (hpet g) (hpet_clk g) (hpet_ready g) (lapic_base g) t (has_rdseed g)) s.

(** The initial count for [us] microseconds, [ticks] per millisecond: 32-bit. *)
Definition duration_ticks (ticks us : Z) : Z :=
  let v := mul32 ticks us / 1000 in if v =? 0 then 1 else v.

Definition apic_set_duration (us : Z) : M kernel unit :=
  t ← gets (fun s => lapic_ticks (k_tm s));
  lapic_write LAPIC_REG_LVT_TMR (Z.lor INT_TIMER LAPIC_TMR_PERIODIC) ;;
  lapic_write LAPIC_REG_TMR_DIV APIC_TMR_DIV_BY_16 ;;
  lapic_write LAPIC_REG_TMR_INITIAL (duration_ticks t us).

Definition apic_start (fuel : nat) : M kernel unit :=
  v ← lapic_read LAPIC_REG_SPURIOUS;
  lapic_write LAPIC_REG_SPURIOUS (Z.lor (Z.lor v LAPIC_SPURIOUS_ALL) LAPIC_SPURIOUS_ENABLE) ;;
  lapic_write LAPIC_REG_TMR_DIV APIC_TMR_DIV_BY_16 ;;
  lapic_write LAPIC_REG_TMR_INITIAL 0xFFFFFFFF ;;
  timer_sleep_ms fuel 10 ;;
  lapic_write LAPIC_REG_LVT_TMR LAPIC_TMR_MASKED ;;
  cur ← lapic_read LAPIC_REG_TMR_CUR;
  let t := sub32 0xFFFFFFFF cur / 10 in
  modify (set_ticks (if t =? 0 then 1 else t)) ;;
  apic_set_duration (1000 * 10).
