(* ===== verification/TimerTheorems.v ===== *)
(** * The timers: theorems

    When a sleep on the HPET ends, and the programming of the local APIC timer. *)
From S2P Require Import Prelude Memory State Devices Timer.

(** What the main counter reads after [k] more events. *)
Definition counter (s : kernel) (k : nat) : Z :=
  answer s (length (log s) + k) (Mmio64 (hpet (k_tm s) + HPET_MAIN_CTR)) mod 2 ^ 64.

(** The first [n] reads of the counter, the latest first. *)
Fixpoint reads (s : kernel) (n : nat) : list io_event :=
  match n with
  | O => []
  | S k => Read (Mmio64 (hpet (k_tm s) + HPET_MAIN_CTR)) (counter s k) :: reads s k
  end.

Lemma length_reads s n : length (reads s n) = n.
Proof. induction n; simpl; lia. Qed.

Lemma read_hpet_run s n : hpet_ready (k_tm s) = true ->
  read_hpet (logged (reads s n) s) = Done (counter s n) (logged (reads s (S n)) s).
Proof.
  intros Hr. unfold read_hpet. rewrite (run_bind (gets (fun s => hpet_ready (k_tm s))) _ (logged (reads s n) s) (hpet_ready (k_tm s)) _ eq_refl), Hr. cbn [negb].
  rewrite (run_bind (gets (fun s => hpet (k_tm s))) _ (logged (reads s n) s) (hpet (k_tm s)) _ eq_refl), ask_run, logged_logged.
  assert (E : length (log (logged (reads s n) s)) = (length (log s) + n)%nat).
  { unfold logged, log. simpl. rewrite length_app, length_reads. unfold log. lia. }
  rewrite E. reflexivity.
Qed.

Lemma sleep_loop_run s e n d : hpet_ready (k_tm s) = true -> e <= counter s (n + d) ->
  (forall k, (n <= k < n + d)%nat -> counter s k < e) ->
  forall fuel, (d < fuel)%nat -> sleep_loop fuel e (logged (reads s n) s) = Done tt (logged (reads s (S (n + d))) s).
Proof.
  intros Hr. revert n. induction d as [|d IH]; intros n He Hlt [|fuel] Hf; try lia; cbn [sleep_loop];
    rewrite (run_bind _ _ _ _ _ (read_hpet_run s n Hr)).
  - rewrite Nat.add_0_r in *. by rewrite (proj2 (Z.ltb_ge _ _)).
  - rewrite (proj2 (Z.ltb_lt _ _)) by (apply Hlt; lia). rewrite IH; [by rewrite Nat.add_succ_comm|by rewrite Nat.add_succ_comm| |lia].
    intros k Hk. apply Hlt. lia.
Qed.

Lemma sleep_loop_stuck s e n : hpet_ready (k_tm s) = true -> (forall k, (n <= k)%nat -> counter s k < e) ->
  forall fuel, sleep_loop fuel e (logged (reads s n) s) = Stop OutOfFuel.
Proof.
  intros Hr Hlt fuel. revert n Hlt. induction fuel as [|fuel IH]; intros n Hlt; [done|]. cbn [sleep_loop].
  rewrite (run_bind _ _ _ _ _ (read_hpet_run s n Hr)), (proj2 (Z.ltb_lt _ _)) by (apply Hlt; lia).
  apply IH. intros k Hk. apply Hlt. lia.
Qed.

Lemma logged_nil s : logged [] s = s.
Proof. by destruct s as [? ? ? ? ? []]. Qed.

(** C36. [timer_sleep_us] reads the HPET until the counter has passed the time it computed
    from its first reading, in 64-bit arithmetic, and ends with the first reading that
    has; if no reading ever does, for instance because the sum has been computed past
    what the counter reaches before it wraps, the sleep never ends. *)
Theorem timer_sleep_us_waits s us :
  hpet_ready (k_tm s) = true -> hpet_clk (k_tm s) <> 0 ->
  let e := add64 (counter s 0) (mul64 us 1000000000 / hpet_clk (k_tm s)) in
  (forall d, e <= counter s (S d) -> (forall k, (1 <= k <= d)%nat -> counter s k < e) ->
     forall fuel, (d < fuel)%nat -> timer_sleep_us fuel us s = Done tt (logged (reads s (S (S d))) s)) /\
  ((forall k, (1 <= k)%nat -> counter s k < e) -> forall fuel, timer_sleep_us fuel us s = Stop OutOfFuel).
Proof.
  intros Hr Hclk e. pose proof (read_hpet_run s 0 Hr) as Hnow. simpl reads in Hnow at 1. rewrite logged_nil in Hnow.
  assert (Hrun : forall fuel, timer_sleep_us fuel us s = sleep_loop fuel e (logged (reads s 1) s)).
  { intros fuel. unfold timer_sleep_us. rewrite (run_bind _ _ _ _ _ Hnow).
    rewrite (run_bind (gets (fun s => hpet_clk (k_tm s))) _ (logged (reads s 1) s) (hpet_clk (k_tm s)) _ eq_refl). by rewrite (proj2 (Z.eqb_neq _ _)). }
  split.
  - intros d He Hlt fuel Hf. rewrite Hrun. apply (sleep_loop_run s e 1 d Hr He); [|done]. intros k Hk. apply Hlt. lia.
  - intros Hlt fuel. rewrite Hrun. by apply sleep_loop_stuck.
Qed.

(** A counter of 10 ns that advances by 100 from one event to the next. *)
Definition ticking : kernel :=
  set_tm (TimerGlobals 4096 10000000 true 0 0 false) (hw_demo (fun t _ => 100 * Z.of_nat t)).

Lemma timer_sleep_us_waits_witness :
  let e := add64 (counter ticking 0) (mul64 3 1000000000 / hpet_clk (k_tm ticking)) in
  (forall d, e <= counter ticking (S d) -> (forall k, (1 <= k <= d)%nat -> counter ticking k < e) ->
     forall fuel, (d < fuel)%nat -> timer_sleep_us fuel 3 ticking = Done tt (logged (reads ticking (S (S d))) ticking)) /\
  ((forall k, (1 <= k)%nat -> counter ticking k < e) -> forall fuel, timer_sleep_us fuel 3 ticking = Stop OutOfFuel).
Proof. apply (timer_sleep_us_waits ticking 3); [reflexivity|discriminate]. Defined.
