(* ===== verification/Sched.v ===== *)
(** * kernel/sched.c, kernel/arch/x86_64/sched.c and kernel/proc.c

    Per-CPU run queues in memory: two [struct queue]s of linked nodes by priority, the
    active one being drained into the inactive one; and the processes they name. *)
From S2P Require Import Prelude Memory Mem Pow2 State FreeList PageAlloc Kalloc HashMap Paging MapPages Devices Timer.

Definition NPRIOR : nat := 5.

(** [struct node] *)
Definition NODE_NEXT : Z := 0.
Definition NODE_PID : Z := 8.
Definition NODE_SIZE : Z := 16.

(** [struct queue]: [start[i]] and [end[i]]. *)
Definition q_start (q i : Z) : Z := q + 8 * i.
Definition q_end (q i : Z) : Z := q + 40 + 8 * i.
Definition QUEUE_SIZE : Z := 80.

(** [struct sched_cpu_queue] *)
Definition CQ_ACTIVE : Z := 0.
Definition CQ_INACTIVE : Z := 8.
Definition CQ_N : Z := 16.
Definition CQ_LOCK : Z := 21.
Definition CQ_SIZE : Z := 24.

Definition load32 (a : Z) : M kernel Z := fun s =>
  match read32 (k_mem s) a with
  | Some v => Done v s
  | None => Stop Fault
  end.

Definition store32 (a v : Z) : M kernel unit := fun s =>
  if mappedb (k_mem s) a 4 then Done tt (set_mem (write32 (k_mem s) a v) s) else Stop Fault.

Definition set_queues (p : Z) (s : kernel) : kernel :=
  let g := k_proc s in
  set_proc (ProcGlobals p (sched_ready g) (procmap g) (pid_cur g) (pid_cur_lock g)) s.

Definition set_current (p : Z) (s : kernel) : kernel :=
  let g := k_cpu s in set_cpu (CpuGlobals (states g) (ncpus g) (cpu_id g) p) s.

(** [&sched_cpu_queues[i]] *)
Definition cpu_queue (i : Z) : M kernel Z :=
  q ← gets (fun s => sched_cpu_queues (k_proc s)); mret (q + i * CQ_SIZE).

(** The loop's body in [sched_init]. *)
Definition sched_init_cpu (fuel : nat) (i : Z) : M kernel unit :=
  q ← cpu_queue i;
  a ← kzalloc fuel QUEUE_SIZE;
  store64 (q + CQ_ACTIVE) a ;;
  b ← kzalloc fuel QUEUE_SIZE;
  store64 (q + CQ_INACTIVE) b ;;
  store8 (q + CQ_LOCK) 0.

(** The array is as long as [struct queue]s would be. *)
Definition sched_init (fuel : nat) : M kernel unit :=
  n ← gets (fun s => ncpus (k_cpu s));
  p ← kalloc fuel (mul64 QUEUE_SIZE n);
  modify (set_queues p) ;;
  for_range (Z.to_nat n) 0 (sched_init_cpu fuel).

(** [procmap] is a global variable; its address is [procmap (k_proc s)], where the
    pointer to the map is kept. *)
Definition proc_activate (fuel : nat) (pid : Z) : M kernel unit :=
  mp ← gets (fun s => procmap (k_proc s));
  m ← load64 mp;
  p ← map_get fuel m (word_bytes pid);
  modify (set_current p) ;;
  assert_test (negb (p =? 0)).

Definition push_unlocked (cq new priority : Z) : M kernel unit :=
  q ← load64 (cq + CQ_INACTIVE);
  e ← load64 (q_end q priority);
  (if negb (e =? 0) then store64 (e + NODE_NEXT) new else mret tt) ;;
  store64 (q_end q priority) new ;;
  s ← load64 (q_start q priority);
  if s =? 0 then store64 (q_start q priority) new else mret tt.

(** The levels from [i] on, [n] of them. *)
Fixpoint pop_levels (n : nat) (cq i : Z) : M kernel Z :=
  match n with
  | O => mret 0
  | S k =>
      q ← load64 (cq + CQ_ACTIVE);
      node ← load64 (q_start q i);
      if node =? 0 then pop_levels k cq (i + 1) else
      e ← load64 (q_end q i);
      (if e =? node then store64 (q_end q i) 0 else mret tt) ;;
      nx ← load64 (node + NODE_NEXT);
      store64 (q_start q i) nx ;;
      store64 (node + NODE_NEXT) 0 ;;
      push_unlocked cq node i ;;
      load64 (node + NODE_PID)
  end.

Definition pop_unlocked (cq : Z) : M kernel Z := pop_levels NPRIOR cq 0.

(** The CPU with the fewest processes. *)
Fixpoint least_loaded (n : nat) (cpu cpu_min n_min : Z) : M kernel Z :=
  match n with
  | O => mret cpu_min
  | S k =>
      q ← cpu_queue cpu;
      c ← load32 (q + CQ_N);
      if c <? n_min then least_loaded k (cpu + 1) cpu c else least_loaded k (cpu + 1) cpu_min n_min
  end.

(** [cpu_min] is uninitialised when every queue reports [UINT32_MAX]: [garbage]. *)
Definition schedule (fuel : nat) (garbage pid priority : Z) : M kernel unit :=
  new ← kalloc fuel NODE_SIZE;
  store64 (new + NODE_PID) pid ;;
  store64 (new + NODE_NEXT) 0 ;;
  n ← gets (fun s => ncpus (k_cpu s));
  cpu ← least_loaded (Z.to_nat n) 0 garbage (2 ^ 32 - 1);
  q ← cpu_queue cpu;
  ACQUIRE_at (q + CQ_LOCK) ;;
  c ← load32 (q + CQ_N);
  store32 (q + CQ_N) (add32 c 1) ;;
  push_unlocked q new priority ;;
  RELEASE_at (q + CQ_LOCK).

Definition proc_next (fuel : nat) : M kernel unit :=
  cpuid ← gets (fun s => cpu_id (k_cpu s));
  q ← cpu_queue cpuid;
  ACQUIRE_at (q + CQ_LOCK) ;;
  pid ← pop_unlocked q;
  if negb (pid =? 0) then
    proc_activate fuel pid ;;
    RELEASE_at (q + CQ_LOCK)
  else
    tmp ← load64 (q + CQ_INACTIVE);
    a ← load64 (q + CQ_ACTIVE);
    store64 (q + CQ_INACTIVE) a ;;
    store64 (q + CQ_ACTIVE) tmp ;;
    pid ← pop_unlocked q;
    (if pid =? 0 then halt Panic else mret tt) ;;
    proc_activate fuel pid ;;
    RELEASE_at (q + CQ_LOCK).

(** The list of one level, [prev] being the node before [n]. *)
Fixpoint remove_walk (fuel : nat) (q i pid prev n : Z) : M kernel bool :=
  match fuel with
  | O => halt OutOfFuel
  | S k =>
      if n =? 0 then mret false else
      p ← load64 (n + NODE_PID);
      if p =? pid then
        e ← load64 (q_end q i);
        (if e =? n then store64 (q_end q i) prev else mret tt) ;;
        nx ← load64 (n + NODE_NEXT);
        (if negb (prev =? 0) then store64 (prev + NODE_NEXT) nx else store64 (q_start q i) nx) ;;
        kfree k n ;;
        mret true
      else
        nx ← load64 (n + NODE_NEXT);
        remove_walk k q i pid n nx
  end.

Fixpoint remove_levels (fuel n : nat) (q i pid : Z) : M kernel bool :=
  match n with
  | O => mret false
  | S k =>
      s ← load64 (q_start q i);
      r ← remove_walk fuel q i pid 0 s;
      if (r : bool) then mret true else remove_levels fuel k q (i + 1) pid
  end.

Definition queue_tryremove (fuel : nat) (q pid : Z) : M kernel bool := remove_levels fuel NPRIOR q 0 pid.

(** kernel/arch/x86_64/sched.c *)
Definition SCHED_US_PER_SWEEP : Z := 10000.

(** [int n]: the count read as signed; the division is in [uint32_t]. *)
Definition sweep_us (n : Z) : Z :=
  let us := SCHED_US_PER_SWEEP / (if n =? 0 then 1 else n) in
  if us =? 0 then 1 else us.

Definition sched_update_duration : M kernel unit :=
  cpuid ← gets (fun s => cpu_id (k_cpu s));
  q ← cpu_queue cpuid;
  n ← load32 (q + CQ_N);
  apic_set_duration (sweep_us n).

Definition unschedule (fuel : nat) (pid : Z) : M kernel unit :=
  cpuid ← gets (fun s => cpu_id (k_cpu s));
  q ← cpu_queue cpuid;
  ACQUIRE_at (q + CQ_LOCK) ;;
  n ← load32 (q + CQ_N);
  store32 (q + CQ_N) (sub32 n 1) ;;
  sched_update_duration ;;
  a ← load64 (q + CQ_ACTIVE);
  r ← queue_tryremove fuel a pid;
  (if (r : bool) then mret tt
   else b ← load64 (q + CQ_INACTIVE); queue_tryremove fuel b pid ;; mret tt) ;;
  RELEASE_at (q + CQ_LOCK).

Definition set_sched_ready (b : bool) (s : kernel) : kernel :=
  let g := k_proc s in
  set_proc (ProcGlobals (sched_cpu_queues g) b (procmap g) (pid_cur g) (pid_cur_lock g)) s.

(** The endless [while (1) pause();] that follows is where the run of [kmain] ends. *)
Definition sched_begin : M kernel unit := modify (set_sched_ready true).

(** ** kernel/proc.c *)

Definition set_pid_cur (p : Z) (s : kernel) : kernel :=
  let g := k_proc s in
  set_proc (ProcGlobals (sched_cpu_queues g) (sched_ready g) (procmap g) p (pid_cur_lock g)) s.

Definition proc_init (fuel : nat) : M kernel unit :=
  mp ← gets (fun s => procmap (k_proc s));
  m ← map_new fuel 1204;
  store64 mp m ;;
  assert_test (negb (m =? 0)).

(** kernel/arch/x86_64/proc.c *)
Definition procp_init (p : Z) : M kernel unit :=
  store64 (p + PROC_RSP) STACK_TOP ;;
  store64 (p + PROC_RIP) PROC_ENTRY ;;
  store64 (p + PROC_FLAGS) 0x202.

(** The bytes of an object in memory. *)
Definition load_bytes (a : Z) (n : nat) : M kernel (list Z) := fun s =>
  match read_bytes (k_mem s) a n with
  | Some bs => Done bs s
  | None => Stop Fault
  end.

(** [p] is the address of the local [struct proc p]. *)
Definition proc_new (fuel : nat) (p start len : Z) : M kernel Z :=
  memset p 0 PROC_SIZE ;;
  ACQUIRE (fun s => pid_cur_lock (k_proc s)) set_pid_cur_lock ;;
  c ← gets (fun s => pid_cur (k_proc s));
  let pid := add64 c 1 in
  modify (set_pid_cur pid) ;;
  RELEASE set_pid_cur_lock ;;
  c ← gets (fun s => pid_cur (k_proc s));
  store64 (p + PROC_PID) c ;;
  procp_init p ;;
  proc_pages_init fuel p start len ;;
  bytes ← load_bytes p (Z.to_nat PROC_SIZE);
  mp ← gets (fun s => procmap (k_proc s));
  map_insert fuel mp (word_bytes pid) bytes ;;
  load64 (p + PROC_PID).
