(* ===== verification/RunLists.v ===== *)
(** * Linked lists with two ends, many at a time

    The run queues of kernel/sched.c are arrays of singly linked lists with a pointer to
    the first and to the last node.  [lists_at] relates a memory to the lists it holds, a
    list of lists of (node address, process id); unlinking a node and appending one are
    proved here once, for the queues' own layout to instantiate. *)
From S2P Require Import Prelude Memory State Sched.

Definition node : Type := Z * Z.

Definition head_addr (l : list node) (e : Z) : Z :=
  match l with
  | [] => e
  | (a, _) :: _ => a
  end.

Definition last_addr (l : list node) : Z :=
  match last l with
  | Some (a, _) => a
  | None => 0
  end.

(** The nodes of [l] in memory, linked, the last one pointing to [e]. *)
Fixpoint chain (m : gmap Z Z) (l : list node) (e : Z) : Prop :=
  match l with
  | [] => True
  | (a, p) :: l' => read64 m a = Some (head_addr l' e) /\ read64 m (a + NODE_PID) = Some p /\ chain m l' e
  end.

(** A node's block as the heap gives it. *)
Definition node_ok (a : Z) : Prop := 0 < a < 2 ^ 64 /\ (16 | a).

Lemma node_word1 a : node_ok a -> (8 | a).
Proof. intros [_ [q ->]]. exists (2 * q). lia. Qed.

Lemma node_word2 a : node_ok a -> (8 | a + NODE_PID).
Proof. intros [_ [q ->]]. exists (2 * q + 1). unfold NODE_PID. lia. Qed.

Definition in_nodes (l : list node) (c : Z) : Prop := exists a p, (a, p) ∈ l /\ (c = a \/ c = a + NODE_PID).

(** The bytes of the words in [W]. *)
Definition word_bytes_of (W : Z -> Prop) (x : Z) : Prop := exists c, W c /\ within c 8 x.

(** Only the words in [W] are written: the other aligned words, and the other bytes,
    keep their value. *)
Record agree (W : Z -> Prop) (m m' : gmap Z Z) : Prop := {
  ag_words c : (8 | c) -> ~ W c -> read64 m' c = read64 m c;
  ag_bytes : changes (word_bytes_of W) m m';
}.

Lemma agree_refl W m : agree W m m.
Proof. split; [done|apply changes_refl]. Qed.

Lemma agree_trans W m1 m2 m3 : agree W m1 m2 -> agree W m2 m3 -> agree W m1 m3.
Proof.
  intros [H1 C1] [H2 C2]. split; [|by eapply changes_trans]. intros c Hc HW. by rewrite H2, H1.
Qed.

Lemma agree_write (W : Z -> Prop) m c v : (8 | c) -> W c -> agree W m (write64 m c v).
Proof.
  intros Hc HW. split.
  - destruct Hc as [q ->]. intros d [r ->] Hd. apply read64_write64_ne.
    assert (q <> r); [|lia]. intros ->. done.
  - eapply changes_weaken; [apply changes_write64|]. intros x Hx. by exists c.
Qed.

Lemma agree_weaken (W V : Z -> Prop) m m' : agree W m m' -> (forall c, W c -> V c) -> agree V m m'.
Proof.
  intros [H C] HWV. split.
  - intros c Hc HV. apply H; [done|]. auto.
  - eapply changes_weaken; [exact C|]. intros x (c & Hc & Hx). exists c. auto.
Qed.

Lemma agree_read W m m' c v : agree W m m' -> (8 | c) -> ~ W c -> read64 m c = Some v -> read64 m' c = Some v.
Proof. intros [H _] Hc HW. by rewrite (H c). Qed.

(** ** Chains *)

Lemma head_app l1 l2 e : head_addr (l1 ++ l2) e = head_addr l1 (head_addr l2 e).
Proof. by destruct l1 as [|[]]. Qed.

Lemma last_snoc l a p : last_addr (l ++ [(a, p)]) = a.
Proof. unfold last_addr. by rewrite last_snoc. Qed.

Lemma last_app_cons l n l' : last_addr (l ++ n :: l') = last_addr (n :: l').
Proof. unfold last_addr. by rewrite last_app_cons. Qed.

Lemma last_elem l : l <> [] -> exists p, (last_addr l, p) ∈ l.
Proof.
  intros Hl. destruct (exists_last Hl) as (l' & [a p] & ->). rewrite last_snoc. exists p. set_solver.
Qed.

Lemma chain_app m l1 l2 e : chain m (l1 ++ l2) e <-> chain m l1 (head_addr l2 e) /\ chain m l2 e.
Proof.
  induction l1 as [|[a p] l1 IH]; simpl; [tauto|]. rewrite IH, head_app. tauto.
Qed.

Lemma chain_agree W m m' l e : agree W m m' -> (forall a p, (a, p) ∈ l -> node_ok a) ->
  (forall c, in_nodes l c -> ~ W c) -> chain m l e -> chain m' l e.
Proof.
  intros Hag. induction l as [|[a p] l IH]; simpl; [done|]. intros Hok HW (Hn & Hp & Hl).
  destruct (Hok a p) as [_ [q Hq]]; [set_solver|]. split; [|split].
  - eapply agree_read; [done|by exists (2 * q); lia| |done]. apply HW. exists a, p. split; [set_solver|by left].
  - eapply agree_read; [done|exists (2 * q + 1); unfold NODE_PID; lia| |done].
    apply HW. exists a, p. split; [set_solver|by right].
  - apply IH; [set_solver| |done]. intros c (b & r & Hb & Hc). apply HW. exists b, r. split; [set_solver|done].
Qed.

(** Nodes at different addresses have different words. *)
Lemma node_words a b c : node_ok a -> node_ok b -> a <> b ->
  c = a \/ c = a + NODE_PID -> c = b \/ c = b + NODE_PID -> False.
Proof. unfold node_ok, NODE_PID. intros [_ [q ->]] [_ [r ->]]. lia. Qed.

(** The last node gets another successor. *)
Lemma chain_set_last m l b q e e' : chain m (l ++ [(b, q)]) e -> NoDup (l ++ [(b, q)]).*1 ->
  (forall a p, (a, p) ∈ l ++ [(b, q)] -> node_ok a) -> 0 <= e' < 2 ^ 64 ->
  chain (write64 m b e') (l ++ [(b, q)]) e'.
Proof.
  intros Hc Hnd Hok He. apply chain_app in Hc as [Hc (_ & Hq & _)]. apply chain_app. simpl.
  assert (Hb : node_ok b) by (apply (Hok b q); set_solver). pose proof Hb as [_ [r Hr]].
  assert (Hag : agree (fun c => c = b) m (write64 m b e')) by (apply agree_write; [exists (2 * r); lia|done]).
  split; [|split; [by apply read64_write64_eq|split; [|done]]].
  - eapply chain_agree; [done|set_solver| |done]. intros c (a & p & Ha & Hca) ->.
    apply (node_words a b b); [by apply (Hok a p); set_solver|done| |done|by left].
    intros ->. rewrite fmap_app in Hnd. apply NoDup_app in Hnd as (_ & Hnd & _).
    apply (Hnd b); [|set_solver]. apply list_elem_of_fmap. by exists (b, p).
  - eapply agree_read; [done|exists (2 * r + 1); unfold NODE_PID; lia| |done]. unfold NODE_PID. lia.
Qed.

(** ** The array of lists *)

Section lists.
(** The cells with the first and the last node of list [k], for [N] lists. *)
Context (N : nat) (sc ec : nat -> Z).

Definition cells_ok : Prop :=
  (forall k, (k < N)%nat -> (8 | sc k) /\ (8 | ec k)) /\
  (forall j k, (j < N)%nat -> (k < N)%nat -> sc j = sc k -> j = k) /\
  (forall j k, (j < N)%nat -> (k < N)%nat -> ec j = ec k -> j = k) /\
  (forall j k, (j < N)%nat -> (k < N)%nat -> sc j <> ec k).

(** A node's words are none of the cells. *)
Definition placed (a : Z) : Prop :=
  node_ok a /\ forall k c, (k < N)%nat -> c = a \/ c = a + NODE_PID -> c <> sc k /\ c <> ec k.

Record list_at (m : gmap Z Z) (k : nat) (l : list node) : Prop := {
  la_first : read64 m (sc k) = Some (head_addr l 0);
  la_last : read64 m (ec k) = Some (last_addr l);
  la_chain : chain m l 0;
}.

Record lists_at (m : gmap Z Z) (Lv : list (list node)) : Prop := {
  ls_len : length Lv = N;
  ls_at k l : Lv !! k = Some l -> list_at m k l;
  ls_placed k l a p : Lv !! k = Some l -> (a, p) ∈ l -> placed a;
  ls_nodup k l : Lv !! k = Some l -> NoDup l.*1;
  ls_apart j k l l' a p q : Lv !! j = Some l -> Lv !! k = Some l' -> (a, p) ∈ l -> (a, q) ∈ l' -> j = k;
}.

(** The words list [k] is made of. *)
Definition list_cells (k : nat) (l : list node) (c : Z) : Prop := c = sc k \/ c = ec k \/ in_nodes l c.

Definition fresh (a : Z) (Lv : list (list node)) : Prop :=
  forall k l p, Lv !! k = Some l -> (a, p) ∉ l.

Context (Hcells : cells_ok).

Lemma list_at_agree W m m' k l : agree W m m' -> (k < N)%nat -> (forall a p, (a, p) ∈ l -> placed a) ->
  (forall c, list_cells k l c -> ~ W c) -> list_at m k l -> list_at m' k l.
Proof.
  intros Hag Hk Hpl HW [H1 H2 H3]. destruct Hcells as (Hal & _). destruct (Hal k Hk). split.
  - eapply agree_read; [done..| |done]. apply HW. by left.
  - eapply agree_read; [done..| |done]. apply HW. right. by left.
  - eapply chain_agree; [done| | |done].
    + intros a p Ha. by apply (Hpl a p).
    + intros c Hc. apply HW. right. by right.
Qed.

(** Lists do not share words. *)
Lemma list_cells_apart m Lv j k l l' c : lists_at m Lv -> Lv !! j = Some l -> Lv !! k = Some l' -> j <> k ->
  list_cells j l c -> list_cells k l' c -> False.
Proof.
  intros HL Hj Hk Hne Hc Hc'. destruct Hcells as (_ & Hs & He & Hse).
  pose proof (lookup_lt_Some _ _ _ Hj). pose proof (lookup_lt_Some _ _ _ Hk). rewrite (ls_len _ _ HL) in *.
  destruct Hc as [->|[->|(a & p & Ha & Hc)]], Hc' as [E|[E|(b & q & Hb & Hc')]]; subst;
    try (by apply Hne, Hs); try (by apply Hne, He); 
    try (by apply (Hse j k)); try (by apply (Hse k j)).
  - by destruct (proj2 (ls_placed _ _ HL k l' b q Hk Hb) j (sc j)).
  - by destruct (proj2 (ls_placed _ _ HL k l' b q Hk Hb) j (ec j)).
  - by destruct (proj2 (ls_placed _ _ HL j l a p Hj Ha) k (sc k)).
  - by destruct (proj2 (ls_placed _ _ HL j l a p Hj Ha) k (ec k)).
  - destruct (decide (a = b)) as [->|Hab].
    + by apply Hne, (ls_apart _ _ HL j k l l' b p q).
    + apply (node_words a b c); try done; [by eapply (ls_placed _ _ HL j)|by eapply (ls_placed _ _ HL k)].
Qed.

(** Changing list [k] and the words it is made of. *)
Lemma lists_at_update m m' Lv k l l' (W : Z -> Prop) : lists_at m Lv -> Lv !! k = Some l -> agree W m m' ->
  (forall c, W c -> list_cells k l c \/ list_cells k l' c) ->
  list_at m' k l' -> NoDup l'.*1 ->
  (forall a p, (a, p) ∈ l' -> (a, p) ∈ l \/ placed a /\ fresh a Lv) ->
  lists_at m' (<[k := l']> Lv).
Proof.
  intros HL Hk Hag HW Hat Hnd Hnew.
  assert (HkN : (k < N)%nat) by (rewrite <- (ls_len _ _ HL); by eapply lookup_lt_Some).
  assert (Hpl : forall a p, (a, p) ∈ l' -> placed a).
  { intros a p Ha. destruct (Hnew a p Ha) as [Ha'|[? _]]; [by eapply (ls_placed _ _ HL k)|done]. }
  assert (Hsep : forall j lj c, Lv !! j = Some lj -> j <> k -> list_cells j lj c -> ~ W c).
  { intros j lj c Hj Hne Hc HWc. destruct (HW c HWc) as [Hck|Hck].
    - by eapply (list_cells_apart m Lv j k).
    - destruct Hck as [->|[->|(a & p & Ha & Hca)]].
      + eapply (list_cells_apart m Lv j k lj l); try done. by left.
      + eapply (list_cells_apart m Lv j k lj l); try done. right. by left.
      + destruct (Hnew a p Ha) as [Ha'|[Hpa Hfr]].
        * eapply (list_cells_apart m Lv j k lj l); try done. right. right. by exists a, p.
        * assert (HjN : (j < N)%nat) by (rewrite <- (ls_len _ _ HL); by eapply lookup_lt_Some).
          destruct (proj2 Hpa j c HjN Hca). destruct Hc as [?|[?|(b & q & Hb & Hcb)]]; [done..|].
          apply (node_words a b c); try done; [by apply Hpa|by eapply (ls_placed _ _ HL j)|].
          intros ->. by apply (Hfr j lj q). }
  split.
  - rewrite length_insert. by apply HL.
  - intros j lj Hj. apply list_lookup_insert_Some in Hj as [(-> & -> & _)|[Hne Hj]]; [done|].
    eapply list_at_agree; [done| | | |by apply (ls_at _ _ HL)].
    + rewrite <- (ls_len _ _ HL). by eapply lookup_lt_Some.
    + intros a p. by apply (ls_placed _ _ HL j).
    + intros c. apply Hsep; [done|]. congruence.
  - intros j lj a p Hj Ha. apply list_lookup_insert_Some in Hj as [(-> & -> & _)|[Hne Hj]].
    + by apply (Hpl a p).
    + by eapply (ls_placed _ _ HL j).
  - intros j lj Hj. apply list_lookup_insert_Some in Hj as [(-> & -> & _)|[Hne Hj]]; [done|].
    by apply (ls_nodup _ _ HL j).
  - intros i j li lj a p q Hi Hj Hai Haj.
    apply list_lookup_insert_Some in Hi as [(-> & -> & _)|[Hne Hi]];
      apply list_lookup_insert_Some in Hj as [(<- & -> & _)|[Hne' Hj]]; [done|..].
    + destruct (Hnew a p Hai) as [Ha'|[_ Hfr]]; [by eapply (ls_apart _ _ HL)|]. by destruct (Hfr j lj q).
    + destruct (Hnew a q Haj) as [Ha'|[_ Hfr]]; [by eapply (ls_apart _ _ HL)|]. by destruct (Hfr i li p).
    + by eapply (ls_apart _ _ HL).
Qed.

Lemma fresh_words m Lv k l a c : lists_at m Lv -> Lv !! k = Some l -> placed a -> fresh a Lv ->
  c = a \/ c = a + NODE_PID -> list_cells k l c -> False.
Proof.
  intros HL Hk Ha Hfr Hc Hcell.
  assert (HkN : (k < N)%nat) by (rewrite <- (ls_len _ _ HL); by eapply lookup_lt_Some).
  destruct (proj2 Ha k c HkN Hc). destruct Hcell as [?|[?|(b & q & Hb & Hcb)]]; [done..|].
  apply (node_words a b c); try done; [by apply Ha|by eapply (ls_placed _ _ HL k)|].
  intros ->. by apply (Hfr k l q).
Qed.

Lemma last_zero m Lv k l : lists_at m Lv -> Lv !! k = Some l -> last_addr l = 0 <-> l = [].
Proof.
  intros HL Hk. split; [|by intros ->]. intros H0. destruct l as [|n l]; [done|].
  destruct (last_elem (n :: l)) as [p Hp]; [done|]. rewrite H0 in Hp.
  destruct (ls_placed _ _ HL k _ 0 p Hk Hp) as [[? _] _]. lia.
Qed.

Lemma head_zero m Lv k l : lists_at m Lv -> Lv !! k = Some l -> head_addr l 0 = 0 <-> l = [].
Proof.
  intros HL Hk. split; [|by intros ->]. intros H0. destruct l as [|[a p] l]; [done|]. simpl in H0.
  destruct (ls_placed _ _ HL k _ a p Hk) as [[? _] _]; [set_solver|lia].
Qed.

(** A cell in use is mapped. *)
Lemma cells_mapped m Lv k l : lists_at m Lv -> Lv !! k = Some l -> mapped m (sc k) 8 /\ mapped m (ec k) 8.
Proof.
  intros HL Hk. destruct (ls_at _ _ HL k l Hk) as [H1 H2 _].
  split; apply read64_is_Some; by eexists.
Qed.

(** What appending writes. *)
Definition append_mem (m : gmap Z Z) (k : nat) (l : list node) (a : Z) : gmap Z Z :=
  let m1 := match l with [] => m | _ => write64 m (last_addr l) a end in
  let m2 := write64 m1 (ec k) a in
  match l with [] => write64 m2 (sc k) a | _ => m2 end.

Lemma append_cons m k l a : l <> [] ->
  append_mem m k l a = write64 (write64 m (last_addr l) a) (ec k) a.
Proof. by destruct l. Qed.

Lemma append_agree m Lv k l a : lists_at m Lv -> Lv !! k = Some l -> placed a ->
  agree (list_cells k l) m (append_mem m k l a).
Proof.
  intros HL Hk Ha.
  assert (HkN : (k < N)%nat) by (rewrite <- (ls_len _ _ HL); by eapply lookup_lt_Some).
  destruct Hcells as (Hal & _). destruct (Hal k HkN) as [Hs He]. unfold append_mem.
  destruct l as [|n l]; simpl.
  - eapply agree_trans; apply agree_write; try done; [by right; left|by left].
  - destruct (last_elem (n :: l)) as [q Hq]; [done|].
    destruct (ls_placed _ _ HL k _ _ q Hk Hq) as [Hqn _].
    eapply agree_trans; apply agree_write; try done; [by apply node_word1| |by right; left].
    right. right. exists (last_addr (n :: l)), q. split; [done|by left].
Qed.

Lemma append_ok m Lv k l a p : lists_at m Lv -> Lv !! k = Some l -> placed a -> fresh a Lv ->
  read64 m a = Some 0 -> read64 m (a + NODE_PID) = Some p ->
  lists_at (append_mem m k l a) (<[k := l ++ [(a, p)]]> Lv).
Proof.
  intros HL Hk Ha Hfr H0 Hp. pose proof (append_agree m Lv k l a HL Hk Ha) as Hag.
  assert (HkN : (k < N)%nat) by (rewrite <- (ls_len _ _ HL); by eapply lookup_lt_Some).
  pose proof Hcells as (Hal & _ & _ & Hse). destruct (Hal k HkN) as [Hs He].
  destruct (ls_at _ _ HL k l Hk) as [Lf Ll Lc]. pose proof Ha as [[Hab _] Hpa].
  assert (Hau : 0 <= a < 2 ^ 64) by lia.
  assert (Hsn : forall b q, (b, q) ∈ l -> sc k <> b /\ ec k <> b).
  { intros b q Hb. destruct (proj2 (ls_placed _ _ HL k l b q Hk Hb) k b HkN); [by left|]. split; congruence. }
  eapply lists_at_update; [done..| |split| |].
  - intros c Hc. by left.
  - unfold append_mem. destruct l as [|[b q] l]; simpl head_addr; [by apply read64_write64_eq|].
    eapply agree_read; [apply (agree_write (fun c => c = ec k)); done|done| |].
    { intros E. by apply (Hse k k). }
    destruct (last_elem ((b, q) :: l)) as [x Hx]; [done|].
    destruct (ls_placed _ _ HL k _ _ x Hk Hx) as [Hxn _].
    eapply agree_read; [apply (agree_write (fun c => c = last_addr ((b, q) :: l))); [by apply node_word1|done]|done| |done].
    intros E. by destruct (Hsn _ x Hx) as [Hd _].
  - rewrite last_snoc. unfold append_mem. destruct l as [|[b q] l].
    + eapply agree_read; [apply (agree_write (fun c => c = sc k)); done|done| |by apply read64_write64_eq].
      intros E. by apply (Hse k k).
    + by apply read64_write64_eq.
  - apply chain_app. simpl. split; [|split; [|split; [|done]]].
    + destruct (decide (l = [])) as [->|Hne]; [done|].
      rewrite append_cons by done. destruct (exists_last Hne) as (l' & [b q] & ->). rewrite last_snoc.
      apply (chain_agree (fun c => c = ec k) (write64 m b a) _ _ _
        (agree_write _ (write64 m b a) (ec k) a He eq_refl)).
      * intros x y Hx. by apply (ls_placed _ _ HL k _ x y Hk).
      * intros c (x & y & Hx & Hc) ->. by destruct (proj2 (ls_placed _ _ HL k _ x y Hk Hx) k (ec k) HkN Hc).
      * eapply chain_set_last; [exact Lc|by apply (ls_nodup _ _ HL k)| |done].
        intros x y Hx. by apply (ls_placed _ _ HL k _ x y Hk).
    + eapply agree_read; [done|by apply node_word1, Ha| |done]. intros Hc. by eapply (fresh_words m Lv k l a a); [..|by left|].
    + eapply agree_read; [done|by apply node_word2, Ha| |done].
      intros Hc. by eapply (fresh_words m Lv k l a (a + NODE_PID)); [..|by right|].
  - rewrite fmap_app. apply NoDup_app. split; [by apply (ls_nodup _ _ HL k)|]. split; [|apply NoDup_singleton].
    intros x Hx. apply list_elem_of_fmap in Hx as ([x' y] & -> & Hx). simpl. rewrite list_elem_of_singleton.
    intros ->. by apply (Hfr k l y).
  - intros x y [Hx|Hx]%elem_of_app; [by left|]. apply list_elem_of_singleton in Hx as [= -> ->]. by right.
Qed.

(** What unlinking the node between [l1] and [l2] writes. *)
Definition unlink_end (m : gmap Z Z) (k : nat) (l1 l2 : list node) : gmap Z Z :=
  if decide (l2 = []) then write64 m (ec k) (last_addr l1) else m.

Definition unlink_mem (m : gmap Z Z) (k : nat) (l1 l2 : list node) : gmap Z Z :=
  write64 (unlink_end m k l1 l2) (if decide (l1 = []) then sc k else last_addr l1) (head_addr l2 0).

Lemma last_u64 l : (forall x y, (x, y) ∈ l -> placed x) -> u64 (last_addr l).
Proof.
  intros Hl. destruct (decide (l = [])) as [->|Hne]; [done|]. destruct (last_elem l Hne) as [q Hq].
  destruct (Hl _ _ Hq) as [[? _] _]. unfold u64. lia.
Qed.

Lemma head_u64 l : (forall x y, (x, y) ∈ l -> placed x) -> u64 (head_addr l 0).
Proof.
  intros Hl. destruct l as [|[x y] l]; [done|]. destruct (Hl x y) as [[? _] _]; [set_solver|].
  unfold u64. simpl. lia.
Qed.

Section unlink.
Context (m : gmap Z Z) (Lv : list (list node)) (k : nat) (l1 : list node) (a p : Z) (l2 : list node).
Context (HL : lists_at m Lv) (Hk : Lv !! k = Some (l1 ++ (a, p) :: l2)).

Lemma unlink_index : (k < N)%nat.
Proof. rewrite <- (ls_len _ _ HL). by eapply lookup_lt_Some. Qed.

Lemma unlink_node x y : (x, y) ∈ l1 ++ l2 -> placed x.
Proof. intros Hx. apply (ls_placed _ _ HL k _ x y Hk). set_solver. Qed.

Lemma unlink_gone : placed a /\ ~ In a (l1 ++ l2).*1 /\ NoDup (l1 ++ l2).*1.
Proof.
  split; [apply (ls_placed _ _ HL k _ a p Hk); set_solver|].
  pose proof (ls_nodup _ _ HL k _ Hk) as Hnd. rewrite fmap_app, fmap_cons in Hnd. simpl in Hnd.
  rewrite fmap_app. apply NoDup_app in Hnd as (H1 & H2 & H3). apply NoDup_cons in H3 as [H3 H4].
  rewrite <- list_elem_of_In, elem_of_app. split.
  - intros [Ha|Ha]; [|done]. apply (H2 a Ha). left.
  - apply NoDup_app. split; [done|]. split; [|done]. intros x Hx Hx'. apply (H2 x Hx). by right.
Qed.

Lemma unlink_last_cell : l1 <> [] -> exists q, (last_addr l1, q) ∈ l1 /\ node_ok (last_addr l1).
Proof.
  intros Hne. destruct (last_elem l1 Hne) as [q Hq]. exists q. split; [done|].
  apply (unlink_node (last_addr l1) q). set_solver.
Qed.

(** The cell that pointed to the node. *)
Lemma unlink_cell : let c := if decide (l1 = []) then sc k else last_addr l1 in
  (8 | c) /\ list_cells k (l1 ++ l2) c /\ c <> ec k /\ (l1 <> [] -> c <> sc k).
Proof.
  pose proof unlink_index as HkN. pose proof Hcells as (Hal & _ & _ & Hse). destruct (Hal k HkN) as [Hs He].
  intros c. unfold c. case_decide as Hd.
  - split; [done|]. split; [by left|]. split; [by apply Hse|done].
  - destruct (unlink_last_cell Hd) as (q & Hq & Hok).
    destruct (proj2 (unlink_node (last_addr l1) q ltac:(set_solver)) k (last_addr l1) HkN); [by left|].
    split; [by apply node_word1|]. split; [|done]. right. right. exists (last_addr l1), q. split; [set_solver|by left].
Qed.

Lemma unlink_agree : agree (list_cells k (l1 ++ l2)) m (unlink_mem m k l1 l2).
Proof.
  pose proof unlink_index as HkN. destruct Hcells as (Hal & _). destruct (Hal k HkN) as [Hs He].
  assert (H1 : agree (list_cells k (l1 ++ l2)) m (unlink_end m k l1 l2)).
  { unfold unlink_end. case_decide; [|apply agree_refl]. apply agree_write; [done|by right; left]. }
  destruct unlink_cell as (Hc8 & Hc & _). apply (agree_trans _ _ _ _ H1). by apply agree_write.
Qed.

(** The removed node's own words stay. *)
Lemma unlink_keeps c : c = a \/ c = a + NODE_PID -> read64 (unlink_mem m k l1 l2) c = read64 m c.
Proof.
  intros Hc. destruct unlink_gone as (Hpa & Hgone & _). apply (ag_words _ _ _ unlink_agree).
  - destruct Hc as [->| ->]; [by apply node_word1, Hpa|by apply node_word2, Hpa].
  - destruct (proj2 Hpa k c unlink_index Hc). intros [?|[?|(b & q & Hb & Hcb)]]; [done..|].
    apply (node_words a b c); try done; [by apply Hpa|by apply (unlink_node b q)|].
    intros ->. apply Hgone, list_elem_of_In, list_elem_of_fmap. by exists (b, q).
Qed.

Lemma unlink_first : read64 (unlink_mem m k l1 l2) (sc k) = Some (head_addr (l1 ++ l2) 0).
Proof.
  pose proof unlink_index as HkN. pose proof Hcells as (Hal & _ & _ & Hse). destruct (Hal k HkN) as [Hs He].
  destruct unlink_cell as (Hc8 & _ & _ & Hcs). destruct (ls_at _ _ HL k _ Hk) as [Lf _ _].
  pose proof (head_u64 l2 (fun x y Hx => unlink_node x y ltac:(set_solver))) as Hu. unfold unlink_mem. case_decide as Hd.
  - rewrite read64_write64_eq by done. by rewrite Hd.
  - eapply agree_read; [apply (agree_write (fun c => c = last_addr l1)); done|done|intros E; by apply Hcs|].
    rewrite head_app in Lf |- *.
    assert (E : head_addr l1 (head_addr ((a, p) :: l2) 0) = head_addr l1 (head_addr l2 0)) by (by destruct l1 as [|[]]).
    rewrite <- E. unfold unlink_end. destruct (decide (l2 = [])); [|exact Lf].
    eapply agree_read; [apply (agree_write (fun c => c = ec k)); done|done| |exact Lf]. intros E'. by apply (Hse k k).
Qed.

Lemma unlink_last : read64 (unlink_mem m k l1 l2) (ec k) = Some (last_addr (l1 ++ l2)).
Proof.
  pose proof unlink_index as HkN. pose proof Hcells as (Hal & _). destruct (Hal k HkN) as [Hs He].
  destruct unlink_cell as (Hc8 & _ & Hce & _). destruct (ls_at _ _ HL k _ Hk) as [_ Ll _].
  pose proof (last_u64 l1 (fun x y Hx => unlink_node x y ltac:(set_solver))) as Hu. unfold unlink_mem.
  set (c := if decide (l1 = []) then sc k else last_addr l1) in *.
  eapply agree_read; [apply (agree_write (fun x => x = c)); done|done|intros E; by apply Hce|].
  unfold unlink_end. destruct (decide (l2 = [])) as [Hd|Hd].
  - rewrite Hd, app_nil_r. by apply read64_write64_eq.
  - rewrite Ll. f_equal. destruct (exists_last Hd) as (l' & [b q] & ->).
    by rewrite app_comm_cons, !app_assoc, !last_snoc.
Qed.

Lemma unlink_chain : chain (unlink_mem m k l1 l2) (l1 ++ l2) 0.
Proof.
  pose proof unlink_index as HkN. pose proof Hcells as (Hal & _). destruct (Hal k HkN) as [Hs He].
  destruct unlink_cell as (Hc8 & _ & Hce & _). destruct (ls_at _ _ HL k _ Hk) as [_ _ Lc].
  apply chain_app in Lc as [Lc1 (_ & _ & Lc2)]. destruct unlink_gone as (_ & _ & Hnd).
  pose proof (head_u64 l2 (fun x y Hx => unlink_node x y ltac:(set_solver))) as Hu.
  assert (Hend : forall l e, (forall x y, (x, y) ∈ l -> (x, y) ∈ l1 ++ l2) ->
    chain m l e -> chain (unlink_end m k l1 l2) l e).
  { intros l e Hl Hc. unfold unlink_end. destruct (decide (l2 = [])); [|done].
    eapply chain_agree; [apply (agree_write (fun c => c = ec k)); done| | |exact Hc].
    - intros x y Hx. by apply (unlink_node x y), Hl.
    - intros c (x & y & Hx & Hxc) ->. by destruct (proj2 (unlink_node x y (Hl _ _ Hx)) k (ec k) HkN Hxc). }
  apply Hend in Lc1; [|set_solver]. apply Hend in Lc2; [|set_solver].
  rewrite fmap_app in Hnd. apply NoDup_app in Hnd as (Hnd1 & Hnd12 & _).
  set (c := if decide (l1 = []) then sc k else last_addr l1) in *.
  assert (Hc2 : forall x, in_nodes l2 x -> x <> c).
  { intros x (b & q & Hb & Hx) ->. assert (Hpb : placed b) by (apply (unlink_node b q); set_solver).
    unfold c in Hx. destruct (decide (l1 = [])) as [Hd|Hd].
    - by destruct (proj2 Hpb k (sc k) HkN Hx).
    - destruct (unlink_last_cell Hd) as (y & Hy & Hok).
      apply (node_words (last_addr l1) b (last_addr l1)); [done|by apply Hpb| |by left|done].
      intros E. apply (Hnd12 b); apply list_elem_of_fmap; [exists (b, y); by rewrite <- E|by exists (b, q)]. }
  apply chain_app. split.
  - unfold unlink_mem. fold c. unfold c. destruct (decide (l1 = [])) as [Hd|Hd]; [by rewrite Hd|].
    destruct (exists_last Hd) as (l' & [b q] & E). rewrite E in Lc1, Hnd1 |- *. rewrite last_snoc.
    eapply chain_set_last; [exact Lc1|done| |done]. intros x y Hx. apply (unlink_node x y). rewrite E. set_solver.
  - unfold unlink_mem. fold c. eapply chain_agree; [apply (agree_write (fun x => x = c)); done| | |exact Lc2].
    + intros x y Hx. apply (unlink_node x y). set_solver.
    + exact Hc2.
Qed.

Lemma unlink_ok : lists_at (unlink_mem m k l1 l2) (<[k := l1 ++ l2]> Lv).
Proof.
  eapply lists_at_update; [exact HL|exact Hk|exact unlink_agree|by intros c; right|split| |].
  - exact unlink_first.
  - exact unlink_last.
  - exact unlink_chain.
  - apply unlink_gone.
  - intros x y Hx. left. set_solver.
Qed.

Lemma unlink_fresh : fresh a (<[k := l1 ++ l2]> Lv).
Proof.
  intros j l q Hj Ha. apply list_lookup_insert_Some in Hj as [(<- & <- & _)|[Hne Hj]].
  - apply unlink_gone, list_elem_of_In, list_elem_of_fmap. by exists (a, q).
  - apply Hne. symmetry. apply (ls_apart _ _ HL j k l _ a q p Hj Hk Ha). set_solver.
Qed.
End unlink.
End lists.
