(* ===== verification/SchedRefine.v ===== *)
(** * The run queues implement lists of processes

    [runq] relates a CPU's [struct sched_cpu_queue] in memory to two arrays of lists, the
    active and the inactive processes of each priority; [push_unlocked], [pop_unlocked],
    [proc_next] and [queue_tryremove] of kernel/sched.c act on it as list operations. *)
From S2P Require Import Prelude Memory State FreeList Kalloc MapPages Sched RunLists.

Notation levels := (list (list node)).

(** List [k] of the ten: five active ones, then five inactive ones. *)
Definition cell_start (qa qi : Z) (k : nat) : Z :=
  if decide (k < 5)%nat then q_start qa (Z.of_nat k) else q_start qi (Z.of_nat k - 5).
Definition cell_end (qa qi : Z) (k : nat) : Z :=
  if decide (k < 5)%nat then q_end qa (Z.of_nat k) else q_end qi (Z.of_nat k - 5).

Abbreviation queues_at qa qi := (lists_at 10 (cell_start qa qi) (cell_end qa qi)).
Abbreviation queue_cells qa qi := (list_cells (cell_start qa qi) (cell_end qa qi)).

(** Two queue structures, apart from each other. *)
Record queues_ok (qa qi : Z) : Prop := {
  qo_active : (8 | qa) /\ 0 < qa /\ qa + QUEUE_SIZE <= 2 ^ 64;
  qo_inactive : (8 | qi) /\ 0 < qi /\ qi + QUEUE_SIZE <= 2 ^ 64;
  qo_apart : qa + QUEUE_SIZE <= qi \/ qi + QUEUE_SIZE <= qa;
}.

Record runq (m : gmap Z Z) (cq qa qi : Z) (A I : levels) : Prop := {
  rq_active : read64 m (cq + CQ_ACTIVE) = Some qa;
  rq_inactive : read64 m (cq + CQ_INACTIVE) = Some qi;
  rq_tail : mapped m (cq + CQ_N) 8;
  rq_cq : (8 | cq);
  rq_queues : queues_ok qa qi;
  rq_apart_a : cq + CQ_SIZE <= qa \/ qa + QUEUE_SIZE <= cq;
  rq_apart_i : cq + CQ_SIZE <= qi \/ qi + QUEUE_SIZE <= cq;
  rq_len : length A = 5%nat /\ length I = 5%nat;
  rq_lists : queues_at qa qi m (A ++ I);
  rq_nodes k l a p : (A ++ I) !! k = Some l -> (a, p) ∈ l -> a + NODE_SIZE <= cq \/ cq + CQ_SIZE <= a;
}.

Lemma queue_cells_ok qa qi : queues_ok qa qi -> cells_ok 10 (cell_start qa qi) (cell_end qa qi).
Proof.
  intros [[[x Hx] _] [[y Hy] _] Hap]. unfold cells_ok, cell_start, cell_end, q_start, q_end, QUEUE_SIZE in *.
  split; [|split; [|split]].
  - intros k Hk. case_decide.
    + split; [exists (x + Z.of_nat k)|exists (x + 5 + Z.of_nat k)]; lia.
    + split; [exists (y + Z.of_nat k - 5)|exists (y + Z.of_nat k)]; lia.
  - intros j k Hj Hk. repeat case_decide; lia.
  - intros j k Hj Hk. repeat case_decide; lia.
  - intros j k Hj Hk. repeat case_decide; lia.
Qed.

(** The words of the CPU's own structure are none of the lists'. *)
Lemma cq_not_cell m cq qa qi A I k l c : runq m cq qa qi A I -> (A ++ I) !! k = Some l ->
  cq <= c < cq + CQ_SIZE -> ~ queue_cells qa qi k l c.
Proof.
  intros HR Hk Hc Hcell. destruct HR. pose proof (lookup_lt_Some _ _ _ Hk) as HkN.
  rewrite length_app in HkN. unfold CQ_SIZE, QUEUE_SIZE, NODE_SIZE in *.
  destruct Hcell as [->|[->|(a & p & Ha & Hca)]].
  - unfold cell_start, q_start in Hc. case_decide; lia.
  - unfold cell_end, q_end in Hc. case_decide; lia.
  - specialize (rq_nodes0 k l a p Hk Ha). unfold NODE_PID in Hca. lia.
Qed.

Lemma active_cells qa qi i : (i < 5)%nat ->
  cell_start qa qi i = q_start qa (Z.of_nat i) /\ cell_end qa qi i = q_end qa (Z.of_nat i).
Proof. intros. unfold cell_start, cell_end. rewrite !decide_True by done. done. Qed.

Lemma inactive_cells qa qi i :
  cell_start qa qi (5 + i) = q_start qi (Z.of_nat i) /\ cell_end qa qi (5 + i) = q_end qi (Z.of_nat i).
Proof.
  unfold cell_start, cell_end. rewrite !decide_False by lia.
  replace (Z.of_nat (5 + i) - 5) with (Z.of_nat i) by lia. done.
Qed.

Lemma inactive_lookup (A I : levels) i : length A = 5%nat -> (A ++ I) !! (5 + i)%nat = I !! i.
Proof. intros HA. rewrite lookup_app_r by lia. f_equal. lia. Qed.

(** An update of the lists that keeps the CPU's structure. *)
Lemma runq_update m m' cq qa qi A I A' I' W : runq m cq qa qi A I -> agree W m m' ->
  (forall c, cq <= c < cq + CQ_SIZE -> ~ W c) -> length A' = 5%nat -> length I' = 5%nat ->
  queues_at qa qi m' (A' ++ I') ->
  (forall k l a p, (A' ++ I') !! k = Some l -> (a, p) ∈ l -> a + NODE_SIZE <= cq \/ cq + CQ_SIZE <= a) ->
  runq m' cq qa qi A' I'.
Proof.
  intros [] Hag HW HA HI HL Hn. unfold CQ_SIZE in *.
  assert (Hread : forall o v, (8 | o) -> 0 <= o < 24 -> read64 m (cq + o) = Some v -> read64 m' (cq + o) = Some v).
  { intros o v Ho Hlt. eapply agree_read; [done|by apply Z.divide_add_r|]. apply HW. lia. }
  split; try done.
  - apply Hread; [by exists 0|unfold CQ_ACTIVE; lia|done].
  - apply Hread; [by exists 1|unfold CQ_INACTIVE; lia|done].
  - eapply changes_mapped; [apply Hag|done].
Qed.

(** ** Appending a process *)

Section push.
Context (s : kernel) (cq qa qi : Z) (A I : levels) (a p : Z) (i : nat) (li : list node).
Context (HR : runq (k_mem s) cq qa qi A I) (Hi : I !! i = Some li).
Context (Hpl : placed 10 (cell_start qa qi) (cell_end qa qi) a) (Hfr : fresh a (A ++ I)).
Context (Hnx : read64 (k_mem s) a = Some 0) (Hpid : read64 (k_mem s) (a + NODE_PID) = Some p).
Context (Hcq : a + NODE_SIZE <= cq \/ cq + CQ_SIZE <= a).

Local Abbreviation m' := (append_mem (cell_start qa qi) (cell_end qa qi) (k_mem s) (5 + i) li a).

Lemma push_lookup : (A ++ I) !! (5 + i)%nat = Some li.
Proof. by rewrite inactive_lookup by apply (rq_len _ _ _ _ _ _ HR). Qed.

Lemma push_runq : runq m' cq qa qi A (<[i := li ++ [(a, p)]]> I).
Proof.
  pose proof push_lookup as Hk. pose proof (rq_len _ _ _ _ _ _ HR) as [HlA HlI].
  pose proof (queue_cells_ok _ _ (rq_queues _ _ _ _ _ _ HR)) as Hcells. pose proof (rq_lists _ _ _ _ _ _ HR) as HL.
  assert (Hins : A ++ <[i := li ++ [(a, p)]]> I = <[(5 + i)%nat := li ++ [(a, p)]]> (A ++ I)).
  { rewrite <- HlA. by rewrite insert_app_r. }
  eapply runq_update; [exact HR|by eapply (append_agree 10 _ _ Hcells)| |done|by rewrite length_insert| |].
  - intros c Hc. by eapply cq_not_cell.
  - rewrite Hins. by apply append_ok.
  - rewrite Hins. intros k l b q Hkl Hb. apply list_lookup_insert_Some in Hkl as [(<- & <- & _)|[_ Hkl]].
    + apply elem_of_app in Hb as [Hb|Hb]; [by eapply (rq_nodes _ _ _ _ _ _ HR)|].
      apply list_elem_of_singleton in Hb as [= -> ->]. done.
    + by eapply (rq_nodes _ _ _ _ _ _ HR).
Qed.

Lemma push_run : push_unlocked cq a (Z.of_nat i) s = Done tt (set_mem m' s).
Proof.
  pose proof push_lookup as Hk. pose proof (rq_lists _ _ _ _ _ _ HR) as HL.
  pose proof (queue_cells_ok _ _ (rq_queues _ _ _ _ _ _ HR)) as Hcells.
  destruct (inactive_cells qa qi i) as [Es Ee]. destruct (ls_at _ _ _ _ _ HL _ _ Hk) as [Lf Ll _].
  destruct (cells_mapped _ _ _ _ _ _ _ HL Hk) as [Ms Me].
  pose proof (last_zero _ _ _ _ _ _ _ HL Hk) as Hz. pose proof (head_zero _ _ _ Hcells _ _ _ _ HL Hk) as Hhz.
  assert (Hi5 : (i < 5)%nat) by (rewrite <- (proj2 (rq_len _ _ _ _ _ _ HR)); by eapply lookup_lt_Some).
  assert (Hse : q_start qi (Z.of_nat i) + 8 <= q_end qi (Z.of_nat i)) by (unfold q_end, q_start; lia).
  unfold append_mem. rewrite Es, Ee in *.
  unfold push_unlocked. rewrite (run_bind _ _ _ _ _ (kload64 _ _ _ (rq_inactive _ _ _ _ _ _ HR))).
  rewrite (run_bind _ _ _ _ _ (kload64 _ _ _ Ll)).
  destruct (decide (li = [])) as [E|E].
  - rewrite (proj2 Hz E), E. cbn [negb]. rewrite E in Lf.
    erewrite run_bind by reflexivity. rewrite (run_bind _ _ _ _ _ (kstore64 s _ _ Me)).
    assert (Hs : read64 (write64 (k_mem s) (q_end qi (Z.of_nat i)) a) (q_start qi (Z.of_nat i)) = Some 0).
    { rewrite read64_write64_ne by lia. exact Lf. }
    rewrite (run_bind _ _ _ _ _ (kload64 (set_mem _ s) _ _ Hs)). cbn [Z.eqb].
    rewrite kstore64; [done|]. by apply write64_mapped.
  - rewrite (proj2 (Z.eqb_neq _ _)) by (by intros E'; apply E, Hz). cbn [negb].
    destruct (last_elem li E) as [q Hq]. pose proof (ls_placed _ _ _ _ _ HL _ _ _ _ Hk Hq) as [Hok Hlp].
    assert (Hm : mapped (k_mem s) (last_addr li) 8).
    { apply read64_is_Some. destruct (ls_at _ _ _ _ _ HL _ _ Hk) as [_ _ Lc].
      destruct (exists_last E) as (l' & [b r] & ->). rewrite last_snoc. apply chain_app in Lc as [_ [Lc _]]. by eexists. }
    unfold NODE_NEXT. rewrite Z.add_0_r.
    rewrite (run_bind _ _ _ _ _ (kstore64 s (last_addr li) a Hm)).
    rewrite (run_bind _ _ _ _ _ (kstore64 (set_mem _ s) _ a (write64_mapped _ _ _ _ _ Me))).
    set (m2 := write64 (write64 (k_mem s) (last_addr li) a) (q_end qi (Z.of_nat i)) a).
    assert (Hs : read64 m2 (q_start qi (Z.of_nat i)) = Some (head_addr li 0)).
    { unfold m2. rewrite read64_write64_ne by lia.
      eapply agree_read; [apply (agree_write (fun c => c = last_addr li)); [by apply node_word1|done]|..|exact Lf].
      - rewrite <- Es. destruct Hcells as [Hc _]. apply Hc. lia.
      - intros E'. destruct (Hlp (5 + i)%nat (last_addr li)); [|by left|congruence].
        rewrite <- (ls_len _ _ _ _ _ HL). by eapply lookup_lt_Some. }
    rewrite (run_bind _ _ _ _ _ (kload64 (set_mem m2 s) _ _ Hs)).
    rewrite (proj2 (Z.eqb_neq _ _)) by (by intros E'; apply E, Hhz). by destruct li.
Qed.
End push.

(** ** Taking the first process of a level *)

Section detach.
Context (s : kernel) (cq qa qi : Z) (A I : levels) (a p : Z) (i : nat) (l : list node).
Context (HR : runq (k_mem s) cq qa qi A I) (Hi : A !! i = Some ((a, p) :: l)).

Local Abbreviation sc := (cell_start qa qi).
Local Abbreviation ec := (cell_end qa qi).

Lemma detach_lookup : (A ++ I) !! i = Some ([] ++ (a, p) :: l).
Proof. by apply lookup_app_l_Some. Qed.

Lemma detach_index : (i < 5)%nat.
Proof. rewrite <- (proj1 (rq_len _ _ _ _ _ _ HR)). by eapply lookup_lt_Some. Qed.

(** The memory after the node is unlinked and its link cleared. *)
Definition detach_mem : gmap Z Z := write64 (unlink_mem sc ec (k_mem s) i [] l) a 0.

Lemma detach_node : placed 10 sc ec a /\ fresh a (<[i := l]> A ++ I) /\
  (a + NODE_SIZE <= cq \/ cq + CQ_SIZE <= a) /\
  read64 detach_mem a = Some 0 /\ read64 detach_mem (a + NODE_PID) = Some p.
Proof.
  pose proof detach_lookup as Hk. pose proof (rq_lists _ _ _ _ _ _ HR) as HL.
  pose proof (queue_cells_ok _ _ (rq_queues _ _ _ _ _ _ HR)) as Hcells.
  assert (Hp : placed 10 sc ec a) by (eapply (ls_placed _ _ _ _ _ HL _ _ a p Hk); set_solver).
  split; [done|]. split; [|split; [|split]].
  - rewrite <- insert_app_l by by eapply lookup_lt_Some. exact (unlink_fresh _ _ _ Hcells _ _ _ [] _ _ _ HL Hk).
  - apply (rq_nodes _ _ _ _ _ _ HR _ _ a p Hk). set_solver.
  - by apply read64_write64_eq.
  - unfold detach_mem. rewrite read64_write64_ne by (unfold NODE_PID; lia).
    rewrite (unlink_keeps _ _ _ Hcells _ _ _ [] _ _ _ HL Hk) by by right.
    by destruct (ls_at _ _ _ _ _ HL _ _ Hk) as [_ _ (_ & Hp' & _)].
Qed.

Lemma detach_agree : agree (fun c => queue_cells qa qi i l c \/ c = a) (k_mem s) detach_mem.
Proof.
  pose proof detach_lookup as Hk. pose proof (rq_lists _ _ _ _ _ _ HR) as HL.
  pose proof (queue_cells_ok _ _ (rq_queues _ _ _ _ _ _ HR)) as Hcells. destruct detach_node as ((Ha & _) & _).
  eapply agree_trans; [|apply agree_write; [by apply node_word1|by right]].
  eapply agree_weaken; [exact (unlink_agree _ _ _ Hcells _ _ _ [] _ _ _ HL Hk)|]. by left.
Qed.

Lemma detach_runq : runq detach_mem cq qa qi (<[i := l]> A) I.
Proof.
  pose proof detach_lookup as Hk. pose proof (rq_lists _ _ _ _ _ _ HR) as HL.
  pose proof (rq_len _ _ _ _ _ _ HR) as [HlA HlI].
  pose proof (queue_cells_ok _ _ (rq_queues _ _ _ _ _ _ HR)) as Hcells.
  destruct detach_node as (Hp & Hfr & Hcq & _). pose proof (unlink_ok _ _ _ Hcells _ _ _ [] _ _ _ HL Hk) as HU.
  assert (Hins : <[i := l]> A ++ I = <[i := l]> (A ++ I)) by (rewrite insert_app_l; [done|by eapply lookup_lt_Some]).
  assert (Hsub : forall k l' b q, (<[i := l]> A ++ I) !! k = Some l' -> (b, q) ∈ l' ->
    exists l'', (A ++ I) !! k = Some l'' /\ (b, q) ∈ l'').
  { intros k l' b q Hkl Hb. rewrite Hins in Hkl. apply list_lookup_insert_Some in Hkl as [(<- & <- & _)|[_ Hkl]].
    - exists ((a, p) :: l). split; [exact Hk|by right].
    - by exists l'. }
  eapply runq_update; [exact HR|apply detach_agree| |by rewrite length_insert|done| |].
  - intros c Hc [Hcell| ->].
    + apply (cq_not_cell _ _ _ _ _ _ _ _ c HR Hk Hc). destruct Hcell as [?|[?|(b & q & Hb & Hcb)]]; [by left|by right; left|].
      right. right. exists b, q. split; [by right|done].
    + unfold NODE_SIZE in Hcq. lia.
  - rewrite Hins in Hfr |- *. change ([] ++ l) with l in HU. split.
    + by apply HU.
    + intros k l' Hkl. eapply list_at_agree; [exact Hcells|apply (agree_write (fun c => c = a)); [by apply node_word1, Hp|done]|..].
      * rewrite <- (ls_len _ _ _ _ _ HU). by eapply lookup_lt_Some.
      * intros b q Hb. by apply (ls_placed _ _ _ _ _ HU _ _ b q Hkl).
      * intros c Hc ->. eapply (fresh_words _ _ _ _ _ _ _ a a HU Hkl); [done|done|by left|done].
      * by apply (ls_at _ _ _ _ _ HU).
    + by apply HU.
    + by apply HU.
    + by apply HU.
  - intros k l' b q Hkl Hb. destruct (Hsub k l' b q Hkl Hb) as (l'' & Hkl' & Hb').
    by apply (rq_nodes _ _ _ _ _ _ HR _ _ b q Hkl').
Qed.
End detach.

(** ** [pop_unlocked] *)

(** The first process of the first level that has one moves to the end of the same level
    of the inactive lists. *)
Definition pop_abs (A I : levels) : option (Z * (levels * levels)) :=
  match list_find (fun l => l <> []) A with
  | Some (i, (a, p) :: l) => Some (p, (<[i := l]> A, <[i := (I !!! i) ++ [(a, p)]]> I))
  | _ => None
  end.

(** The bytes of the queues and of the nodes on them. *)
Definition queue_bytes (qa qi : Z) (Lv : levels) (x : Z) : Prop :=
  within qa QUEUE_SIZE x \/ within qi QUEUE_SIZE x \/
  exists k l a p, Lv !! k = Some l /\ (a, p) ∈ l /\ within a NODE_SIZE x.

Lemma cell_bytes qa qi Lv k l c x : (k < 10)%nat -> Lv !! k = Some l -> queue_cells qa qi k l c -> within c 8 x ->
  queue_bytes qa qi Lv x.
Proof.
  intros Hk Hl Hc Hx. unfold queue_bytes, within, QUEUE_SIZE, NODE_SIZE in *.
  unfold list_cells, cell_start, cell_end, q_start, q_end in Hc.
  destruct Hc as [->|[->|(a & p & Ha & Hca)]].
  - case_decide; [left; lia|right; left; lia].
  - case_decide; [left; lia|right; left; lia].
  - right. right. exists k, l, a, p. split; [done|]. split; [done|]. unfold NODE_PID in Hca. lia.
Qed.

Section pop.
Context (s : kernel) (cq qa qi : Z) (A I : levels).
Context (HR : runq (k_mem s) cq qa qi A I).

Lemma pop_skip n i : A !! i = Some [] -> pop_levels (S n) cq (Z.of_nat i) s = pop_levels n cq (Z.of_nat (S i)) s.
Proof.
  intros Hi. pose proof (rq_lists _ _ _ _ _ _ HR) as HL.
  assert (Hk : (A ++ I) !! i = Some []) by by apply lookup_app_l_Some.
  assert (Hi5 : (i < 5)%nat) by (rewrite <- (proj1 (rq_len _ _ _ _ _ _ HR)); by eapply lookup_lt_Some).
  destruct (ls_at _ _ _ _ _ HL _ _ Hk) as [Lf _ _]. destruct (active_cells qa qi i Hi5) as [Es _]. rewrite Es in Lf.
  cbn [pop_levels]. rewrite (run_bind _ _ _ _ _ (kload64 _ _ _ (rq_active _ _ _ _ _ _ HR))).
  rewrite (run_bind _ _ _ _ _ (kload64 _ _ _ Lf)). cbn [head_addr Z.eqb].
  by rewrite Nat2Z.inj_succ, <- Z.add_1_r.
Qed.

Section hit.
Context (i : nat) (a p : Z) (l li : list node).
Context (Hi : A !! i = Some ((a, p) :: l)) (Hli : I !! i = Some li).

Local Abbreviation m1 := (detach_mem s qa qi a i l).
Local Abbreviation m0 := (unlink_end (cell_end qa qi) (k_mem s) i [] l).
Local Abbreviation m2 := (append_mem (cell_start qa qi) (cell_end qa qi) m1 (5 + i) li a).

(** [if (end[i] == node) end[i] = NULL;] *)
Lemma hit_end : (if last_addr ((a, p) :: l) =? a then store64 (q_end qa (Z.of_nat i)) 0 else mret tt) s =
  Done tt (set_mem m0 s).
Proof.
  pose proof (rq_lists _ _ _ _ _ _ HR) as HL. pose proof (detach_lookup A I a p i l Hi) as Hk.
  destruct (active_cells qa qi i (detach_index s cq qa qi A I a p i l HR Hi)) as [_ Ee].
  destruct (cells_mapped _ _ _ _ _ _ _ HL Hk) as [_ Me]. rewrite Ee in Me.
  unfold unlink_end. rewrite Ee. case_decide as Hd.
  - rewrite Hd. cbn [last_addr last]. rewrite Z.eqb_refl. by apply kstore64.
  - rewrite (proj2 (Z.eqb_neq _ _)); [by rewrite set_mem_same|]. intros E.
    pose proof (ls_nodup _ _ _ _ _ HL _ _ Hk) as Hnd.
    destruct (exists_last Hd) as (l' & [b r] & E'). rewrite E', app_comm_cons, last_snoc in E. rewrite E', E in Hnd.
    cbn in Hnd. apply NoDup_cons in Hnd as [Hnd _]. apply Hnd. rewrite fmap_app. set_solver.
Qed.

(** The node leaves the active list. *)
Lemma hit_detach {B} (K : M kernel B) :
  (e ← load64 (q_end qa (Z.of_nat i));
   (if e =? a then store64 (q_end qa (Z.of_nat i)) 0 else mret tt) ;;
   nx ← load64 (a + NODE_NEXT);
   store64 (q_start qa (Z.of_nat i)) nx ;;
   store64 (a + NODE_NEXT) 0 ;; K) s = K (set_mem m1 s).
Proof.
  pose proof (rq_lists _ _ _ _ _ _ HR) as HL. pose proof (detach_lookup A I a p i l Hi) as Hk.
  pose proof (detach_index s cq qa qi A I a p i l HR Hi) as Hi5.
  destruct (active_cells qa qi i Hi5) as [Es Ee]. destruct (ls_at _ _ _ _ _ HL _ _ Hk) as [_ Ll (Lnx & _)].
  destruct (cells_mapped _ _ _ _ _ _ _ HL Hk) as [Ms _]. rewrite Es, Ee in *.
  destruct (detach_node s cq qa qi A I a p i l HR Hi) as ([Ha Hpl] & _).
  assert (Hag : agree (fun c => c = cell_end qa qi i) (k_mem s) m0).
  { unfold unlink_end. case_decide; [|apply agree_refl]. apply agree_write; [|done].
    apply (queue_cells_ok _ _ (rq_queues _ _ _ _ _ _ HR)). lia. }
  assert (Hnx : read64 m0 (a + NODE_NEXT) = Some (head_addr l 0)).
  { unfold NODE_NEXT. rewrite Z.add_0_r. eapply agree_read; [exact Hag|by apply node_word1| |exact Lnx].
    destruct (Hpl i a) as [_ ?]; [lia|by left|done]. }
  assert (Ms0 : mapped m0 (q_start qa (Z.of_nat i)) 8) by (eapply changes_mapped; [apply Hag|done]).
  assert (Ma : mapped (write64 m0 (q_start qa (Z.of_nat i)) (head_addr l 0)) (a + NODE_NEXT) 8).
  { apply write64_mapped, read64_is_Some. by eexists. }
  change ([] ++ (a, p) :: l) with ((a, p) :: l) in Ll.
  rewrite (run_bind _ _ _ _ _ (kload64 _ _ _ Ll)), (run_bind _ _ _ _ _ hit_end).
  rewrite (run_bind _ _ _ _ _ (kload64 (set_mem m0 s) _ _ Hnx)).
  rewrite (run_bind _ _ _ _ _ (kstore64 (set_mem m0 s) _ _ Ms0)).
  rewrite (run_bind _ _ _ _ _ (kstore64 (set_mem _ s) _ _ Ma)).
  unfold detach_mem, unlink_mem. rewrite Es. unfold NODE_NEXT. rewrite Z.add_0_r. reflexivity.
Qed.

Lemma hit_runq : runq m2 cq qa qi (<[i := l]> A) (<[i := li ++ [(a, p)]]> I).
Proof.
  destruct (detach_node s cq qa qi A I a p i l HR Hi) as (Hpl & Hfr & Hcq & H0 & Hp).
  exact (push_runq (set_mem m1 s) cq qa qi (<[i := l]> A) I a p i li
    (detach_runq s cq qa qi A I a p i l HR Hi) Hli Hpl Hfr H0 Hp Hcq).
Qed.

Lemma hit_changes : changes (queue_bytes qa qi (A ++ I)) (k_mem s) m2.
Proof.
  pose proof (rq_len _ _ _ _ _ _ HR) as [HlA _]. pose proof (detach_lookup A I a p i l Hi) as Hk.
  pose proof (detach_index s cq qa qi A I a p i l HR Hi) as Hi5.
  pose proof (queue_cells_ok _ _ (rq_queues _ _ _ _ _ _ HR)) as Hcells.
  pose proof (detach_runq s cq qa qi A I a p i l HR Hi) as HR1.
  destruct (detach_node s cq qa qi A I a p i l HR Hi) as (Hpl & _).
  assert (Hk5 : (A ++ I) !! (5 + i)%nat = Some li) by by rewrite inactive_lookup.
  assert (Hk5' : (<[i := l]> A ++ I) !! (5 + i)%nat = Some li) by by rewrite inactive_lookup by by rewrite length_insert.
  eapply changes_trans; (eapply changes_weaken; [apply (ag_bytes (fun c => exists k l', (k < 10)%nat /\
    (A ++ I) !! k = Some l' /\ queue_cells qa qi k l' c))|]).
  - eapply agree_weaken; [exact (detach_agree s cq qa qi A I a p i l HR Hi)|].
    intros c [Hc| ->]; exists i, ((a, p) :: l); (split; [lia|]; split; [exact Hk|]).
    + destruct Hc as [?|[?|(b & q & Hb & Hcb)]]; [by left|by right; left|]. right. right. exists b, q. split; [by right|done].
    + right. right. exists a, p. split; [by left|by left].
  - intros x (c & (k & l' & Hk10 & Hkl & Hc) & Hx). by eapply cell_bytes.
  - eapply agree_weaken; [exact (append_agree 10 _ _ Hcells _ _ _ _ a (rq_lists _ _ _ _ _ _ HR1) Hk5' Hpl)|].
    intros c Hc. exists (5 + i)%nat, li. split; [lia|]. by split.
  - intros x (c & (k & l' & Hk10 & Hkl & Hc) & Hx). by eapply cell_bytes.
Qed.

Lemma pop_hit n : pop_levels (S n) cq (Z.of_nat i) s = Done p (set_mem m2 s).
Proof.
  pose proof (rq_lists _ _ _ _ _ _ HR) as HL. pose proof (detach_lookup A I a p i l Hi) as Hk.
  pose proof (detach_index s cq qa qi A I a p i l HR Hi) as Hi5.
  destruct (active_cells qa qi i Hi5) as [Es _]. destruct (ls_at _ _ _ _ _ HL _ _ Hk) as [Lf _ _]. rewrite Es in Lf.
  destruct (detach_node s cq qa qi A I a p i l HR Hi) as ([[Ha _] _] & _).
  cbn [pop_levels]. rewrite (run_bind _ _ _ _ _ (kload64 _ _ _ (rq_active _ _ _ _ _ _ HR))).
  rewrite (run_bind _ _ _ _ _ (kload64 _ _ _ Lf)). cbn [app head_addr]. rewrite (proj2 (Z.eqb_neq a 0)) by lia.
  rewrite hit_detach.
  rewrite (run_bind _ _ _ _ _ (push_run (set_mem m1 s) cq qa qi (<[i := l]> A) I a i li
    (detach_runq s cq qa qi A I a p i l HR Hi) Hli)).
  apply kload64. pose proof hit_runq as HR2.
  assert (Hkk : (<[i := l]> A ++ <[i := li ++ [(a, p)]]> I) !! (5 + i)%nat = Some (li ++ [(a, p)])).
  { rewrite inactive_lookup by (rewrite length_insert; apply (rq_len _ _ _ _ _ _ HR)).
    apply list_lookup_insert_eq. by eapply lookup_lt_Some. }
  destruct (ls_at _ _ _ _ _ (rq_lists _ _ _ _ _ _ HR2) _ _ Hkk) as [_ _ Lc2].
  by apply chain_app in Lc2 as [_ (_ & Hpid2 & _)].
Qed.
End hit.
(** What [pop_unlocked] does to the queues, or that they are empty. *)
Definition popped (r : res kernel Z) : Prop :=
  match pop_abs A I with
  | Some (p, (A', I')) => exists m', r = Done p (set_mem m' s) /\ runq m' cq qa qi A' I' /\
      changes (queue_bytes qa qi (A ++ I)) (k_mem s) m'
  | None => r = Done 0 s
  end.

Lemma pop_levels_spec n i : (n + i = 5)%nat -> (forall j, (j < i)%nat -> A !! j = Some []) ->
  popped (pop_levels n cq (Z.of_nat i) s).
Proof.
  pose proof (rq_len _ _ _ _ _ _ HR) as [HlA HlI]. revert i. induction n as [|n IH]; intros i Hn Hbefore.
  - assert (Hnone : list_find (fun l => l <> []) A = None).
    { apply list_find_None, Forall_lookup. intros j l Hj. rewrite Hbefore in Hj; [by injection Hj as <-; intros []|].
      apply lookup_lt_Some in Hj. lia. }
    unfold popped, pop_abs. by rewrite Hnone.
  - destruct (lookup_lt_is_Some_2 A i) as [l Hl]; [lia|]. destruct l as [|[a p] l].
    + rewrite pop_skip by done. apply IH; [lia|]. intros j Hj.
      destruct (decide (j = i)) as [->|]; [done|]. apply Hbefore. lia.
    + destruct (lookup_lt_is_Some_2 I i) as [li Hli]; [lia|].
      assert (Hfind : list_find (fun l => l <> []) A = Some (i, (a, p) :: l)).
      { apply list_find_Some. split; [done|]. split; [done|]. intros j y Hj Hlt.
        rewrite Hbefore in Hj by done. injection Hj as <-. by intros []. }
      unfold popped, pop_abs. rewrite Hfind, (list_lookup_total_correct _ _ _ Hli).
      eexists. split; [exact (pop_hit i a p l li Hl Hli n)|].
      split; [exact (hit_runq i a p l li Hl Hli)|exact (hit_changes i a p l li Hl Hli)].
Qed.

Lemma pop_unlocked_spec : popped (pop_unlocked cq s).
Proof. apply (pop_levels_spec 5 0); [done|]. intros j Hj. lia. Qed.
End pop.

(** ** [proc_next] *)

(** The words the queues are made of. *)
Definition runq_word (cq qa qi : Z) (Lv : levels) (c : Z) : Prop :=
  cq <= c < cq + CQ_SIZE /\ c <> cq + CQ_N \/ exists k l, Lv !! k = Some l /\ queue_cells qa qi k l c.

Lemma agree_of_changes (P : Z -> Prop) m m' : changes P m m' ->
  agree (fun c => (8 | c) /\ exists x, within c 8 x /\ P x) m m'.
Proof.
  intros Hch. split.
  - intros c Hc Hn. apply (changes_read64 P); [done|]. intros x Hx HP. apply Hn. split; [done|by exists x].
  - eapply changes_weaken; [exact Hch|]. intros x Hx. exists (x / 8 * 8).
    assert (Hw : within (x / 8 * 8) 8 x) by (unfold within; divlia).
    split; [|done]. split; [by exists (x / 8)|by exists x].
Qed.

(** Writes elsewhere. *)
Lemma runq_frame m m' cq qa qi A I (P : Z -> Prop) : runq m cq qa qi A I -> changes P m m' ->
  (forall c x, (8 | c) -> runq_word cq qa qi (A ++ I) c -> within c 8 x -> ~ P x) ->
  runq m' cq qa qi A I.
Proof.
  intros HR Hch HP. pose proof (agree_of_changes P m m' Hch) as Hag. pose proof HR as [].
  assert (Hread : forall o v, (8 | o) -> 0 <= o < CQ_N -> read64 m (cq + o) = Some v -> read64 m' (cq + o) = Some v).
  { intros o v Ho Hlt. eapply agree_read; [exact Hag|by apply Z.divide_add_r|]. intros (H8 & x & Hx & HPx).
    apply (HP (cq + o) x); try done. left. unfold CQ_SIZE, CQ_N in *. lia. }
  split; try done.
  - apply Hread; [by exists 0|done|done].
  - apply Hread; [by exists 1|done|done].
  - by eapply changes_mapped.
  - split; try by apply rq_lists0. intros k l Hl.
    eapply list_at_agree; [by apply queue_cells_ok|exact Hag|..].
    + rewrite <- (ls_len _ _ _ _ _ rq_lists0). by eapply lookup_lt_Some.
    + intros a p Ha. by apply (ls_placed _ _ _ _ _ rq_lists0 _ _ a p Hl).
    + intros c Hc (H8 & x & Hx & HPx). apply (HP c x); try done. right. by exists k, l.
    + by apply (ls_at _ _ _ _ _ rq_lists0).
Qed.

(** The lock byte belongs to the CPU's structure. *)
Lemma runq_tail_frame m m' cq qa qi A I : runq m cq qa qi A I -> changes (within (cq + CQ_N) 8) m m' ->
  runq m' cq qa qi A I.
Proof.
  intros HR Hch. apply (runq_frame m _ _ _ _ _ _ _ HR Hch). intros c x Hc8 Hc Hx Ht.
  destruct (rq_cq _ _ _ _ _ _ HR) as [q ->], Hc8 as [r ->].
  unfold within, CQ_N in *. destruct Hc as [[Hc Hne]|(k & l & Hk & Hc)].
  - unfold CQ_SIZE, CQ_N in *. lia.
  - apply (cq_not_cell _ _ _ _ _ _ _ _ (r * 8) HR Hk); [unfold CQ_SIZE; lia|done].
Qed.

Lemma runq_lock m cq qa qi A I b : runq m cq qa qi A I -> runq (<[cq + CQ_LOCK := b]> m) cq qa qi A I.
Proof.
  intros HR. apply (runq_tail_frame m); [done|].
  split; [intros x Hx; apply lookup_insert_ne; intros <-; unfold within, CQ_LOCK, CQ_N in Hx; lia|].
  intros x Hx. apply lookup_insert_is_Some'. by right.
Qed.

(** Seen with the queues exchanged, list [k] is list [k + 5] modulo 10. *)
Definition other_half (k : nat) : nat := if decide (k < 5)%nat then (5 + k)%nat else (k - 5)%nat.

Lemma other_cells qa qi k : (k < 10)%nat -> (other_half k < 10)%nat /\
  cell_start qi qa k = cell_start qa qi (other_half k) /\ cell_end qi qa k = cell_end qa qi (other_half k).
Proof.
  intros Hk. unfold other_half. destruct (decide (k < 5)%nat) as [Hlt|Hge].
  - destruct (active_cells qi qa k Hlt) as [-> ->], (inactive_cells qa qi k) as [-> ->]. split; [lia|done].
  - destruct (active_cells qa qi (k - 5)) as [-> ->]; [lia|]. destruct (inactive_cells qi qa (k - 5)) as [E1 E2].
    replace (5 + (k - 5))%nat with k in * by lia. split; [lia|done].
Qed.

Lemma placed_swap qa qi a : placed 10 (cell_start qa qi) (cell_end qa qi) a ->
  placed 10 (cell_start qi qa) (cell_end qi qa) a.
Proof.
  intros [Hok Hpl]. split; [done|]. intros j c Hj Hc. destruct (other_cells qa qi j Hj) as (Hlt & -> & ->).
  by apply Hpl.
Qed.

(** The two queues exchange their roles. *)
Lemma runq_swap m cq qa qi A I : runq m cq qa qi A I ->
  runq (write64 (write64 m (cq + CQ_INACTIVE) qa) (cq + CQ_ACTIVE) qi) cq qi qa I A.
Proof.
  intros HR. pose proof HR as [Ra Ri Rt Rcq Rq Raa Rai [RlA RlI] RL Rn].
  set (m' := write64 (write64 m (cq + CQ_INACTIVE) qa) (cq + CQ_ACTIVE) qi).
  assert (Hag : agree (fun c => cq <= c < cq + CQ_SIZE) m m').
  { eapply agree_trans; apply agree_write.
    - apply Z.divide_add_r; [done|by exists 1].
    - unfold CQ_INACTIVE, CQ_SIZE. lia.
    - apply Z.divide_add_r; [done|by exists 0].
    - unfold CQ_ACTIVE, CQ_SIZE. lia. }
  destruct Rq as [Qa Qi Qap].
  assert (Hau : 0 <= qa < 2 ^ 64 /\ 0 <= qi < 2 ^ 64) by (unfold QUEUE_SIZE in *; lia).
  assert (Hq' : queues_ok qi qa) by (split; [done|done|lia]).
  assert (Hlook : forall k l, (I ++ A) !! k = Some l -> (k < 10)%nat /\ (A ++ I) !! other_half k = Some l).
  { intros k l Hk. pose proof (lookup_lt_Some _ _ _ Hk) as Hlt. rewrite length_app, RlA, RlI in Hlt.
    split; [done|]. unfold other_half. destruct (decide (k < 5)%nat) as [Hk5|Hk5].
    - rewrite inactive_lookup by done. by rewrite lookup_app_l in Hk by lia.
    - rewrite lookup_app_r, RlI in Hk by lia. by rewrite lookup_app_l by lia. }
  split; try done.
  - apply read64_write64_eq. lia.
  - unfold m'. rewrite read64_write64_ne by (unfold CQ_INACTIVE, CQ_ACTIVE; lia). apply read64_write64_eq. lia.
  - eapply changes_mapped; [apply Hag|done].
  - split.
    + rewrite length_app. lia.
    + intros k l Hk. destruct (Hlook k l Hk) as [Hlt Hk']. destruct (other_cells qa qi k Hlt) as (_ & E1 & E2).
      destruct (ls_at _ _ _ _ _ RL _ _ Hk') as [L1 L2 L3].
      assert (Hl : list_at (cell_start qi qa) (cell_end qi qa) m k l) by (split; by rewrite ?E1, ?E2).
      eapply list_at_agree; [by apply queue_cells_ok|exact Hag|exact Hlt|..|exact Hl].
      * intros a p Ha. apply placed_swap. by apply (ls_placed _ _ _ _ _ RL _ _ a p Hk').
      * intros c Hc Hin. unfold list_cells in Hc. rewrite E1, E2 in Hc.
        by apply (cq_not_cell _ _ _ _ _ _ _ _ c HR Hk' Hin).
    + intros k l a p Hk Ha. destruct (Hlook k l Hk) as [_ Hk']. apply placed_swap.
      by apply (ls_placed _ _ _ _ _ RL _ _ a p Hk').
    + intros k l Hk. destruct (Hlook k l Hk) as [_ Hk']. by apply (ls_nodup _ _ _ _ _ RL _ _ Hk').
    + intros j k l l' a p q Hj Hk Ha Hb. destruct (Hlook j l Hj) as [Hjl Hj'], (Hlook k l' Hk) as [Hkl Hk'].
      pose proof (ls_apart _ _ _ _ _ RL _ _ _ _ a p q Hj' Hk' Ha Hb) as E.
      unfold other_half in E. repeat case_decide; lia.
  - intros k l a p Hk Ha. destruct (Hlook k l Hk) as [_ Hk']. by apply (Rn _ _ a p Hk').
Qed.

(** ** [queue_tryremove] *)

(** The first node of [l] with the id [pid], and the list without it. *)
Fixpoint rem_list (pid : Z) (l : list node) : option (Z * list node) :=
  match l with
  | [] => None
  | (a, p) :: l' =>
      if p =? pid then Some (a, l') else
      match rem_list pid l' with
      | Some (b, r) => Some (b, (a, p) :: r)
      | None => None
      end
  end.

(** The same over the levels, the most urgent first. *)
Fixpoint rem_abs (pid : Z) (Lv : levels) : option (Z * levels) :=
  match Lv with
  | [] => None
  | l :: Lv' =>
      match rem_list pid l with
      | Some (a, l') => Some (a, l' :: Lv')
      | None =>
          match rem_abs pid Lv' with
          | Some (a, r) => Some (a, l :: r)
          | None => None
          end
      end
  end.

Lemma last_addr_app l1 a p : last_addr (l1 ++ [(a, p)]) = a.
Proof. apply last_snoc. Qed.

Section remove.
Context (s : kernel) (cq qa qi : Z) (A I : levels) (pid : Z).
Context (HR : runq (k_mem s) cq qa qi A I).

Local Abbreviation sc := (cell_start qa qi).
Local Abbreviation ec := (cell_end qa qi).

(** Level [i] of the queue at [q] is list [k] of the ten. *)
Definition level_of (q : Z) (k i : nat) : Prop := sc k = q_start q (Z.of_nat i) /\ ec k = q_end q (Z.of_nat i).

(** The node found is unlinked and given to [kfree]. *)
Lemma unlink_run q k i l1 a l2 {B} (K : M kernel B) :
  level_of q k i -> (A ++ I) !! k = Some (l1 ++ (a, pid) :: l2) ->
  (e ← load64 (q_end q (Z.of_nat i));
   (if e =? a then store64 (q_end q (Z.of_nat i)) (last_addr l1) else mret tt) ;;
   nx ← load64 (a + NODE_NEXT);
   (if negb (last_addr l1 =? 0) then store64 (last_addr l1 + NODE_NEXT) nx else store64 (q_start q (Z.of_nat i)) nx) ;; K) s =
  K (set_mem (unlink_mem sc ec (k_mem s) k l1 l2) s).
Proof.
  intros [Es Ee] Hk. pose proof (rq_lists _ _ _ _ _ _ HR) as HL.
  pose proof (queue_cells_ok _ _ (rq_queues _ _ _ _ _ _ HR)) as Hcells.
  destruct (ls_at _ _ _ _ _ HL _ _ Hk) as [_ Ll Lc]. apply chain_app in Lc as [Lc1 (Lnx & _)].
  destruct (cells_mapped _ _ _ _ _ _ _ HL Hk) as [Ms Me].
  pose proof (ls_nodup _ _ _ _ _ HL _ _ Hk) as Hnd.
  destruct (unlink_gone 10 sc ec Hcells _ _ _ _ _ _ _ HL Hk) as ([Ha Hpl] & _).
  pose proof (unlink_index 10 sc ec _ _ _ _ _ _ _ HL Hk) as Hk10.
  assert (Hend : (if last_addr (l1 ++ (a, pid) :: l2) =? a then store64 (q_end q (Z.of_nat i)) (last_addr l1)
    else mret tt) s = Done tt (set_mem (unlink_end ec (k_mem s) k l1 l2) s)).
  { rewrite <- Ee. unfold unlink_end. case_decide as Hd.
    - rewrite Hd, last_snoc, Z.eqb_refl. by apply kstore64.
    - rewrite (proj2 (Z.eqb_neq _ _)); [by rewrite set_mem_same|]. intros E.
      destruct (exists_last Hd) as (l' & [b r] & E'). rewrite E', app_comm_cons, app_assoc, last_snoc in E.
      rewrite E', E in Hnd. rewrite fmap_app in Hnd. apply NoDup_app in Hnd as (_ & _ & Hnd).
      cbn in Hnd. apply NoDup_cons in Hnd as [Hnd _]. apply Hnd. rewrite fmap_app. set_solver. }
  assert (Hag : agree (fun c => c = ec k) (k_mem s) (unlink_end ec (k_mem s) k l1 l2)).
  { unfold unlink_end. case_decide; [|apply agree_refl]. apply agree_write; [|done]. by apply Hcells. }
  assert (Hnx : read64 (unlink_end ec (k_mem s) k l1 l2) (a + NODE_NEXT) = Some (head_addr l2 0)).
  { unfold NODE_NEXT. rewrite Z.add_0_r. eapply agree_read; [exact Hag|by apply node_word1| |exact Lnx].
    destruct (Hpl k a Hk10) as [_ ?]; [by left|done]. }
  rewrite Ee in Ll. rewrite (run_bind _ _ _ _ _ (kload64 _ _ _ Ll)), (run_bind _ _ _ _ _ Hend).
  rewrite (run_bind _ _ _ _ _ (kload64 (set_mem _ s) _ _ Hnx)).
  unfold unlink_mem. case_decide as Hd.
  - rewrite <- Es, Hd. cbn [last_addr last Z.eqb negb].
    rewrite Hd in Hag. assert (Hm : mapped (unlink_end ec (k_mem s) k [] l2) (sc k) 8) by (eapply changes_mapped; [apply Hag|done]).
    by rewrite (run_bind _ _ _ _ _ (kstore64 (set_mem _ s) _ _ Hm)).
  - destruct (last_elem l1 Hd) as [r Hr].
    assert (Hok : placed 10 sc ec (last_addr l1)) by (eapply (ls_placed _ _ _ _ _ HL _ _ _ r Hk); set_solver).
    rewrite (proj2 (Z.eqb_neq _ _)) by (destruct Hok as [[? _] _]; lia). cbn [negb]. unfold NODE_NEXT. rewrite Z.add_0_r.
    assert (Hm : mapped (unlink_end ec (k_mem s) k l1 l2) (last_addr l1) 8).
    { eapply changes_mapped; [apply Hag|]. apply read64_is_Some.
      destruct (exists_last Hd) as (l' & [b y] & E). rewrite E in Lc1 |- *. rewrite last_snoc.
      apply chain_app in Lc1 as [_ [Lb _]]. by eexists. }
    by rewrite (run_bind _ _ _ _ _ (kstore64 (set_mem _ s) _ _ Hm)).
Qed.

Lemma remove_walk_spec q k i l2 : forall l1, level_of q k i -> (A ++ I) !! k = Some (l1 ++ l2) ->
  match rem_list pid l2 with
  | None => forall fuel, (length l2 < fuel)%nat ->
      remove_walk fuel q (Z.of_nat i) pid (last_addr l1) (head_addr l2 0) s = Done false s
  | Some (a, r) => exists l2a l2b, l2 = l2a ++ (a, pid) :: l2b /\ r = l2a ++ l2b /\
      forall fuel, (length l2 < fuel)%nat -> exists kf, (fuel <= kf + length l2)%nat /\
        remove_walk fuel q (Z.of_nat i) pid (last_addr l1) (head_addr l2 0) s =
          (kfree kf a ;; mret true) (set_mem (unlink_mem sc ec (k_mem s) k (l1 ++ l2a) l2b) s)
  end.
Proof.
  induction l2 as [|[a p] l2 IH]; intros l1 Hlv Hk.
  - intros fuel Hf. destruct fuel as [|fuel]; [simpl in Hf; lia|]. done.
  - pose proof (rq_lists _ _ _ _ _ _ HR) as HL.
    destruct (ls_at _ _ _ _ _ HL _ _ Hk) as [_ _ Lc]. apply chain_app in Lc as [_ (Lnx & Lp & _)].
    destruct (ls_placed _ _ _ _ _ HL _ _ a p Hk) as [[Ha _] _]; [set_solver|].
    assert (Lnx' : read64 (k_mem s) (a + NODE_NEXT) = Some (head_addr l2 0)) by (unfold NODE_NEXT; by rewrite Z.add_0_r).
    specialize (IH (l1 ++ [(a, p)]) Hlv). rewrite <- app_assoc in IH. specialize (IH Hk). rewrite last_addr_app in IH.
    cbn [rem_list]. destruct (Z.eqb_spec p pid) as [->|Hne].
    + exists [], l2. split; [done|]. split; [done|]. intros fuel Hf. destruct fuel as [|fuel]; [lia|].
      exists fuel. split; [simpl; lia|]. cbn [head_addr remove_walk]. rewrite (proj2 (Z.eqb_neq a 0)) by lia.
      rewrite (run_bind _ _ _ _ _ (kload64 _ _ _ Lp)), Z.eqb_refl, app_nil_r. by apply unlink_run.
    + assert (Hstep : forall fuel, remove_walk (S fuel) q (Z.of_nat i) pid (last_addr l1) a s =
        remove_walk fuel q (Z.of_nat i) pid a (head_addr l2 0) s).
      { intros fuel. cbn [remove_walk]. rewrite (proj2 (Z.eqb_neq a 0)) by lia.
        rewrite (run_bind _ _ _ _ _ (kload64 _ _ _ Lp)), (proj2 (Z.eqb_neq p pid)) by done.
        by rewrite (run_bind _ _ _ _ _ (kload64 _ _ _ Lnx')). }
      cbn [head_addr]. destruct (rem_list pid l2) as [[b r]|].
      * destruct IH as (l2a & l2b & -> & -> & Hrun). exists ((a, p) :: l2a), l2b. split; [done|]. split; [done|].
        intros fuel Hf. simpl in Hf. destruct fuel as [|fuel]; [lia|].
        destruct (Hrun fuel ltac:(lia)) as (kf & Hkf & E). exists kf. split; [simpl; lia|].
        by rewrite Hstep, E, <- app_assoc.
      * intros fuel Hf. simpl in Hf. destruct fuel as [|fuel]; [lia|]. rewrite Hstep. apply IH. lia.
Qed.
End remove.
