(* ===== verification/SchedTheorems.v ===== *)
(** * The scheduler's theorems

    [proc_next] takes the next process of the run queues and starts a new sweep when the
    active one is over, and no process starves.  SchedSubmit.v has [schedule],
    SchedRemove.v [queue_tryremove]. *)
From S2P Require Import Prelude Memory State FreeList PageAlloc PageTheorems Allocator Kalloc KallocRefine KallocTheorems HashMap HashMapTheorems MapPages Timer Sched RunLists SchedRefine.

(** ** One sweep after the other *)

Definition next_abs (A I : levels) : option (Z * (levels * levels)) :=
  match pop_abs A I with
  | Some r => Some r
  | None => pop_abs I A
  end.

Definition nodes (Lv : levels) : list node := concat Lv.
Definition pids (Lv : levels) : list Z := (nodes Lv).*2.

Lemma nodes_lookup Lv n : n ∈ nodes Lv <-> exists k l, Lv !! k = Some l /\ n ∈ l.
Proof.
  unfold nodes. rewrite list_elem_of_In, in_concat. split.
  - intros (l & Hl%list_elem_of_In & Hn%list_elem_of_In). apply list_elem_of_lookup in Hl as [k Hk]. by exists k, l.
  - intros (k & l & Hk & Hn). exists l. rewrite <- !list_elem_of_In. split; [by eapply list_elem_of_lookup_2|done].
Qed.

Lemma nodes_insert Lv k l l' : Lv !! k = Some l -> nodes (<[k := l']> Lv) ++ l ≡ₚ nodes Lv ++ l'.
Proof.
  intros Hk. unfold nodes. rewrite <- (take_drop_middle Lv k l Hk) at 2.
  rewrite insert_take_drop by by eapply lookup_lt_Some.
  rewrite !concat_app. cbn [concat]. generalize (concat (take k Lv)) (concat (drop (S k) Lv)). intros x y.
  rewrite <- !app_assoc. apply Permutation_app_head. rewrite (Permutation_app_comm l'), (Permutation_app_comm l).
  rewrite <- !app_assoc. apply Permutation_app_head, Permutation_app_comm.
Qed.

Lemma nodes_app A I : nodes (A ++ I) = nodes A ++ nodes I.
Proof. apply concat_app. Qed.

Lemma pop_abs_Some A I p A' I' : length A = length I -> pop_abs A I = Some (p, (A', I')) ->
  exists a, nodes A ≡ₚ (a, p) :: nodes A' /\ nodes I' ≡ₚ nodes I ++ [(a, p)] /\
    length A' = length A /\ length I' = length I.
Proof.
  intros Hlen H. unfold pop_abs in H. destruct (list_find _ A) as [[i l]|] eqn:Hf; [|done].
  apply list_find_Some in Hf as (Hi & Hne & _). destruct l as [|[a q] l]; [done|].
  injection H as <- <- <-. exists a.
  destruct (lookup_lt_is_Some_2 I i) as [li Hli]; [rewrite <- Hlen; by eapply lookup_lt_Some|].
  rewrite (list_lookup_total_correct _ _ _ Hli), !length_insert. split; [|split; [|done]].
  - pose proof (nodes_insert A i ((a, q) :: l) l Hi) as Hp.
    apply (Permutation_app_inv_r l). rewrite <- Hp, <- app_comm_cons. symmetry. apply Permutation_middle.
  - pose proof (nodes_insert I i li (li ++ [(a, q)]) Hli) as Hp.
    apply (Permutation_app_inv_r li). rewrite Hp, <- app_assoc. apply Permutation_app_head, Permutation_app_comm.
Qed.

Lemma pop_abs_None A I : pop_abs A I = None <-> nodes A = [].
Proof.
  unfold pop_abs. split.
  - destruct (list_find _ A) as [[i l]|] eqn:Hf.
    + apply list_find_Some in Hf as (_ & Hne & _). by destruct l as [|[a p] l].
    + intros _. apply list_find_None in Hf. destruct (nodes A) as [|n l] eqn:E; [done|].
      assert (Hn : n ∈ nodes A) by (rewrite E; by left). apply nodes_lookup in Hn as (k & l' & Hk & Hn).
      rewrite Forall_lookup in Hf. specialize (Hf k l' Hk). destruct l'; [set_solver|]. by destruct Hf.
  - intros E. destruct (list_find _ A) as [[i l]|] eqn:Hf; [|done].
    apply list_find_Some in Hf as (Hi & Hne & _). destruct l as [|[a p] l]; [done|].
    assert (Hn : (a, p) ∈ nodes A) by (apply nodes_lookup; exists i, ((a, p) :: l); set_solver).
    rewrite E in Hn. set_solver.
Qed.

(** The next process comes from the queues, which keep all of theirs. *)
Lemma next_abs_Some A I p A' I' : length A = length I -> next_abs A I = Some (p, (A', I')) ->
  p ∈ pids (A ++ I) /\ nodes (A' ++ I') ≡ₚ nodes (A ++ I) /\ length A' = length A /\ length I' = length I.
Proof.
  intros Hlen H. unfold next_abs in H. rewrite !nodes_app. unfold pids. rewrite nodes_app.
  destruct (pop_abs A I) as [[q [X Y]]|] eqn:E.
  - injection H as <- <- <-. destruct (pop_abs_Some _ _ _ _ _ Hlen E) as (a & HA & HI & ? & ?).
    split; [|split; [|done]].
    + rewrite fmap_app, elem_of_app. left. rewrite HA. set_solver.
    + rewrite HA, HI. rewrite app_assoc, Permutation_app_comm. done.
  - destruct (pop_abs_Some _ _ _ _ _ (eq_sym Hlen) H) as (a & HA & HI & ? & ?).
    split; [|split; [|lia]].
    + rewrite fmap_app, elem_of_app. right. rewrite HA. set_solver.
    + rewrite HA, HI, app_assoc, (Permutation_app_comm (nodes A' ++ nodes A)). simpl.
      rewrite (Permutation_app_comm (nodes A')). by rewrite Permutation_middle.
Qed.

Lemma next_abs_None A I : next_abs A I = None <-> nodes (A ++ I) = [].
Proof.
  unfold next_abs. rewrite nodes_app. destruct (pop_abs A I) as [r|] eqn:E.
  - split; [done|]. intros [EA _]%app_eq_nil. apply (pop_abs_None A I) in EA. congruence.
  - apply pop_abs_None in E. rewrite E, pop_abs_None. done.
Qed.

(** The pids picked by [n] calls. *)
Fixpoint picks (n : nat) (A I : levels) : list Z :=
  match n with
  | O => []
  | S k =>
      match next_abs A I with
      | Some (p, (A', I')) => p :: picks k A' I'
      | None => []
      end
  end.

(** One sweep picks every process of the active queue, and the ones already swept wait in
    the other queue. *)
Lemma picks_sweep n A I m : length A = length I -> length (nodes A) = n ->
  exists A' I', picks (n + m) A I ≡ₚ pids A ++ picks m A' I' /\ nodes A' = [] /\
    nodes I' ≡ₚ nodes I ++ nodes A /\ length A' = length I'.
Proof.
  revert A I. induction n as [|n IH]; intros A I Hlen Hn.
  - exists A, I. apply nil_length_inv in Hn. unfold pids. rewrite Hn, app_nil_r. done.
  - destruct (pop_abs A I) as [[p [A1 I1]]|] eqn:E; [|apply pop_abs_None in E; by rewrite E in Hn].
    destruct (pop_abs_Some _ _ _ _ _ Hlen E) as (a & HA & HI & HlA & HlI).
    destruct (IH A1 I1) as (A' & I' & Hp & HA' & HI' & Hl'); [lia|by rewrite HA in Hn; injection Hn|].
    exists A', I'. split; [|split; [done|split; [|done]]].
    + cbn [picks plus]. unfold next_abs. rewrite E, Hp. unfold pids. by rewrite HA.
    + rewrite HI', HI, HA, <- app_assoc. done.
Qed.

(** Starvation freedom of the abstract queues. *)
Lemma picks_fair A I p : length A = length I -> p ∈ pids (A ++ I) ->
  p ∈ picks (length (nodes A) + length (nodes (A ++ I))) A I.
Proof.
  intros Hlen Hp. set (N := length (nodes (A ++ I))).
  destruct (picks_sweep (length (nodes A)) A I N Hlen eq_refl) as (A' & I' & E & HA' & HI' & Hl').
  rewrite E, elem_of_app. right.
  assert (HN : length (nodes I') = N).
  { rewrite HI'. unfold N. rewrite nodes_app, !length_app. lia. }
  assert (Hswap : picks N A' I' = picks N I' A').
  { destruct N as [|k]; [done|]. cbn [picks]. unfold next_abs.
    rewrite (proj2 (pop_abs_None A' I') HA'). destruct (pop_abs I' A') as [r|] eqn:E'; [done|].
    apply pop_abs_None in E'. by rewrite E' in HN. }
  rewrite Hswap. destruct (picks_sweep N I' A' 0 (eq_sym Hl') HN) as (? & ? & E' & _).
  rewrite Nat.add_0_r in E'. rewrite E', elem_of_app. left. unfold pids in *. rewrite HI', Permutation_app_comm.
  by rewrite nodes_app in Hp.
Qed.

(** ** [proc_next] *)

(** The bytes [proc_next] may write. *)
Definition cpu_bytes (cq qa qi : Z) (Lv : levels) (x : Z) : Prop := within cq CQ_SIZE x \/ queue_bytes qa qi Lv x.

(** The current CPU's queues, not locked. *)
Record sched_at (s : kernel) (cq qa qi : Z) (A I : levels) : Prop := {
  sa_cq : sched_cpu_queues (k_proc s) + cpu_id (k_cpu s) * CQ_SIZE = cq;
  sa_runq : runq (k_mem s) cq qa qi A I;
  sa_lock : k_mem s !! (cq + CQ_LOCK) = Some 0;
}.

Lemma changes_insert (P : Z -> Prop) m a v : P a -> changes P m (<[a := v]> m).
Proof.
  intros Ha. split.
  - intros x Hx. apply lookup_insert_ne. by intros <-.
  - intros x Hx. apply lookup_insert_is_Some'. by right.
Qed.

Lemma queue_bytes_mono qa qi Lv Lv' x : nodes Lv ≡ₚ nodes Lv' -> queue_bytes qa qi Lv x -> queue_bytes qa qi Lv' x.
Proof.
  intros Hp [?|[?|(k & l & a & p & Hk & Ha & Hx)]]; [by left|by right; left|]. right. right.
  assert (Hn : (a, p) ∈ nodes Lv) by (apply nodes_lookup; by exists k, l).
  rewrite Hp in Hn. apply nodes_lookup in Hn as (k' & l' & Hk' & Hl'). by exists k', l', a, p.
Qed.

Lemma queue_bytes_swap qa qi A I x : queue_bytes qi qa (I ++ A) x -> queue_bytes qa qi (A ++ I) x.
Proof.
  intros H. assert (Hs : queue_bytes qa qi (I ++ A) x) by (destruct H as [?|[?|?]]; [by right; left|by left|by right; right]).
  eapply queue_bytes_mono; [|exact Hs]. rewrite !nodes_app. apply Permutation_app_comm.
Qed.

(** The lock byte is none of the queues' bytes. *)
Lemma lock_not_queue m cq qa qi A I : runq m cq qa qi A I -> ~ queue_bytes qa qi (A ++ I) (cq + CQ_LOCK).
Proof.
  intros []. unfold queue_bytes, within, CQ_LOCK, CQ_SIZE, QUEUE_SIZE, NODE_SIZE in *.
  intros [?|[?|(k & l & a & p & Hk & Ha & Hx)]]; [lia|lia|]. specialize (rq_nodes k l a p Hk Ha). lia.
Qed.

Lemma runq_word_bytes m cq qa qi A I c x : runq m cq qa qi A I -> runq_word cq qa qi (A ++ I) c -> (8 | c) ->
  within c 8 x -> cpu_bytes cq qa qi (A ++ I) x.
Proof.
  intros HR Hc Hc8 Hx. destruct Hc as [[Hc _]|(k & l & Hk & Hc)].
  - left. destruct (rq_cq _ _ _ _ _ _ HR) as [y ->], Hc8 as [z ->]. unfold within, CQ_SIZE in *. lia.
  - right. eapply cell_bytes; [|done..]. rewrite <- (ls_len _ _ _ _ _ (rq_lists _ _ _ _ _ _ HR)).
    by eapply lookup_lt_Some.
Qed.

Section next.
Context (fuel : nat) (s : kernel) (cq qa qi : Z) (A I : levels).
Context (HS : sched_at s cq qa qi A I) (Hpid : forall p, p ∈ pids (A ++ I) -> p <> 0).

Local Abbreviation s0 := (set_mem (<[cq + CQ_LOCK := 1]> (k_mem s)) s).

(** The lock is taken and the active queue tried. *)
Lemma next_start (K : Z -> M kernel unit) : (ACQUIRE_at (cq + CQ_LOCK) ;; pid ← pop_unlocked cq; K pid) s =
  (pid ← pop_unlocked cq; K pid) s0.
Proof.
  assert (Hacq : ACQUIRE_at (cq + CQ_LOCK) s = Done tt s0).
  { unfold ACQUIRE_at. rewrite (run_bind _ _ _ 0 s) by (unfold load8; change (mem_of s) with (k_mem s); by rewrite (sa_lock _ _ _ _ _ _ HS)).
    cbn [Z.eqb negb]. unfold store8. change (mem_of s) with (k_mem s). by rewrite (sa_lock _ _ _ _ _ _ HS). }
  by rewrite (run_bind _ _ _ _ _ Hacq).
Qed.

(** The two queues exchanged, as the code does it. *)
Lemma swap_run {B} (K : M kernel B) :
  (tmp ← load64 (cq + CQ_INACTIVE); a ← load64 (cq + CQ_ACTIVE);
   store64 (cq + CQ_INACTIVE) a ;; store64 (cq + CQ_ACTIVE) tmp ;; K) s0 =
  K (set_mem (write64 (write64 (k_mem s0) (cq + CQ_INACTIVE) qa) (cq + CQ_ACTIVE) qi) s0).
Proof.
  pose proof (runq_lock _ _ _ _ _ _ 1 (sa_runq _ _ _ _ _ _ HS)) as HR.
  pose proof (rq_active _ _ _ _ _ _ HR) as Ha. pose proof (rq_inactive _ _ _ _ _ _ HR) as Hi.
  rewrite (run_bind _ _ _ _ _ (kload64 s0 _ _ Hi)), (run_bind _ _ _ _ _ (kload64 s0 _ _ Ha)).
  assert (Mi : mapped (k_mem s0) (cq + CQ_INACTIVE) 8) by (apply read64_is_Some; by eexists).
  assert (Ma : mapped (k_mem s0) (cq + CQ_ACTIVE) 8) by (apply read64_is_Some; by eexists).
  rewrite (run_bind _ _ _ _ _ (kstore64 s0 _ qa Mi)).
  by rewrite (run_bind _ _ _ _ _ (kstore64 (set_mem _ s0) _ qi (write64_mapped _ _ _ _ _ Ma))).
Qed.

Lemma acquired_changes (W : Z -> Prop) m : (forall x, cpu_bytes cq qa qi (A ++ I) x -> W x) ->
  changes (queue_bytes qa qi (A ++ I)) (k_mem s0) m -> changes W (k_mem s) m.
Proof.
  intros HW Hc. eapply changes_trans.
  - apply (changes_insert W _ (cq + CQ_LOCK) 1). apply HW. left. unfold within, CQ_LOCK, CQ_SIZE. lia.
  - eapply changes_weaken; [exact Hc|]. intros x Hx. apply HW. by right.
Qed.

(** What [proc_next] comes down to: activating the process picked, with the queues
    updated and the lock held. *)
Lemma proc_next_spec :
  match next_abs A I with
  | Some (p, (A', I')) => exists m qa' qi', runq m cq qa' qi' A' I' /\
      (qa' = qa /\ qi' = qi \/ qa' = qi /\ qi' = qa) /\
      m !! (cq + CQ_LOCK) = Some 1 /\ changes (cpu_bytes cq qa qi (A ++ I)) (k_mem s) m /\
      proc_next fuel s = (proc_activate fuel p ;; RELEASE_at (cq + CQ_LOCK)) (set_mem m s)
  | None => proc_next fuel s = Stop Panic
  end.
Proof.
  pose proof (runq_lock _ _ _ _ _ _ 1 (sa_runq _ _ _ _ _ _ HS)) as HR.
  assert (Hlock : k_mem s0 !! (cq + CQ_LOCK) = Some 1) by apply lookup_insert_eq.
  assert (Hstart : proc_next fuel s = (pid ← pop_unlocked cq; if negb (pid =? 0) then
      proc_activate fuel pid ;; RELEASE_at (cq + CQ_LOCK) else
      tmp ← load64 (cq + CQ_INACTIVE); a ← load64 (cq + CQ_ACTIVE);
      store64 (cq + CQ_INACTIVE) a ;; store64 (cq + CQ_ACTIVE) tmp ;;
      pid ← pop_unlocked cq; (if pid =? 0 then halt Panic else mret tt) ;;
      proc_activate fuel pid ;; RELEASE_at (cq + CQ_LOCK)) s0).
  { assert (Hq : cpu_queue (cpu_id (k_cpu s)) s = Done cq s) by (rewrite <- (sa_cq _ _ _ _ _ _ HS); reflexivity).
    unfold proc_next. rewrite (run_bind (gets (fun s => cpu_id (k_cpu s))) _ s (cpu_id (k_cpu s)) s eq_refl), (run_bind _ _ _ _ _ Hq).
    apply next_start. }
  rewrite Hstart. clear Hstart. pose proof (pop_unlocked_spec s0 cq qa qi A I HR) as Hpop.
  pose proof (rq_len _ _ _ _ _ _ HR) as [HlA HlI]. assert (Hlen : length A = length I) by lia.
  unfold popped in Hpop. unfold next_abs. destruct (pop_abs A I) as [[p [A' I']]|] eqn:E.
  - destruct Hpop as (m & Hrun & HR' & Hch). exists m, qa, qi.
    assert (Hp0 : p <> 0).
    { apply Hpid. apply (next_abs_Some A I p A' I' Hlen). unfold next_abs. by rewrite E. }
    split; [done|]. split; [by left|]. split.
    { rewrite <- Hlock. apply (ch_same _ _ _ Hch). by apply (lock_not_queue (k_mem s0)). }
    split; [by apply (acquired_changes (cpu_bytes cq qa qi (A ++ I)))|].
    rewrite (run_bind _ _ _ _ _ Hrun), (proj2 (Z.eqb_neq p 0)) by done. reflexivity.
  - rewrite (run_bind _ _ _ _ _ Hpop). cbn [Z.eqb negb]. rewrite swap_run.
    set (m1 := write64 (write64 (k_mem s0) (cq + CQ_INACTIVE) qa) (cq + CQ_ACTIVE) qi).
    pose proof (runq_swap _ _ _ _ _ _ HR) as HR1. fold m1 in HR1.
    assert (Hm1 : changes (cpu_bytes cq qa qi (A ++ I)) (k_mem s) m1).
    { eapply changes_trans.
      - apply (changes_insert _ _ (cq + CQ_LOCK) 1). left. unfold within, CQ_LOCK, CQ_SIZE. lia.
      - eapply changes_then_write; [eapply changes_weaken; [apply changes_write64|]|];
          intros x Hx; left; unfold within, CQ_INACTIVE, CQ_ACTIVE, CQ_SIZE in *; lia. }
    pose proof (pop_unlocked_spec (set_mem m1 s0) cq qi qa I A HR1) as Hpop2. unfold popped in Hpop2.
    destruct (pop_abs I A) as [[p [A' I']]|] eqn:E2.
    + destruct Hpop2 as (m & Hrun & HR' & Hch). exists m, qi, qa.
      assert (Hp0 : p <> 0).
      { apply Hpid. apply (next_abs_Some A I p A' I' Hlen). unfold next_abs. by rewrite E. }
      split; [done|]. split; [by right|]. split; [|split].
      * rewrite (ch_same _ _ _ Hch) by by apply (lock_not_queue m1). cbn [k_mem set_mem].
        unfold m1. rewrite !write64_lookup_ne by (unfold within, CQ_LOCK, CQ_INACTIVE, CQ_ACTIVE; lia). done.
      * eapply changes_trans; [exact Hm1|]. eapply changes_weaken; [exact Hch|]. intros x Hx. right. by apply queue_bytes_swap.
      * rewrite (run_bind _ _ _ _ _ Hrun), (proj2 (Z.eqb_neq p 0)) by done. reflexivity.
    + by rewrite (run_bind _ _ _ _ _ Hpop2).
Qed.
End next.

(** Every queued process can be activated: the process table maps its id to [ptr], in
    every state that differs from [s] in the bytes of [W] at most. *)
Definition procs_ready (fuel : nat) (s : kernel) (W : Z -> Prop) (ptr : Z -> Z) (ps : list Z) : Prop :=
  forall p s', p ∈ ps -> k_proc s' = k_proc s -> changes W (k_mem s) (k_mem s') ->
    proc_activate fuel p s' = Done tt (set_current (ptr p) s').

(** The process table: a map from ids to process structures with an entry for every
    process of [ps], none of its bytes in [W]. *)
Record proc_table (s : kernel) (W : Z -> Prop) (max : Z) (ptr : Z -> Z) (ps : list Z) : Prop := {
  pt_map : exists m cap cs, read64 (k_mem s) (procmap (k_proc s)) = Some m /\ map_at (k_mem s) m max cap cs /\
    (forall x, map_bytes (k_mem s) m max cs x -> ~ W x) /\
    forall p, p ∈ ps ->
      (exists i c, 0 <= i <= max /\ cs i = Some c /\ c_key c = word_bytes p /\ c_hash c = hash (word_bytes p)) /\
      (forall i c, 0 <= i <= max -> cs i = Some c -> c_key c = word_bytes p -> c_val c + FLEX_ITEM = ptr p);
  pt_pos : 0 < max;
  pt_procmap x : within (procmap (k_proc s)) 8 x -> ~ W x;
  pt_ptr p : p ∈ ps -> ptr p <> 0;
}.

Lemma proc_table_ready fuel s W max ptr ps : proc_table s W max ptr ps -> (Z.to_nat max < fuel)%nat ->
  procs_ready fuel s W ptr ps.
Proof.
  intros [(m & cap & cs & Hm & Hmap & Hout & Hps) Hpos Hpm Hptr] Hf p s' Hp Hk Hch.
  assert (Hm' : read64 (k_mem s') (procmap (k_proc s')) = Some m).
  { rewrite Hk, <- Hm. by eapply changes_read64. }
  destruct (map_get_run s' m max cap cs (word_bytes p) fuel) as (r & Hrun & Hr); [by eapply map_at_changes|done|done|].
  destruct (Hps p Hp) as [(i & c & Hi & Hc & Hck & Hch') Hval].
  assert (r = ptr p) as ->.
  { destruct Hr as [(j & d & Hj & Hd & Hdk & _ & ->)|[_ Hno]]; [exact (Hval j d Hj Hd Hdk)|].
    by destruct (Hno i c Hi Hc Hck). }
  unfold proc_activate. rewrite (run_bind (gets (fun s => procmap (k_proc s))) _ s' _ s' eq_refl).
  rewrite (run_bind _ _ _ _ _ (kload64 s' _ _ Hm')), (run_bind _ _ _ _ _ Hrun).
  rewrite (run_bind (modify (set_current (ptr p))) _ s' tt _ eq_refl).
  by rewrite (proj2 (Z.eqb_neq (ptr p) 0)) by by apply Hptr.
Qed.

(** One call, in a queue state whose bytes lie in [W]. *)
Lemma proc_next_step fuel s cq qa qi A I (W : Z -> Prop) ptr p A' I' :
  sched_at s cq qa qi A I -> (forall q, q ∈ pids (A ++ I) -> q <> 0) ->
  (forall x, cpu_bytes cq qa qi (A ++ I) x -> W x) ->
  procs_ready fuel s W ptr (pids (A ++ I)) -> next_abs A I = Some (p, (A', I')) ->
  exists m' qa' qi', proc_next fuel s = Done tt (set_mem m' (set_current (ptr p) s)) /\
    sched_at (set_mem m' (set_current (ptr p) s)) cq qa' qi' A' I' /\
    (qa' = qa /\ qi' = qi \/ qa' = qi /\ qi' = qa) /\ changes W (k_mem s) m'.
Proof.
  intros HS Hpid HW Hready E. pose proof (proc_next_spec fuel s cq qa qi A I HS Hpid) as H. rewrite E in H.
  destruct H as (m & qa' & qi' & HR & Hqq & Hlk & Hch & Hrun).
  assert (Hlen : length A = length I).
  { destruct (rq_len _ _ _ _ _ _ (sa_runq _ _ _ _ _ _ HS)). lia. }
  destruct (next_abs_Some A I p A' I' Hlen E) as (Hp & _).
  assert (HchW : changes W (k_mem s) m) by (eapply changes_weaken; [exact Hch|exact HW]).
  exists (<[cq + CQ_LOCK := 0]> m), qa', qi'. split; [|split; [|split; [done|]]].
  - rewrite Hrun, (run_bind _ _ _ _ _ (Hready p (set_mem m s) Hp eq_refl HchW)).
    unfold RELEASE_at, store8. change (mem_of _) with m. by rewrite Hlk.
  - split; [exact (sa_cq _ _ _ _ _ _ HS)|by apply runq_lock|apply lookup_insert_eq].
  - eapply changes_trans; [exact HchW|]. apply changes_insert, HW. left. unfold within, CQ_LOCK, CQ_SIZE. lia.
Qed.

(** C10. [proc_next] makes the next process current: the first one of the most urgent
    busy level of the active queue or, when that queue is used up, of the inactive one,
    the queues changing roles; the process goes to the end of its level of the inactive
    queue.  Nothing but the queues is written, the lock is given back, and with both
    queues empty the kernel panics. *)
Theorem proc_next_refines fuel s cq qa qi A I max ptr :
  sched_at s cq qa qi A I -> (forall p, p ∈ pids (A ++ I) -> p <> 0) ->
  proc_table s (cpu_bytes cq qa qi (A ++ I)) max ptr (pids (A ++ I)) -> (Z.to_nat max < fuel)%nat ->
  match next_abs A I with
  | Some (p, (A', I')) => exists m' qa' qi', proc_next fuel s = Done tt (set_mem m' (set_current (ptr p) s)) /\
      sched_at (set_mem m' (set_current (ptr p) s)) cq qa' qi' A' I' /\
      changes (cpu_bytes cq qa qi (A ++ I)) (k_mem s) m'
  | None => proc_next fuel s = Stop Panic
  end.
Proof.
  intros HS Hpid Htab Hf. pose proof (proc_table_ready _ _ _ _ _ _ Htab Hf) as Hready. destruct (next_abs A I) as [[p [A' I']]|] eqn:E.
  - destruct (proc_next_step fuel s cq qa qi A I _ ptr p A' I' HS Hpid (fun x H => H) Hready E)
      as (m' & qa' & qi' & Hrun & HS' & _ & Hch). by exists m', qa', qi'.
  - pose proof (proc_next_spec fuel s cq qa qi A I HS Hpid) as H. by rewrite E in H.
Qed.

(** ** No starvation *)

(** The current process after each of [n] timer ticks. *)
Fixpoint ticks (fuel n : nat) : M kernel (list Z) :=
  match n with
  | O => mret []
  | S k =>
      proc_next fuel ;;
      d ← gets (fun s => proc_current (k_cpu s));
      ds ← ticks fuel k;
      mret (d :: ds)
  end.

Lemma cpu_bytes_step cq qa qi qa' qi' A I A' I' x : qa' = qa /\ qi' = qi \/ qa' = qi /\ qi' = qa ->
  nodes (A' ++ I') ≡ₚ nodes (A ++ I) -> cpu_bytes cq qa' qi' (A' ++ I') x -> cpu_bytes cq qa qi (A ++ I) x.
Proof.
  intros Hqq Hn [Hx|Hx]; [by left|]. right. apply (queue_bytes_mono _ _ _ _ _ Hn) in Hx.
  destruct Hqq as [[-> ->]|[-> ->]]; [done|]. destruct Hx as [?|[?|?]]; [by right; left|by left|by right; right].
Qed.

Lemma ticks_run fuel n s cq qa qi A I (W : Z -> Prop) ptr :
  sched_at s cq qa qi A I -> (forall q, q ∈ pids (A ++ I) -> q <> 0) -> nodes (A ++ I) <> [] ->
  (forall x, cpu_bytes cq qa qi (A ++ I) x -> W x) -> procs_ready fuel s W ptr (pids (A ++ I)) ->
  exists s', ticks fuel n s = Done (ptr <$> picks n A I) s'.
Proof.
  revert s qa qi A I. induction n as [|n IH]; intros s qa qi A I HS Hpid Hne HW Hready; [by exists s|].
  destruct (next_abs A I) as [[p [A' I']]|] eqn:E; [|by apply next_abs_None in E].
  assert (Hlen : length A = length I) by (destruct (rq_len _ _ _ _ _ _ (sa_runq _ _ _ _ _ _ HS)); lia).
  destruct (next_abs_Some A I p A' I' Hlen E) as (_ & Hn & _).
  destruct (proc_next_step fuel s cq qa qi A I W ptr p A' I' HS Hpid HW Hready E)
    as (m1 & qa' & qi' & Hrun & HS' & Hqq & Hch). set (s1 := set_mem m1 (set_current (ptr p) s)) in *.
  assert (Hpids : pids (A' ++ I') ≡ₚ pids (A ++ I)) by (unfold pids; by rewrite Hn).
  destruct (IH s1 qa' qi' A' I' HS') as [s' Hrest].
  - intros q Hq. apply Hpid. by rewrite <- Hpids.
  - intros Hnil. apply Hne. apply Permutation_nil. by rewrite <- Hn, Hnil.
  - intros x Hx. apply HW. by eapply cpu_bytes_step.
  - intros q s2 Hq Hk Hc. apply Hready; [by rewrite <- Hpids|done|by eapply changes_trans].
  - exists s'. cbn [ticks picks]. rewrite E, fmap_cons.
    rewrite (run_bind _ _ _ _ _ Hrun).
    rewrite (run_bind (gets (fun s => proc_current (k_cpu s))) _ s1 _ s1 eq_refl).
    by rewrite (run_bind _ _ _ _ _ Hrest).
Qed.

(** C11. No process starves: from any state of the queues, as long as nobody schedules or
    unschedules, every queued process has become current by the time the timer has
    ticked once for each process of the active queue and once for every process. *)
Theorem proc_next_fair fuel s cq qa qi A I max ptr p :
  sched_at s cq qa qi A I -> (forall q, q ∈ pids (A ++ I) -> q <> 0) ->
  proc_table s (cpu_bytes cq qa qi (A ++ I)) max ptr (pids (A ++ I)) -> (Z.to_nat max < fuel)%nat -> p ∈ pids (A ++ I) ->
  exists ds s', ticks fuel (length (nodes A) + length (nodes (A ++ I))) s = Done ds s' /\ ptr p ∈ ds.
Proof.
  intros HS Hpid Htab Hf Hp. pose proof (proc_table_ready _ _ _ _ _ _ Htab Hf) as Hready.
  assert (Hne : nodes (A ++ I) <> []) by (intros E; unfold pids in Hp; rewrite E in Hp; by apply not_elem_of_nil in Hp).
  destruct (ticks_run fuel (length (nodes A) + length (nodes (A ++ I))) s cq qa qi A I _ ptr
    HS Hpid Hne (fun x H => H) Hready) as [s' Hrun].
  exists (ptr <$> picks (length (nodes A) + length (nodes (A ++ I))) A I), s'. split; [exact Hrun|].
  apply list_elem_of_fmap_2, picks_fair; [|exact Hp].
  destruct (rq_len _ _ _ _ _ _ (sa_runq _ _ _ _ _ _ HS)). lia.
Qed.


(** ** A CPU with one active and one expired process *)

(** Writes of 64-bit words, the first one first. *)
Fixpoint write_words (m : gmap Z Z) (ws : list (Z * Z)) : gmap Z Z :=
  match ws with
  | [] => m
  | (a, v) :: ws' => write_words (write64 m a v) ws'
  end.

Lemma changes_write_words (P : Z -> Prop) ws m0 m : changes P m0 m ->
  Forall (fun '(a, _) => forall x, within a 8 x -> P x) ws -> changes P m0 (write_words m ws).
Proof.
  revert m. induction ws as [|[a v] ws IH]; intros m Hm Hws; [done|].
  apply Forall_cons in Hws as [Ha Hws]. apply IH; [|done]. by apply changes_then_write.
Qed.

Definition two_cq : Z := 131072.
Definition two_qa : Z := 131136.
Definition two_qi : Z := 131264.
Definition two_n1 : Z := 131408.
Definition two_n2 : Z := 131456.
Definition two_procmap : Z := 131584.
Definition two_map : Z := 131600.
Definition two_k1 : Z := 131712.
Definition two_k2 : Z := 131744.

(** Process 7 is active at priority 1, process 9 has had its turn at priority 3; their
    structures are at 140008 and 150008. *)
Definition two_words : list (Z * Z) := [
  (two_cq + CQ_ACTIVE, two_qa); (two_cq + CQ_INACTIVE, two_qi);
  (q_start two_qa 1, two_n1); (q_end two_qa 1, two_n1); (q_start two_qi 3, two_n2); (q_end two_qi 3, two_n2);
  (two_n1 - HDRSIZE, 16); (two_n1 - 8, canary (two_n1 - HDRSIZE)); (two_n1 + NODE_PID, 7);
  (two_n2 - HDRSIZE, 16); (two_n2 - 8, canary (two_n2 - HDRSIZE)); (two_n2 + NODE_PID, 9);
  (two_procmap, two_map); (two_map + MAP_MAX, 1); (two_map + MAP_CAP, 8);
  (cell_addr two_map 0 + CELL_H, hash (word_bytes 7)); (cell_addr two_map 0 + CELL_K, two_k1);
  (cell_addr two_map 0 + CELL_V, 140000);
  (cell_addr two_map 1 + CELL_H, hash (word_bytes 9)); (cell_addr two_map 1 + CELL_K, two_k2);
  (cell_addr two_map 1 + CELL_V, 150000);
  (two_k1 + FLEX_N, 8); (two_k1 + FLEX_ITEM, 7); (two_k2 + FLEX_N, 8); (two_k2 + FLEX_ITEM, 9)].

Definition two_mem : gmap Z Z := write_words (zeros 131072 1024 demo_heap_mem) two_words.
Definition two_procs : kernel :=
  quiet_kernel two_mem (PageAllocGlobals 4096 1 false) (CpuGlobals 32768 1 0 0)
    (ProcGlobals two_cq true two_procmap 10 false) no_paging.
Definition two_A : levels := [[]; [(two_n1, 7)]; []; []; []].
Definition two_I : levels := [[]; []; []; [(two_n2, 9)]; []].
Definition two_cells (i : Z) : option cell :=
  if i =? 0 then Some (Cell (hash (word_bytes 7)) (word_bytes 7) 140000)
  else if i =? 1 then Some (Cell (hash (word_bytes 9)) (word_bytes 9) 150000) else None.
Definition two_ptr (p : Z) : Z := if p =? 7 then 140008 else 150008.

(** What the memory holds, every word of the queues included. *)
Definition two_view : list (Z * Z) :=
  (flat_map (fun k => [(cell_start two_qa two_qi k, head_addr (nth k (two_A ++ two_I) []) 0);
                      (cell_end two_qa two_qi k, last_addr (nth k (two_A ++ two_I) []))]) (seq 0 10)) ++
  [(two_n1, 0); (two_n2, 0)] ++ filter (fun '(a, _) => ~ two_qa <= a < two_n1 - HDRSIZE) two_words.

Definition holds_words (m : gmap Z Z) (ws : list (Z * Z)) : bool :=
  forallb (fun '(a, v) => bool_decide (read64 m a = Some v)) ws.

Lemma holds_words_read m ws a v : holds_words m ws = true -> (a, v) ∈ ws -> read64 m a = Some v.
Proof.
  unfold holds_words. rewrite forallb_forall. intros H Ha%list_elem_of_In. apply (H (a, v)) in Ha.
  by apply bool_decide_eq_true in Ha.
Qed.

Lemma two_view_ok : holds_words two_mem two_view = true.
Proof. vm_compute. reflexivity. Qed.

Lemma two_changes : changes (within 131072 1024) demo_heap_mem two_mem.
Proof.
  apply changes_write_words; [apply (changes_write_bytes _ 131072 (replicate (Z.to_nat 1024) 0))|].
  assert (H : Forall (fun w => 131072 <= w.1 /\ w.1 + 8 <= 131072 + 1024) two_words)
    by (apply (bool_decide_unpack _); vm_compute; exact Logic.I).
  eapply Forall_impl; [exact H|]. intros [a v] Ha x Hx. unfold within in *. simpl in Ha. lia.
Qed.

Lemma two_mapped : mapped two_mem 131072 1024.
Proof.
  eapply changes_mapped; [apply (changes_write_words (fun _ => True)); [apply changes_refl|by repeat constructor]|].
  by apply mapped_zeros.
Qed.

Lemma two_load : read32 two_mem (two_cq + CQ_N) = Some 0.
Proof. vm_compute. reflexivity. Qed.

#[local] Opaque two_mem.

Lemma two_read a v : bool_decide ((a, v) ∈ two_view) = true -> read64 two_mem a = Some v.
Proof. intros H%bool_decide_eq_true. by apply (holds_words_read two_mem two_view a v two_view_ok). Qed.

Ltac two_reads := split_and?; first [exact Logic.I | apply two_read; vm_compute; reflexivity].

Lemma two_nodes k l a p : (two_A ++ two_I) !! k = Some l -> (a, p) ∈ l ->
  k = 1%nat /\ a = two_n1 /\ p = 7 \/ k = 8%nat /\ a = two_n2 /\ p = 9.
Proof.
  intros Hk Ha. do 10 (destruct k as [|k]; [injection Hk as <-;
    first [by apply not_elem_of_nil in Ha|apply list_elem_of_singleton in Ha as [= -> ->]; auto]|]).
  by destruct k.
Qed.

Lemma two_pids : pids (two_A ++ two_I) = [7; 9].
Proof. reflexivity. Qed.

Lemma two_cell_bounds k : (k < 10)%nat ->
  two_qa <= cell_start two_qa two_qi k < two_n1 - 16 /\ two_qa <= cell_end two_qa two_qi k < two_n1 - 16.
Proof.
  intros Hk. unfold cell_start, cell_end, q_start, q_end, two_qa, two_qi, two_n1. case_decide; lia.
Qed.

Lemma two_node_ok a : a = two_n1 \/ a = two_n2 -> node_ok a.
Proof.
  intros [-> | ->]; (split; [unfold two_n1, two_n2; lia|]); [by exists 8213|by exists 8216].
Qed.

Lemma two_placed a : a = two_n1 \/ a = two_n2 -> placed 10 (cell_start two_qa two_qi) (cell_end two_qa two_qi) a.
Proof.
  intros Ha. split; [by apply two_node_ok|]. intros k c Hk Hc. pose proof (two_cell_bounds k Hk).
  unfold NODE_PID, two_n1, two_n2 in *. lia.
Qed.

Lemma two_lists : queues_at two_qa two_qi two_mem (two_A ++ two_I).
Proof.
  split.
  - reflexivity.
  - intros k l Hk. do 10 (destruct k as [|k];
      [injection Hk as <-; split; cbn [chain]; two_reads|]). by destruct k.
  - intros k l a p Hk Ha. destruct (two_nodes k l a p Hk Ha) as [(_ & -> & _)|(_ & -> & _)]; apply two_placed; auto.
  - intros k l Hk. do 10 (destruct k as [|k]; [injection Hk as <-; repeat constructor; set_solver|]). by destruct k.
  - intros j k l l' a p q Hj Hk Ha Hb. pose proof (two_nodes j l a p Hj Ha). pose proof (two_nodes k l' a q Hk Hb).
    unfold two_n1, two_n2 in *. lia.
Qed.

Lemma two_runq : runq two_mem two_cq two_qa two_qi two_A two_I.
Proof.
  split; [two_reads|two_reads|..].
  - eapply mapped_sub; [exact two_mapped|unfold two_cq, CQ_N; lia|unfold two_cq, CQ_N; lia].
  - by exists 16384.
  - split; unfold two_qa, two_qi, QUEUE_SIZE; [split; [by exists 16392|lia]|split; [by exists 16408|lia]|lia].
  - unfold two_cq, two_qa, CQ_SIZE. lia.
  - unfold two_cq, two_qi, CQ_SIZE. lia.
  - done.
  - exact two_lists.
  - intros k l a p Hk Ha. destruct (two_nodes k l a p Hk Ha) as [(_ & -> & _)|(_ & -> & _)];
      unfold two_n1, two_n2, two_cq, CQ_SIZE, NODE_SIZE; lia.
Qed.

(** Its heap is the one of [demo_heap]. *)
Lemma two_F_out x : 131072 <= x -> ~ demo_F x.
Proof.
  intros Hx [Hf|[Hf|Hf%in_exts_nil]]; [|unfold within in *; lia|done].
  apply demo_footprint in Hf; [|reflexivity]. unfold within in *. lia.
Qed.

#[local] Opaque demo_heap_mem.

Lemma two_heap_inv : heap_inv two_procs demo_F.
Proof.
  apply (heap_inv_frame (set_mem demo_heap_mem two_procs) demo_F two_mem (within 131072 1024)).
  - apply (heap_inv_same demo_heap); [reflexivity..|exact demo_heap_inv].
  - exact two_changes.
  - intros x Hx. apply two_F_out. unfold within in Hx. lia.
Qed.

Lemma two_sched_at : sched_at two_procs two_cq two_qa two_qi two_A two_I.
Proof. split; [reflexivity|exact two_runq|]. vm_compute. reflexivity. Qed.

Lemma two_cells_at : map_at two_mem two_map 1 8 two_cells.
Proof.
  split; [two_reads|two_reads|lia|]. intros i Hi. assert (i = 0 \/ i = 1) as [->| ->] by lia.
  - exists two_k1. split; [done|]. split; [two_reads|]. split; [two_reads|]. split; [two_reads|]. split; [two_reads|].
    vm_compute. reflexivity.
  - exists two_k2. split; [done|]. split; [two_reads|]. split; [two_reads|]. split; [two_reads|]. split; [two_reads|].
    vm_compute. reflexivity.
Qed.

(** The queues end below the process table. *)
Lemma two_queue_end x : cpu_bytes two_cq two_qa two_qi (two_A ++ two_I) x -> 131072 <= x < two_procmap.
Proof.
  unfold cpu_bytes, queue_bytes, within, two_cq, two_qa, two_qi, CQ_SIZE, QUEUE_SIZE, two_procmap.
  intros [?|[?|[?|(k & l & a & p & Hk & Ha & Hx)]]]; [lia..|].
  destruct (two_nodes k l a p Hk Ha) as [(_ & -> & _)|(_ & -> & _)]; unfold two_n1, two_n2, NODE_SIZE in *; lia.
Qed.

Lemma two_table_start x : map_bytes two_mem two_map 1 two_cells x -> two_map <= x.
Proof.
  intros [Hx|(i & c & kp & Hi & _ & Hkp & Hx)]; [unfold within, two_map in *; lia|].
  assert (i = 0 \/ i = 1) as [->| ->] by lia.
  - assert (E : read64 two_mem (cell_addr two_map 0 + CELL_K) = Some two_k1) by two_reads.
    rewrite E in Hkp. injection Hkp as <-. unfold within, two_k1, two_map in *. lia.
  - assert (E : read64 two_mem (cell_addr two_map 1 + CELL_K) = Some two_k2) by two_reads.
    rewrite E in Hkp. injection Hkp as <-. unfold within, two_k2, two_map in *. lia.
Qed.

Lemma two_table : proc_table two_procs (cpu_bytes two_cq two_qa two_qi (two_A ++ two_I)) 1 two_ptr (pids (two_A ++ two_I)).
Proof.
  split; [|lia| |].
  - exists two_map, 8, two_cells. split; [two_reads|]. split; [exact two_cells_at|]. split.
    + intros x Hx%two_table_start Hq%two_queue_end. unfold two_map, two_procmap in *. lia.
    + intros p Hp. rewrite two_pids in Hp. assert (p = 7 \/ p = 9) as Hp' by set_solver. split.
      * destruct Hp' as [->| ->]; [exists 0|exists 1]; eexists; (split; [lia|split; [reflexivity|done]]).
      * intros i c Hi Hc Hk. assert (i = 0 \/ i = 1) as [->| ->] by lia; injection Hc as <-;
          destruct Hp' as [->| ->]; solve [reflexivity|discriminate Hk].
  - intros x Hx Hq%two_queue_end. change (procmap (k_proc two_procs)) with two_procmap in Hx. unfold within, two_procmap in *. lia.
  - intros p _. unfold two_ptr. by case_match.
Qed.

Lemma two_pids_pos p : p ∈ pids (two_A ++ two_I) -> p <> 0.
Proof. rewrite two_pids. set_solver. Qed.

Lemma proc_next_refines_witness : exists m' qa' qi', proc_next 2 two_procs = Done tt (set_mem m' (set_current 140008 two_procs)) /\
  sched_at (set_mem m' (set_current 140008 two_procs)) two_cq qa' qi' [[]; []; []; []; []] [[]; [(two_n1, 7)]; []; [(two_n2, 9)]; []] /\
  changes (cpu_bytes two_cq two_qa two_qi (two_A ++ two_I)) two_mem m'.
Proof.
  apply (proc_next_refines 2 two_procs two_cq two_qa two_qi two_A two_I 1 two_ptr).
  - exact two_sched_at.
  - exact two_pids_pos.
  - exact two_table.
  - simpl. lia.
Defined.

Lemma proc_next_fair_witness : exists ds s', ticks 2 3 two_procs = Done ds s' /\ 150008 ∈ ds.
Proof.
  apply (proc_next_fair 2 two_procs two_cq two_qa two_qi two_A two_I 1 two_ptr 9).
  - exact two_sched_at.
  - exact two_pids_pos.
  - exact two_table.
  - simpl. lia.
  - rewrite two_pids. set_solver.
Defined.
