(* ===== verification/SchedSubmit.v ===== *)
(** * Scheduling a process

    [schedule] of kernel/sched.c gives a new node to the least loaded CPU: the heap, the
    load counters and the run queues at once.  The time slice the sweep of a CPU's
    processes gets is here too. *)
From S2P Require Import Prelude Memory State FreeList PageAlloc Allocator Kalloc KallocRefine KallocTheorems HashMap MapPages Timer Sched RunLists SchedRefine SchedTheorems.

(** ** The least loaded CPU *)

(** CPU [c] is the first of those with the fewest processes. *)
Definition least (loads : list Z) (c : nat) : Prop :=
  exists l, loads !! c = Some l /\ forall j l', loads !! j = Some l' -> l <= l' /\ ((j < c)%nat -> l < l').

(** [sched_cpu_queues[i].n] is [loads[i]]. *)
Record cpus_at (s : kernel) (m : gmap Z Z) (loads : list Z) : Prop := {
  ca_n : ncpus (k_cpu s) = Z.of_nat (length loads);
  ca_load i l : loads !! i = Some l ->
    read32 m (sched_cpu_queues (k_proc s) + Z.of_nat i * CQ_SIZE + CQ_N) = Some l /\ 0 <= l < 2 ^ 32 - 1;
}.

Lemma least_loaded_run (s : kernel) loads garbage : cpus_at s (k_mem s) loads -> loads <> [] ->
  exists c, least loads c /\ least_loaded (length loads) 0 garbage (2 ^ 32 - 1) s = Done (Z.of_nat c) s.
Proof.
  intros [_ Hload] Hne.
  assert (H : forall rest done cmin nmin, loads = done ++ rest ->
    (done = [] /\ nmin = 2 ^ 32 - 1 \/
     exists c, least done c /\ loads !! c = Some nmin /\ cmin = Z.of_nat c) ->
    (rest = [] -> done <> []) ->
    exists c, least loads c /\ least_loaded (length rest) (Z.of_nat (length done)) cmin nmin s = Done (Z.of_nat c) s).
  { induction rest as [|l rest IH]; intros dn cmin nmin E Hmin Hr.
    - rewrite app_nil_r in E. subst dn. destruct Hmin as [[? _]|(c & Hc & _ & ->)]; [by destruct Hr|]. by exists c.
    - assert (Hl : loads !! length dn = Some l) by (rewrite E; by apply list_lookup_middle).
      destruct (Hload _ _ Hl) as [Hrd Hlt]. cbn [length least_loaded].
      rewrite (run_bind (cpu_queue (Z.of_nat (length dn))) _ s _ s eq_refl).
      assert (Hld : load32 (sched_cpu_queues (k_proc s) + Z.of_nat (length dn) * CQ_SIZE + CQ_N) s = Done l s)
        by (unfold load32; by rewrite Hrd).
      rewrite (run_bind _ _ _ _ _ Hld).
      replace (Z.of_nat (length dn) + 1) with (Z.of_nat (length (dn ++ [l]))) by (rewrite length_app; simpl; lia).
      assert (Hnext : forall cm nm, (exists c, least (dn ++ [l]) c /\ loads !! c = Some nm /\ cm = Z.of_nat c) ->
        exists c, least loads c /\ least_loaded (length rest) (Z.of_nat (length (dn ++ [l]))) cm nm s = Done (Z.of_nat c) s).
      { intros cm nm Hc. apply (IH (dn ++ [l]) cm nm); [by rewrite E, <- app_assoc|by right|by destruct dn]. }
      assert (Hsnoc : forall c nm, (forall j l', dn !! j = Some l' -> nm <= l' /\ ((j < c)%nat -> nm < l')) ->
        nm <= l -> ((length dn < c)%nat -> nm < l) -> (dn ++ [l]) !! c = Some nm -> least (dn ++ [l]) c).
      { intros c nm Hd Hle Hlt' Hc. exists nm. split; [done|]. intros j l' Hj.
        apply lookup_app_Some in Hj as [Hj|[Hj Hj']]; [by apply Hd|].
        destruct (j - length dn)%nat as [|k] eqn:Ej; [|by destruct k]. injection Hj' as <-. 
        split; [done|]. intros. apply Hlt'. lia. }
      destruct Hmin as [[-> ->]|(c & (n & Hn & Hmin) & Hc & ->)].
      + rewrite (proj2 (Z.ltb_lt _ _)) by lia. apply Hnext. exists 0%nat. split; [|done].
        by apply (Hsnoc 0%nat l); [|lia|simpl; lia|].
      + assert (nmin = n) as ->.
        { rewrite E, lookup_app_l in Hc by by eapply lookup_lt_Some. congruence. }
        destruct (Z.ltb_spec l n).
        * apply Hnext. exists (length dn). split; [|done]. apply (Hsnoc _ l); [|lia|lia|by apply list_lookup_middle].
          intros j l' Hj. destruct (Hmin j l' Hj). lia.
        * apply Hnext. exists c. split; [|done]. apply (Hsnoc _ n); [done|lia| |by apply lookup_app_l_Some].
          apply lookup_lt_Some in Hn. lia. }
  apply (H loads [] garbage); [done|by left|done].
Qed.

Lemma least_unique loads c d : least loads c -> least loads d -> c = d.
Proof.
  intros (l & Hl & Hc) (k & Hk & Hd). destruct (Hc d k Hk) as [H1 H2], (Hd c l Hl) as [H3 H4].
  destruct (decide (c = d)); [done|]. exfalso. destruct (decide (c < d)%nat) as [Hlt|]; [apply H4 in Hlt; lia|].
  assert (Hdc : (d < c)%nat) by lia. apply H2 in Hdc. lia.
Qed.

(** ** [schedule] *)

(** The queues of one CPU, their lock free, and no byte of them the heap's. *)
Record cpu_at (s : kernel) (F : Z -> Prop) (c : nat) (qa qi : Z) (A I : levels) : Prop := {
  cp_runq : runq (k_mem s) (sched_cpu_queues (k_proc s) + Z.of_nat c * CQ_SIZE) qa qi A I;
  cp_lock : k_mem s !! (sched_cpu_queues (k_proc s) + Z.of_nat c * CQ_SIZE + CQ_LOCK) = Some 0;
  cp_out x : cpu_bytes (sched_cpu_queues (k_proc s) + Z.of_nat c * CQ_SIZE) qa qi (A ++ I) x -> ~ F x;
}.

(** The new node is apart from every queue: its bytes were the heap's. *)
Lemma new_node_apart m cq qa qi A I F a : runq m cq qa qi A I -> (forall x, cpu_bytes cq qa qi (A ++ I) x -> ~ F x) ->
  node_ok a -> (forall x, within a NODE_SIZE x -> F x) ->
  placed 10 (cell_start qa qi) (cell_end qa qi) a /\ fresh a (A ++ I) /\ (a + NODE_SIZE <= cq \/ cq + CQ_SIZE <= a).
Proof.
  intros HR Hout Ha HF. unfold NODE_SIZE in *. split; [split; [done|]|split].
  - intros k c Hk Hc.
    assert (Hcell : forall d, d = cell_start qa qi k \/ d = cell_end qa qi k -> cpu_bytes cq qa qi (A ++ I) d).
    { intros d Hd. right. destruct (lookup_lt_is_Some_2 (A ++ I) k) as [l Hl].
      { rewrite (ls_len _ _ _ _ _ (rq_lists _ _ _ _ _ _ HR)). done. }
      apply (cell_bytes qa qi (A ++ I) k l d d Hk Hl); [|unfold within; lia]. destruct Hd; [by left|by right; left]. }
    assert (HcF : F c) by (apply HF; unfold within, NODE_PID in *; lia).
    split; intros E; rewrite E in HcF; [apply (Hout (cell_start qa qi k)) in HcF|apply (Hout (cell_end qa qi k)) in HcF];
      done || (apply Hcell; auto).
  - intros k l p Hk Hp. apply (Hout a); [|apply HF; unfold within; lia].
    right. right. right. exists k, l, a, p. split; [done|]. split; [done|]. unfold within, NODE_SIZE. lia.
  - destruct (decide (a + 16 <= cq)); [by left|]. destruct (decide (cq + CQ_SIZE <= a)); [by right|]. exfalso.
    set (x := Z.max a cq). apply (Hout x); [left|apply HF]; unfold x, within, CQ_SIZE in *; lia.
Qed.

(** Taking a CPU's lock and counting: [f] is what becomes of the count. *)
Definition counted (m : gmap Z Z) (cq v : Z) : gmap Z Z := write32 (<[cq + CQ_LOCK := 1]> m) (cq + CQ_N) v.

Lemma counted_changes m cq v : changes (within (cq + CQ_N) 8) m (counted m cq v).
Proof.
  eapply changes_trans; [apply (changes_insert _ _ (cq + CQ_LOCK) 1); unfold within, CQ_LOCK, CQ_N; lia|].
  eapply changes_weaken; [apply changes_write_bytes|]. rewrite length_le_split. unfold within. lia.
Qed.

Lemma counted_load m cq v : read32 (counted m cq v) (cq + CQ_N) = Some (w32 v).
Proof. apply read32_write32. Qed.

Lemma take_count {B} s m cq n (f : Z -> Z) (K : M kernel B) : m !! (cq + CQ_LOCK) = Some 0 -> read32 m (cq + CQ_N) = Some n ->
  (ACQUIRE_at (cq + CQ_LOCK) ;; c ← load32 (cq + CQ_N); store32 (cq + CQ_N) (f c) ;; K) (set_mem m s) = K (set_mem (counted m cq (f n)) s).
Proof.
  intros Hlk Hn. set (m1 := <[cq + CQ_LOCK := 1]> m).
  assert (Hacq : ACQUIRE_at (cq + CQ_LOCK) (set_mem m s) = Done tt (set_mem m1 s)).
  { unfold ACQUIRE_at. rewrite (run_bind _ _ _ 0 (set_mem m s)) by (unfold load8; simpl; by rewrite Hlk).
    cbn [Z.eqb negb]. unfold store8. simpl. by rewrite Hlk. }
  rewrite (run_bind _ _ _ _ _ Hacq).
  assert (Hld : load32 (cq + CQ_N) (set_mem m1 s) = Done n (set_mem m1 s)).
  { unfold load32. simpl. rewrite (read32_same m m1), Hn; [done|]. intros x Hx. apply lookup_insert_ne.
    intros <-. unfold within, CQ_LOCK, CQ_N in Hx. lia. }
  rewrite (run_bind _ _ _ _ _ Hld).
  assert (Hst : store32 (cq + CQ_N) (f n) (set_mem m1 s) = Done tt (set_mem (counted m cq (f n)) s)).
  { unfold store32. simpl. rewrite (proj2 (mappedb_spec m1 (cq + CQ_N) 4)); [done|].
    eapply changes_mapped; [by apply (changes_insert (fun _ => True))|]. apply read32_is_Some. by eexists. }
  by rewrite (run_bind _ _ _ _ _ Hst).
Qed.

Section schedule.
Context (s : kernel) (m : gmap Z Z) (cq qa qi : Z) (A I : levels) (a pid n : Z) (prio : nat) (li : list node).
Context (HR : runq m cq qa qi A I) (Hlk : m !! (cq + CQ_LOCK) = Some 0) (Hn : read32 m (cq + CQ_N) = Some n).
Context (Hpl : placed 10 (cell_start qa qi) (cell_end qa qi) a) (Hfr : fresh a (A ++ I)).
Context (Hcq : a + NODE_SIZE <= cq \/ cq + CQ_SIZE <= a) (Hi : I !! prio = Some li).
Context (Hnx : read64 m a = Some 0) (Hpid : read64 m (a + NODE_PID) = Some pid).

(** From taking the lock to giving it back. *)
Lemma submit_run : exists m',
  (ACQUIRE_at (cq + CQ_LOCK) ;; c ← load32 (cq + CQ_N); store32 (cq + CQ_N) (add32 c 1) ;;
   push_unlocked cq a (Z.of_nat prio) ;; RELEASE_at (cq + CQ_LOCK)) (set_mem m s) = Done tt (set_mem m' s) /\
  runq m' cq qa qi A (<[prio := li ++ [(a, pid)]]> I) /\ m' !! (cq + CQ_LOCK) = Some 0 /\
  read32 m' (cq + CQ_N) = Some (add32 n 1) /\ changes (cpu_bytes cq qa qi (A ++ I)) m m'.
Proof.
  set (m2 := counted m cq (add32 n 1)). pose proof (counted_changes m cq (add32 n 1)) as Hch. fold m2 in Hch. pose proof (runq_tail_frame _ _ _ _ _ _ _ HR Hch) as HR2.
  assert (Hnode : forall x, within a 16 x -> ~ within (cq + CQ_N) 8 x)
    by (unfold within, CQ_SIZE, CQ_N, NODE_SIZE in *; lia).
  pose proof (push_runq (set_mem m2 s) cq qa qi A I a pid prio li HR2 Hi Hpl Hfr) as HR3.
  pose proof (push_run (set_mem m2 s) cq qa qi A I a prio li HR2 Hi) as Hrun.
  set (m3 := append_mem (cell_start qa qi) (cell_end qa qi) m2 (5 + prio) li a) in *.
  change (k_mem (set_mem m2 s)) with m2 in *.
  assert (Hag : changes (queue_bytes qa qi (A ++ I)) m2 m3).
  { eapply changes_weaken; [apply (append_agree 10 _ _ (queue_cells_ok _ _ (rq_queues _ _ _ _ _ _ HR2)) m2 (A ++ I) (5 + prio) li a)|].
    - apply HR2.
    - rewrite inactive_lookup; [done|apply HR2].
    - done.
    - intros x (c & Hc & Hx). apply (cell_bytes qa qi _ (5 + prio) li c x); [|rewrite inactive_lookup; [done|apply HR2]|done|done].
      apply lookup_lt_Some in Hi. rewrite (proj2 (rq_len _ _ _ _ _ _ HR)) in Hi. lia. }
  assert (Htail : forall x, within (cq + CQ_N) 8 x -> m3 !! x = m2 !! x).
  { intros x Hx. apply (ch_same _ _ _ Hag). intros [Hq|[Hq|(k & l & b & p & Hk & Hb & Hq)]];
      destruct HR as []; unfold within, CQ_N, CQ_SIZE, QUEUE_SIZE, NODE_SIZE in *; [lia..|].
    specialize (rq_nodes k l b p Hk Hb). lia. }
  exists (<[cq + CQ_LOCK := 0]> m3). split; [|split; [|split; [|split]]].
  - etrans; [exact (take_count s m cq n (fun c => add32 c 1) _ Hlk Hn)|]. fold m2. rewrite (run_bind _ _ _ _ _ Hrun).
    unfold RELEASE_at, store8. simpl. rewrite Htail by (unfold within, CQ_LOCK, CQ_N; lia).
    destruct (ch_mapped _ _ _ Hch (cq + CQ_LOCK)) as [v ->]; [by eexists|done].
  - apply runq_lock, HR3; [| |done].
    + rewrite (changes_read64 _ _ _ _ Hch); [done|]. intros x Hx. apply Hnode. unfold within in *. lia.
    + rewrite (changes_read64 _ _ _ _ Hch); [done|]. intros x Hx. apply Hnode. unfold within, NODE_PID in *. lia.
  - apply lookup_insert_eq.
  - rewrite (read32_same m2).
    + unfold m2. rewrite counted_load. f_equal. apply w32_idem.
    + intros x Hx. rewrite lookup_insert_ne; [apply Htail; unfold within in *; lia|].
      intros <-. unfold within, CQ_LOCK, CQ_N in Hx. lia.
  - eapply changes_trans; [eapply changes_weaken; [exact Hch|]|eapply changes_trans; [eapply changes_weaken; [exact Hag|]|]].
    + intros x Hx. left. unfold within, CQ_N, CQ_SIZE in *. lia.
    + intros x Hx. by right.
    + apply changes_insert. left. unfold within, CQ_LOCK, CQ_SIZE. lia.
Qed.
End schedule.

Lemma cpus_at_frame s s' m m' loads (P : Z -> Prop) : cpus_at s m loads -> k_cpu s' = k_cpu s -> k_proc s' = k_proc s ->
  changes P m m' ->
  (forall i x, (i < length loads)%nat -> within (sched_cpu_queues (k_proc s) + Z.of_nat i * CQ_SIZE) CQ_SIZE x -> ~ P x) ->
  cpus_at s' m' loads.
Proof.
  intros [Hn Hl] Ec Ep Hch HP. split; [by rewrite Ec|]. intros i l Hi. rewrite Ep.
  destruct (Hl i l Hi) as [Hr Hlt]. split; [|done]. rewrite (read32_same m m'); [done|].
  intros x Hx. apply (ch_same _ _ _ Hch), (HP i x); [by eapply lookup_lt_Some|].
  unfold within, CQ_N, CQ_SIZE in *. lia.
Qed.

(** A node for the process [pid], written into a fresh block. *)
Lemma new_node s F pid : heap_inv s F -> 0 <= pid < 2 ^ 64 ->
  (exists a m G N, (forall fuel B (K : Z -> M kernel B), (N <= fuel)%nat ->
      (new ← kalloc fuel NODE_SIZE; store64 (new + NODE_PID) pid ;; store64 (new + NODE_NEXT) 0 ;; K new) s = K a (set_mem m s)) /\
    node_ok a /\ read64 m a = Some 0 /\ read64 m (a + NODE_PID) = Some pid /\ changes F (k_mem s) m /\
    heap_inv (set_mem m s) G /\ owned (set_mem m s) G a NODE_SIZE /\ (forall x, G x -> F x) /\
    (forall x, within (a - HDRSIZE) (HDRSIZE + NODE_SIZE) x -> F x)) \/
  eventually (fun fuel => kalloc fuel NODE_SIZE) s (Stop Panic).
Proof.
  intros Hheap Hpid.
  destruct (kalloc_spec s F NODE_SIZE Hheap ltac:(unfold NODE_SIZE; lia)) as [(r & m1 & G & [N HN] & HG & Hgr & Ha)|Hp]; [|by right].
  change (align_up NODE_SIZE) with NODE_SIZE in *. left. set (a := r + HDRSIZE) in *.
  assert (Ea : a - HDRSIZE = r) by (unfold a; lia). rewrite <- Ea in Ha.
  assert (Hown : owned (set_mem m1 s) G a NODE_SIZE) by (eapply granted_owned; [exact Hgr|exact Ha|done|done]).
  pose proof Hown as [O1 O2 O3 O4 O5 O6 O7].
  set (m := write64 (write64 m1 (a + NODE_PID) pid) (a + NODE_NEXT) 0).
  assert (Hch : changes (within a NODE_SIZE) m1 m).
  { apply changes_then_write; [eapply changes_weaken; [apply changes_write64|]|];
      intros x Hx; unfold within, NODE_SIZE, NODE_PID, NODE_NEXT in *; lia. }
  assert (HG3 : forall x, within a NODE_SIZE x -> ~ G x) by (intros x Hx; apply O6; unfold within, HDRSIZE in *; lia).
  exists a, m, G, N. split_and!.
  - intros fuel B K Hf. rewrite (run_bind _ _ _ _ _ (HN fuel Hf)).
    assert (Ma : mapped m1 (a + NODE_PID) 8) by (eapply mapped_sub; [exact O5|unfold HDRSIZE, NODE_PID; lia|unfold HDRSIZE, NODE_SIZE, NODE_PID; lia]).
    assert (Mb : mapped m1 (a + NODE_NEXT) 8) by (eapply mapped_sub; [exact O5|unfold HDRSIZE, NODE_NEXT; lia|unfold HDRSIZE, NODE_SIZE, NODE_NEXT; lia]).
    rewrite (run_bind _ _ _ tt (set_mem (write64 m1 (a + NODE_PID) pid) s) (kstore64 (set_mem m1 s) _ pid Ma)).
    by rewrite (run_bind _ _ _ tt (set_mem m s) (kstore64 (set_mem (write64 m1 (a + NODE_PID) pid) s) _ 0 (write64_mapped _ _ _ _ _ Mb))).
  - split; [unfold HDRSIZE, NODE_SIZE in *; lia|]. replace a with (a - HDRSIZE + 16) by (unfold HDRSIZE; lia).
    by apply Z.divide_add_r; [|exists 1].
  - unfold m, NODE_NEXT. rewrite Z.add_0_r. by apply read64_write64_eq.
  - unfold m. rewrite read64_write64_ne by (unfold NODE_PID, NODE_NEXT; lia). by apply read64_write64_eq.
  - eapply changes_trans; [apply (gr_mem _ _ _ _ _ _ _ Hgr)|]. eapply changes_weaken; [exact Hch|].
    intros x Hx. apply (gr_in _ _ _ _ _ _ _ Hgr). unfold within, HDRSIZE in *. lia.
  - by apply (heap_inv_frame (set_mem m1 s) G m _ HG Hch).
  - apply (owned_write (set_mem m1 s) G (within a NODE_SIZE)); [exact Hown|exact Hch|]. unfold within, HDRSIZE. lia.
  - intros x Hx. by apply (gr_rest _ _ _ _ _ _ _ Hgr).
  - exact (gr_in _ _ _ _ _ _ _ Hgr).
Qed.

(** The queues' bytes with one node more. *)
Lemma cpu_bytes_added cq qa qi A I prio li a pid x : I !! prio = Some li ->
  cpu_bytes cq qa qi (A ++ <[prio := li ++ [(a, pid)]]> I) x -> cpu_bytes cq qa qi (A ++ I) x \/ within a NODE_SIZE x.
Proof.
  intros Hi [Hx|[Hx|[Hx|(k & l & b & p & Hk & Hb & Hx)]]]; [left; by left|left; right; by left|left; right; right; by left|].
  destruct (decide (b = a)) as [->|Hne]; [by right|]. left. right. right. right.
  rewrite lookup_app in Hk. destruct (A !! k) as [lA|] eqn:EA.
  - injection Hk as ->. exists k, l, b, p. by rewrite (lookup_app_l_Some A I k l EA).
  - apply list_lookup_insert_Some in Hk as [(Hpk & <- & _)|[_ Hk]].
    + apply elem_of_app in Hb as [Hb|Hb]; [|set_solver]. exists k, li, b, p.
      rewrite lookup_app, EA. split; [etrans; [|exact Hi]; by rewrite Hpk|done].
    + exists k, l, b, p. by rewrite lookup_app, EA.
Qed.

(** C18. [schedule] puts the new process at the end of its priority's list of the inactive
    queue of the CPU that has the fewest processes (the first of them), in a node of its
    own that the heap gives up, and counts it there; it writes nothing but the heap's
    bytes and that CPU's queues, and gives the lock back.  It fails only by the heap's
    panic. *)
Theorem schedule_correct s F loads garbage pid prio c qa qi A I li :
  heap_inv s F -> cpus_at s (k_mem s) loads -> least loads c ->
  (forall i x, (i < length loads)%nat -> within (sched_cpu_queues (k_proc s) + Z.of_nat i * CQ_SIZE) CQ_SIZE x -> ~ F x) ->
  cpu_at s F c qa qi A I -> I !! prio = Some li -> 0 <= pid < 2 ^ 64 ->
  (exists a m G,
     eventually (fun fuel => schedule fuel garbage pid (Z.of_nat prio)) s (Done tt (set_mem m s)) /\
     cpu_at (set_mem m s) G c qa qi A (<[prio := li ++ [(a, pid)]]> I) /\
     read32 m (sched_cpu_queues (k_proc s) + Z.of_nat c * CQ_SIZE + CQ_N) = Some (add32 (loads !!! c) 1) /\
     heap_inv (set_mem m s) G /\ owned (set_mem m s) G a NODE_SIZE /\ (forall x, G x -> F x) /\
     changes (fun x => F x \/ cpu_bytes (sched_cpu_queues (k_proc s) + Z.of_nat c * CQ_SIZE) qa qi (A ++ I) x) (k_mem s) m) \/
  eventually (fun fuel => schedule fuel garbage pid (Z.of_nat prio)) s (Stop Panic).
Proof.
  intros Hheap Hcpus Hleast HoutF [HR Hlk Hout] Hi Hpid. set (B := sched_cpu_queues (k_proc s)) in *.
  destruct (new_node s F pid Hheap Hpid) as [(a & m2 & G & N & Hnew & Hnode & Hnx & Hpd & HchF & HG & Hown & HGF & HaF)|Hp].
  2:{ right. unfold schedule. by apply (eventually_bind_stop (fun f => kalloc f NODE_SIZE)). }
  assert (HaF' : forall x, within a NODE_SIZE x -> F x).
  { intros x Hx. apply HaF. unfold within, HDRSIZE in *. lia. }
  destruct (new_node_apart _ _ _ _ _ _ F a HR Hout Hnode HaF') as (Hpl & Hfr & Hcq).
  assert (HR2 : runq m2 (B + Z.of_nat c * CQ_SIZE) qa qi A I).
  { eapply runq_frame; [exact HR|exact HchF|]. intros d x Hd Hw Hx. apply Hout. by eapply runq_word_bytes. }
  pose proof Hleast as (n & Hc & _).
  pose proof (cpus_at_frame s (set_mem m2 s) _ m2 loads F Hcpus eq_refl eq_refl HchF HoutF) as Hcpus2.
  destruct (ca_load _ _ _ Hcpus2 c n Hc) as [Hn2 _]. change (sched_cpu_queues (k_proc (set_mem m2 s))) with B in Hn2.
  assert (Hlk2 : m2 !! (B + Z.of_nat c * CQ_SIZE + CQ_LOCK) = Some 0).
  { rewrite <- Hlk. apply (ch_same _ _ _ HchF), Hout. left. unfold within, CQ_LOCK, CQ_SIZE. lia. }
  destruct (submit_run s m2 _ qa qi A I a pid n prio li HR2 Hlk2 Hn2 Hpl Hfr Hcq Hi Hnx Hpd)
    as (m3 & Hrun3 & HR3 & Hlk3 & Hn3 & Hch3).
  left. exists a, m3, G. split; [|split; [|split; [|split; [|split; [|split; [done|]]]]]].
  - exists N. intros fuel Hf. unfold schedule. rewrite (Hnew fuel _ (fun new => _) Hf).
    destruct (least_loaded_run (set_mem m2 s) loads garbage Hcpus2) as (d & Hd & Hrun2); [by intros ->|].
    rewrite (least_unique _ _ _ Hd Hleast) in Hrun2.
    rewrite (run_bind (gets (fun s => ncpus (k_cpu s))) _ (set_mem m2 s) (ncpus (k_cpu s)) _ eq_refl).
    rewrite (ca_n _ _ _ Hcpus), Nat2Z.id, (run_bind _ _ _ _ _ Hrun2).
    rewrite (run_bind (cpu_queue (Z.of_nat c)) _ (set_mem m2 s) (B + Z.of_nat c * CQ_SIZE) _ eq_refl). exact Hrun3.
  - split; [exact HR3|exact Hlk3|]. intros x [Hx|Hx]%(cpu_bytes_added _ _ _ _ _ _ _ _ _ _ Hi) HGx.
    + by apply (Hout x Hx), HGF.
    + apply (ow_out _ _ _ _ Hown x); [|done]. unfold within, HDRSIZE in *. lia.
  - rewrite (list_lookup_total_correct _ _ _ Hc). exact Hn3.
  - apply (heap_inv_frame (set_mem m2 s) G m3 _ HG Hch3). intros x Hx HGx. by apply (Hout x Hx), HGF.
  - eapply (owned_write (set_mem m2 s)); [exact Hown|exact Hch3|].
    intros x Hx Hh. apply (Hout x Hx), HaF. unfold within, HDRSIZE, NODE_SIZE in *. lia.
  - eapply changes_trans; [eapply changes_weaken; [exact HchF|]; by left|eapply changes_weaken; [exact Hch3|]; by right].
Qed.

#[local] Opaque two_mem demo_heap_mem.

Lemma schedule_correct_witness :
  (exists a m G,
     eventually (fun fuel => schedule fuel 0 11 3) two_procs (Done tt (set_mem m two_procs)) /\
     cpu_at (set_mem m two_procs) G 0 two_qa two_qi two_A [[]; []; []; [(two_n2, 9); (a, 11)]; []] /\
     read32 m (two_cq + CQ_N) = Some 1 /\
     heap_inv (set_mem m two_procs) G /\ owned (set_mem m two_procs) G a NODE_SIZE /\ (forall x, G x -> demo_F x) /\
     changes (fun x => demo_F x \/ cpu_bytes two_cq two_qa two_qi (two_A ++ two_I) x) two_mem m) \/
  eventually (fun fuel => schedule fuel 0 11 3) two_procs (Stop Panic).
Proof.
  apply (schedule_correct two_procs demo_F [0] 0 11 3 0 two_qa two_qi two_A two_I [(two_n2, 9)]).
  - exact two_heap_inv.
  - split; [reflexivity|]. intros [|[|i]] l Hl; [|done..]. injection Hl as <-. split; [exact two_load|lia].
  - exists 0. split; [done|]. intros [|[|j]] l' Hl; [|done..]. injection Hl as <-. lia.
  - intros [|i] x Hi Hx; [|simpl in Hi; lia]. apply two_F_out. change (within two_cq CQ_SIZE x) in Hx.
    unfold within, two_cq in Hx. lia.
  - split; [exact two_runq|exact (sa_lock _ _ _ _ _ _ two_sched_at)|]. intros x [Hx _]%two_queue_end. by apply two_F_out.
  - reflexivity.
  - lia.
Defined.

(** ** Time slices *)

(** C37. The sweep of a CPU's [n] processes is divided without exceeding its time: each
    slice is at least a microsecond, [n] slices of up to 10000 processes take at most the
    sweep's 10000 microseconds and fall short of it by less than [n]; beyond that every
    slice is one microsecond. *)
Theorem sweep_us_bounds n : 0 <= n < 2 ^ 32 ->
  1 <= sweep_us n <= SCHED_US_PER_SWEEP /\
  (1 <= n <= SCHED_US_PER_SWEEP -> SCHED_US_PER_SWEEP - n < n * sweep_us n <= SCHED_US_PER_SWEEP) /\
  (SCHED_US_PER_SWEEP < n -> sweep_us n = 1).
Proof.
  intros Hn. unfold sweep_us, SCHED_US_PER_SWEEP. destruct (Z.eqb_spec n 0) as [->|Hn0]; [vm_compute; intuition discriminate|].
  pose proof (Z.div_mod 10000 n ltac:(lia)). pose proof (Z.mod_pos_bound 10000 n ltac:(lia)).
  assert (0 <= 10000 / n <= 10000) by (split; [apply Z.div_pos; lia|apply Z.div_le_upper_bound; lia]).
  destruct (Z.eqb_spec (10000 / n) 0) as [E|E].
  - rewrite E in *. lia.
  - assert (Hle : n <= 10000) by (destruct (decide (n <= 10000)); [done|]; rewrite Z.div_small in E by lia; lia).
    split; [lia|]. split; [nia|lia].
Qed.

Lemma sweep_us_bounds_witness :
  1 <= sweep_us 3 <= SCHED_US_PER_SWEEP /\
  (1 <= 3 <= SCHED_US_PER_SWEEP -> SCHED_US_PER_SWEEP - 3 < 3 * sweep_us 3 <= SCHED_US_PER_SWEEP) /\
  (SCHED_US_PER_SWEEP < 3 -> sweep_us 3 = 1).
Proof. apply sweep_us_bounds. lia. Defined.
