(* ===== verification/SchedRemove.v ===== *)
(** * Removing a process from a run queue

    [queue_tryremove] of kernel/sched.c takes the first node with the process's id out of
    the lists of a queue and gives its block back to the heap. *)
From S2P Require Import Prelude Memory State FreeList PageAlloc Allocator Kalloc KallocRefine KallocTheorems HashMap MapPages Timer Sched RunLists SchedRefine SchedTheorems.

(** Half [o] of the ten lists, 0 for the active queue and 5 for the inactive one. *)
Definition half_at (A I : levels) (inactive : bool) : levels := if inactive then I else A.

Lemma half_lookup A I (b : bool) i : length A = 5%nat -> (i < 5)%nat ->
  (A ++ I) !! ((if b then 5 else 0) + i)%nat = half_at A I b !! i.
Proof.
  intros HA Hi. destruct b; simpl half_at; [by apply inactive_lookup|]. by rewrite lookup_app_l by lia.
Qed.

Lemma half_level qa qi (b : bool) i : (i < 5)%nat ->
  level_of qa qi (if b then qi else qa) ((if b then 5 else 0) + i) i.
Proof.
  intros Hi. unfold level_of. destruct b; [by destruct (inactive_cells qa qi i)|by destruct (active_cells qa qi i Hi)].
Qed.

Lemma rem_list_None pid l : rem_list pid l = None <-> pid ∉ l.*2.
Proof.
  induction l as [|[a p] l IH]; simpl; [set_solver|]. destruct (Z.eqb_spec p pid) as [->|Hne]; [set_solver|].
  destruct (rem_list pid l) as [[b r]|]; set_solver.
Qed.

Section remove_theorem.
Context (s : kernel) (cq qa qi : Z) (A I : levels) (pid : Z) (b : bool).
Context (HR : runq (k_mem s) cq qa qi A I).

Local Abbreviation q := (if b then qi else qa).
Local Abbreviation Lv := (half_at A I b).
Local Abbreviation o := (if b then 5 else 0)%nat.

(** The levels from [i] on. *)
Lemma remove_levels_spec N n i : (n + i = 5)%nat -> (forall l, l ∈ Lv -> (length l < N)%nat) ->
  match rem_abs pid (drop i Lv) with
  | None => forall fuel, (N <= fuel)%nat -> remove_levels fuel n q (Z.of_nat i) pid s = Done false s
  | Some (a, r) => exists j l1 l2, Lv !! j = Some (l1 ++ (a, pid) :: l2) /\
      take i Lv ++ r = <[j := l1 ++ l2]> Lv /\
      forall fuel, (N <= fuel)%nat -> exists kf, (fuel <= kf + N)%nat /\
        remove_levels fuel n q (Z.of_nat i) pid s = (kfree kf a ;; mret true)
          (set_mem (unlink_mem (cell_start qa qi) (cell_end qa qi) (k_mem s) (o + j) l1 l2) s)
  end.
Proof.
  pose proof (rq_len _ _ _ _ _ _ HR) as [HlA HlI]. revert i.
  assert (HlLv : length Lv = 5%nat) by (by destruct b).
  induction n as [|n IH]; intros i Hn Hf.
  - rewrite drop_ge by lia. done.
  - destruct (lookup_lt_is_Some_2 Lv i) as [l Hl]; [lia|].
    assert (Hk : (A ++ I) !! (o + i)%nat = Some ([] ++ l)) by (rewrite half_lookup by lia; exact Hl).
    destruct (half_level qa qi b i ltac:(lia)) as [Es Ee].
    pose proof (rq_lists _ _ _ _ _ _ HR) as HL. destruct (ls_at _ _ _ _ _ HL _ _ Hk) as [Lf _ _].
    rewrite Es in Lf. rewrite (drop_S _ _ _ Hl). cbn [rem_abs].
    pose proof (Hf l (list_elem_of_lookup_2 _ _ _ Hl)) as Hlen.
    pose proof (remove_walk_spec s cq qa qi A I pid HR q (o + i)%nat i l [] (conj Es Ee) Hk) as Hw.
    cbn [last_addr last app] in Hw. change (head_addr ([] ++ l) 0) with (head_addr l 0) in Lf.
    destruct (rem_list pid l) as [[a r]|].
    + destruct Hw as (l1 & l2 & -> & -> & Hrun). exists i, l1, l2.
      split; [done|]. split; [by rewrite insert_take_drop by by eapply lookup_lt_Some|].
      intros fuel HN. destruct (Hrun fuel ltac:(lia)) as (kf & Hkf & E). exists kf. split; [lia|].
      cbn [remove_levels]. rewrite (run_bind _ _ _ _ _ (kload64 _ _ _ Lf)).
      cbn [app] in E. unfold mbind, M_bind in E |- *. rewrite E. by destruct (kfree kf a _) as [[] ?|?].
    + specialize (IH (S i) ltac:(lia) Hf).
      assert (Hstep : forall fuel, (N <= fuel)%nat -> remove_levels fuel (S n) q (Z.of_nat i) pid s =
        remove_levels fuel n q (Z.of_nat (S i)) pid s).
      { intros fuel HN. cbn [remove_levels]. rewrite (run_bind _ _ _ _ _ (kload64 _ _ _ Lf)).
        rewrite (run_bind _ _ _ _ _ (Hw fuel ltac:(lia))). by replace (Z.of_nat i + 1) with (Z.of_nat (S i)) by lia. }
      destruct (rem_abs pid (drop (S i) Lv)) as [[a r]|].
      * destruct IH as (j & l1 & l2 & Hj & Hr & Hrun). exists j, l1, l2. split; [done|].
        split; [by rewrite <- Hr, (take_S_r _ _ _ Hl), <- app_assoc|]. intros fuel HN. rewrite Hstep by done. by apply Hrun.
      * intros fuel HN. rewrite Hstep by done. by apply IH.
Qed.

(** The queues without the node. *)
Lemma removed_runq j l1 a l2 : Lv !! j = Some (l1 ++ (a, pid) :: l2) ->
  let Lv' := <[j := l1 ++ l2]> Lv in
  let m := unlink_mem (cell_start qa qi) (cell_end qa qi) (k_mem s) (o + j) l1 l2 in
  runq m cq qa qi (if b then A else Lv') (if b then Lv' else I) /\
  changes (queue_bytes qa qi (A ++ I)) (k_mem s) m /\
  placed 10 (cell_start qa qi) (cell_end qa qi) a /\ fresh a ((if b then A else Lv') ++ (if b then Lv' else I)) /\
  (a, pid) ∈ nodes (A ++ I) /\ (a + NODE_SIZE <= cq \/ cq + CQ_SIZE <= a) /\
  forall x, cpu_bytes cq qa qi ((if b then A else Lv') ++ (if b then Lv' else I)) x -> cpu_bytes cq qa qi (A ++ I) x.
Proof.
  intros Hj Lv' m. pose proof (rq_len _ _ _ _ _ _ HR) as [HlA HlI].
  assert (HlLv : length Lv = 5%nat) by (by destruct b).
  assert (Hj5 : (j < 5)%nat) by (rewrite <- HlLv; by eapply lookup_lt_Some).
  assert (Hk : (A ++ I) !! (o + j)%nat = Some (l1 ++ (a, pid) :: l2)) by by rewrite half_lookup.
  pose proof (queue_cells_ok _ _ (rq_queues _ _ _ _ _ _ HR)) as Hcells. pose proof (rq_lists _ _ _ _ _ _ HR) as HL.
  assert (Hins : (if b then A else Lv') ++ (if b then Lv' else I) = <[(o + j)%nat := l1 ++ l2]> (A ++ I)).
  { unfold Lv'. destruct b; simpl half_at.
    - rewrite <- HlA. by rewrite insert_app_r.
    - rewrite insert_app_l; [done|]. by apply lookup_lt_Some in Hj. }
  pose proof (unlink_agree 10 _ _ Hcells _ _ _ _ _ _ _ HL Hk) as Hag. fold m in Hag.
  assert (Hsub : forall c, queue_cells qa qi (o + j) (l1 ++ l2) c -> queue_cells qa qi (o + j) (l1 ++ (a, pid) :: l2) c).
  { intros c [?|[?|(x & y & Hx & Hc)]]; [by left|by right; left|]. right. right. exists x, y. split; [set_solver|done]. }
  split; [|split; [|split]]; [| | |].
  - eapply runq_update; [exact HR|exact Hag| | | | |].
    + intros c Hc Hcell. by apply (cq_not_cell _ _ _ _ _ _ _ _ c HR Hk Hc), Hsub.
    + unfold Lv'. destruct b; [done|]. by rewrite length_insert.
    + unfold Lv'. destruct b; [|done]. by rewrite length_insert.
    + rewrite Hins. by apply (unlink_ok 10 _ _ Hcells _ _ _ _ _ _ _ HL Hk).
    + rewrite Hins. intros k l x y Hkl Hx. apply list_lookup_insert_Some in Hkl as [(<- & <- & _)|[_ Hkl]].
      * apply (rq_nodes _ _ _ _ _ _ HR _ _ x y Hk). set_solver.
      * by apply (rq_nodes _ _ _ _ _ _ HR _ _ x y Hkl).
  - eapply changes_weaken; [apply (ag_bytes _ _ _ Hag)|]. intros x (c & Hc & Hx).
    apply (cell_bytes qa qi _ (o + j) (l1 ++ (a, pid) :: l2) c x); [destruct b; lia|done|by apply Hsub|done].
  - by apply (unlink_gone 10 _ _ Hcells _ _ _ _ _ _ _ HL Hk).
  - split; [rewrite Hins; exact (unlink_fresh 10 _ _ Hcells _ _ _ _ _ _ _ HL Hk)|].
    split; [apply nodes_lookup; exists (o + j)%nat, (l1 ++ (a, pid) :: l2); split; [done|set_solver]|].
    split; [apply (rq_nodes _ _ _ _ _ _ HR _ _ a pid Hk); set_solver|].
    intros x [Hx|[Hx|[Hx|(k & l & y & z & Hkl & Hy & Hx)]]]; [by left|right; by left|right; right; by left|].
    right. right. right. rewrite Hins in Hkl. apply list_lookup_insert_Some in Hkl as [(<- & <- & _)|[_ Hkl]].
    + exists (o + j)%nat, (l1 ++ (a, pid) :: l2), y, z. split; [done|]. split; [set_solver|done].
    + by exists k, l, y, z.
Qed.
End remove_theorem.

(** The heap owns nothing of the queues, and every node is a heap block whose header is
    apart from them. *)
Record queues_in_heap (s : kernel) (F : Z -> Prop) (cq qa qi : Z) (A I : levels) : Prop := {
  qh_owned a p : (a, p) ∈ nodes (A ++ I) -> owned s F a NODE_SIZE;
  qh_header a p x : (a, p) ∈ nodes (A ++ I) -> within (a - HDRSIZE) HDRSIZE x -> ~ cpu_bytes cq qa qi (A ++ I) x;
  qh_apart x : cpu_bytes cq qa qi (A ++ I) x -> ~ F x;
}.

(** Freeing a node that is not on the queues leaves them alone. *)
Lemma runq_freed m m' cq qa qi A I (F : Z -> Prop) a : runq m cq qa qi A I ->
  changes (fun x => F x \/ within (a - HDRSIZE) (HDRSIZE + NODE_SIZE) x) m m' ->
  placed 10 (cell_start qa qi) (cell_end qa qi) a -> fresh a (A ++ I) ->
  (a + NODE_SIZE <= cq \/ cq + CQ_SIZE <= a) ->
  (forall x, cpu_bytes cq qa qi (A ++ I) x -> ~ F x /\ ~ within (a - HDRSIZE) HDRSIZE x) ->
  runq m' cq qa qi A I.
Proof.
  intros HR Hch Hpl Hfr Hcq Hout. eapply runq_frame; [exact HR|exact Hch|].
  intros c x Hc8 Hc Hx HP. destruct (Hout x) as [HF Hh]; [by eapply runq_word_bytes|].
  destruct HP as [HP|HP]; [done|]. unfold within in Hh. assert (Hax : within a NODE_SIZE x) by (unfold within in *; lia).
  destruct Hpl as [Hok Hpl]. pose proof Hok as [_ [r Hr]]. destruct Hc8 as [z Hz].
  assert (Hca : c = a \/ c = a + NODE_PID) by (unfold within, NODE_PID, NODE_SIZE in *; lia).
  destruct Hc as [[Hc _]|(k & l & Hk & Hc)].
  - unfold NODE_PID, NODE_SIZE, CQ_SIZE in *. lia.
  - eapply (fresh_words 10 _ _ m (A ++ I) k l a c); [apply HR|exact Hk|by split|done|done|done].
Qed.

Lemma nodes_half A I b a p : (a, p) ∈ nodes (half_at A I b) -> (a, p) ∈ nodes (A ++ I).
Proof. rewrite nodes_app, elem_of_app. destruct b; [by right|by left]. Qed.

Lemma level_length (Lv : levels) l : l ∈ Lv -> (length l <= length (nodes Lv))%nat.
Proof.
  intros (l1 & l2 & ->)%list_elem_of_split. unfold nodes. rewrite concat_app. simpl. rewrite !length_app. lia.
Qed.

(** The CPU's record is apart from its queues and their nodes. *)
Lemma cq_not_queue m cq qa qi A I x : runq m cq qa qi A I -> within cq CQ_SIZE x -> ~ queue_bytes qa qi (A ++ I) x.
Proof.
  intros [] Hx [Hq|[Hq|(k & l & b & p & Hk & Hb & Hq)]]; unfold within, CQ_SIZE, QUEUE_SIZE, NODE_SIZE in *; [lia..|].
  specialize (rq_nodes k l b p Hk Hb). lia.
Qed.

(** What [queue_tryremove] does; the CPU's own record is not touched. *)
Lemma queue_tryremove_run s cq qa qi A I pid (inactive : bool) F :
  runq (k_mem s) cq qa qi A I -> heap_inv s F -> queues_in_heap s F cq qa qi A I ->
  match rem_abs pid (half_at A I inactive) with
  | None => eventually (fun fuel => queue_tryremove fuel (if inactive then qi else qa) pid) s (Done false s)
  | Some (a, Lv') => exists m,
      eventually (fun fuel => queue_tryremove fuel (if inactive then qi else qa) pid) s (Done true (set_mem m s)) /\
      runq m cq qa qi (if inactive then A else Lv') (if inactive then Lv' else I) /\
      heap_inv (set_mem m s) (fun x => F x \/ within (a - HDRSIZE) (HDRSIZE + NODE_SIZE) x) /\
      (a, pid) ∈ nodes (A ++ I) /\ (forall x, within cq CQ_SIZE x -> m !! x = k_mem s !! x) /\
      changes (fun x => cpu_bytes cq qa qi (A ++ I) x \/ F x \/ within (a - HDRSIZE) (HDRSIZE + NODE_SIZE) x) (k_mem s) m
  end.
Proof.
  intros HR Hheap [Hown Hhdr Hapart]. set (N := S (length (nodes (half_at A I inactive)))).
  assert (Hf : forall l, l ∈ half_at A I inactive -> (length l < N)%nat).
  { intros l Hl. apply level_length in Hl. unfold N. lia. }
  pose proof (remove_levels_spec s cq qa qi A I pid inactive HR N 5 0 eq_refl Hf) as H. rewrite drop_0 in H.
  destruct (rem_abs pid (half_at A I inactive)) as [[a Lv']|]; [|by exists N].
  destruct H as (j & l1 & l2 & Hj & Hr & Hrun). cbn [take app] in Hr.
  destruct (removed_runq s cq qa qi A I pid inactive HR j l1 a l2 Hj) as (HR1 & Hch1 & Hpl & Hfr & Hn & Hcq & Hsub).
  rewrite <- Hr in HR1, Hfr, Hsub. set (m1 := unlink_mem _ _ _ _ _ _) in *.
  pose proof (heap_inv_frame s F m1 _ Hheap Hch1 (fun x Hx => Hapart x (or_intror Hx))) as Hheap1.
  assert (Hown1 : owned (set_mem m1 s) F a NODE_SIZE).
  { eapply owned_write; [by eapply Hown|exact Hch1|]. intros x Hx Hh. apply (Hhdr a pid x Hn Hh). by right. }
  destruct Hown1 as [O1 O2 O3 O4 O5 O6 O7].
  destruct (kfree_spec (set_mem m1 s) F a NODE_SIZE Hheap1 O1 O2 O3 O4 O5 O6 O7) as (m2 & [K HK] & Hheap2 & Hch2).
  exists m2. split; [|split; [|split; [exact Hheap2|split; [exact Hn|split]]]].
  - exists (K + N)%nat. intros fuel Hfuel. destruct (Hrun fuel ltac:(lia)) as (kf & Hkf & E).
    etrans; [exact E|]. by rewrite (run_bind _ _ _ _ _ (HK kf ltac:(lia))).
  - apply (runq_freed m1 m2 _ _ _ _ _ F a HR1 Hch2 Hpl Hfr Hcq). intros x Hx.
    assert (Hx' : cpu_bytes cq qa qi (A ++ I) x) by by apply Hsub.
    split; [by apply Hapart|]. intros Hh. by apply (Hhdr a pid x Hn Hh).
  - intros x Hx. assert (Hxc : cpu_bytes cq qa qi (A ++ I) x) by by left.
    rewrite (ch_same _ _ _ Hch2), (ch_same _ _ _ Hch1); [done|..].
    + by apply (cq_not_queue (k_mem s) _ _ _ _ _ _ HR).
    + intros [HF|Hb]; [by apply (Hapart x)|]. destruct (decide (x < a)) as [Hlt|Hge].
      * apply (Hhdr a pid x Hn); [unfold within in *; lia|done].
      * unfold within, NODE_SIZE in *. lia.
  - eapply changes_trans; [eapply changes_weaken; [exact Hch1|]|eapply changes_weaken; [exact Hch2|]]; [intros x Hx; left; by right|by right].
Qed.

(** [queue_tryremove] searches the levels of the queue for the first process with the
    id asked for.  When there is none it answers [false] and changes nothing; otherwise
    it answers [true], the queue's lists are the same without that node, and the node's
    block is the heap's again. *)
Theorem queue_tryremove_correct s cq qa qi A I pid (inactive : bool) F :
  runq (k_mem s) cq qa qi A I -> heap_inv s F -> queues_in_heap s F cq qa qi A I ->
  match rem_abs pid (half_at A I inactive) with
  | None => eventually (fun fuel => queue_tryremove fuel (if inactive then qi else qa) pid) s (Done false s)
  | Some (a, Lv') => exists m,
      eventually (fun fuel => queue_tryremove fuel (if inactive then qi else qa) pid) s (Done true (set_mem m s)) /\
      runq m cq qa qi (if inactive then A else Lv') (if inactive then Lv' else I) /\
      heap_inv (set_mem m s) (fun x => F x \/ within (a - HDRSIZE) (HDRSIZE + NODE_SIZE) x)
  end.
Proof.
  intros HR Hheap Hq. pose proof (queue_tryremove_run s cq qa qi A I pid inactive F HR Hheap Hq) as H.
  destruct (rem_abs pid (half_at A I inactive)) as [[a Lv']|]; [|done]. destruct H as (m & H1 & H2 & H3 & _). by exists m.
Qed.

#[local] Opaque two_mem demo_heap_mem.

Lemma two_owned a p : (a, p) ∈ nodes (two_A ++ two_I) -> owned two_procs demo_F a NODE_SIZE.
Proof.
  intros (k & l & Hk & Ha)%nodes_lookup. 
  destruct (two_nodes k l a p Hk Ha) as [(_ & -> & _)|(_ & -> & _)]; split; unfold HDRSIZE, NODE_SIZE, two_n1, two_n2;
    try lia.
  1, 5: split; two_reads.
  1, 4: eapply mapped_sub; [exact two_mapped|lia|lia].
  2: by exists 8212. 3: by exists 8215.
  all: intros x Hx; apply two_F_out; unfold within in Hx; lia.
Qed.

Lemma two_queues_in_heap : queues_in_heap two_procs demo_F two_cq two_qa two_qi two_A two_I.
Proof.
  split.
  - exact two_owned.
  - intros a p x (k & l & Hk & Ha)%nodes_lookup Hx Hq.
    assert (Hax : within (two_n1 - HDRSIZE) HDRSIZE x \/ within (two_n2 - HDRSIZE) HDRSIZE x)
      by (destruct (two_nodes k l a p Hk Ha) as [(_ & -> & _)|(_ & -> & _)]; auto).
    clear k l a p Hk Ha Hx. unfold cpu_bytes, queue_bytes, within, HDRSIZE, two_n1, two_n2, two_cq, two_qa, two_qi, CQ_SIZE, QUEUE_SIZE in *.
    destruct Hq as [?|[?|[?|(k & l & a & p & Hk & Ha & Hx)]]]; [lia..|].
    destruct (two_nodes k l a p Hk Ha) as [(_ & -> & _)|(_ & -> & _)]; unfold two_n1, two_n2, NODE_SIZE in *; lia.
  - intros x [Hx _]%two_queue_end. by apply two_F_out.
Qed.

Lemma queue_tryremove_correct_witness : exists m,
  eventually (fun fuel => queue_tryremove fuel two_qi 9) two_procs (Done true (set_mem m two_procs)) /\
  runq m two_cq two_qa two_qi two_A [[]; []; []; []; []] /\
  heap_inv (set_mem m two_procs) (fun x => demo_F x \/ within (two_n2 - HDRSIZE) (HDRSIZE + NODE_SIZE) x).
Proof.
  apply (queue_tryremove_correct two_procs two_cq two_qa two_qi two_A two_I 9 true demo_F).
  - exact two_runq.
  - exact two_heap_inv.
  - exact two_queues_in_heap.
Defined.
