(* ===== verification/SchedExit.v ===== *)
(** * Taking a process off the scheduler

    [unschedule] of kernel/sched.c: under the CPU's lock the count goes down, the timer is
    set for the remaining processes, and the process is removed from the active queue or,
    if it is not there, from the inactive one. *)
From S2P Require Import Prelude Memory State Devices FreeList PageAlloc Allocator Kalloc KallocRefine KallocTheorems HashMap MapPages Timer Sched RunLists SchedRefine SchedTheorems SchedSubmit SchedRemove.

(** ** The specification *)

(** The queues without the first node of process [pid], and that node. *)
Definition unsched_abs (pid : Z) (A I : levels) : levels * levels * option Z :=
  match rem_abs pid A with
  | Some (a, A') => (A', I, Some a)
  | None => match rem_abs pid I with Some (a, I') => (A, I', Some a) | None => (A, I, None) end
  end.

(** The bytes that become the heap's. *)
Definition with_node (F : Z -> Prop) (r : option Z) : Z -> Prop :=
  match r with Some a => fun x => F x \/ within (a - HDRSIZE) (HDRSIZE + NODE_SIZE) x | None => F end.

Lemma rem_list_pids pid l : match rem_list pid l with Some (_, r) => l.*2 ≡ₚ pid :: r.*2 | None => pid ∉ l.*2 end.
Proof.
  destruct (rem_list pid l) as [[a r]|] eqn:E; [|by apply rem_list_None]. revert r E.
  induction l as [|[b p] l IH]; intros r E; [done|]. simpl in E. destruct (Z.eqb_spec p pid) as [->|Hne].
  - by injection E as -> ->.
  - destruct (rem_list pid l) as [[c r']|]; [|done]. injection E as -> <-. simpl. rewrite (IH r' eq_refl). apply Permutation_swap.
Qed.

Lemma pids_cons l Lv : pids (l :: Lv) = l.*2 ++ pids Lv.
Proof. unfold pids, nodes. simpl. by rewrite fmap_app. Qed.

Lemma rem_abs_pids pid Lv : match rem_abs pid Lv with Some (_, Lv') => pids Lv ≡ₚ pid :: pids Lv' | None => pid ∉ pids Lv end.
Proof.
  induction Lv as [|l Lv IH]; [by apply not_elem_of_nil|]. cbn [rem_abs]. pose proof (rem_list_pids pid l) as Hl.
  destruct (rem_list pid l) as [[a r]|]; [by rewrite !pids_cons, Hl|].
  destruct (rem_abs pid Lv) as [[a r]|]; rewrite !pids_cons; [rewrite IH; by rewrite Permutation_middle|]. by intros [?|?]%elem_of_app.
Qed.

(** Exactly one occurrence of the process is gone, if there was one. *)
Lemma unsched_pids pid A I : let '(A', I', r) := unsched_abs pid A I in
  if r then pids (A ++ I) ≡ₚ pid :: pids (A' ++ I') else pid ∉ pids (A ++ I).
Proof.
  unfold unsched_abs. pose proof (rem_abs_pids pid A) as HA. pose proof (rem_abs_pids pid I) as HI.
  assert (Happ : forall X Y, pids (X ++ Y) = pids X ++ pids Y) by (intros X Y; unfold pids, nodes; by rewrite concat_app, fmap_app).
  destruct (rem_abs pid A) as [[a A']|]; [by rewrite !Happ, HA|].
  destruct (rem_abs pid I) as [[a I']|]; rewrite !Happ; [rewrite HI; by rewrite Permutation_middle|]. by intros [?|?]%elem_of_app.
Qed.

(** ** The timer *)

(** The writes that set the timer for [us] microseconds. *)
Definition timer_writes (s : kernel) (us : Z) : list io_event :=
  let b := lapic_base (k_tm s) in
  [WMmio32 (add64 b LAPIC_REG_TMR_INITIAL) (w32 (duration_ticks (lapic_ticks (k_tm s)) us));
   WMmio32 (add64 b LAPIC_REG_TMR_DIV) (w32 APIC_TMR_DIV_BY_16);
   WMmio32 (add64 b LAPIC_REG_LVT_TMR) (w32 (Z.lor INT_TIMER LAPIC_TMR_PERIODIC))].

Lemma apic_set_duration_run us s : apic_set_duration us s = Done tt (logged (timer_writes s us) s).
Proof. destruct s as [? ? ? ? ? []]. done. Qed.

Lemma sched_update_duration_run s cq n : sched_cpu_queues (k_proc s) + cpu_id (k_cpu s) * CQ_SIZE = cq ->
  read32 (k_mem s) (cq + CQ_N) = Some n -> sched_update_duration s = Done tt (logged (timer_writes s (sweep_us n)) s).
Proof.
  intros <- Hn. unfold sched_update_duration. rewrite (run_bind (gets _) _ s (cpu_id (k_cpu s)) s eq_refl).
  rewrite (run_bind (cpu_queue _) _ s _ s eq_refl).
  rewrite (run_bind (load32 _) _ s n s) by (unfold load32; simpl; by rewrite Hn). apply apic_set_duration_run.
Qed.

(** ** Both queues *)

Section removal.
Context (s : kernel) (F : Z -> Prop) (cq qa qi : Z) (A I : levels) (pid : Z).
Context (HR : runq (k_mem s) cq qa qi A I) (HF : heap_inv s F) (Hq : queues_in_heap s F cq qa qi A I).

(** What the removal leaves: the queues without the node, the heap with it, and the CPU's
    record as it was. *)
Definition removal_done (r : option Z) (A' I' : levels) (m : gmap Z Z) : Prop :=
  runq m cq qa qi A' I' /\ heap_inv (set_mem m s) (with_node F r) /\ (forall x, within cq CQ_SIZE x -> m !! x = k_mem s !! x) /\
  (forall x, within cq CQ_SIZE x -> ~ with_node F r x) /\
  changes (fun x => cpu_bytes cq qa qi (A ++ I) x \/ with_node F r x) (k_mem s) m.

Lemma node_apart a x : (a, pid) ∈ nodes (A ++ I) -> within cq CQ_SIZE x -> ~ within (a - HDRSIZE) (HDRSIZE + NODE_SIZE) x.
Proof.
  intros Ha Hx Hb. destruct (decide (x < a)) as [Hlt|Hge].
  - apply (qh_header _ _ _ _ _ _ _ Hq a pid x Ha); [unfold within in *; lia|by left].
  - apply nodes_lookup in Ha as (k & l & Hk & Ha). pose proof (rq_nodes _ _ _ _ _ _ HR k l a pid Hk Ha). unfold within, NODE_SIZE in *. lia.
Qed.

Lemma removal_of r A' I' m a : r = Some a -> runq m cq qa qi A' I' ->
  heap_inv (set_mem m s) (fun x => F x \/ within (a - HDRSIZE) (HDRSIZE + NODE_SIZE) x) -> (a, pid) ∈ nodes (A ++ I) ->
  (forall x, within cq CQ_SIZE x -> m !! x = k_mem s !! x) ->
  changes (fun x => cpu_bytes cq qa qi (A ++ I) x \/ F x \/ within (a - HDRSIZE) (HDRSIZE + NODE_SIZE) x) (k_mem s) m -> removal_done r A' I' m.
Proof.
  intros -> HR' HF' Ha Hsame Hch. split; [done|]. split; [done|]. split; [done|]. split; [|done].
  intros x Hx [Hf|Hb]; [|by apply (node_apart a x Ha)]. apply (qh_apart _ _ _ _ _ _ _ Hq x); [by left|done].
Qed.

Lemma remove_both : let '(A', I', r) := unsched_abs pid A I in
  exists m, removal_done r A' I' m /\
    eventually (fun fuel => a ← load64 (cq + CQ_ACTIVE); r ← queue_tryremove fuel a pid;
      if (r : bool) then mret tt else b ← load64 (cq + CQ_INACTIVE); queue_tryremove fuel b pid ;; mret tt) s (Done tt (set_mem m s)).
Proof.
  pose proof (queue_tryremove_run s cq qa qi A I pid false F HR HF Hq) as H1. simpl half_at in H1.
  pose proof (queue_tryremove_run s cq qa qi A I pid true F HR HF Hq) as H2. simpl half_at in H2.
  assert (Hstart : forall b s1 r, eventually (fun fuel => queue_tryremove fuel qa pid) s (Done b s1) ->
    eventually (fun fuel => if (b : bool) then mret tt else b ← load64 (cq + CQ_INACTIVE); queue_tryremove fuel b pid ;; mret tt) s1 r ->
    eventually (fun fuel => a ← load64 (cq + CQ_ACTIVE); r ← queue_tryremove fuel a pid;
      if (r : bool) then mret tt else b ← load64 (cq + CQ_INACTIVE); queue_tryremove fuel b pid ;; mret tt) s r).
  { intros b s1 r Hb Hr. eapply (eventually_bind (fun f => _)); [by apply eventually_const, kload64, (rq_active _ _ _ _ _ _ HR)|].
    by eapply (eventually_bind (fun f => queue_tryremove f _ _)). }
  assert (Hsnd : forall b s1, eventually (fun fuel => queue_tryremove fuel qi pid) s (Done b s1) ->
    eventually (fun fuel => b ← load64 (cq + CQ_INACTIVE); queue_tryremove fuel b pid ;; mret tt) s (Done tt s1)).
  { intros b s1 Hb. eapply (eventually_bind (fun f => _)); [by apply eventually_const, kload64, (rq_inactive _ _ _ _ _ _ HR)|].
    eapply (eventually_bind (fun f => queue_tryremove f _ _)); [exact Hb|by apply eventually_const]. }
  unfold unsched_abs. destruct (rem_abs pid A) as [[a A']|].
  - destruct H1 as (m & Hrun & HR' & HF' & Ha & Hsame & Hch). exists m. split; [by eapply removal_of|].
    eapply Hstart; [exact Hrun|by apply eventually_const].
  - destruct (rem_abs pid I) as [[a I']|].
    + destruct H2 as (m & Hrun & HR' & HF' & Ha & Hsame & Hch). exists m. split; [by eapply removal_of|].
      eapply Hstart; [exact H1|]. by eapply Hsnd.
    + exists (k_mem s). rewrite set_mem_same. split.
      * split; [done|]. split; [by rewrite set_mem_same|]. split; [done|]. split; [|apply changes_refl].
        intros x Hx. apply (qh_apart _ _ _ _ _ _ _ Hq). by left.
      * eapply Hstart; [exact H1|]. by eapply Hsnd.
Qed.
End removal.

Lemma take_count_here {B} s cq n (f : Z -> Z) (K : M kernel B) : k_mem s !! (cq + CQ_LOCK) = Some 0 -> read32 (k_mem s) (cq + CQ_N) = Some n ->
  (ACQUIRE_at (cq + CQ_LOCK) ;; c ← load32 (cq + CQ_N); store32 (cq + CQ_N) (f c) ;; K) s = K (set_mem (counted (k_mem s) cq (f n)) s).
Proof. intros Hlk Hn. rewrite <- (take_count s (k_mem s) cq n f K Hlk Hn). by rewrite set_mem_same. Qed.

Lemma remove_then fuel q1 q2 pid (K : M kernel unit) s s' :
  (a ← load64 q1; r ← queue_tryremove fuel a pid;
   if (r : bool) then mret tt else b ← load64 q2; queue_tryremove fuel b pid ;; mret tt) s = Done tt s' ->
  (a ← load64 q1; r ← queue_tryremove fuel a pid;
   (if (r : bool) then mret tt else b ← load64 q2; queue_tryremove fuel b pid ;; mret tt) ;; K) s = K s'.
Proof.
  unfold mbind, M_bind. destruct (load64 q1 s) as [a s1|]; [|done]. destruct (queue_tryremove fuel a pid s1) as [r s2|]; [|done]. by intros ->.
Qed.

(** Counting down changes nothing else. *)
Lemma counted_queues s F cq qa qi A I v es : runq (k_mem s) cq qa qi A I -> heap_inv s F -> queues_in_heap s F cq qa qi A I ->
  let s1 := logged es (set_mem (counted (k_mem s) cq v) s) in
  runq (k_mem s1) cq qa qi A I /\ heap_inv s1 F /\ queues_in_heap s1 F cq qa qi A I.
Proof.
  intros HR HF [Q1 Q2 Q3] s1. pose proof (counted_changes (k_mem s) cq v) as Hch.
  assert (Hin : forall x, within (cq + CQ_N) 8 x -> cpu_bytes cq qa qi (A ++ I) x) by (intros x Hx; left; unfold within, CQ_N, CQ_SIZE in *; lia).
  split; [by eapply runq_tail_frame|]. split.
  { apply (heap_inv_same (set_mem (counted (k_mem s) cq v) s)); [done..|]. exact (heap_inv_frame s F _ _ HF Hch (fun x Hx => Q3 x (Hin x Hx))). }
  split; [|exact Q2|exact Q3]. intros a p Ha. destruct (owned_write s F _ a NODE_SIZE _ (Q1 a p Ha) Hch); [|by split].
  intros x Hx Hh. by apply (Q2 a p x Ha Hh), Hin.
Qed.

(** C19. [unschedule] takes the process off its CPU: its first node leaves the active queue
    or, failing that, the inactive one, and its block is the heap's again; every other
    process stays where it is; the count goes down and the timer is set to the time slice
    of that many processes; the lock is given back, and nothing but the queues, the CPU's
    record and the heap is written.  A process that is on neither queue is counted off
    all the same. *)
Theorem unschedule_correct s F cq qa qi A I pid n :
  sched_at s cq qa qi A I -> read32 (k_mem s) (cq + CQ_N) = Some n -> heap_inv s F -> queues_in_heap s F cq qa qi A I ->
  let '(A', I', r) := unsched_abs pid A I in
  exists m, let s' := logged (timer_writes s (sweep_us (sub32 n 1))) (set_mem m s) in
    eventually (fun fuel => unschedule fuel pid) s (Done tt s') /\ sched_at s' cq qa qi A' I' /\
    (if r then pids (A ++ I) ≡ₚ pid :: pids (A' ++ I') else pid ∉ pids (A ++ I)) /\
    read32 m (cq + CQ_N) = Some (sub32 n 1) /\ heap_inv s' (with_node F r) /\
    changes (fun x => cpu_bytes cq qa qi (A ++ I) x \/ with_node F r x) (k_mem s) m.
Proof.
  intros [Hcq HR Hlk] Hn HF Hq. set (es := timer_writes s (sweep_us (sub32 n 1))). pose proof (unsched_pids pid A I) as Hpids.
  destruct (counted_queues s F cq qa qi A I (sub32 n 1) es HR HF Hq) as (HR1 & HF1 & Hq1).
  set (m1 := counted (k_mem s) cq (sub32 n 1)) in *. set (s1 := logged es (set_mem m1 s)) in *.
  pose proof (remove_both s1 F cq qa qi A I pid HR1 HF1 Hq1) as H. destruct (unsched_abs pid A I) as [[A' I'] r].
  destruct H as (m2 & (HR2 & HF2 & Hsame & Hout & Hch2) & N & HN). change (k_mem s1) with m1 in *.
  assert (Hn1 : read32 m1 (cq + CQ_N) = Some (sub32 n 1)) by (unfold m1; rewrite counted_load; f_equal; apply w32_idem).
  assert (HlkIn : within cq CQ_SIZE (cq + CQ_LOCK)) by (unfold within, CQ_LOCK, CQ_SIZE; lia).
  assert (Hch3 : changes (within (cq + CQ_LOCK) 1) m2 (<[cq + CQ_LOCK := 0]> m2)) by (apply changes_insert; unfold within; lia).
  assert (Hold : exists v, m2 !! (cq + CQ_LOCK) = Some v).
  { rewrite Hsame by done. apply (ch_mapped _ _ _ (counted_changes (k_mem s) cq (sub32 n 1))). by eexists. }
  exists (<[cq + CQ_LOCK := 0]> m2). split; [|split; [|split; [exact Hpids|split; [|split]]]].
  - exists N. intros fuel Hfuel. unfold unschedule. rewrite (run_bind (gets _) _ s (cpu_id (k_cpu s)) s eq_refl).
    rewrite (run_bind (cpu_queue _) _ s cq s) by (unfold cpu_queue, mbind, M_bind, gets, mret, M_ret; by rewrite Hcq).
    etrans; [exact (take_count_here s cq n (fun c => sub32 c 1) _ Hlk Hn)|]. fold m1.
    rewrite (run_bind _ _ _ _ _ (sched_update_duration_run (set_mem m1 s) cq (sub32 n 1) Hcq Hn1)).
    etrans; [exact (remove_then fuel _ _ pid _ s1 _ (HN fuel Hfuel))|]. destruct Hold as [v Hv].
    unfold RELEASE_at, store8. simpl. by rewrite Hv.
  - split; [exact Hcq|by apply runq_lock|apply lookup_insert_eq].
  - rewrite <- Hn1. apply read32_same. intros x Hx. rewrite lookup_insert_ne; [apply Hsame|]; unfold within, CQ_N, CQ_LOCK, CQ_SIZE in *; lia.
  - apply (heap_inv_same (set_mem (<[cq + CQ_LOCK := 0]> m2) s1)); [done..|]. apply (heap_inv_frame (set_mem m2 s1) _ _ _ HF2 Hch3). intros x Hx. apply Hout. unfold within, CQ_LOCK, CQ_SIZE in *. lia.
  - eapply changes_trans; [eapply changes_weaken; [exact (counted_changes (k_mem s) cq (sub32 n 1))|]|].
    { intros x Hx. left. left. unfold within, CQ_N, CQ_SIZE in *. lia. }
    eapply changes_trans; [exact Hch2|]. eapply changes_weaken; [exact Hch3|]. intros x Hx. left. left. unfold within, CQ_LOCK, CQ_SIZE in *. lia.
Qed.

#[local] Opaque two_mem demo_heap_mem.

Lemma unschedule_correct_witness : exists m, let s' := logged (timer_writes two_procs (sweep_us (2 ^ 32 - 1))) (set_mem m two_procs) in
  eventually (fun fuel => unschedule fuel 9) two_procs (Done tt s') /\ sched_at s' two_cq two_qa two_qi two_A [[]; []; []; []; []] /\
  heap_inv s' (with_node demo_F (Some two_n2)).
Proof.
  destruct (unschedule_correct two_procs demo_F two_cq two_qa two_qi two_A two_I 9 0 two_sched_at two_load two_heap_inv two_queues_in_heap)
    as (m & Hrun & HS & _ & _ & HF & _).
  exists m. split; [exact Hrun|]. split; [exact HS|exact HF].
Defined.
