(* ===== verification/SchedInit.v ===== *)
(** * [sched_init] gives every CPU two empty queues

    The loop of [sched_init] of kernel/sched.c keeps the queues already made apart from the
    heap it takes the next ones from; after it [cpu_at] holds of every CPU, with no
    process in any list, so that [schedule] can be called for the first time. *)
From S2P Require Import Prelude Memory Mem Pow2 State FreeList PageSpec PageAlloc PageRefine PageTheorems Allocator Kalloc KallocRefine KallocTheorems MapTable MapPages Sched RunLists SchedRefine SchedTheorems SchedSubmit.

Definition no_procs : levels := replicate 5 [].

(** ** Two cleared queues *)

Lemma no_procs_lookup k l : (no_procs ++ no_procs) !! k = Some l -> (k < 10)%nat /\ l = [].
Proof. intros [-> Hk]%(lookup_replicate_1 10 [] l k). done. Qed.

Lemma no_procs_node k l a p : (no_procs ++ no_procs) !! k = Some l -> ~ (a, p) ∈ l.
Proof. intros [_ ->]%no_procs_lookup. apply not_elem_of_nil. Qed.

Definition cleared (m : gmap Z Z) (q : Z) : Prop := forall x, within q QUEUE_SIZE x -> m !! x = Some 0.

Lemma cleared_lists m qa qi : cleared m qa -> cleared m qi -> queues_at qa qi m (no_procs ++ no_procs).
Proof.
  intros Ha Hi. assert (Hz : forall q o, q = qa \/ q = qi -> 0 <= o -> o + 8 <= QUEUE_SIZE -> read64 m (q + o) = Some 0).
  { intros q o [->| ->] H0 H1; apply read64_zero; intros x Hx; [apply Ha|apply Hi]; unfold within in *; lia. }
  split; [done| |by intros k l a p Hk Ha'%(no_procs_node _ _ _ _ Hk)| |
    by intros j k l l' a p q Hj _ Ha'%(no_procs_node _ _ _ _ Hj)].
  - intros k l [Hk ->]%no_procs_lookup. unfold QUEUE_SIZE in Hz.
    split; [| |done]; unfold cell_start, cell_end, q_start, q_end; case_decide; rewrite <- ?Z.add_assoc;
      apply Hz; first [by left|by right|lia].
  - intros k l [_ ->]%no_procs_lookup. constructor.
Qed.

Lemma no_proc_bytes qa qi x : queue_bytes qa qi (no_procs ++ no_procs) x -> within qa QUEUE_SIZE x \/ within qi QUEUE_SIZE x.
Proof. intros [H|[H|(k & l & a & p & Hk & Ha & _)]]; [by left|by right|by apply (no_procs_node _ _ _ _ Hk) in Ha]. Qed.

Lemma cpu_at_shrink s (F G : Z -> Prop) c qa qi A I : cpu_at s F c qa qi A I -> (forall x, G x -> F x) -> cpu_at s G c qa qi A I.
Proof. intros [H1 H2 H3] HG. split; [done|done|]. intros x Hx HGx. by apply (H3 x Hx), HG. Qed.

Lemma cpu_at_frame s F c qa qi A I P m : cpu_at s F c qa qi A I -> changes P (k_mem s) m ->
  (forall x, cpu_bytes (sched_cpu_queues (k_proc s) + Z.of_nat c * CQ_SIZE) qa qi (A ++ I) x -> ~ P x) ->
  cpu_at (set_mem m s) F c qa qi A I.
Proof.
  intros [H1 H2 H3] Hch HP. split; [| |done].
  - eapply runq_frame; [exact H1|exact Hch|]. intros d x Hd Hw Hx. apply HP. by eapply runq_word_bytes.
  - rewrite <- H2. apply (ch_same _ _ _ Hch), HP. left. unfold within, CQ_LOCK, CQ_SIZE. lia.
Qed.

(** ** One CPU *)

(** Regions without a common byte lie one after the other. *)
Lemma regions_apart a n b k : 0 < n -> 0 < k -> (forall x, within a n x -> ~ within b k x) -> a + n <= b \/ b + k <= a.
Proof.
  intros Hn Hk Hd. destruct (decide (a <= b)) as [Hle|Hle].
  - destruct (decide (a + n <= b)) as [H|H]; [by left|]. exfalso. apply (Hd b); unfold within; lia.
  - destruct (decide (b + k <= a)) as [H|H]; [by right|]. exfalso. apply (Hd a); unfold within; lia.
Qed.

Lemma cleared_changes P m m' q : cleared m q -> changes P m m' -> (forall x, within q QUEUE_SIZE x -> ~ P x) -> cleared m' q.
Proof. intros Hq Hch HP x Hx. rewrite (ch_same _ _ _ Hch x (HP x Hx)). by apply Hq. Qed.

(** The queue [kzalloc] gives. *)
Record new_queue (s : kernel) (F G : Z -> Prop) (q : Z) (m : gmap Z Z) : Prop := {
  nq_heap : heap_inv (set_mem m s) G;
  nq_word : (8 | q) /\ 0 < q /\ q + QUEUE_SIZE <= 2 ^ 64;
  nq_cleared : cleared m q;
  nq_from x : within q QUEUE_SIZE x -> F x;
  nq_out x : within q QUEUE_SIZE x -> ~ G x;
  nq_less x : G x -> F x;
  nq_changes : changes F (k_mem s) m;
}.

Lemma new_queue_spec s F : heap_inv s F ->
  (exists q m G, eventually (fun fuel => kzalloc fuel QUEUE_SIZE) s (Done q (set_mem m s)) /\ new_queue s F G q m) \/
  eventually (fun fuel => kzalloc fuel QUEUE_SIZE) s (Stop Panic).
Proof.
  intros Hinv. destruct (kzalloc_spec s F QUEUE_SIZE Hinv ltac:(unfold QUEUE_SIZE; lia))
    as [(q & m & G & Hrun & HG & [_ Hp _ He _ Ho Ha] & Hch & Hz & HGF & HF)|Hp]; [left|by right].
  change (align_up QUEUE_SIZE) with 80 in *. unfold HDRSIZE in *.
  exists q, m, G. split; [exact Hrun|]. split; [exact HG| |exact Hz| | |exact HGF|exact Hch].
  - destruct Ha as [y Hy]. split; [exists (2 * y + 2); lia|unfold QUEUE_SIZE; lia].
  - intros x Hx. apply HF. unfold within, QUEUE_SIZE in *. lia.
  - intros x Hx. apply Ho. unfold within, QUEUE_SIZE in *. lia.
Qed.

(** What [sched_init] has made of CPU [i]'s structure. *)
Record cpu_made (s : kernel) (F G : Z -> Prop) (i : nat) (qa qi : Z) (m : gmap Z Z) : Prop := {
  cm_heap : heap_inv (set_mem m s) G;
  cm_cpu : cpu_at (set_mem m s) G i qa qi no_procs no_procs;
  cm_from x : within qa QUEUE_SIZE x \/ within qi QUEUE_SIZE x -> F x;
  cm_less x : G x -> F x;
  cm_changes : changes (fun x => F x \/ within (sched_cpu_queues (k_proc s) + Z.of_nat i * CQ_SIZE) CQ_SIZE x) (k_mem s) m;
}.

Section one_cpu.
Context (s : kernel) (F : Z -> Prop) (i : nat).
Local Abbreviation cq := (sched_cpu_queues (k_proc s) + Z.of_nat i * CQ_SIZE).
Context (Hinv : heap_inv s F) (Hcq : (8 | cq)) (Hmap : mapped (k_mem s) cq CQ_SIZE).
Context (Hout : forall x, within cq CQ_SIZE x -> ~ F x).

Lemma stored_queues G1 G qa qi m1 m3 :
  new_queue s F G1 qa m1 -> new_queue (set_mem (write64 m1 (cq + CQ_ACTIVE) qa) s) G1 G qi m3 ->
  cpu_made s F G i qa qi (<[cq + CQ_LOCK := 0]> (write64 m3 (cq + CQ_INACTIVE) qi)).
Proof.
  intros [HG1 Wa Za Fa Oa L1 C1] [HG Wi Zi Fi Oi L2 C3]. set (m2 := write64 m1 (cq + CQ_ACTIVE) qa) in *.
  set (m4 := write64 m3 (cq + CQ_INACTIVE) qi). set (m5 := <[cq + CQ_LOCK := 0]> m4). change (k_mem (set_mem m2 s)) with m2 in C3.
  assert (C2 : changes (within cq 8) m1 m2) by (unfold m2, CQ_ACTIVE; rewrite Z.add_0_r; apply changes_write64).
  assert (C4 : changes (within (cq + 8) 16) m3 m5).
  { eapply changes_trans; [eapply changes_weaken; [apply changes_write64|]|apply changes_insert];
      unfold within, CQ_INACTIVE, CQ_LOCK in *; intros; lia. }
  assert (HqF : forall x, within cq 8 x \/ within (cq + 8) 16 x -> ~ F x).
  { intros x Hx. apply Hout. unfold within, CQ_SIZE in *. lia. }
  assert (HC : changes (fun x => F x \/ within cq CQ_SIZE x) (k_mem s) m5).
  { eapply changes_trans; [eapply changes_weaken; [exact C1|by left]|].
    eapply changes_trans; [eapply changes_weaken; [exact C2|]; intros x Hx; right; unfold within, CQ_SIZE in *; lia|].
    eapply changes_trans; [eapply changes_weaken; [exact C3|]; intros x Hx; left; by apply L1|].
    eapply changes_weaken; [exact C4|]. intros x Hx. right. unfold within, CQ_SIZE in *. lia. }
  split; [| | |intros x Hx; by apply L1, L2|exact HC].
  - apply (heap_inv_frame (set_mem m3 s) G m5 _ HG C4). intros x Hx HGx. by apply (HqF x (or_intror Hx)), L1, L2.
  - split.
    + change (runq m5 cq qa qi no_procs no_procs). split; [| | |done| | | |done| |].
      * rewrite (changes_read64 _ _ _ _ C4); [|unfold within, CQ_ACTIVE; lia].
        rewrite (changes_read64 _ _ _ _ C3); [apply read64_write64_eq; unfold QUEUE_SIZE in *; lia|].
        intros x Hx HG1x. apply (HqF x); [|by apply L1]. unfold within, CQ_ACTIVE in *. lia.
      * unfold m5. rewrite (changes_read64 (within (cq + CQ_LOCK) 1) m4);
          [|apply changes_insert; unfold within; lia|unfold within, CQ_LOCK, CQ_INACTIVE; lia].
        apply read64_write64_eq. unfold QUEUE_SIZE in *. lia.
      * eapply mapped_sub; [eapply changes_mapped; [exact HC|exact Hmap]|unfold CQ_N; lia|unfold CQ_N, CQ_SIZE; lia].
      * split; [done|done|]. apply regions_apart; [done..|]. intros x Hx Hx'. by apply (Oa x Hx), Fi.
      * apply regions_apart; [done..|]. intros x Hx Hx'. by apply (Hout x Hx), Fa.
      * apply regions_apart; [done..|]. intros x Hx Hx'. by apply (Hout x Hx), L1, Fi.
      * apply cleared_lists.
        { eapply cleared_changes; [eapply cleared_changes; [eapply cleared_changes|exact C3|]|exact C4|]; [exact Za|exact C2| | |].
          - intros x Hx Hx'. by apply (HqF x (or_introl Hx')), Fa.
          - exact Oa.
          - intros x Hx Hx'. by apply (HqF x (or_intror Hx')), Fa. }
        eapply cleared_changes; [exact Zi|exact C4|]. intros x Hx Hx'. by apply (HqF x (or_intror Hx')), L1, Fi.
      * intros k l a p Hk Ha. by apply (no_procs_node _ _ _ _ Hk) in Ha.
    + apply lookup_insert_eq.
    + intros x [Hx|[Hx|Hx]%no_proc_bytes] HGx; [by apply (Hout x Hx), L1, L2|by apply (Oa x Hx), L2|by apply (Oi x Hx)].
  - intros x [Hx|Hx]; [by apply Fa|by apply L1, Fi].
Qed.

Lemma sched_init_cpu_spec :
  (exists qa qi m G, eventually (fun fuel => sched_init_cpu fuel (Z.of_nat i)) s (Done tt (set_mem m s)) /\
     cpu_made s F G i qa qi m) \/
  eventually (fun fuel => sched_init_cpu fuel (Z.of_nat i)) s (Stop Panic).
Proof.
  assert (Hlook : forall B (K : nat -> Z -> M kernel B) r, eventually (fun f => K f cq) s r ->
    eventually (fun f => q ← cpu_queue (Z.of_nat i); K f q) s r).
  { intros B K r HK. eapply (eventually_bind (fun _ => cpu_queue (Z.of_nat i)) K); [by apply eventually_const|exact HK]. }
  destruct (new_queue_spec s F Hinv) as [(qa & m1 & G1 & Hrun1 & N1)|Hp].
  2:{ right. apply Hlook. by apply (eventually_bind_stop (fun f => kzalloc f QUEUE_SIZE)). }
  assert (Hw1 : mapped m1 cq CQ_SIZE) by (eapply changes_mapped; [apply N1|exact Hmap]).
  set (m2 := write64 m1 (cq + CQ_ACTIVE) qa).
  assert (H2 : store64 (cq + CQ_ACTIVE) qa (set_mem m1 s) = Done tt (set_mem m2 s)).
  { apply (kstore64 (set_mem m1 s)). eapply mapped_sub; [exact Hw1|unfold CQ_ACTIVE, CQ_SIZE; lia..]. }
  assert (Hinv2 : heap_inv (set_mem m2 s) G1).
  { eapply (heap_inv_frame (set_mem m1 s)); [apply N1|apply changes_write64|].
    intros x Hx HG. apply (Hout x); [unfold within, CQ_ACTIVE, CQ_SIZE in *; lia|]. by apply (nq_less _ _ _ _ _ N1). }
  destruct (new_queue_spec (set_mem m2 s) G1 Hinv2) as [(qi & m3 & G & Hrun3 & N3)|Hp].
  2:{ right. apply Hlook. eapply (eventually_bind (fun f => kzalloc f QUEUE_SIZE)); [exact Hrun1|].
      eapply (eventually_bind (fun _ => store64 _ _)); [by apply eventually_const|].
      by apply (eventually_bind_stop (fun f => kzalloc f QUEUE_SIZE)). }
  assert (Hw3 : mapped m3 cq CQ_SIZE).
  { eapply changes_mapped; [apply N3|]. by apply write64_mapped. }
  left. exists qa, qi, (<[cq + CQ_LOCK := 0]> (write64 m3 (cq + CQ_INACTIVE) qi)), G.
  split; [|by eapply stored_queues]. apply Hlook.
  eapply (eventually_bind (fun f => kzalloc f QUEUE_SIZE)); [exact Hrun1|].
  eapply (eventually_bind (fun _ => store64 _ _)); [by apply eventually_const|].
  eapply (eventually_bind (fun f => kzalloc f QUEUE_SIZE)); [exact Hrun3|].
  eapply (eventually_bind (fun _ => store64 _ _)).
  { apply eventually_const, (kstore64 (set_mem m3 s)). eapply mapped_sub; [exact Hw3|unfold CQ_INACTIVE, CQ_SIZE; lia..]. }
  apply eventually_const, (kstore8 (set_mem (write64 m3 (cq + CQ_INACTIVE) qi) s)).
  apply (write64_mapped m3 (cq + CQ_INACTIVE) qi _ _ Hw3). unfold CQ_LOCK, CQ_SIZE. lia.
Qed.
End one_cpu.

(** ** All of them *)

(** The CPUs with the queues [qs] are idle, and no byte belongs to two of them. *)
Record idle_cpus (s : kernel) (F : Z -> Prop) (qs : list (Z * Z)) : Prop := {
  ic_cpu c qa qi : qs !! c = Some (qa, qi) -> cpu_at s F c qa qi no_procs no_procs;
  ic_apart c d qa qi ra ri x : qs !! c = Some (qa, qi) -> qs !! d = Some (ra, ri) -> c <> d ->
    cpu_bytes (sched_cpu_queues (k_proc s) + Z.of_nat c * CQ_SIZE) qa qi (no_procs ++ no_procs) x ->
    ~ cpu_bytes (sched_cpu_queues (k_proc s) + Z.of_nat d * CQ_SIZE) ra ri (no_procs ++ no_procs) x;
}.

(** What the loop keeps: the array of [n] structures is outside the heap [F0] it started
    with, and the queues came from it. *)
Record made (s0 : kernel) (F0 : Z -> Prop) (n : nat) (k : Z) (s : kernel) (G : Z -> Prop) (qs : list (Z * Z)) : Prop := {
  md_state : s = set_mem (k_mem s) s0;
  md_count : Z.of_nat (length qs) = k;
  md_heap : heap_inv s G;
  md_less x : G x -> F0 x;
  md_idle : idle_cpus s G qs;
  md_from c qa qi x : qs !! c = Some (qa, qi) -> within qa QUEUE_SIZE x \/ within qi QUEUE_SIZE x -> F0 x;
  md_array : mapped (k_mem s) (sched_cpu_queues (k_proc s0)) (Z.of_nat n * CQ_SIZE);
  md_changes : changes (fun x => F0 x \/ within (sched_cpu_queues (k_proc s0)) (Z.of_nat n * CQ_SIZE) x) (k_mem s0) (k_mem s);
}.

Section loop.
Context (s0 : kernel) (F0 : Z -> Prop) (n : nat).
Local Abbreviation B := (sched_cpu_queues (k_proc s0)).
Context (HB : (8 | B)) (Harr : forall x, within B (Z.of_nat n * CQ_SIZE) x -> ~ F0 x).

Lemma array_cell c x : (c < n)%nat -> within (B + Z.of_nat c * CQ_SIZE) CQ_SIZE x -> within B (Z.of_nat n * CQ_SIZE) x.
Proof. unfold within, CQ_SIZE. lia. Qed.

(** The CPUs made so far, the [k]th one added. *)
Lemma made_lookup k (qs : list (Z * Z)) qa qi c ra ri : length qs = k -> (qs ++ [(qa, qi)]) !! c = Some (ra, ri) ->
  qs !! c = Some (ra, ri) \/ c = k /\ ra = qa /\ ri = qi.
Proof.
  intros Hl [H|[H1 H2]]%lookup_app_Some; [by left|right]. apply list_lookup_singleton_Some in H2 as [H2 [= -> ->]]. lia.
Qed.

(** Setting up the next CPU does not write the bytes of the others. *)
Lemma made_apart k s G qs c ra ri x : (k < n)%nat -> made s0 F0 n (Z.of_nat k) s G qs -> qs !! c = Some (ra, ri) ->
  cpu_bytes (B + Z.of_nat c * CQ_SIZE) ra ri (no_procs ++ no_procs) x -> ~ (G x \/ within (B + Z.of_nat k * CQ_SIZE) CQ_SIZE x).
Proof.
  intros Hk [Hs Hlen _ _ [Hcpu _] Hfrom _ _] Hc Hx. assert (EB : sched_cpu_queues (k_proc s) = B) by by rewrite Hs.
  intros [HGx|Hx'].
  - apply (cp_out _ _ _ _ _ _ _ (Hcpu c ra ri Hc) x); [by rewrite EB|done].
  - destruct Hx as [Hx|Hx%no_proc_bytes].
    + apply lookup_lt_Some in Hc. unfold within, CQ_SIZE in *. lia.
    + apply (Harr x); [by apply (array_cell k)|by apply (Hfrom c ra ri x Hc)].
Qed.

Lemma made_step k s G qs : (k < n)%nat -> made s0 F0 n (Z.of_nat k) s G qs ->
  (exists s' G' q, eventually (fun fuel => sched_init_cpu fuel (Z.of_nat k)) s (Done tt s') /\
     made s0 F0 n (Z.of_nat k + 1) s' G' (qs ++ [q])) \/
  eventually (fun fuel => sched_init_cpu fuel (Z.of_nat k)) s (Stop Panic).
Proof.
  intros Hk HM. pose proof (fun c ra ri x => made_apart k s G qs c ra ri x Hk HM) as Hold. destruct HM as [Hs Hlen Hheap HGF [Hcpu Hap] Hfrom Hmap Hch].
  assert (EB : sched_cpu_queues (k_proc s) = B) by by rewrite Hs. rewrite EB in *.
  destruct (sched_init_cpu_spec s G k Hheap) as [(qa & qi & m & G' & Hrun & [C1 C2 C3 C4 C5])|Hp]; [| | | |by right].
  1: { rewrite EB. apply Z.divide_add_r; [done|]. unfold CQ_SIZE. exists (Z.of_nat k * 3). lia. }
  1: { rewrite EB. eapply mapped_sub; [exact Hmap|unfold CQ_SIZE; lia|unfold CQ_SIZE; lia]. }
  1: { rewrite EB. intros x Hx HGx. apply (Harr x); [by apply (array_cell k)|by apply HGF]. }
  rewrite EB in C5. left. exists (set_mem m s), G', (qa, qi). split; [exact Hrun|].
  assert (Hnew : forall x, cpu_bytes (B + Z.of_nat k * CQ_SIZE) qa qi (no_procs ++ no_procs) x ->
    G x \/ within (B + Z.of_nat k * CQ_SIZE) CQ_SIZE x).
  { intros x [Hx|Hx%no_proc_bytes]; [by right|left; by apply C3]. }
  pose proof (fun c ra ri => made_lookup k qs qa qi c ra ri ltac:(lia)) as Hlk.
  split.
  - change (set_mem m s = set_mem m s0). by rewrite Hs.
  - rewrite length_app. simpl. lia.
  - exact C1.
  - intros x Hx. by apply HGF, C4.
  - change (sched_cpu_queues (k_proc (set_mem m s))) with (sched_cpu_queues (k_proc s)). split.
    + intros c ra ri [Hc|(-> & -> & ->)]%Hlk; [|exact C2].
      eapply cpu_at_shrink; [eapply cpu_at_frame; [by apply Hcpu|exact C5|]|exact C4].
      rewrite EB. exact (fun x => Hold c ra ri x Hc).
    + change (sched_cpu_queues (k_proc (set_mem m s))) with (sched_cpu_queues (k_proc s)). rewrite EB.
      intros c d ra ri ta ti x [Hc|(-> & -> & ->)]%Hlk [Hd|(-> & -> & ->)]%Hlk Hne Hx Hx'; [|..|done].
      * apply (Hap c d ra ri ta ti x Hc Hd Hne); by rewrite ?EB.
      * by apply (Hold c ra ri x Hc Hx), Hnew.
      * by apply (Hold d ta ti x Hd Hx'), Hnew.
  - intros c ra ri x [Hc|(-> & -> & ->)]%Hlk Hx; [by eapply Hfrom|by apply HGF, C3].
  - by eapply changes_mapped.
  - eapply changes_trans; [exact Hch|]. eapply changes_weaken; [exact C5|].
    intros x [Hx|Hx]; [left; by apply HGF|right; by apply (array_cell k)].
Qed.
End loop.

(** C17. [sched_init] takes from the heap an array of the CPUs' structures and two queues for
    each of them: afterwards every CPU is unlocked and has two empty queues, which no
    other CPU and not the heap use any byte of; it writes nothing but what was the
    heap's.  It fails only by the heap's panic. *)
Theorem sched_init_correct s F n :
  heap_inv s F -> ncpus (k_cpu s) = Z.of_nat n -> Z.of_nat n < 2 ^ 31 ->
  (exists B m G qs,
     eventually sched_init s (Done tt (set_queues B (set_mem m s))) /\
     heap_inv (set_queues B (set_mem m s)) G /\ length qs = n /\
     idle_cpus (set_queues B (set_mem m s)) G qs /\
     (forall c x, (c < n)%nat -> within (B + Z.of_nat c * CQ_SIZE) CQ_SIZE x -> ~ G x) /\
     (forall x, G x -> F x) /\ changes F (k_mem s) m) \/
  eventually sched_init s (Stop Panic).
Proof.
  intros Hinv Hn Hmax.
  assert (Esz : mul64 QUEUE_SIZE (ncpus (k_cpu s)) = 80 * Z.of_nat n).
  { rewrite Hn. unfold mul64, QUEUE_SIZE. apply w64_small. lia. }
  assert (Hstart : forall r, eventually (fun f => p ← kalloc f (80 * Z.of_nat n); modify (set_queues p) ;;
    for_range n 0 (sched_init_cpu f)) s r -> eventually sched_init s r).
  { intros r [N H]. exists N. intros f Hf. unfold sched_init.
    rewrite (run_bind (gets (fun s => ncpus (k_cpu s))) _ s (ncpus (k_cpu s)) s eq_refl), Esz, Hn, Nat2Z.id. by apply H. }
  destruct (kalloc_spec s F (80 * Z.of_nat n) Hinv ltac:(lia)) as [(r & m0 & F0 & Hrun0 & HF0 & Hgr & _)|Hp].
  2:{ right. apply Hstart. by apply (eventually_bind_stop (fun f => kalloc f (80 * Z.of_nat n))). }
  pose proof (align_up_bounds (80 * Z.of_nat n) ltac:(lia)) as (Hal & _).
  destruct Hgr as [_ _ Hin Hrest Hch Hmap Hdiv]. set (B := r + HDRSIZE) in *. set (s0 := set_queues B (set_mem m0 s)).
  assert (Hblock : forall x, within B (Z.of_nat n * CQ_SIZE) x -> within (B - HDRSIZE) (HDRSIZE + align_up (80 * Z.of_nat n)) x).
  { unfold within, HDRSIZE, CQ_SIZE. lia. }
  assert (HB : (8 | B)).
  { destruct Hdiv as [y Hy]. exists (2 * y + 2). unfold HDRSIZE in Hy. lia. }
  assert (Harr : forall x, within B (Z.of_nat n * CQ_SIZE) x -> ~ F0 x).
  { intros x Hx HFx. by apply (proj2 (Hrest x HFx)), Hblock. }
  destruct (eventually_for_range (fun k s' => exists G qs, made s0 F0 n k s' G qs) Panic n 0 sched_init_cpu s0)
    as [(s' & Hloop & G & qs & [Hs Hlen Hheap HGF Hidle _ _ Hch'])|Hp].
  - intros k s1 Hk (G & qs & Hmade). rewrite <- (Z2Nat.id k) in * by lia.
    destruct (made_step s0 F0 n HB Harr (Z.to_nat k) s1 G qs ltac:(lia) Hmade) as [(s2 & G' & q & Hrun & H2)|Hp]; [left|by right].
    exists s2. split; [exact Hrun|]. by exists G', (qs ++ [q]).
  - exists F0, []. split; try done.
    + by apply (heap_inv_same (set_mem m0 s)).
    + apply (mapped_sub m0 (B - HDRSIZE) (HDRSIZE + align_up (80 * Z.of_nat n)) B); [exact Hmap|unfold HDRSIZE, CQ_SIZE; lia..].
  - left. exists B, (k_mem s'), G, qs. change (set_queues B (set_mem (k_mem s') s)) with (set_mem (k_mem s') s0).
    rewrite <- Hs. split; [|split; [done|split; [lia|split; [done|split; [|split]]]]].
    + apply Hstart. eapply (eventually_bind (fun f => kalloc f (80 * Z.of_nat n))); [exact Hrun0|].
      eapply (eventually_bind (fun _ => modify (set_queues B))); [by apply eventually_const|exact Hloop].
    + intros c x Hc Hx HGx. apply (Harr x); [|by apply HGF]. exact (array_cell s0 n c x Hc Hx).
    + intros x Hx. by apply Hrest, HGF.
    + eapply changes_trans; [exact Hch|]. eapply changes_weaken; [exact Hch'|].
      intros x [Hx|Hx]; [by apply Hrest|by apply Hin, Hblock].
  - right. apply Hstart. eapply (eventually_bind (fun f => kalloc f (80 * Z.of_nat n))); [exact Hrun0|].
    eapply (eventually_bind (fun _ => modify (set_queues B))); [by apply eventually_const|exact Hp].
Qed.

Lemma sched_init_mono f f' : (f <= f')%nat -> approx (sched_init f) (sched_init f').
Proof. intros. unfold sched_init, sched_init_cpu, kzalloc. mono. Qed.

(** Two CPUs, and a pool of eight pages below the heap. *)
Definition eight_pages_mem : gmap Z Z := zeros 32768 8 (demo_mem 32768).
Definition two_cpus : kernel := pool_heap eight_pages_mem 2.

Lemma two_cpus_inv : heap_inv two_cpus (fun x => pa_footprint two_cpus [demo_pool 32768] x \/ heap_fp 32768 [] x).
Proof.
  apply pool_heap_inv; [by exists 15|lia|apply (changes_write_bytes _ 32768 (replicate (Z.to_nat 8) 0))|by vm_compute|apply (mapped_zeros 32768 8); lia].
Qed.

Definition ends {A} (r : res kernel A) : bool := match r with Done _ _ => true | Stop _ => false end.

Lemma ends_not_stop {A} (r : res kernel A) w : ends r = true -> r <> Stop w.
Proof. by intros H ->. Qed.

Lemma two_cpus_run : ends (sched_init 70 two_cpus) = true.
Proof. vm_compute. reflexivity. Qed.

Lemma sched_init_correct_witness : exists B m G qs,
  eventually sched_init two_cpus (Done tt (set_queues B (set_mem m two_cpus))) /\
  heap_inv (set_queues B (set_mem m two_cpus)) G /\ length qs = 2%nat /\
  idle_cpus (set_queues B (set_mem m two_cpus)) G qs /\
  (forall c x, (c < 2)%nat -> within (B + Z.of_nat c * CQ_SIZE) CQ_SIZE x -> ~ G x).
Proof.
  destruct (sched_init_correct two_cpus _ 2 two_cpus_inv eq_refl eq_refl) as [(B & m & G & qs & H1 & H2 & H3 & H4 & H5 & _)|H].
  - exists B, m, G, qs. exact (conj H1 (conj H2 (conj H3 (conj H4 H5)))).
  - exfalso. exact (ends_not_stop _ _ two_cpus_run (eventually_at _ _ _ 70 sched_init_mono H (ends_not_stop _ _ two_cpus_run))).
Defined.
