(* ===== verification/Ctx.v ===== *)
(** * kernel/arch/x86_64/ctx.c, kernel/syscall.c and the interrupt handler

    Saving the interrupted process, switching to the next one, and the system calls.
    [return_user_] is assembly: it leaves the kernel, which the model records as an
    event. *)
From S2P Require Import Prelude Memory Mem Pow2 State FreeList PageAlloc Kalloc HashMap Paging MapPages Devices Timer Sched.

(** [struct irq_frame]: the registers take the first 120 bytes. *)
Definition REGS_SIZE : Z := 120.
Definition FRAME_NUM : Z := 120.
Definition FRAME_ERR : Z := 128.
Definition FRAME_IP : Z := 136.
Definition FRAME_CS : Z := 144.
Definition FRAME_FLAGS : Z := 152.
Definition FRAME_SP : Z := 160.
Definition FRAME_SS : Z := 168.

(** [irq2state]: the bytes of the [struct arch_proc_state] it returns. *)
Definition irq2state (frame : Z) : M kernel (list Z) :=
  sp ← load64 (frame + FRAME_SP);
  ip ← load64 (frame + FRAME_IP);
  flags ← load64 (frame + FRAME_FLAGS);
  regs ← load_bytes frame (Z.to_nat REGS_SIZE);
  mret (regs ++ word_bytes sp ++ word_bytes ip ++ word_bytes flags).

Definition return_user_ : M kernel unit := emit ReturnUser.

(** [assert_test] takes an [int]: what it sees of [arch_state.rip] are the low 32 bits. *)
Definition ctx_switch (fuel : nat) (frame : Z) : M kernel unit :=
  p ← gets (fun s => proc_current (k_cpu s));
  (if negb (p =? 0) && negb (frame =? 0) then
     st ← irq2state frame; store_bytes p st
   else mret tt) ;;
  proc_next fuel ;;
  p ← gets (fun s => proc_current (k_cpu s));
  assert_test (negb (p =? 0)) ;;
  space ← load64 (p + PROC_SPACE);
  a ← load64 (space + SPACE_ADDR);
  printf ("Switching to page table %p" +:+ nl) [a] ;;
  flush_pages fuel space ;;
  p ← gets (fun s => proc_current (k_cpu s));
  rip ← load64 (p + PROC_RIP);
  assert_test (negb (w32 rip =? 0)) ;;
  return_user_.

(** [irq_msg], each with a new line. *)
Definition irq_msg : list string := (fun m => m +:+ nl) <$> [
  "EXCEPTION: Division By Zero - #0";
  "EXCEPTION: Debug - #1";
  "EXCEPTION: Non Maskable Interrupt - #2";
  "EXCEPTION: Breakpoint - #3";
  "EXCEPTION: Into Detected Overflow - #4";
  "EXCEPTION: Out of bounds - #5";
  "EXCEPTION: Invalid opcode - #6";
  "EXCEPTION: No Coprocessor - #7";
  "EXCEPTION: Double fault - #8";
  "EXCEPTION: Coprocessor segment overrun - #9";
  "EXCEPTION: Bad TSS - #10";
  "EXCEPTION: Segment not present - #11";
  "EXCEPTION: Stack Fault  - #12";
  "EXCEPTION: General protection fault - #13";
  "EXCEPTION: Page fault - #14";
  "EXCEPTION: Unknown interrupt - #15";
  "EXCEPTION: Coprocessor fault - #16";
  "EXCEPTION: Alignment check - #17";
  "EXCEPTION: Machine check - #18"
].

(** kernel/arch/x86_64/idt.c: any interrupt but the timer's freezes the kernel. *)
Definition isr_handle (fuel : nat) (frame : Z) : M kernel unit :=
  num ← load64 (frame + FRAME_NUM);
  if num =? 32 then
    ready ← gets (fun s => sched_ready (k_proc s));
    if (ready : bool) then ctx_switch fuel frame else mret tt
  else
    cr2 ← ask Cr2 64;
    (if 18 <? num then printf ("EXCEPTION: Reserved - #%d" +:+ nl) [num] else printf "%s" (cstr (nth (Z.to_nat num) irq_msg EmptyString))) ;;
    id ← gets (fun s => cpu_id (k_cpu s)); printf ("  CPU: %d" +:+ nl) [id] ;;
    ip ← load64 (frame + FRAME_IP); printf ("   IP: %p" +:+ nl) [ip] ;;
    cs ← load64 (frame + FRAME_CS); printf ("   CS: %p" +:+ nl) [cs] ;;
    fl ← load64 (frame + FRAME_FLAGS); printf ("FLAGS: %p" +:+ nl) [fl] ;;
    sp ← load64 (frame + FRAME_SP); printf ("   SP: %p" +:+ nl) [sp] ;;
    ss ← load64 (frame + FRAME_SS); printf ("   SS: %p" +:+ nl) [ss] ;;
    printf ("  CR2: %p" +:+ nl) [cr2] ;;
    er ← load64 (frame + FRAME_ERR); printf ("  err: %p" +:+ nl) [er] ;;
    halt Panic.

(** ** kernel/syscall.c *)

Definition syscall_test (i : Z) : M kernel unit := printf ("Hello from userspace! %d" +:+ nl) [i].

Definition syscall_exit (fuel : nat) : M kernel unit :=
  p ← gets (fun s => proc_current (k_cpu s));
  pid ← load64 (p + PROC_PID);
  unschedule fuel pid ;;
  segs ← load64 (p + PROC_SEGS);
  n ← load64 (segs + FLEX_N);
  for_range (Z.to_nat n) 0 (fun i =>
    kv ← load64 (segs + FLEX_ITEM + i * SEG_SIZE + SEG_KVIRT);
    len ← load64 (segs + FLEX_ITEM + i * SEG_SIZE + SEG_LEN);
    page_free fuel kv len) ;;
  space ← load64 (p + PROC_SPACE);
  a ← load64 (space + SPACE_ADDR);
  addrspace_free fuel a ;;
  pm ← load64 (space + SPACE_PHYSMAP);
  map_free fuel pm ;;
  kfree fuel space ;;
  mp ← gets (fun s => procmap (k_proc s));
  m ← load64 mp;
  pid ← load64 (p + PROC_PID);
  map_del fuel m (word_bytes pid) ;;
  modify (set_current 0) ;;
  ctx_switch fuel 0.

Definition syscall_inval : M kernel unit := halt Panic.

(** kernel/arch/x86_64/syscall.c *)
Definition EFLAGS_CARRY : Z := 1.
Definition EFLAGS_TRAP : Z := 2 ^ 8.
Definition EFLAGS_INTERRUPT : Z := 2 ^ 9.
Definition EFLAGS_DIRECTION : Z := 2 ^ 10.
Definition EFLAGS_NESTED_TASK : Z := 2 ^ 14.
Definition EFLAGS_ALIGNMENT : Z := 2 ^ 18.

Definition kern_cs : Z := Z.shiftl 1 3.
Definition user_ss : Z := Z.lor (Z.shiftl 3 3) 3.
Definition star_value : Z := Z.lor (w64 (Z.shiftl (user_ss - 8) 48)) (Z.shiftl kern_cs 32).
Definition fmask_value : Z :=
  Z.lor (Z.lor (Z.lor (Z.lor (Z.lor EFLAGS_CARRY EFLAGS_TRAP) EFLAGS_INTERRUPT) EFLAGS_DIRECTION)
    EFLAGS_NESTED_TASK) EFLAGS_ALIGNMENT.

(** [syscall_entry] is assembly: its address. *)
Definition init_syscalls (syscall_entry : Z) : M kernel unit :=
  e ← rdmsr MSR_EFER;
  wrmsr MSR_EFER (Z.lor e 1) ;;
  e ← rdmsr MSR_EFER;
  assert_test (negb (Z.land e 1 =? 0)) ;;
  wrmsr MSR_FMASK fmask_value ;;
  wrmsr MSR_STAR star_value ;;
  wrmsr MSR_LSTAR syscall_entry.
