(* ===== verification/CtxTheorems.v ===== *)
(** * A context switch as a whole

    [ctx_switch] of kernel/arch/x86_64/ctx.c saves the interrupted process, takes the next
    one from the run queues, loads its page table and leaves the kernel: the scheduler, the
    process table and the page tables at once. *)
From S2P Require Import Prelude Memory Mem Pow2 State FreeList PageAlloc PageTheorems Kalloc HashMap Vec HashMapTheorems Devices Paging PageWalk PagingTheorems MapPages Timer Sched RunLists SchedRefine SchedTheorems Ctx.

(** ** Saving the interrupted process *)

(** The [struct arch_proc_state] made from the interrupt's frame. *)
Definition frame_state (m : gmap Z Z) (frame : Z) : option (list Z) :=
  regs ← read_bytes m frame (Z.to_nat REGS_SIZE);
  sp ← read64 m (frame + FRAME_SP); ip ← read64 m (frame + FRAME_IP); fl ← read64 m (frame + FRAME_FLAGS);
  Some (regs ++ word_bytes sp ++ word_bytes ip ++ word_bytes fl).

Lemma irq2state_run s frame st : frame_state (k_mem s) frame = Some st ->
  irq2state frame s = Done st s /\ length st = Z.to_nat ARCH_STATE_SIZE.
Proof.
  unfold frame_state. intros H. apply bind_Some in H as (regs & Hr & H). apply bind_Some in H as (sp & Hsp & H).
  apply bind_Some in H as (ip & Hip & H). apply bind_Some in H as (fl & Hfl & [= <-]). split.
  - unfold irq2state. rewrite (run_bind _ _ _ _ _ (kload64 _ _ _ Hsp)), (run_bind _ _ _ _ _ (kload64 _ _ _ Hip)).
    rewrite (run_bind _ _ _ _ _ (kload64 _ _ _ Hfl)).
    assert (Hl : load_bytes frame (Z.to_nat REGS_SIZE) s = Done regs s) by (unfold load_bytes; by rewrite Hr).
    by rewrite (run_bind _ _ _ _ _ Hl).
  - apply read_bytes_length in Hr. by rewrite !length_app, Hr.
Qed.

(** Whether there is something to save, and the memory once it is. *)
Definition saves (s : kernel) (frame : Z) : bool := negb (proc_current (k_cpu s) =? 0) && negb (frame =? 0).
Definition saved (s : kernel) (frame : Z) (st : list Z) : gmap Z Z :=
  if saves s frame then write_bytes (k_mem s) (proc_current (k_cpu s)) st else k_mem s.

(** The bytes of the interrupted process's [arch_state]. *)
Definition saved_bytes (s : kernel) (frame x : Z) : Prop :=
  saves s frame = true /\ within (proc_current (k_cpu s)) ARCH_STATE_SIZE x.

Lemma saved_changes s frame st : length st = Z.to_nat ARCH_STATE_SIZE \/ saves s frame = false ->
  changes (saved_bytes s frame) (k_mem s) (saved s frame st).
Proof.
  unfold saved, saved_bytes. destruct (saves s frame); [|done]. intros [Hl|?]; [|done].
  eapply changes_weaken; [apply changes_write_bytes|]. rewrite Hl. intros x Hx. split; [done|]. exact Hx.
Qed.

Lemma sched_at_frame s m' cq qa qi A I (P : Z -> Prop) : sched_at s cq qa qi A I -> changes P (k_mem s) m' ->
  (forall x, cpu_bytes cq qa qi (A ++ I) x -> ~ P x) -> sched_at (set_mem m' s) cq qa qi A I.
Proof.
  intros [Hcq HR Hl] Hch HP. split; [done| |].
  - eapply runq_frame; [exact HR|exact Hch|]. intros c x Hc8 Hc Hx. apply HP. by eapply runq_word_bytes.
  - simpl. rewrite (ch_same _ _ _ Hch); [done|]. apply HP. left. unfold within, CQ_LOCK, CQ_SIZE. lia.
Qed.

(** ** The switch *)

(** Membership in a short list of addresses. *)
Ltac in_words := rewrite !elem_of_cons; auto 6.

(** The process at [q] can be switched to, in the memory [m]: its page table is at [a],
    a kernel address that is mapped (the entry is [e]) and that its own space shares with
    the kernel; [rip] is where it goes on. *)
Record runnable (s : kernel) (m : gmap Z Z) (W : Z -> Prop) (T : gmap (list Z) Z) (q space a e rip : Z) : Prop := {
  rn_space : read64 m (q + PROC_SPACE) = Some space;
  rn_addr : read64 m (space + SPACE_ADDR) = Some a;
  rn_rip : read64 m (q + PROC_RIP) = Some rip;
  rn_shares : read64 m (entry a (pml4_idx a)) = read64 (k_mem s) (entry (kpml4 (k_pg s)) (pml4_idx a));
  rn_apart w x : w ∈ [q + PROC_SPACE; space + SPACE_ADDR; q + PROC_RIP; entry a (pml4_idx a)] -> within w 8 x ->
    ~ W x /\ ~ paging_bytes s T x;
  rn_nonzero : space <> 0 /\ a <> 0;
  rn_walk : kwalk s a = Some e /\ vpn a <> vpn (page_tmp (k_pg s));
  rn_cells w x : w ∈ [space + SPACE_ADDR; q + PROC_RIP; entry a (pml4_idx a)] -> within w 8 x -> ~ within (q + PROC_SPACE) 8 x;
}.

(** The tables are in order, and the paging code's memory is nobody else's. *)
Record paging_ready (s : kernel) (T : gmap (list Z) Z) (W : Z -> Prop) : Prop := {
  pr_inv : paging_inv s T;
  pr_window : window_ok s T;
  pr_room : brk (k_pg s) + 9 * 4096 <= miniheap_end (k_pg s);
  pr_apart x : W x -> ~ paging_bytes s T x;
}.

(** [flush_pages] of the current process's own space. *)
Lemma flush_pages_run fuel s T q space a e : paging_inv s T -> window_ok s T ->
  proc_current (k_cpu s) = q -> read64 (k_mem s) (q + PROC_SPACE) = Some space -> read64 (k_mem s) (space + SPACE_ADDR) = Some a ->
  read64 (k_mem s) (entry a (pml4_idx a)) = read64 (k_mem s) (entry (kpml4 (k_pg s)) (pml4_idx a)) ->
  space <> 0 -> a <> 0 -> kwalk s a = Some e -> vpn a <> vpn (page_tmp (k_pg s)) -> (2 <= fuel)%nat ->
  brk (k_pg s) + 9 * 4096 <= miniheap_end (k_pg s) -> (forall x, within (q + PROC_SPACE) 8 x -> ~ paging_bytes s T x) ->
  exists s1 T1, grown (pages (page_tmp (k_pg s)) 1) 9 s T s1 T1 /\
    flush_pages fuel space s = Done tt (logged [WCr3 (phys_of e a)] (set_mem (write64 (k_mem s1) (q + PROC_SPACE) space) s1)).
Proof.
  intros HI Hwin Hq Hsp Ha Hsh Hs0 Ha0 Hw Hne Hf Hroom Hout.
  destruct (kvirt2phys_run fuel space a a e s T) as (s1 & T1 & Hrun & HG); try done.
  { split; [by rewrite (proj2 (Z.eqb_neq space 0))|done]. }
  exists s1, T1. split; [done|]. unfold flush_pages. rewrite (proj2 (Z.eqb_neq space 0)) by done.
  assert (Hbody : (p ← gets (fun s => proc_current (k_cpu s)); cur ← load64 (p + PROC_SPACE);
      addr ← load64 (space + SPACE_ADDR); phys ← kvirt2phys fuel cur addr; store64 (p + PROC_SPACE) space ;; mret phys) s =
    Done (phys_of e a) (set_mem (write64 (k_mem s1) (q + PROC_SPACE) space) s1)).
  { rewrite (run_bind (gets _) _ s q s) by (unfold gets; by rewrite Hq).
    rewrite (run_bind _ _ _ _ _ (kload64 s _ _ Hsp)), (run_bind _ _ _ _ _ (kload64 s _ _ Ha)), (run_bind _ _ _ _ _ Hrun).
    rewrite (run_bind _ _ _ tt _ (kstore64 s1 _ space ltac:(apply read64_is_Some; exists space; by rewrite (grown_read64 _ _ _ _ _ _ _ HG Hout)))).
    done. }
  rewrite (run_bind _ _ _ _ _ Hbody). apply emit_run.
Qed.

Section switch.
Context (fuel : nat) (frame : Z) (s : kernel) (cq qa qi : Z) (A I : levels) (max : Z) (ptr : Z -> Z) (st : list Z) (T : gmap (list Z) Z).

(** What the switch may write of the scheduler's and the processes' memory. *)
Definition switch_bytes (x : Z) : Prop := cpu_bytes cq qa qi (A ++ I) x \/ saved_bytes s frame x.

Context (HS : sched_at s cq qa qi A I) (Hpids : forall p, p ∈ pids (A ++ I) -> p <> 0).
Context (Htab : proc_table s switch_bytes max ptr (pids (A ++ I))) (Hf1 : (Z.to_nat max < fuel)%nat) (Hf2 : (2 <= fuel)%nat).
Context (Hst : saves s frame = true -> frame_state (k_mem s) frame = Some st /\ mapped (k_mem s) (proc_current (k_cpu s)) ARCH_STATE_SIZE).
Context (Hsaved : forall x, saved_bytes s frame x -> ~ cpu_bytes cq qa qi (A ++ I) x).
Context (HP : paging_ready s T switch_bytes).
Context (p : Z) (A' I' : levels) (Hnext : next_abs A I = Some (p, (A', I'))).
Context (space a e rip : Z) (HR : runnable s (saved s frame st) (cpu_bytes cq qa qi (A ++ I)) T (ptr p) space a e rip).

Lemma save_run : exists K, ctx_switch fuel frame s = K (set_mem (saved s frame st) s) /\
  K = (proc_next fuel ;; p ← gets (fun s => proc_current (k_cpu s)); assert_test (negb (p =? 0)) ;;
    space ← load64 (p + PROC_SPACE); a ← load64 (space + SPACE_ADDR); printf ("Switching to page table %p" +:+ nl) [a] ;;
    flush_pages fuel space ;; p ← gets (fun s => proc_current (k_cpu s)); rip ← load64 (p + PROC_RIP);
    assert_test (negb (w32 rip =? 0)) ;; return_user_).
Proof.
  eexists. split; [|reflexivity]. unfold ctx_switch, saved.
  rewrite (run_bind (gets (fun s => proc_current (k_cpu s))) _ s _ s eq_refl). fold (saves s frame).
  destruct (saves s frame) eqn:Es; [|by rewrite set_mem_same].
  destruct (Hst eq_refl) as [Hfr Hm]. destruct (irq2state_run _ _ _ Hfr) as [Hrun Hlen].
  assert (Hsave : (st ← irq2state frame; store_bytes (proc_current (k_cpu s)) st) s =
    Done tt (set_mem (write_bytes (k_mem s) (proc_current (k_cpu s)) st) s)).
  { rewrite (run_bind _ _ _ _ _ Hrun). apply store_bytes_run. by rewrite Hlen. }
  by rewrite (run_bind _ _ _ _ _ Hsave).
Qed.

(** The state once the scheduler has chosen: [m2] is the memory then. *)
Definition chosen (m2 : gmap Z Z) : kernel := set_mem m2 (set_current (ptr p) s).

Lemma next_queued : p ∈ pids (A ++ I).
Proof. apply (next_abs_Some A I p A' I'); [|exact Hnext]. destruct (rq_len _ _ _ _ _ _ (sa_runq _ _ _ _ _ _ HS)). lia. Qed.

Lemma switch_picks : exists m2 qa' qi', proc_next fuel (set_mem (saved s frame st) s) = Done tt (chosen m2) /\
  sched_at (chosen m2) cq qa' qi' A' I' /\ changes (cpu_bytes cq qa qi (A ++ I)) (saved s frame st) m2 /\
  changes switch_bytes (k_mem s) m2 /\ forall x, cpu_bytes cq qa' qi' (A' ++ I') x -> cpu_bytes cq qa qi (A ++ I) x.
Proof.
  set (s1 := set_mem (saved s frame st) s).
  assert (Hch1 : changes (saved_bytes s frame) (k_mem s) (saved s frame st)).
  { apply saved_changes. destruct (saves s frame); [left|by right]. by apply (irq2state_run s frame), Hst. }
  assert (HS1 : sched_at s1 cq qa qi A I) by (eapply sched_at_frame; [exact HS|exact Hch1|intros x Hx Hx'; by apply (Hsaved x)]).
  pose proof (proc_table_ready _ _ _ _ _ _ Htab Hf1) as Hready.
  assert (Hready1 : procs_ready fuel s1 (cpu_bytes cq qa qi (A ++ I)) ptr (pids (A ++ I))).
  { intros r s' Hr Hk Hc. apply Hready; [done|done|]. eapply changes_trans; eapply changes_weaken; [exact Hch1| |exact Hc|];
      intros x Hx; [by right|by left]. }
  destruct (proc_next_step fuel s1 cq qa qi A I _ ptr p A' I' HS1 Hpids (fun x H => H) Hready1 Hnext)
    as (m2 & qa' & qi' & Hrun2 & HS2 & Hqq & Hch2). simpl in Hch2. exists m2, qa', qi'. split_and!; [exact Hrun2|exact HS2|exact Hch2| |].
  - eapply changes_trans; eapply changes_weaken; [exact Hch1| |exact Hch2|]; intros x Hx; [by right|by left].
  - intros x. apply cpu_bytes_step; [done|]. apply (next_abs_Some A I p A' I'); [|exact Hnext].
    destruct (rq_len _ _ _ _ _ _ (sa_runq _ _ _ _ _ _ HS)). lia.
Qed.

Section chosen.
Context (m2 : gmap Z Z) (Hch2 : changes (cpu_bytes cq qa qi (A ++ I)) (saved s frame st) m2) (HchW : changes switch_bytes (k_mem s) m2).

(** The page tables are as they were, and so is what the new process goes on with. *)
Lemma chosen_paging : paging_inv (chosen m2) T /\ forall va, kwalk (chosen m2) va = kwalk s va.
Proof.
  destruct HP as [HI Hwin Hroom Hapart]. split.
  - exact (paging_inv_same (set_mem m2 s) (chosen m2) T eq_refl eq_refl (paging_inv_frame s T m2 _ HI HchW Hapart)).
  - intros va. exact (kwalk_frame s T m2 _ va HI HchW Hapart).
Qed.

Lemma chosen_word w : w ∈ [ptr p + PROC_SPACE; space + SPACE_ADDR; ptr p + PROC_RIP; entry a (pml4_idx a)] ->
  read64 m2 w = read64 (saved s frame st) w.
Proof. intros Hw. eapply changes_read64; [exact Hch2|]. intros x Hx. by apply (rn_apart _ _ _ _ _ _ _ _ _ HR w x). Qed.

Lemma chosen_root : read64 m2 (entry (kpml4 (k_pg s)) (pml4_idx a)) = read64 (k_mem s) (entry (kpml4 (k_pg s)) (pml4_idx a)).
Proof.
  destruct HP as [HI _ _ Hapart]. eapply changes_read64; [exact HchW|]. intros x Hx Hx'. apply (Hapart x Hx'). left. exists [], (kpml4 (k_pg s)).
  split; [apply (ta_root _ _ _ _ (pi_tables _ _ HI))|]. by apply (entry_in_table _ (pml4_idx a)); [apply idx_range|].
Qed.

(** The new process's page table is loaded. *)
Lemma chosen_flush : let s3 := logged [Printf ("Switching to page table %p" +:+ nl) [a]] (chosen m2) in
  exists s4 T4, grown (pages (page_tmp (k_pg s)) 1) 9 s3 T s4 T4 /\
    let m5 := write64 (k_mem s4) (ptr p + PROC_SPACE) space in
    flush_pages fuel space s3 = Done tt (logged [WCr3 (phys_of e a)] (set_mem m5 s4)) /\
    changes (fun x => within (ptr p + PROC_SPACE) 8 x \/ paging_bytes s T x) m2 m5 /\
    read64 m5 (ptr p + PROC_RIP) = Some rip.
Proof.
  intros s3. destruct HP as [HI Hwin Hroom Hapart]. destruct HR as [R1 R2 R3 R4 R5 (R6 & R7) [R9 R10] R11]. destruct chosen_paging as [HI2 Hw2].
  destruct (flush_pages_run fuel s3 T (ptr p) space a e) as (s4 & T4 & HG & Hrun4); try done.
  { by apply inv_logged. }
  { simpl. rewrite chosen_word, R1; [done|in_words]. }
  { simpl. rewrite chosen_word, R2; [done|in_words]. }
  { simpl. rewrite chosen_word, R4, chosen_root; [done|in_words]. }
  { unfold s3. by rewrite kwalk_logged, Hw2. }
  { intros x Hx. apply (R5 (ptr p + PROC_SPACE)); [in_words|done]. }
  exists s4, T4. split; [exact HG|]. intros m5. assert (Hch5 : changes (within (ptr p + PROC_SPACE) 8) (k_mem s4) m5) by apply changes_write64.
  split; [exact Hrun4|]. split.
  - eapply changes_trans; [eapply changes_weaken; [exact (grown_changes _ _ _ _ _ _ HG)|by right]|].
    eapply changes_weaken; [exact Hch5|by left].
  - rewrite (changes_read64 _ _ _ _ Hch5) by (intros x Hx; apply (R11 (ptr p + PROC_RIP)); [in_words|done]).
    rewrite (read64_same m2), chosen_word, R3; [done|in_words|]. intros x Hx. apply (grown_same _ _ _ _ _ _ x HG).
    apply (R5 (ptr p + PROC_RIP)); [in_words|done].
Qed.

(** Writing the process's own space pointer leaves the tables alone. *)
Lemma space_written es s4 T4 V k : grown V k (logged es (chosen m2)) T s4 T4 ->
  let m5 := write64 (k_mem s4) (ptr p + PROC_SPACE) space in
  paging_inv (set_mem m5 s4) T4 /\ forall va, ~ V (vpn va) -> kwalk (set_mem m5 s4) va = kwalk s va.
Proof.
  intros HG m5. assert (Hch5 : changes (within (ptr p + PROC_SPACE) 8) (k_mem s4) m5) by apply changes_write64.
  pose proof (gr_inv _ _ _ _ _ _ HG) as HI. destruct chosen_paging as [_ Hw2].
  assert (Hout : forall x, within (ptr p + PROC_SPACE) 8 x -> ~ paging_bytes s4 T4 x).
  { intros x Hx Hx'. apply (grown_paging_bytes _ _ _ _ _ _ x HG) in Hx'. destruct (rn_apart _ _ _ _ _ _ _ _ _ HR (ptr p + PROC_SPACE) x) as [_ HP']; [in_words|done|]. by apply HP'. }
  split; [exact (paging_inv_frame s4 T4 m5 _ HI Hch5 Hout)|]. intros va Hva. rewrite (kwalk_frame s4 T4 m5 _ va HI Hch5 Hout), (gr_walk _ _ _ _ _ _ HG), kwalk_logged by done. apply Hw2.
Qed.
End chosen.

Lemma switch_spec : exists s' T' qa' qi' l,
  ctx_switch fuel frame s = (if w32 rip =? 0 then Stop Panic else Done tt s') /\ proc_current (k_cpu s') = ptr p /\
  sched_at s' cq qa' qi' A' I' /\
  (saves s frame = true -> (forall x, within (ptr p + PROC_SPACE) 8 x -> ~ saved_bytes s frame x) ->
     read_bytes (k_mem s') (proc_current (k_cpu s)) (Z.to_nat ARCH_STATE_SIZE) = Some st) /\
  dv_log (k_dev s') = ReturnUser :: WCr3 (phys_of e a) :: l /\
  paging_inv s' T' /\ (forall va, vpn va <> vpn (page_tmp (k_pg s)) -> kwalk s' va = kwalk s va) /\
  (forall x, ~ switch_bytes x -> ~ within (ptr p + PROC_SPACE) 8 x -> ~ paging_bytes s T x -> k_mem s' !! x = k_mem s !! x).
Proof.
  destruct HR as [R1 R2 R3 R4 R5 (R6 & R7) [R9 R10] R11].
  destruct save_run as (K & Hrun0 & EK). destruct switch_picks as (m2 & qa' & qi' & Hrun2 & HS2 & Hch2 & HchW & Hcb).
  destruct (chosen_flush m2 Hch2 HchW) as (s4 & T4 & HG & Hrun4 & Hch25 & Hrip).
  destruct (space_written m2 HchW _ s4 T4 _ _ HG) as [HI5 Hk5].
  set (s2 := chosen m2) in *. set (s3 := logged [_] s2) in *.
  set (m5 := write64 (k_mem s4) (ptr p + PROC_SPACE) space) in *. set (s5 := logged [WCr3 (phys_of e a)] (set_mem m5 s4)) in *.
  assert (Hk4 : k_cpu s4 = k_cpu s3 /\ k_proc s4 = k_proc s3) by (by destruct (gr_state _ _ _ _ _ _ HG) as (? & ? & ? & ->)).
  destruct Hk4 as [Hcpu4 Hproc4]. assert (Hp : p ∈ pids (A ++ I)) by exact next_queued.
  assert (Hapart : forall x, switch_bytes x -> ~ paging_bytes s T x) by exact (pr_apart _ _ _ HP).
  exists (logged [ReturnUser] s5), T4, qa', qi', (dv_log (k_dev s4)). split_and!.
  - rewrite Hrun0, EK, (run_bind _ _ _ _ _ Hrun2). rewrite (run_bind (gets (fun s => proc_current (k_cpu s))) _ s2 (ptr p) s2 eq_refl).
    rewrite (proj2 (Z.eqb_neq (ptr p) 0)) by by apply (pt_ptr _ _ _ _ _ Htab). cbn [negb]. rewrite (run_bind (assert_test true) _ s2 tt s2 eq_refl).
    rewrite (run_bind _ _ _ _ _ (kload64 s2 _ space ltac:(simpl; rewrite (chosen_word m2 Hch2), R1; [done|in_words]))).
    rewrite (run_bind _ _ _ _ _ (kload64 s2 _ a ltac:(simpl; rewrite (chosen_word m2 Hch2), R2; [done|in_words]))).
    rewrite (run_bind _ _ _ tt s3) by apply emit_run.
    rewrite (run_bind _ _ _ _ _ Hrun4).
    rewrite (run_bind (gets (fun s => proc_current (k_cpu s))) _ s5 (ptr p) s5) by (unfold gets, s5; simpl; by rewrite Hcpu4).
    rewrite (run_bind _ _ _ _ _ (kload64 s5 _ rip Hrip)). destruct (w32 rip =? 0); [done|].
    cbn [negb]. rewrite (run_bind (assert_test true) _ s5 tt s5 eq_refl). apply emit_run.
  - simpl. by rewrite Hcpu4.
  - assert (HS' : sched_at (set_mem m5 s2) cq qa' qi' A' I').
    { apply (sched_at_frame s2 m5 cq qa' qi' A' I' _ HS2 Hch25). intros x Hx%Hcb [Hx'|Hx'].
      - destruct (R5 (ptr p + PROC_SPACE) x) as [HW _]; [in_words|done|]. by apply HW.
      - by apply (Hapart x); [left|]. }
    destruct HS' as [Hcq' HR' Hl']. split; [|exact HR'|exact Hl']. rewrite <- Hcq'. simpl. by rewrite Hproc4, Hcpu4.
  - intros Hsv Hout. destruct (Hst Hsv) as [Hfr _]. pose proof (proj2 (irq2state_run _ _ _ Hfr)) as Hlen. rewrite <- Hlen.
    rewrite (read_bytes_same (saved s frame st)); [unfold saved; rewrite Hsv; apply read_write_bytes|].
    intros x Hx. rewrite Hlen in Hx. assert (Hx' : saved_bytes s frame x) by (split; [done|exact Hx]). simpl.
    rewrite (ch_same _ _ _ Hch25).
    + apply (ch_same _ _ _ Hch2). by apply Hsaved.
    + intros [?|?]; [by apply (Hout x)|]. by apply (Hapart x); [right|].
  - done.
  - by apply (paging_inv_same (set_mem m5 s4)).
  - intros va Hva. apply Hk5. by rewrite pages_one.
  - intros x H1 H2 H3. simpl. rewrite (ch_same _ _ _ Hch25) by tauto. by apply (ch_same _ _ _ HchW).
Qed.
End switch.

(** C12. A timer interrupt is a context switch: with a run queue in order, the interrupted
    process's registers, stack, instruction pointer and flags are saved in its structure,
    the process the scheduler's policy picks becomes current, its page table's physical
    address is loaded, and the kernel leaves to user mode, unless the low 32 bits of its
    instruction pointer are all zero, on which [assert_test] panics; the queues, the page tables and
    every translation but the temporary window's stay in order, and nothing but the queues,
    the saved state, the process's own space field and the paging code's memory is written. *)
Theorem timer_interrupt_switches fuel frame s cq qa qi A I max ptr st T p A' I' space a e rip :
  sched_ready (k_proc s) = true -> read64 (k_mem s) (frame + FRAME_NUM) = Some 32 ->
  sched_at s cq qa qi A I -> (forall q, q ∈ pids (A ++ I) -> q <> 0) -> next_abs A I = Some (p, (A', I')) ->
  let W := switch_bytes frame s cq qa qi A I in
  proc_table s W max ptr (pids (A ++ I)) -> (Z.to_nat max < fuel)%nat -> (2 <= fuel)%nat ->
  (saves s frame = true -> frame_state (k_mem s) frame = Some st /\ mapped (k_mem s) (proc_current (k_cpu s)) ARCH_STATE_SIZE) ->
  (forall x, saved_bytes s frame x -> ~ cpu_bytes cq qa qi (A ++ I) x) -> paging_ready s T W ->
  runnable s (saved s frame st) (cpu_bytes cq qa qi (A ++ I)) T (ptr p) space a e rip ->
  exists s' T' qa' qi' l,
    isr_handle fuel frame s = (if w32 rip =? 0 then Stop Panic else Done tt s') /\ proc_current (k_cpu s') = ptr p /\ sched_at s' cq qa' qi' A' I' /\
    (saves s frame = true -> (forall x, within (ptr p + PROC_SPACE) 8 x -> ~ saved_bytes s frame x) ->
       read_bytes (k_mem s') (proc_current (k_cpu s)) (Z.to_nat ARCH_STATE_SIZE) = Some st) /\
    dv_log (k_dev s') = ReturnUser :: WCr3 (phys_of e a) :: l /\
    paging_inv s' T' /\ (forall va, vpn va <> vpn (page_tmp (k_pg s)) -> kwalk s' va = kwalk s va) /\
    (forall x, ~ W x -> ~ within (ptr p + PROC_SPACE) 8 x -> ~ paging_bytes s T x -> k_mem s' !! x = k_mem s !! x).
Proof.
  intros Hr Hnum HS Hpids Hnext W Htab Hf1 Hf2 Hst Hsv HP HR.
  destruct (switch_spec fuel frame s cq qa qi A I max ptr st T HS Hpids Htab Hf1 Hf2 Hst Hsv HP p A' I' Hnext space a e rip HR)
    as (s' & T' & qa' & qi' & l & Hrun & Hrest).
  exists s', T', qa', qi', l. split; [|exact Hrest].
  unfold isr_handle. rewrite (run_bind _ _ _ _ _ (kload64 s _ _ Hnum)). cbn [Z.eqb Pos.eqb].
  by rewrite (run_bind (gets (fun s => sched_ready (k_proc s))) _ s true s) by (unfold gets; by rewrite Hr).
Qed.

(** ** The two processes of [two_procs], with page tables

    Process 9 is interrupted with its registers at [tick_frame]; process 7 is next, its
    space's top level table at [tick_root], which is also mapped as a page. *)
Definition tick_frame : Z := 160000.
Definition tick_space : Z := 140400.
Definition tick_root : Z := 0x28000.
Definition tick_words : list (Z * Z) := [(140008 + PROC_SPACE, tick_space); (tick_space + SPACE_ADDR, tick_root);
  (140008 + PROC_RIP, 0x400000); (tick_frame + FRAME_NUM, 32)].
Definition tick_mem : gmap Z Z := write_words (zeros 135168 192512 two_mem) tick_words.
Definition tick_procs : kernel :=
  quiet_kernel tick_mem (PageAllocGlobals 4096 1 false) (CpuGlobals 32768 1 0 150008)
    (ProcGlobals two_cq true two_procmap 10 false) (PagingGlobals 0x31000 0x50000 false 0x40000000 false 0 0 0x30000 0 0x30000000 w64).

(** The bytes above those of [two_procs]. *)
Definition above (x : Z) : Prop := 135168 <= x.

#[local] Opaque two_mem zeros.

Lemma tick_changes : changes above two_mem tick_mem.
Proof.
  apply changes_write_words.
  - eapply changes_weaken; [by apply changes_zeros|].
    intros x Hx. unfold within, above in *. lia.
  - assert (H : Forall (fun w => 135168 <= w.1) tick_words) by (apply (bool_decide_unpack _); vm_compute; exact Logic.I).
    eapply Forall_impl; [exact H|]. intros [a v] Ha x Hx. unfold within, above in *. simpl in Ha. lia.
Qed.

Lemma tick_mapped : mapped tick_mem 135168 192512.
Proof.
  eapply changes_mapped; [apply (changes_write_words (fun _ => True)); [apply changes_refl|by repeat constructor]|].
  by apply mapped_zeros.
Qed.

Lemma tick_zero x : 0x30000 <= x < 0x50000 -> tick_mem !! x = Some 0.
Proof.
  intros Hx. unfold tick_mem, tick_words, tick_space, tick_frame, PROC_SPACE, SPACE_ADDR, PROC_RIP, FRAME_NUM. cbn [write_words].
  rewrite !write64_lookup_ne by (unfold within; lia). apply lookup_zeros. lia.
Qed.

Lemma tick_read av : av ∈ tick_words -> read64 tick_mem av.1 = Some av.2.
Proof.
  unfold tick_mem. generalize (zeros 135168 192512 two_mem). intros m.
  unfold tick_words, tick_space, tick_frame, tick_root, PROC_SPACE, SPACE_ADDR, PROC_RIP, FRAME_NUM. cbn [write_words].
  rewrite !elem_of_cons. intros [->|[->|[->|[->|[]%not_elem_of_nil]]]]; cbn [fst snd];
    rewrite ?read64_write64_ne by lia; apply read64_write64_eq; unfold u64; lia.
Qed.

#[local] Opaque tick_mem.

Lemma frame_state_mapped m frame : mapped m frame 176 -> exists st, frame_state m frame = Some st.
Proof.
  intros Hm. assert (H64 : forall o, 0 <= o -> o + 8 <= 176 -> exists v, read64 m (frame + o) = Some v).
  { intros o Ho Ho'. apply read64_is_Some. by eapply mapped_sub; [exact Hm|lia|lia]. }
  destruct (H64 FRAME_SP) as [sp Hsp], (H64 FRAME_IP) as [ip Hip], (H64 FRAME_FLAGS) as [fl Hfl]; [unfold FRAME_SP, FRAME_IP, FRAME_FLAGS; lia..|].
  destruct (proj2 (read_bytes_is_Some m frame (Z.to_nat REGS_SIZE))) as [regs Hregs].
  { eapply mapped_sub; [exact Hm|lia|unfold REGS_SIZE; lia]. }
  eexists. unfold frame_state. by rewrite Hregs, Hsp, Hip, Hfl.
Qed.

Section above.
Context (s : kernel) (Hproc : k_proc s = k_proc two_procs) (Hch : changes above two_mem (k_mem s)).

Lemma above_read a v : bool_decide ((a, v) ∈ two_view) = true -> a + 8 <= 135168 -> read64 (k_mem s) a = Some v.
Proof.
  intros Ha Hle. rewrite (changes_read64 _ _ _ _ Hch); [by apply two_read|]. intros x Hx. unfold within, above in *. lia.
Qed.

Lemma two_map_end x : map_bytes two_mem two_map 1 two_cells x -> x < 132096.
Proof.
  intros [Hx|(i & c & kp & Hi & Hc & Hkp & Hx)]; [unfold within, two_map, MAP_CELL, CELL_SIZE in *; lia|].
  assert (Hk : length (c_key c) = 8%nat /\ (kp = two_k1 \/ kp = two_k2)).
  { assert (i = 0 \/ i = 1) as [->| ->] by lia; injection Hc as <-; (split; [reflexivity|]).
    - assert (E : read64 two_mem (cell_addr two_map 0 + CELL_K) = Some two_k1) by two_reads. rewrite E in Hkp. injection Hkp as <-. by left.
    - assert (E : read64 two_mem (cell_addr two_map 1 + CELL_K) = Some two_k2) by two_reads. rewrite E in Hkp. injection Hkp as <-. by right. }
  destruct Hk as [E [->| ->]]; rewrite E in Hx; unfold within, two_k1, two_k2, FLEX_ITEM in *; lia.
Qed.

Lemma above_table W : (forall x, W x -> x < two_procmap \/ above x) ->
  proc_table s W 1 two_ptr (pids (two_A ++ two_I)).
Proof.
  intros HW. destruct two_table as [(m & cap & cs & _ & _ & _ & Hps) Hpos _ Hptr]. clear m cap cs Hps.
  split; [|done| |done].
  - exists two_map, 8, two_cells. split; [rewrite Hproc; by apply above_read|]. split; [|split].
    + eapply map_at_changes; [exact two_cells_at|exact Hch|]. intros x Hx%two_map_end. unfold above. lia.
    + intros x Hx HWx%HW. assert (Hx' : map_bytes two_mem two_map 1 two_cells x).
      { destruct Hx as [?|(i & c & kp & Hi & Hc & Hkp & Hx)]; [by left|]. right. exists i, c, kp. split; [exact Hi|]. split; [exact Hc|]. split; [|exact Hx].
        rewrite <- Hkp. symmetry. apply (changes_read64 _ _ _ _ Hch). intros y Hy.
        assert (i = 0 \/ i = 1) as [->| ->] by lia; unfold within, above, cell_addr, two_map, CELL_K, MAP_CELL, CELL_SIZE in *; lia. }
      pose proof (two_table_start x Hx'). pose proof (two_map_end x Hx'). unfold two_map, two_procmap, above in *. lia.
    + intros p Hp. rewrite two_pids in Hp. assert (p = 7 \/ p = 9) as Hp' by set_solver. split.
      * destruct Hp' as [->| ->]; [exists 0|exists 1]; eexists; (split; [lia|split; [reflexivity|done]]).
      * intros i c Hi Hc Hk. assert (i = 0 \/ i = 1) as [->| ->] by lia; injection Hc as <-;
          destruct Hp' as [->| ->]; solve [reflexivity|discriminate Hk].
  - intros x Hx HWx%HW. rewrite Hproc in Hx. change (procmap (k_proc two_procs)) with two_procmap in Hx. unfold within, two_procmap, above in *. lia.
Qed.
End above.

Lemma tick_inv : paging_inv tick_procs {[ [] := 0x30000 ]}.
Proof.
  apply (fresh_paging_inv tick_procs 0x30000 0x50000); [reflexivity..|by exists 0x30|lia|lia|lia|exact tick_zero].
Qed.

(** The page of [tick_root] is mapped, and it has the kernel's first entry. *)
Record tick_state (s : kernel) (T : gmap (list Z) Z) : Prop := {
  ts_proc : k_proc s = k_proc tick_procs;
  ts_cpu : k_cpu s = k_cpu tick_procs;
  ts_mem x : ~ 0x30000 <= x < 0x50000 -> ~ within tick_root 8 x -> k_mem s !! x = tick_mem !! x;
  ts_grown : changes above tick_mem (k_mem s);
  ts_inv : paging_inv s T;
  ts_window : window_ok s T;
  ts_globals : page_tmp (k_pg s) = 0x30000000 /\ brk (k_pg s) <= 0x34000 /\ miniheap_end (k_pg s) = 0x50000;
  ts_bytes x : paging_bytes s T x -> 0x30000 <= x < 0x50000;
  ts_walk : kwalk s tick_root = Some 0x9001;
  ts_shares : read64 (k_mem s) (entry tick_root (pml4_idx tick_root)) = read64 (k_mem s) (entry (kpml4 (k_pg s)) (pml4_idx tick_root));
}.

Lemma tick_state_exists : exists s T, tick_state s T.
Proof.
  destruct (proj1 (wp_done _ _ _) (premap_page_spec tick_procs {[ [] := 0x30000 ]} tick_root 0x9000 1
    tick_inv ltac:(lia) ltac:(cbn; lia))) as ([] & s1 & _ & T & _ & HG & Hw).
  pose proof (grown_globals _ _ _ _ _ _ HG) as (E1 & E2 & E3). pose proof (gr_brk _ _ _ _ _ _ HG) as Hbrk. pose proof (gr_low _ _ _ _ _ _ HG) as Hlow.
  pose proof (grown_end _ _ _ _ _ _ HG) as Hend. change (page_tmp (k_pg s1) = 0x30000000) in E1.
  change (brk (k_pg s1) <= 0x34000) in Hbrk. change (0x31000 <= brk (k_pg s1)) in Hlow. change (miniheap_end (k_pg s1) = 0x50000) in Hend.
  assert (Hpb0 : forall x, paging_bytes tick_procs {[ [] := 0x30000 ]} x -> 0x30000 <= x < 0x50000).
  { intros x [(q & t & Hq & Hx)|Hx]; [apply lookup_singleton_Some in Hq as [_ <-]; unfold within in Hx; lia|].
    change (0x31000 <= x < 0x50000) in Hx. lia. }
  assert (Hpb : forall x, paging_bytes s1 T x -> 0x30000 <= x < 0x50000) by (intros x Hx; by eapply Hpb0, grown_paging_bytes).
  pose proof (gr_inv _ _ _ _ _ _ HG) as HI1. pose proof (pi_tables _ _ HI1) as HT.
  assert (Hk : k_proc s1 = k_proc tick_procs /\ k_cpu s1 = k_cpu tick_procs) by (by destruct (gr_state _ _ _ _ _ _ HG) as (? & ? & ? & ->)).
  destruct (proj2 (read_bytes_is_Some (k_mem s1) (entry (kpml4 (k_pg s1)) (pml4_idx tick_root)) 8)) as [bs Hbs].
  { apply (entry_mapped HT [] _ _ (ta_root _ _ _ _ HT)). by apply idx_range. }
  pose proof (read_bytes_length _ _ _ _ Hbs) as Hlen.
  assert (Hroot : forall x, within tick_root 8 x -> ~ paging_bytes s1 T x) by (intros x Hx Hx'%Hpb; unfold within, tick_root in *; lia).
  set (m := write_bytes (k_mem s1) tick_root bs). pose proof (changes_write_bytes (k_mem s1) tick_root bs) as Hcw. fold m in Hcw.
  rewrite Hlen in Hcw. change (Z.of_nat 8) with 8 in Hcw.
  exists (set_mem m s1), T. split; [exact (proj1 Hk)|exact (proj2 Hk)| | | | |by split_and!|exact Hpb| |].
  - intros x H1 H2. simpl. rewrite (ch_same _ _ _ Hcw) by done. apply (grown_same _ _ _ _ _ _ _ HG). intros Hx%Hpb0. lia.
  - eapply changes_trans; [eapply changes_weaken; [exact (grown_changes _ _ _ _ _ _ HG)|]|eapply changes_weaken; [exact Hcw|]].
    + intros x Hx%Hpb0. unfold above. lia.
    + intros x Hx. unfold within, above, tick_root in *. lia.
  - exact (paging_inv_frame s1 T m _ HI1 Hcw Hroot).
  - unfold window_ok. change (k_pg (set_mem m s1)) with (k_pg s1). rewrite E1, E2. split; [by exists 0x30000|]. split; [lia|]. intros P _.
    rewrite E3. unfold PHYSK2VK, add64, sub64. cbn -[Z.pow w64]. by rewrite Z.sub_0_r, Z.add_0_r, w64_idem.
  - rewrite (kwalk_frame s1 T m _ _ HI1 Hcw Hroot). by rewrite (Hw tick_root eq_refl).
  - change (entry tick_root (pml4_idx tick_root)) with tick_root. change (k_pg (set_mem m s1)) with (k_pg s1). cbn [k_mem set_mem].
    rewrite (changes_read64 _ _ _ (entry (kpml4 (k_pg s1)) (pml4_idx tick_root)) Hcw).
    + unfold read64. rewrite Hbs. simpl. unfold m. rewrite <- Hlen. by rewrite read_write_bytes.
    + intros x Hx Hx'. apply (Hroot x Hx'). left. exists [], (kpml4 (k_pg s1)). split; [apply (ta_root _ _ _ _ HT)|].
      apply (entry_in_table _ (pml4_idx tick_root)); [by apply idx_range|exact Hx].
Qed.

Section tick.
Context (s : kernel) (T : gmap (list Z) Z) (H : tick_state s T).

Lemma tick_above : changes above two_mem (k_mem s).
Proof. eapply changes_trans; [exact tick_changes|exact (ts_grown _ _ H)]. Qed.

Lemma tick_current : proc_current (k_cpu s) = 150008.
Proof. by rewrite (ts_cpu _ _ H). Qed.

Lemma tick_same a : 135168 <= a -> a + 8 <= tick_root -> read64 (k_mem s) a = read64 tick_mem a.
Proof. intros Ha Hb. apply read64_same. intros x Hx. apply (ts_mem _ _ H); unfold within, tick_root in *; lia. Qed.

Lemma tick_word av : av ∈ tick_words -> read64 (k_mem s) av.1 = Some av.2.
Proof.
  intros Hav. rewrite tick_same; [by apply tick_read|..].
  all: assert (Hall : Forall (fun w => 135168 <= w.1 /\ w.1 + 8 <= tick_root) tick_words) by (apply (bool_decide_unpack _); vm_compute; exact Logic.I);
    rewrite Forall_forall in Hall; by apply Hall.
Qed.

Lemma tick_saved_bytes x : saved_bytes s tick_frame x -> 150008 <= x < 150152.
Proof. intros [_ Hx]. rewrite tick_current in Hx. unfold within, ARCH_STATE_SIZE in Hx. lia. Qed.

Lemma tick_switch_bytes x : switch_bytes tick_frame s two_cq two_qa two_qi two_A two_I x ->
  131072 <= x < two_procmap \/ 150008 <= x < 150152.
Proof. intros [Hx|Hx]; [left; by apply two_queue_end|right; by apply tick_saved_bytes]. Qed.

Lemma tick_sched_at : sched_at s two_cq two_qa two_qi two_A two_I.
Proof.
  assert (HS : sched_at (set_mem (k_mem s) two_procs) two_cq two_qa two_qi two_A two_I).
  { eapply sched_at_frame; [exact two_sched_at|exact tick_above|]. intros x Hx%two_queue_end. unfold above, two_procmap in *. lia. }
  destruct HS as [Hcq HR Hl]. split; [|exact HR|exact Hl]. rewrite <- Hcq. by rewrite (ts_proc _ _ H), (ts_cpu _ _ H).
Qed.

Lemma tick_paging_ready : paging_ready s T (switch_bytes tick_frame s two_cq two_qa two_qi two_A two_I).
Proof.
  destruct (ts_globals _ _ H) as (_ & Hb & He). split; [exact (ts_inv _ _ H)|exact (ts_window _ _ H)|lia|].
  intros x Hx%tick_switch_bytes Hp%(ts_bytes _ _ H). unfold two_procmap in Hx. lia.
Qed.

Lemma tick_runnable st : length st = Z.to_nat ARCH_STATE_SIZE ->
  runnable s (saved s tick_frame st) (cpu_bytes two_cq two_qa two_qi (two_A ++ two_I)) T 140008 tick_space tick_root 0x9001 0x400000.
Proof.
  intros Hst. destruct (ts_globals _ _ H) as (Etmp & _).
  assert (Hsaved : forall w, w + 8 <= 150008 \/ 150152 <= w -> read64 (saved s tick_frame st) w = read64 (k_mem s) w).
  { intros w Hw. eapply changes_read64; [apply saved_changes; by left|]. intros x Hx Hx'%tick_saved_bytes. unfold within in Hx. lia. }
  assert (Hin : forall av, av ∈ tick_words -> av.1 + 8 <= 150008 -> read64 (saved s tick_frame st) av.1 = Some av.2).
  { intros av Hav Hle. rewrite Hsaved by (by left). by apply tick_word. }
  split.
  - apply (Hin (140008 + PROC_SPACE, tick_space)); [left|unfold PROC_SPACE; simpl; lia].
  - apply (Hin (tick_space + SPACE_ADDR, tick_root)); [right; left|unfold SPACE_ADDR, tick_space; simpl; lia].
  - apply (Hin (140008 + PROC_RIP, 0x400000)); [right; right; left|unfold PROC_RIP; simpl; lia].
  - rewrite Hsaved; [exact (ts_shares _ _ H)|]. change (entry tick_root (pml4_idx tick_root)) with tick_root. unfold tick_root. lia.
  - intros w x Hw Hx. assert (Hw' : 140000 <= w < 0x28001).
    { rewrite !elem_of_cons in Hw. change (entry tick_root (pml4_idx tick_root)) with tick_root in Hw.
      unfold PROC_SPACE, SPACE_ADDR, PROC_RIP, tick_space, tick_root in Hw. destruct Hw as [->|[->|[->|[->|[]%not_elem_of_nil]]]]; lia. }
    split; [intros Hx'%two_queue_end|intros Hx'%(ts_bytes _ _ H)]; unfold within, two_procmap in *; lia.
  - by split_and!.
  - split; [exact (ts_walk _ _ H)|]. rewrite Etmp. by vm_compute.
  - intros w x Hw Hx Hx'. change (entry tick_root (pml4_idx tick_root)) with tick_root in Hw. rewrite !elem_of_cons in Hw.
    unfold within, PROC_SPACE, SPACE_ADDR, PROC_RIP, tick_space, tick_root in *. destruct Hw as [->|[->|[->|[]%not_elem_of_nil]]]; lia.
Qed.
End tick.

Lemma timer_interrupt_switches_witness : exists s st s' l,
  proc_current (k_cpu s) = 150008 /\ frame_state (k_mem s) tick_frame = Some st /\
  isr_handle 2 tick_frame s = Done tt s' /\ proc_current (k_cpu s') = 140008 /\
  read_bytes (k_mem s') 150008 (Z.to_nat ARCH_STATE_SIZE) = Some st /\ dv_log (k_dev s') = ReturnUser :: WCr3 0x9000 :: l.
Proof.
  destruct tick_state_exists as (s & T & H). pose proof (tick_current s T H) as Hcur.
  assert (Hm : mapped (k_mem s) 135168 192512) by (eapply changes_mapped; [exact (ts_grown _ _ H)|exact tick_mapped]).
  destruct (frame_state_mapped (k_mem s) tick_frame) as [st Hst]; [eapply mapped_sub; [exact Hm|unfold tick_frame; lia|unfold tick_frame; lia]|].
  pose proof (proj2 (irq2state_run _ _ _ Hst)) as Hlen.
  destruct (timer_interrupt_switches 2 tick_frame s two_cq two_qa two_qi two_A two_I 1 two_ptr st T 7
    [[]; []; []; []; []] [[]; [(two_n1, 7)]; []; [(two_n2, 9)]; []] tick_space tick_root 0x9001 0x400000)
    as (s' & T' & qa' & qi' & l & Hrun & Hcur' & _ & Hsv & Hlog & _).
  - by rewrite (ts_proc _ _ H).
  - apply (tick_word s T H (tick_frame + FRAME_NUM, 32)). right; right; right; left.
  - exact (tick_sched_at s T H).
  - exact two_pids_pos.
  - reflexivity.
  - apply above_table; [exact (ts_proc _ _ H)|exact (tick_above s T H)|].
    intros x Hx%(tick_switch_bytes s T H). unfold above. lia.
  - simpl. lia.
  - lia.
  - intros _. split; [exact Hst|]. rewrite Hcur. eapply mapped_sub; [exact Hm|lia|unfold ARCH_STATE_SIZE; lia].
  - intros x Hx%(tick_saved_bytes s T H) Hx'%two_queue_end. unfold two_procmap in Hx'. lia.
  - exact (tick_paging_ready s T H).
  - exact (tick_runnable s T H st Hlen).
  - exists s, st, s', l. split; [exact Hcur|]. split; [exact Hst|]. split; [exact Hrun|]. split; [exact Hcur'|]. split; [|exact Hlog].
    rewrite <- Hcur. apply Hsv; [unfold saves; by rewrite Hcur|].
    intros x Hx Hx'%(tick_saved_bytes s T H). change (two_ptr 7) with 140008 in Hx. unfold within, PROC_SPACE in Hx. lia.
Defined.
