(* ===== verification/Desc.v ===== *)
(** * kernel/arch/x86_64/gdt.c and the table building of idt.c

    Segment descriptors, the task state segment and interrupt gates as the processor
    reads them: packed bytes, little endian. *)
From S2P Require Import Prelude Memory Mem Pow2 State FreeList PageAlloc Kalloc HashMap Paging Devices Ctx.

(** ** gdt.c *)

Definition ACCESS_PRESENT : Z := 2 ^ 7.
Definition ACCESS_S : Z := 2 ^ 4.
Definition ACCESS_EXEC : Z := 2 ^ 3.
Definition ACCESS_RW : Z := 2 ^ 1.
Definition DPL (x : Z) : Z := Z.shiftl x 5.
Definition GRAN_4K : Z := 2 ^ 7.
Definition SZ_32 : Z := 2 ^ 6.
Definition LONG_MODE : Z := 2 ^ 5.

Record gdt_desc := GdtDesc {
  limit_low : Z; base_low : Z; base_mid : Z; access : Z; granularity : Z; base_high : Z
}.

Definition gdt_entries : list gdt_desc := [
  GdtDesc 0 0 0 0 0 0;
  GdtDesc 0xFFFF 0 0 (Z.lor (Z.lor (Z.lor ACCESS_PRESENT ACCESS_S) ACCESS_EXEC) ACCESS_RW)
    (Z.lor (Z.lor GRAN_4K LONG_MODE) 0xF) 0;
  GdtDesc 0xFFFF 0 0 (Z.lor (Z.lor ACCESS_PRESENT ACCESS_S) ACCESS_RW)
    (Z.lor (Z.lor GRAN_4K SZ_32) 0xF) 0;
  GdtDesc 0xFFFF 0 0 (Z.lor (Z.lor (Z.lor ACCESS_PRESENT ACCESS_S) ACCESS_RW) (DPL 3))
    (Z.lor (Z.lor GRAN_4K SZ_32) 0xF) 0;
  GdtDesc 0xFFFF 0 0 (Z.lor (Z.lor (Z.lor (Z.lor ACCESS_PRESENT ACCESS_S) ACCESS_EXEC) ACCESS_RW) (DPL 3))
    (Z.lor (Z.lor GRAN_4K LONG_MODE) 0xF) 0
].

Definition desc_bytes (d : gdt_desc) : list Z :=
  le_split 2 (limit_low d) ++ le_split 2 (base_low d) ++
  [base_mid d; access d; granularity d; base_high d].

(** [struct tss_desc] *)
Record tss_desc := TssDesc {
  t_limit_low : Z; t_base_low : Z; t_base_middle : Z; t_access : Z; t_granularity : Z;
  t_base_high : Z; t_base_upper : Z; t_reserved : Z
}.

Definition tss_desc_bytes (d : tss_desc) : list Z :=
  le_split 2 (t_limit_low d) ++ le_split 2 (t_base_low d) ++
  [t_base_middle d; t_access d; t_granularity d; t_base_high d] ++
  le_split 4 (t_base_upper d) ++ le_split 4 (t_reserved d).

(** [sizeof] of [struct tss], [struct gdt], [struct gdtr]; offsets in [struct tss]. *)
Definition TSS_SIZE : Z := 104.
Definition TSS_RSP0 : Z := 4.
Definition TSS_IST1 : Z := 36.
Definition TSS_IOPB : Z := 102.
Definition GDT_SIZE : Z := 56.
Definition GDT_TSS : Z := 40.
Definition GDTR_SIZE : Z := 10.

(** The descriptor [make_gdt] writes for the task state segment at [base]. *)
Definition tss_descriptor (base : Z) : tss_desc :=
  TssDesc TSS_SIZE (Z.land base 0xFFFF) (Z.land (Z.shiftr base 16) 0xFF) 0x89 0
    (Z.land (Z.shiftr base 24) 0xFF) (w32 (Z.shiftr base 32)) 0.

(** [gdt_meta_init]: [cpu_gdtr], [cpu_gdt], [cpu_tss]. *)
Definition gdt_meta_init (fuel : nat) : M kernel (Z * Z * Z) :=
  n ← gets (fun s => ncpus (k_cpu s));
  gdtr ← kalloc fuel (mul64 GDTR_SIZE n);
  gdt ← kalloc fuel (mul64 GDT_SIZE n);
  tss ← kalloc fuel (mul64 TSS_SIZE n);
  mret (gdtr, gdt, tss).

Definition make_gdt (fuel : nat) (tabs : Z * Z * Z) : M kernel Z :=
  let '(cpu_gdtr, cpu_gdt, cpu_tss) := tabs in
  id ← gets (fun s => cpu_id (k_cpu s));
  let base := cpu_tss + id * TSS_SIZE in
  let gdt := cpu_gdt + id * GDT_SIZE in
  let gdtr := cpu_gdtr + id * GDTR_SIZE in
  store_bytes gdt (flat_map desc_bytes gdt_entries ++ replicate 16 0) ;;
  store_bytes (base + TSS_IOPB) (le_split 2 0xFFFF) ;;
  r ← page_alloc fuel PAGE_SIZE;
  store64 (base + TSS_RSP0) (add64 r PAGE_SIZE) ;;
  i ← page_alloc fuel PAGE_SIZE;
  store64 (base + TSS_IST1) (add64 i PAGE_SIZE) ;;
  store_bytes (gdt + GDT_TSS) (tss_desc_bytes (tss_descriptor base)) ;;
  store_bytes gdtr (le_split 2 (GDT_SIZE - 1)) ;;
  store64 (gdtr + 2) gdt ;;
  mret gdtr.

(** [flush_gdt] is assembly: [lgdt], reload of the segments and [ltr]. *)
Definition gdt_init (fuel : nat) (tabs : Z * Z * Z) : M kernel unit :=
  p ← make_gdt fuel tabs; emit (Lgdt p).

(** ** idt.c *)

Record idt_entry_t := IdtEntry {
  isr_low : Z; kernel_cs : Z; ist : Z; flags : Z; isr_mid : Z; isr_high : Z; i_reserved : Z
}.

Definition idt_gate (isr fl : Z) : idt_entry_t :=
  IdtEntry (Z.land isr 0xFFFF) (Z.shiftl 1 3) 1 fl (Z.land (Z.shiftr isr 16) 0xFFFF)
    (w32 (Z.shiftr isr 32)) 0.

Definition gate_bytes (g : idt_entry_t) : list Z :=
  le_split 2 (isr_low g) ++ le_split 2 (kernel_cs g) ++ [ist g; flags g] ++
  le_split 2 (isr_mid g) ++ le_split 4 (isr_high g) ++ le_split 4 (i_reserved g).

Definition IDT_ENTRY_SIZE : Z := 16.

(** The table is at the address [idt]. *)
Definition idt_set (idt i isr fl : Z) : M kernel unit :=
  store_bytes (idt + i * IDT_ENTRY_SIZE) (gate_bytes (idt_gate isr fl)).

Definition idt_load (limit base : Z) : M kernel unit := emit (Lidt limit base) ;; emit Sti.

(** The interrupt numbers the macro goes through, one by one from 0 to 255. *)
Definition X_ISR : list Z := seqZ 0 256.

(** [X(x)] for every number. *)
Fixpoint for_isrs (X : Z -> M kernel unit) (l : list Z) : M kernel unit :=
  match l with
  | [] => mret tt
  | x :: l => X x ;; for_isrs X l
  end.

(** [isrs i] is the address of the assembly stub [isr##i]. *)
Definition idt_init (idt : Z) (isrs : Z -> Z) : M kernel unit :=
  for_isrs (fun x => idt_set idt x (isrs x) (Z.lor 0x8E 0x60)) X_ISR ;;
  idt_load (IDT_ENTRY_SIZE * 256 - 1) idt.
