(* ===== verification/DescTheorems.v ===== *)
(** * Descriptors: theorems

    The gates and descriptors the kernel builds, read back the way the processor does. *)
From S2P Require Import Prelude Memory Mem Pow2 State Ctx Desc.

(** The fields of a 16-byte interrupt gate. *)
Definition field (bs : list Z) (o n : nat) : Z := le_join (take n (drop o bs)).
Definition gate_offset (bs : list Z) : Z := field bs 0 2 + 2 ^ 16 * field bs 6 2 + 2 ^ 32 * field bs 8 4.
Definition gate_selector (bs : list Z) : Z := field bs 2 2.
Definition gate_type (bs : list Z) : Z := Z.land (field bs 5 1) 0xF.
Definition gate_dpl (bs : list Z) : Z := Z.land (Z.shiftr (field bs 5 1) 5) 3.
Definition gate_present (bs : list Z) : bool := Z.testbit (field bs 5 1) 7.

(** The fields of a 16-byte system descriptor. *)
Definition seg_base (bs : list Z) : Z := field bs 2 3 + 2 ^ 24 * field bs 7 5.
Definition seg_limit (bs : list Z) : Z := field bs 0 2 + 2 ^ 16 * Z.land (field bs 6 1) 0xF.
Definition seg_type (bs : list Z) : Z := Z.land (field bs 5 1) 0x1F.

Lemma land_mask x n : 0 <= n -> Z.land x (2 ^ n - 1) = x mod 2 ^ n.
Proof. intros Hn. replace (2 ^ n - 1) with (Z.ones n) by (rewrite Z.ones_equiv; lia). by apply Z.land_ones. Qed.

Lemma split_field n v : le_join (le_split n v) = v mod 2 ^ (8 * Z.of_nat n).
Proof. apply le_join_split. Qed.

Lemma gate_offset_isr isr fl : u64 isr -> gate_offset (gate_bytes (idt_gate isr fl)) = isr.
Proof.
  unfold u64. intros Hi. unfold gate_offset.
  change (field _ 0 2) with (le_join (le_split 2 (Z.land isr (2 ^ 16 - 1)))).
  change (field _ 6 2) with (le_join (le_split 2 (Z.land (Z.shiftr isr 16) (2 ^ 16 - 1)))).
  change (field _ 8 4) with (le_join (le_split 4 (w32 (Z.shiftr isr 32)))).
  rewrite !split_field, !land_mask, !Z.shiftr_div_pow2 by lia. unfold w32. simpl Z.of_nat.
  rewrite !Z.mod_mod by lia. rewrite (Z.mod_small (isr / 2 ^ 32)) by divlia.
  change (2 ^ 32) with (2 ^ 16 * 2 ^ 16). rewrite <- Z.div_div by lia. divlia.
Qed.

Lemma le_join_app a b : le_join (a ++ b) = le_join a + 2 ^ (8 * Z.of_nat (length a)) * le_join b.
Proof.
  induction a as [|x a IH]; [simpl; lia|]. cbn [le_join app length]. rewrite IH, Nat2Z.inj_succ.
  replace (8 * Z.succ (Z.of_nat (length a))) with (8 + 8 * Z.of_nat (length a)) by lia. rewrite Z.pow_add_r by lia. lia.
Qed.

Lemma seg_base_tss base : u64 base -> seg_base (tss_desc_bytes (tss_descriptor base)) = base.
Proof.
  unfold u64. intros Hb. unfold seg_base.
  change (field _ 2 3) with (le_join (le_split 2 (Z.land base (2 ^ 16 - 1)) ++ [Z.land (Z.shiftr base 16) (2 ^ 8 - 1)])).
  change (field _ 7 5) with (le_join ([Z.land (Z.shiftr base 24) (2 ^ 8 - 1)] ++ le_split 4 (w32 (Z.shiftr base 32)))).
  rewrite !le_join_app, !split_field, !length_le_split, !land_mask, !Z.shiftr_div_pow2 by lia. unfold w32.
  cbn [le_join length]. simpl Z.of_nat. rewrite !Z.mod_mod by lia. rewrite (Z.mod_small (base / 2 ^ 32)) by divlia.
  change (2 ^ 32) with (2 ^ 16 * 2 ^ 8 * 2 ^ 8). change (2 ^ 24) with (2 ^ 16 * 2 ^ 8). rewrite <- !Z.div_div by lia. divlia.
Qed.

(** C38. The interrupt gate for the stub [isr] is, to the processor, a present 64-bit
    interrupt gate (type 14) into the kernel's code segment that user code may call, at
    exactly [isr]; and the task state descriptor for [base] is an available 64-bit TSS
    at exactly [base], whose limit is the size of the structure and not its last byte. *)
Theorem descriptors_decode isr base : u64 isr -> u64 base ->
  let g := gate_bytes (idt_gate isr (Z.lor 0x8E 0x60)) in
  let t := tss_desc_bytes (tss_descriptor base) in
  length g = 16%nat /\ gate_offset g = isr /\ gate_selector g = 8 /\ gate_type g = 14 /\ gate_dpl g = 3 /\
  gate_present g = true /\
  length t = 16%nat /\ seg_base t = base /\ seg_type t = 9 /\ seg_limit t = TSS_SIZE.
Proof.
  intros Hi Hb g t. split; [done|]. split; [by apply gate_offset_isr|]. split; [reflexivity|].
  split; [reflexivity|]. split; [reflexivity|]. split; [reflexivity|]. split; [done|]. split; [by apply seg_base_tss|].
  by split.
Qed.

Lemma descriptors_decode_witness :
  let g := gate_bytes (idt_gate 0xffffffff80001234 (Z.lor 0x8E 0x60)) in
  let t := tss_desc_bytes (tss_descriptor 0xffff800000005678) in
  length g = 16%nat /\ gate_offset g = 0xffffffff80001234 /\ gate_selector g = 8 /\ gate_type g = 14 /\ gate_dpl g = 3 /\
  gate_present g = true /\
  length t = 16%nat /\ seg_base t = 0xffff800000005678 /\ seg_type t = 9 /\ seg_limit t = TSS_SIZE.
Proof. apply (descriptors_decode 0xffffffff80001234 0xffff800000005678); unfold u64; lia. Defined.
