(* ===== verification/Printf.v ===== *)
(** * kernel/nanoprintf.h, as configured by kernel/io.c: formatted output

    [npf_vpprintf] on its format and its arguments: what it hands to [putc], character by
    character, and the number it returns.  Strings are the characters before the NUL, as
    C's signed [char]s.  The result [None] stands for undefined behaviour: a signed
    overflow, a write past the 32 bytes of [cbuf_mem], or a [va_arg] for which there is no
    argument of the right class.  The flags of io.c: field widths, precisions, floats,
    large and binary specifiers are on, write-back is off. *)
From S2P Require Import Prelude Memory State.

(** The value of a sum of [int]s, when an [int] can hold it. *)
Definition int (x : Z) : option Z := if (-2 ^ 31 <=? x) && (x <? 2 ^ 31) then Some x else None.

Definition s16 (x : Z) : Z := (x + 2 ^ 15) mod 2 ^ 16 - 2 ^ 15.
Definition s64 (x : Z) : Z := (x + 2 ^ 63) mod 2 ^ 64 - 2 ^ 63.

(** ** Format specifications *)

Inductive npf_fmt_spec_opt_t : Set := NPF_FMT_SPEC_OPT_NONE | NPF_FMT_SPEC_OPT_LITERAL | NPF_FMT_SPEC_OPT_STAR.

Inductive npf_format_spec_length_modifier_t : Set :=
  | NPF_FMT_SPEC_LEN_MOD_NONE
  | NPF_FMT_SPEC_LEN_MOD_SHORT
  | NPF_FMT_SPEC_LEN_MOD_LONG_DOUBLE
  | NPF_FMT_SPEC_LEN_MOD_CHAR
  | NPF_FMT_SPEC_LEN_MOD_LONG
  | NPF_FMT_SPEC_LEN_MOD_LARGE_LONG_LONG
  | NPF_FMT_SPEC_LEN_MOD_LARGE_INTMAX
  | NPF_FMT_SPEC_LEN_MOD_LARGE_SIZET
  | NPF_FMT_SPEC_LEN_MOD_LARGE_PTRDIFFT.

Inductive npf_format_spec_conversion_t : Set :=
  | NPF_FMT_SPEC_CONV_PERCENT
  | NPF_FMT_SPEC_CONV_CHAR
  | NPF_FMT_SPEC_CONV_STRING
  | NPF_FMT_SPEC_CONV_SIGNED_INT
  | NPF_FMT_SPEC_CONV_BINARY
  | NPF_FMT_SPEC_CONV_OCTAL
  | NPF_FMT_SPEC_CONV_HEX_INT
  | NPF_FMT_SPEC_CONV_UNSIGNED_INT
  | NPF_FMT_SPEC_CONV_POINTER
  | NPF_FMT_SPEC_CONV_FLOAT_DEC
  | NPF_FMT_SPEC_CONV_FLOAT_SCI
  | NPF_FMT_SPEC_CONV_FLOAT_SHORTEST
  | NPF_FMT_SPEC_CONV_FLOAT_HEX.

#[export] Instance opt_eq_dec : EqDecision npf_fmt_spec_opt_t.
Proof. solve_decision. Defined.
#[export] Instance modifier_eq_dec : EqDecision npf_format_spec_length_modifier_t.
Proof. solve_decision. Defined.
#[export] Instance conversion_eq_dec : EqDecision npf_format_spec_conversion_t.
Proof. solve_decision. Defined.

(** [struct npf_format_spec]: the flags, then the rest. *)
Record npf_flags := Flags { prepend : Z; alt_form : Z; left_justified : Z; leading_zero_pad : Z }.

Record npf_format_spec_t := FormatSpec {
  flags : npf_flags;
  field_width_opt : npf_fmt_spec_opt_t;
  field_width : Z;
  prec_opt : npf_fmt_spec_opt_t;
  prec : Z;
  length_modifier : npf_format_spec_length_modifier_t;
  conv_spec : npf_format_spec_conversion_t;
  case_adjust : Z;
}.

Definition set_zero_pad (z : Z) (f : npf_flags) : npf_flags := Flags (prepend f) (alt_form f) (left_justified f) z.

(** ['a'-'A'] *)
Definition lowercase : Z := 32.

(** [*cur]: at the end of the string, the NUL. *)
Definition peek (l : list Z) : Z := default 0 (head l).

Definition is_digit (c : Z) : bool := (48 <=? c) && (c <=? 57).

(** The loop over the flags: '-' 45, '0' 48, '+' 43, ' ' 32, '#' 35. *)
Fixpoint parse_flags (f : npf_flags) (l : list Z) : npf_flags * list Z :=
  match l with
  | [] => (f, l)
  | c :: l' =>
      if c =? 45 then parse_flags (Flags (prepend f) (alt_form f) 45 0) l'
      else if c =? 48 then parse_flags (set_zero_pad (if left_justified f =? 0 then 1 else 0) f) l'
      else if c =? 43 then parse_flags (Flags 43 (alt_form f) (left_justified f) (leading_zero_pad f)) l'
      else if c =? 32 then
        parse_flags (Flags (if prepend f =? 0 then 32 else prepend f) (alt_form f) (left_justified f) (leading_zero_pad f)) l'
      else if c =? 35 then parse_flags (Flags (prepend f) 35 (left_justified f) (leading_zero_pad f)) l'
      else (f, l)
  end.

(** The digits read so far are worth [n]. *)
Fixpoint parse_int (n : Z) (l : list Z) : option (Z * list Z) :=
  match l with
  | [] => Some (n, l)
  | c :: l' =>
      if is_digit c then n ← int (n * 10); n ← int (n + (c - 48)); parse_int n l' else Some (n, l)
  end.

(** The field width; after a '*' (42) the field is set from the arguments. *)
Definition parse_width (l : list Z) : option (npf_fmt_spec_opt_t * Z * list Z) :=
  if peek l =? 42 then Some (NPF_FMT_SPEC_OPT_STAR, 0, tail l)
  else
    '(n, l') ← parse_int 0 l;
    Some (if is_digit (peek l) then NPF_FMT_SPEC_OPT_LITERAL else NPF_FMT_SPEC_OPT_NONE, n, l').

(** The precision: '.' 46, '*' 42, '-' 45. *)
Definition parse_prec (l : list Z) : option (npf_fmt_spec_opt_t * Z * list Z) :=
  if peek l =? 46 then
    let l := tail l in
    if peek l =? 42 then Some (NPF_FMT_SPEC_OPT_STAR, 0, tail l)
    else if peek l =? 45 then '(n, l) ← parse_int 0 (tail l); Some (NPF_FMT_SPEC_OPT_NONE, n, l)
    else '(n, l) ← parse_int 0 l; Some (NPF_FMT_SPEC_OPT_LITERAL, n, l)
  else Some (NPF_FMT_SPEC_OPT_NONE, 0, l).

(** The length modifier: 'h' 104, 'l' 108, 'L' 76, 'j' 106, 'z' 122, 't' 116. *)
Definition parse_length (l : list Z) : npf_format_spec_length_modifier_t * list Z :=
  let c := peek l in
  if c =? 104 then
    let l := tail l in
    if peek l =? 104 then (NPF_FMT_SPEC_LEN_MOD_CHAR, tail l) else (NPF_FMT_SPEC_LEN_MOD_SHORT, l)
  else if c =? 108 then
    let l := tail l in
    if peek l =? 108 then (NPF_FMT_SPEC_LEN_MOD_LARGE_LONG_LONG, tail l) else (NPF_FMT_SPEC_LEN_MOD_LONG, l)
  else if c =? 76 then (NPF_FMT_SPEC_LEN_MOD_LONG_DOUBLE, tail l)
  else if c =? 106 then (NPF_FMT_SPEC_LEN_MOD_LARGE_INTMAX, tail l)
  else if c =? 122 then (NPF_FMT_SPEC_LEN_MOD_LARGE_SIZET, tail l)
  else if c =? 116 then (NPF_FMT_SPEC_LEN_MOD_LARGE_PTRDIFFT, tail l)
  else (NPF_FMT_SPEC_LEN_MOD_NONE, l).

(** The conversion specifier and the [case_adjust] it sets: '%' 37, 'c' 99, 's' 115,
    'i' 105, 'd' 100, 'o' 111, 'u' 117, 'X' 88, 'x' 120, 'F' 70, 'f' 102, 'E' 69, 'e' 101,
    'G' 71, 'g' 103, 'A' 65, 'a' 97, 'p' 112, 'B' 66, 'b' 98. *)
Definition conversion_of (c : Z) : option (npf_format_spec_conversion_t * Z) :=
  if c =? 37 then Some (NPF_FMT_SPEC_CONV_PERCENT, lowercase)
  else if c =? 99 then Some (NPF_FMT_SPEC_CONV_CHAR, lowercase)
  else if c =? 115 then Some (NPF_FMT_SPEC_CONV_STRING, lowercase)
  else if (c =? 105) || (c =? 100) then Some (NPF_FMT_SPEC_CONV_SIGNED_INT, lowercase)
  else if c =? 111 then Some (NPF_FMT_SPEC_CONV_OCTAL, lowercase)
  else if c =? 117 then Some (NPF_FMT_SPEC_CONV_UNSIGNED_INT, lowercase)
  else if c =? 88 then Some (NPF_FMT_SPEC_CONV_HEX_INT, 0)
  else if c =? 120 then Some (NPF_FMT_SPEC_CONV_HEX_INT, lowercase)
  else if c =? 70 then Some (NPF_FMT_SPEC_CONV_FLOAT_DEC, 0)
  else if c =? 102 then Some (NPF_FMT_SPEC_CONV_FLOAT_DEC, lowercase)
  else if c =? 69 then Some (NPF_FMT_SPEC_CONV_FLOAT_SCI, 0)
  else if c =? 101 then Some (NPF_FMT_SPEC_CONV_FLOAT_SCI, lowercase)
  else if c =? 71 then Some (NPF_FMT_SPEC_CONV_FLOAT_SHORTEST, 0)
  else if c =? 103 then Some (NPF_FMT_SPEC_CONV_FLOAT_SHORTEST, lowercase)
  else if c =? 65 then Some (NPF_FMT_SPEC_CONV_FLOAT_HEX, 0)
  else if c =? 97 then Some (NPF_FMT_SPEC_CONV_FLOAT_HEX, lowercase)
  else if c =? 112 then Some (NPF_FMT_SPEC_CONV_POINTER, lowercase)
  else if c =? 66 then Some (NPF_FMT_SPEC_CONV_BINARY, 0)
  else if c =? 98 then Some (NPF_FMT_SPEC_CONV_BINARY, lowercase)
  else None.

Definition is_float (c : npf_format_spec_conversion_t) : bool :=
  match c with
  | NPF_FMT_SPEC_CONV_FLOAT_DEC | NPF_FMT_SPEC_CONV_FLOAT_SCI
  | NPF_FMT_SPEC_CONV_FLOAT_SHORTEST | NPF_FMT_SPEC_CONV_FLOAT_HEX => true
  | _ => false
  end.

(** What the conversion specifier changes of the fields read before it. *)
Definition adjust (conv : npf_format_spec_conversion_t) (f : npf_flags) (po : npf_fmt_spec_opt_t) (p : Z)
    : npf_flags * npf_fmt_spec_opt_t * Z :=
  match conv with
  | NPF_FMT_SPEC_CONV_PERCENT | NPF_FMT_SPEC_CONV_CHAR | NPF_FMT_SPEC_CONV_POINTER => (f, NPF_FMT_SPEC_OPT_NONE, p)
  | NPF_FMT_SPEC_CONV_STRING => (set_zero_pad 0 f, po, p)
  | NPF_FMT_SPEC_CONV_SIGNED_INT | NPF_FMT_SPEC_CONV_OCTAL | NPF_FMT_SPEC_CONV_HEX_INT
  | NPF_FMT_SPEC_CONV_UNSIGNED_INT =>
      (if decide (po = NPF_FMT_SPEC_OPT_NONE) then f else set_zero_pad 0 f, po, p)
  | NPF_FMT_SPEC_CONV_BINARY => (f, po, p)
  | NPF_FMT_SPEC_CONV_FLOAT_DEC | NPF_FMT_SPEC_CONV_FLOAT_SCI
  | NPF_FMT_SPEC_CONV_FLOAT_SHORTEST | NPF_FMT_SPEC_CONV_FLOAT_HEX =>
      (f, po, if decide (po = NPF_FMT_SPEC_OPT_NONE) then 6 else p)
  end.

(** [format] points at the '%'.  Returns the specification and what follows it (the code
    returns how long it is), or [Some None] for the code's 0. *)
Definition npf_parse_format_spec (format : list Z) : option (option (npf_format_spec_t * list Z)) :=
  let '(f, cur) := parse_flags (Flags 0 0 0 0) (tail format) in
  '(wo, w, cur) ← parse_width cur;
  '(po, p, cur) ← parse_prec cur;
  let '(lm, cur) := parse_length cur in
  Some (
    '(conv, adj) ← conversion_of (peek cur);
    let '(f, po, p) := adjust conv f po p in
    Some (FormatSpec f wo w po p lm conv adj, tail cur)).

(** ** Conversions

    An argument as [va_arg] finds it: the low 32 or all 64 bits of an integer or pointer,
    a string by its characters, or the bits of the [float] a floating-point argument is
    converted to. *)
Inductive arg : Type :=
  | AInt (z : Z)
  | AQuad (z : Z)
  | AStr (s : list Z)
  | ADouble (bits : Z)
  | ALongDouble (bits : Z).

(** An [int] can also be taken from a 64-bit argument: its low half. *)
Definition va_int (args : list arg) : option (Z * list arg) :=
  match args with AInt z :: l | AQuad z :: l => Some (w32 z, l) | _ => None end.
Definition va_quad (args : list arg) : option (Z * list arg) :=
  match args with AQuad z :: l => Some (w64 z, l) | _ => None end.
Definition va_str (args : list arg) : option (list Z * list arg) :=
  match args with AStr s :: l => Some (s, l) | _ => None end.
Definition va_float (m : npf_format_spec_length_modifier_t) (args : list arg) : option (Z * list arg) :=
  match args with
  | ADouble b :: l => if decide (m = NPF_FMT_SPEC_LEN_MOD_LONG_DOUBLE) then None else Some (b, l)
  | ALongDouble b :: l => if decide (m = NPF_FMT_SPEC_LEN_MOD_LONG_DOUBLE) then Some (b, l) else None
  | _ => None
  end.

(** The [NPF_EXTRACT] of a signed and of an unsigned integer. *)
Definition extract_signed (m : npf_format_spec_length_modifier_t) (args : list arg) : option (Z * list arg) :=
  match m with
  | NPF_FMT_SPEC_LEN_MOD_NONE | NPF_FMT_SPEC_LEN_MOD_LONG_DOUBLE => '(z, l) ← va_int args; Some (s32 z, l)
  | NPF_FMT_SPEC_LEN_MOD_SHORT => '(z, l) ← va_int args; Some (s16 z, l)
  | NPF_FMT_SPEC_LEN_MOD_CHAR => '(z, l) ← va_int args; Some (s8 z, l)
  | _ => '(z, l) ← va_quad args; Some (s64 z, l)
  end.

Definition extract_unsigned (m : npf_format_spec_length_modifier_t) (args : list arg) : option (Z * list arg) :=
  match m with
  | NPF_FMT_SPEC_LEN_MOD_NONE | NPF_FMT_SPEC_LEN_MOD_LONG_DOUBLE => va_int args
  | NPF_FMT_SPEC_LEN_MOD_SHORT => '(z, l) ← va_int args; Some (w16 z, l)
  | NPF_FMT_SPEC_LEN_MOD_CHAR => '(z, l) ← va_int args; Some (w8 z, l)
  | _ => va_quad args
  end.

(** [sizeof u.cbuf_mem] *)
Definition CBUF_SIZE : nat := 32.

Definition npf_max (x y : Z) : Z := if y <? x then x else y.

(** Digits from the last one on, into a buffer with [room] bytes left. *)
Fixpoint npf_itoa_loop (room : nat) (sign i : Z) : option (list Z) :=
  match room with
  | O => None
  | S room =>
      let c := 48 + sign * Z.rem i 10 in
      let i := Z.quot i 10 in
      if i =? 0 then Some [c] else l ← npf_itoa_loop room sign i; Some (c :: l)
  end.

Definition npf_itoa_rev (room : nat) (i : Z) : option (list Z) :=
  npf_itoa_loop room (if 0 <=? i then 1 else -1) i.

Fixpoint npf_utoa_rev (room : nat) (i base case_adj : Z) : option (list Z) :=
  match room with
  | O => None
  | S room =>
      let d := i mod base in
      let c := if d <? 10 then 48 + d else 65 + case_adj + (d - 10) in
      let i := i / base in
      if i =? 0 then Some [c] else l ← npf_utoa_rev room i base case_adj; Some (c :: l)
  end.

(** 64 less the leading zeros. *)
Definition npf_bin_len (u : Z) : Z := if u =? 0 then 1 else Z.log2 u + 1.

Definition NPF_MANTISSA_BITS : Z := 23.
Definition NPF_EXPONENT_BIAS : Z := 127.
Definition NPF_FRACTION_BIN_DIGITS : Z := 64.
Definition NPF_MAX_FRACTION_DEC_DIGITS : nat := 8.

(** [frac &= 0x0fffffffffffffff; frac *= 10;] *)
Definition frac_step (frac : Z) : Z := mul64 (Z.land frac 0x0fffffffffffffff) 10.

(** The number of zeros the fraction starts with, and the fraction after them. *)
Fixpoint frac_zeros (fuel : nat) (frac : Z) : option (Z * Z) :=
  match fuel with
  | O => None
  | S fuel =>
      if negb (frac =? 0) && (Z.shiftr frac (NPF_FRACTION_BIN_DIGITS - 4) =? 0) then
        '(n, frac) ← frac_zeros fuel (frac_step frac); Some (n + 1, frac)
      else Some (0, frac)
  end.

(** At most [n] digits of the fraction. *)
Fixpoint frac_digits (n : nat) (frac frac_part : Z) : Z :=
  match n with
  | O => frac_part
  | S n =>
      if frac =? 0 then frac_part
      else frac_digits n (frac_step frac)
             (add64 (mul64 frac_part 10) (Z.shiftr frac (NPF_FRACTION_BIN_DIGITS - 4)))
  end.

(** The integer part, the decimal digits of the fraction as a number and how many zeros
    come before them; [Some None] when the value is out of range (the code's 0). *)
Definition npf_fsplit_abs (f_bits : Z) : option (option (Z * Z * Z)) :=
  let exponent := Z.land (Z.shiftr f_bits NPF_MANTISSA_BITS) 0xFF - NPF_EXPONENT_BIAS - NPF_MANTISSA_BITS in
  if 64 - NPF_MANTISSA_BITS <=? exponent then Some None else
  let mantissa_norm := Z.lor (Z.land f_bits (2 ^ 23 - 1)) (2 ^ 23) in
  let int_part :=
    if 0 <? exponent then w64 (Z.shiftl mantissa_norm exponent)
    else if exponent <? 0 then
      (if NPF_MANTISSA_BITS <? - exponent then 0 else Z.shiftr mantissa_norm (- exponent))
    else mantissa_norm in
  let shift := NPF_FRACTION_BIN_DIGITS + exponent - 4 in
  let frac :=
    if (NPF_FRACTION_BIN_DIGITS - 4 <=? shift) || (shift <? 0) then 0
    else w64 (Z.shiftl mantissa_norm shift) in
  '(zeros, frac) ← frac_zeros 32 (frac_step frac);
  Some (Some (int_part, frac_digits NPF_MAX_FRACTION_DEC_DIGITS frac 0, zeros)).

(** Writes of one character and of [n] zeros at the end of the buffer. *)
Definition buf_put (buf : list Z) (c : Z) : option (list Z) :=
  if (length buf <? CBUF_SIZE)%nat then Some (buf ++ [c]) else None.

Fixpoint buf_zeros (n : nat) (buf : list Z) : option (list Z) :=
  match n with
  | O => Some buf
  | S n => buf ← buf_put buf 48; buf_zeros n buf
  end.

(** [while (n) { *dst++ = '0' + n % 10; n /= 10; }]; the buffer ends the recursion. *)
Fixpoint buf_digits (fuel : nat) (n : Z) (buf : list Z) : option (list Z) :=
  match fuel with
  | O => None
  | S fuel => if n =? 0 then Some buf else buf ← buf_put buf (48 + n mod 10); buf_digits fuel (n / 10) buf
  end.

(** What the code says with a negative length: the three letters of a value that is not
    a number, infinite or out of range, backwards. *)
Definition special (word : list Z) (case_adj : Z) : list Z := (fun c => c + case_adj) <$> word.

(** The text backwards, the number of characters of the fraction, and whether it is one
    of those three words. *)
Definition npf_ftoa_rev (f_bits case_adj : Z) : option (list Z * Z * bool) :=
  if Z.land (Z.shiftr f_bits 23) 0xFF =? 0xFF then
    if negb (Z.land f_bits 0x7fffff =? 0) then Some (special (cstr "NAN") case_adj, 0, true)
    else Some (special (cstr "FNI") case_adj, 0, true)
  else
    r ← npf_fsplit_abs f_bits;
    match r with
    | None => Some (special (cstr "ROO") case_adj, 0, true)
    | Some (int_part, frac_part, zeros) =>
        buf ← buf_digits (S CBUF_SIZE) frac_part [];
        buf ← buf_zeros (Z.to_nat zeros) buf;
        let frac_chars := Z.of_nat (length buf) in
        buf ← buf_put buf 46;
        buf ← buf_put buf (48 + int_part mod 10);
        buf ← buf_digits (S CBUF_SIZE) (int_part / 10) buf;
        Some (buf, frac_chars, false)
    end.

(** ** One directive *)

Definition set_width (left w : Z) (fs : npf_format_spec_t) : npf_format_spec_t :=
  let f := flags fs in
  FormatSpec (Flags (prepend f) (alt_form f) left (leading_zero_pad f)) NPF_FMT_SPEC_OPT_LITERAL w
    (prec_opt fs) (prec fs) (length_modifier fs) (conv_spec fs) (case_adjust fs).

Definition set_prec (o : npf_fmt_spec_opt_t) (p : Z) (fs : npf_format_spec_t) : npf_format_spec_t :=
  FormatSpec (flags fs) (field_width_opt fs) (field_width fs) o p (length_modifier fs) (conv_spec fs) (case_adjust fs).

(** "Extract star-args immediately" *)
Definition star_width (fs : npf_format_spec_t) (args : list arg) : option (npf_format_spec_t * list arg) :=
  if decide (field_width_opt fs = NPF_FMT_SPEC_OPT_STAR) then
    '(z, args) ← va_int args;
    let w := s32 z in
    if w <? 0 then w ← int (- w); Some (set_width 1 w fs, args)
    else Some (set_width (left_justified (flags fs)) w fs, args)
  else Some (fs, args).

Definition star_prec (fs : npf_format_spec_t) (args : list arg) : option (npf_format_spec_t * list arg) :=
  if decide (prec_opt fs = NPF_FMT_SPEC_OPT_STAR) then
    '(z, args) ← va_int args;
    let p := s32 z in
    Some (set_prec (if 0 <=? p then NPF_FMT_SPEC_OPT_LITERAL else NPF_FMT_SPEC_OPT_NONE) p fs, args)
  else Some (fs, args).

(** The local variables the conversion sets; [binval] is the other use of the buffer. *)
Record conv := Conv {
  cbuf : list Z; cbuf_len : Z; binval : Z; sign_c : Z; need_0x : Z;
  frac_chars : Z; inf_or_nan : bool; zero : bool
}.

Definition text (l : list Z) : conv := Conv l (Z.of_nat (length l)) 0 0 0 0 false false.

(** The length of a string, up to the precision. *)
Fixpoint str_len (fs : npf_format_spec_t) (s : list Z) (n : Z) : option Z :=
  match s with
  | [] => Some n
  | _ :: s =>
      if bool_decide (prec_opt fs = NPF_FMT_SPEC_OPT_NONE) || (n <? prec fs) then n ← int (n + 1); str_len fs s n
      else Some n
  end.

(** "Zero value and explicitly-requested zero precision means print nothing." *)
Definition prints_nothing (fs : npf_format_spec_t) (val : Z) : bool :=
  (val =? 0) && bool_decide (prec_opt fs = NPF_FMT_SPEC_OPT_LITERAL) && (prec fs =? 0).

Definition convert_signed (fs : npf_format_spec_t) (val : Z) : option conv :=
  let sign := if val <? 0 then 45 else prepend (flags fs) in
  buf ← (if prints_nothing fs val then Some [] else npf_itoa_rev CBUF_SIZE val);
  Some (Conv buf (Z.of_nat (length buf)) 0 sign 0 0 false (val =? 0)).

Definition base_of (c : npf_format_spec_conversion_t) : Z :=
  match c with NPF_FMT_SPEC_CONV_OCTAL => 8 | NPF_FMT_SPEC_CONV_HEX_INT => 16 | _ => 10 end.

(** The letter of "0x" or "0b": 'X' 88, 'B' 66. *)
Definition alt_letter (fs : npf_format_spec_t) (val : Z) : Z :=
  if negb (val =? 0) && negb (alt_form (flags fs) =? 0) then
    match conv_spec fs with
    | NPF_FMT_SPEC_CONV_HEX_INT => 88 + case_adjust fs
    | NPF_FMT_SPEC_CONV_BINARY => 66 + case_adjust fs
    | _ => 0
    end
  else 0.

(** The octal, hexadecimal, decimal and binary numbers; also the precision, which an
    octal zero changes. *)
Definition convert_unsigned (fs : npf_format_spec_t) (val : Z) : option (npf_format_spec_t * conv) :=
  let c := conv_spec fs in
  let alt := negb (alt_form (flags fs) =? 0) in
  let octal := bool_decide (c = NPF_FMT_SPEC_CONV_OCTAL) in
  let zero := val =? 0 in
  if prints_nothing fs val then
    Some (if octal && alt then set_prec (prec_opt fs) 1 fs else fs, Conv [] 0 0 0 0 0 false zero)
  else if decide (c = NPF_FMT_SPEC_CONV_BINARY) then
    Some (fs, Conv [] (npf_bin_len val) val 0 (alt_letter fs val) 0 false zero)
  else
    buf ← npf_utoa_rev CBUF_SIZE val (base_of c) (case_adjust fs);
    buf ← (if negb zero && alt && octal then buf_put buf 48 else Some buf);
    Some (fs, Conv buf (Z.of_nat (length buf)) 0 0 (alt_letter fs val) 0 false zero).

Definition float_negative (f_bits : Z) : bool :=
  Z.testbit f_bits 31 && negb (Z.land f_bits 0x7fffffff =? 0) &&
  (Z.land f_bits 0x7fffffff <=? 0x7f800000).

Definition convert_float (fs : npf_format_spec_t) (f_bits : Z) : option conv :=
  let sign := if float_negative f_bits then 45 else prepend (flags fs) in
  let zero := Z.land f_bits 0x7fffffff =? 0 in
  '(buf, frac, special) ← npf_ftoa_rev f_bits (case_adjust fs);
  if (special : bool) then Some (Conv buf (Z.of_nat (length buf)) 0 sign 0 frac true zero)
  else
    d ← int (frac - prec fs);
    let prec_adj := npf_max 0 d in
    len ← int (Z.of_nat (length buf) - prec_adj);
    Some (Conv (drop (Z.to_nat prec_adj) buf) len 0 sign 0 frac false zero).

(** "Extract and convert the argument to string." *)
Definition npf_convert (fs : npf_format_spec_t) (args : list arg) : option (npf_format_spec_t * conv * list arg) :=
  match conv_spec fs with
  | NPF_FMT_SPEC_CONV_PERCENT => Some (fs, text [37], args)
  | NPF_FMT_SPEC_CONV_CHAR => '(z, args) ← va_int args; Some (fs, text [s8 z], args)
  | NPF_FMT_SPEC_CONV_STRING =>
      '(s, args) ← va_str args;
      n ← str_len fs s 0;
      Some (fs, Conv s n 0 0 0 0 false false, args)
  | NPF_FMT_SPEC_CONV_SIGNED_INT =>
      '(val, args) ← extract_signed (length_modifier fs) args;
      c ← convert_signed fs val; Some (fs, c, args)
  | NPF_FMT_SPEC_CONV_BINARY | NPF_FMT_SPEC_CONV_OCTAL | NPF_FMT_SPEC_CONV_HEX_INT
  | NPF_FMT_SPEC_CONV_UNSIGNED_INT =>
      '(val, args) ← extract_unsigned (length_modifier fs) args;
      '(fs, c) ← convert_unsigned fs val; Some (fs, c, args)
  | NPF_FMT_SPEC_CONV_POINTER =>
      '(p, args) ← va_quad args;
      buf ← npf_utoa_rev CBUF_SIZE p 16 lowercase;
      Some (fs, Conv buf (Z.of_nat (length buf)) 0 0 120 0 false false, args)
  | NPF_FMT_SPEC_CONV_FLOAT_DEC | NPF_FMT_SPEC_CONV_FLOAT_SCI
  | NPF_FMT_SPEC_CONV_FLOAT_SHORTEST | NPF_FMT_SPEC_CONV_FLOAT_HEX =>
      '(b, args) ← va_float (length_modifier fs) args;
      c ← convert_float fs b; Some (fs, c, args)
  end.

Definition is_dec (fs : npf_format_spec_t) : bool := bool_decide (conv_spec fs = NPF_FMT_SPEC_CONV_FLOAT_DEC).
Definition is_string (fs : npf_format_spec_t) : bool := bool_decide (conv_spec fs = NPF_FMT_SPEC_CONV_STRING).

(** "if 0 precision, skip the fractional part and '.'" *)
Definition no_point (fs : npf_format_spec_t) : bool := is_dec fs && (prec fs =? 0) && (alt_form (flags fs) =? 0).

(** "Compute the field width pad character": none (0), ' ' 32 or '0' 48. *)
Definition pad_char (fs : npf_format_spec_t) (c : conv) : Z :=
  if decide (field_width_opt fs = NPF_FMT_SPEC_OPT_LITERAL) then
    if negb (leading_zero_pad (flags fs) =? 0) then
      match conv_spec fs with
      | NPF_FMT_SPEC_CONV_STRING | NPF_FMT_SPEC_CONV_CHAR | NPF_FMT_SPEC_CONV_PERCENT => 0
      | _ => if bool_decide (prec_opt fs = NPF_FMT_SPEC_OPT_LITERAL) && (prec fs =? 0) && zero c then 32 else 48
      end
    else 32
  else 0.

(** "Compute the number of bytes to truncate or '0'-pad." *)
Definition prec_pad (fs : npf_format_spec_t) (c : conv) : option Z :=
  if is_string fs || inf_or_nan c then Some 0
  else d ← int (prec fs - (if is_dec fs then frac_chars c else cbuf_len c)); Some (npf_max 0 d).

(** "Given the full converted length, how many pad bytes?" *)
Definition field_pad (fs : npf_format_spec_t) (c : conv) (prec_pad : Z) : option Z :=
  n ← int (field_width fs - cbuf_len c);
  n ← int (n - (if sign_c c =? 0 then 0 else 1));
  n ← int (n - (if need_0x c =? 0 then 0 else 2));
  n ← int (n + (if no_point fs then 1 else 0));
  n ← int (n - prec_pad);
  Some (npf_max 0 n).

Definition pads (n c : Z) : list Z := replicate (Z.to_nat n) c.

(** The payload is in the buffer backwards. *)
Definition payload (fs : npf_format_spec_t) (c : conv) : list Z :=
  if decide (conv_spec fs = NPF_FMT_SPEC_CONV_BINARY) then
    (fun k => 48 + Z.land (Z.shiftr (binval c) (Z.of_nat k)) 1) <$> rev (seq 0 (Z.to_nat (cbuf_len c)))
  else if no_point fs then rev (take (Z.to_nat (cbuf_len c - 1)) (tail (cbuf c)))
  else rev (take (Z.to_nat (cbuf_len c)) (cbuf c)).

(** Everything the directive prints. *)
Definition npf_emit (fs : npf_format_spec_t) (c : conv) : option (list Z) :=
  let pad_c := pad_char fs c in
  pp ← prec_pad fs c;
  fp ← field_pad fs c pp;
  let sign := if sign_c c =? 0 then [] else [sign_c c] in
  let prefix := if need_0x c =? 0 then [] else [48; need_0x c] in
  let right := (left_justified (flags fs) =? 0) && negb (pad_c =? 0) in
  let '(front, sign) :=
    if right then
      (if pad_c =? 48 then (sign ++ prefix ++ pads fp pad_c, []) else (pads fp pad_c ++ prefix, sign))
    else (prefix, sign) in
  let body :=
    if is_string fs then take (Z.to_nat (cbuf_len c)) (cbuf c)
    else
      sign ++ (if is_dec fs then [] else pads pp 48) ++ payload fs c ++
      (if is_dec fs && negb (inf_or_nan c) then pads pp 48 else []) in
  let back := if negb (left_justified (flags fs) =? 0) && negb (pad_c =? 0) then pads fp pad_c else [] in
  Some (front ++ body ++ back).

Definition npf_directive (fs : npf_format_spec_t) (args : list arg) : option (list Z * list arg) :=
  '(fs, args) ← star_width fs args;
  '(fs, args) ← star_prec fs args;
  '(fs, c, args) ← npf_convert fs args;
  out ← npf_emit fs c;
  Some (out, args).

(** ** The format *)

(** [while ( *cur )]; a directive is at least two characters long. *)
Fixpoint npf_loop (fuel : nat) (cur : list Z) (args : list arg) : option (list Z) :=
  match fuel with
  | O => None
  | S fuel =>
      match cur with
      | [] => Some []
      | c :: cur' =>
          spec ← (if c =? 37 then npf_parse_format_spec cur else Some None);
          match spec with
          | None => out ← npf_loop fuel cur' args; Some (c :: out)
          | Some (fs, cur) =>
              '(out, args) ← npf_directive fs args;
              out' ← npf_loop fuel cur args; Some (out ++ out')
          end
      end
  end.

(** The characters printed and their number, the [int] that is returned. *)
Definition npf_vpprintf (format : list Z) (args : list arg) : option (Z * list Z) :=
  out ← npf_loop (S (length format)) format args;
  n ← int (Z.of_nat (length out));
  Some (n, out).

(** [npf_bufputc]: the buffer takes no more than [len] characters. *)
Definition npf_bufputc (len : Z) (dst : list Z) (c : Z) : list Z :=
  if Z.of_nat (length dst) <? len then dst ++ [c] else dst.

(** The number returned and what is written to the buffer of [bufsz] bytes, if there is
    one ([buffer]). *)
Definition npf_vsnprintf (buffer : bool) (bufsz : Z) (format : list Z) (args : list arg) : option (Z * list Z) :=
  '(n, out) ← npf_vpprintf format args;
  Some (n, foldl (if buffer then npf_bufputc bufsz else fun dst _ => dst) [] (out ++ [0])).
