(* ===== verification/PrintfTheorems.v ===== *)
(** * Formatted output: what is printed, and that printing is defined

    A type system for formats: [signature] computes from a format the types of the
    arguments it takes, and printing arguments of these types is defined (no overflow, no
    write past the conversion buffer, no missing argument).  A reference printer of
    integers and a printer of format specifications, against which the code is correct. *)
From S2P Require Import Prelude Memory State Printf.

Lemma int_some x : -2 ^ 31 <= x < 2 ^ 31 -> int x = Some x.
Proof.
  intros [Hlo Hhi]. unfold int. by rewrite (proj2 (Z.leb_le _ _) Hlo), (proj2 (Z.ltb_lt _ _) Hhi).
Qed.

(** ** Numerals *)

(** The digits of [n] in base [b], the first one first; [fuel] bounds their number. *)
Fixpoint digits_rev (fuel : nat) (b n : Z) : list Z :=
  match fuel with
  | O => []
  | S fuel => n mod b :: (if n / b =? 0 then [] else digits_rev fuel b (n / b))
  end.

Definition digits (b n : Z) : list Z := rev (digits_rev 64 b n).

(** The number a list of digits stands for. *)
Definition horner (b : Z) (ds : list Z) : Z := foldl (fun n d => n * b + d) 0 ds.

Lemma horner_snoc b ds d : horner b (ds ++ [d]) = horner b ds * b + d.
Proof. unfold horner. by rewrite foldl_app. Qed.

Lemma digits_rev_S k b n : digits_rev (S k) b n = n mod b :: (if n / b =? 0 then [] else digits_rev k b (n / b)).
Proof. done. Qed.

Lemma horner_digits_rev b k n : 1 < b -> 0 <= n < b ^ Z.of_nat k -> (0 < k)%nat -> horner b (rev (digits_rev k b n)) = n.
Proof.
  intros Hb. revert n. induction k as [|k IH]; intros n Hn Hk; [lia|]. rewrite digits_rev_S. simpl rev.
  rewrite horner_snoc. pose proof (Z.div_mod n b ltac:(lia)) as Hdm.
  destruct (Z.eqb_spec (n / b) 0) as [E|E]; [rewrite E in Hdm; simpl; unfold horner; simpl; lia|].
  rewrite Nat2Z.inj_succ, Z.pow_succ_r in Hn by lia.
  assert (Hq : 0 <= n / b < b ^ Z.of_nat k) by (split; [apply Z.div_pos; lia|apply Z.div_lt_upper_bound; lia]).
  rewrite IH; [lia|done|]. destruct k; [|lia]. simpl in Hq. lia.
Qed.

Lemma digits_rev_bound b k n : 1 < b -> Forall (fun d => 0 <= d < b) (digits_rev k b n).
Proof.
  intros Hb. revert n. induction k as [|k IH]; intros n; [by constructor|]. rewrite digits_rev_S.
  constructor; [apply Z.mod_pos_bound; lia|]. case_match; [by constructor|apply IH].
Qed.

Lemma digits_rev_fuel b k k' n : 1 < b -> 0 <= n < b ^ Z.of_nat k -> (0 < k <= k')%nat -> digits_rev k' b n = digits_rev k b n.
Proof.
  intros Hb. revert k' n. induction k as [|k IH]; intros [|k'] n Hn Hk; [lia..|]. rewrite !digits_rev_S. f_equal.
  destruct (Z.eqb_spec (n / b) 0) as [E|E]; [done|].
  rewrite Nat2Z.inj_succ, Z.pow_succ_r in Hn by lia.
  assert (Hq : 0 <= n / b < b ^ Z.of_nat k) by (split; [apply Z.div_pos; lia|apply Z.div_lt_upper_bound; lia]).
  apply IH; [done|]. destruct k; [simpl in Hq; lia|lia].
Qed.

Lemma length_digits_rev b k n : (length (digits_rev k b n) <= k)%nat.
Proof. revert n. induction k as [|k IH]; intros n; simpl; [lia|]. case_match; simpl; [lia|]. specialize (IH (n / b)). lia. Qed.

Lemma digits_rev_pos b k n : (0 < k)%nat -> (0 < length (digits_rev k b n))%nat.
Proof. destruct k; simpl; lia. Qed.

Lemma pow64 b n : 1 < b -> n < 2 ^ 64 -> n < b ^ Z.of_nat 64.
Proof. intros Hb Hn. pose proof (Z.pow_le_mono_l 2 b 64 ltac:(lia)). change (Z.of_nat 64) with 64. lia. Qed.

(** [digits] is the numeral of its number: it stands for it, its digits are digits, and
    (as [digits_lead] says) none is superfluous. *)
Lemma horner_digits b n : 1 < b -> 0 <= n < 2 ^ 64 -> horner b (digits b n) = n.
Proof. intros Hb Hn. apply horner_digits_rev; [done|split; [lia|apply pow64; lia]|lia]. Qed.

Lemma digits_bound b n : 1 < b -> Forall (fun d => 0 <= d < b) (digits b n).
Proof. intros Hb. by apply Forall_rev, digits_rev_bound. Qed.

Lemma digits_lead b n : 1 < b -> 0 < n < 2 ^ 64 -> exists d ds, digits b n = d :: ds /\ d <> 0.
Proof.
  intros Hb Hn. assert (H : forall k m, 0 < m < b ^ Z.of_nat k -> exists ds d, digits_rev k b m = ds ++ [d] /\ d <> 0).
  { clear n Hn. induction k as [|k IH]; intros n Hn; [simpl in Hn; lia|]. rewrite digits_rev_S.
    destruct (Z.eqb_spec (n / b) 0) as [E|E].
    - exists [], (n mod b). split; [done|]. pose proof (Z.div_mod n b ltac:(lia)). lia.
    - rewrite Nat2Z.inj_succ, Z.pow_succ_r in Hn by lia.
      assert (Hq : 0 < n / b < b ^ Z.of_nat k).
      { pose proof (Z.div_pos n b ltac:(lia) ltac:(lia)). split; [lia|apply Z.div_lt_upper_bound; lia]. }
      destruct (IH _ Hq) as (ds & d & -> & Hd). by exists (n mod b :: ds), d. }
  destruct (H 64%nat n) as (ds & d & E & Hd); [split; [lia|apply pow64; lia]|].
  exists d, (rev ds). unfold digits. by rewrite E, rev_app_distr.
Qed.

(** ** Digits into the buffer *)

Definition digit_char (adj d : Z) : Z := if d <? 10 then 48 + d else 65 + adj + (d - 10).

Lemma utoa_rev_digits k room b adj n : 1 < b -> 0 <= n < b ^ Z.of_nat k -> (0 < k <= room)%nat ->
  npf_utoa_rev room n b adj = Some (digit_char adj <$> digits_rev k b n).
Proof.
  intros Hb. revert room n. induction k as [|k IH]; intros [|room] n Hn Hk; [lia..|]. rewrite digits_rev_S.
  cbn [npf_utoa_rev]. destruct (Z.eqb_spec (n / b) 0) as [E|E]; [done|].
  rewrite Nat2Z.inj_succ, Z.pow_succ_r in Hn by lia.
  assert (Hq : 0 <= n / b < b ^ Z.of_nat k) by (split; [apply Z.div_pos; lia|apply Z.div_lt_upper_bound; lia]).
  rewrite IH; [done|done|]. destruct k; [simpl in Hq; lia|lia].
Qed.

(** The longest numeral of a 64-bit number has 22 digits, in octal. *)
Lemma utoa_rev_run b adj n : 8 <= b -> 0 <= n < 2 ^ 64 ->
  exists ds, npf_utoa_rev CBUF_SIZE n b adj = Some (digit_char adj <$> ds) /\ rev ds = digits b n /\ (0 < length ds <= 22)%nat.
Proof.
  intros Hb Hn. assert (Hp : n < b ^ Z.of_nat 22).
  { pose proof (Z.pow_le_mono_l 8 b 22 ltac:(lia)). change (Z.of_nat 22) with 22. lia. }
  exists (digits_rev 22 b n). rewrite (utoa_rev_digits 22) by (unfold CBUF_SIZE; lia || split; lia).
  split; [done|]. split; [|split; [apply digits_rev_pos; lia|apply length_digits_rev]].
  unfold digits. rewrite (digits_rev_fuel b 22 64) by lia. done.
Qed.

(** The sign is taken care of digit by digit. *)
Lemma itoa_loop_digits k room sign n : sign = 1 \/ sign = -1 -> 0 <= n < 10 ^ Z.of_nat k -> (0 < k <= room)%nat ->
  npf_itoa_loop room sign (sign * n) = Some (Z.add 48 <$> digits_rev k 10 n).
Proof.
  intros Hs. revert room n. induction k as [|k IH]; intros [|room] n Hn Hk; [lia..|]. rewrite digits_rev_S.
  cbn [npf_itoa_loop].
  assert (Er : sign * Z.rem (sign * n) 10 = n mod 10) by (rewrite <- Z.rem_mod_nonneg by lia; destruct Hs as [->| ->]; Z.to_euclidean_division_equations; lia).
  assert (Eq : Z.quot (sign * n) 10 = sign * (n / 10)) by (destruct Hs as [->| ->]; Z.to_euclidean_division_equations; lia).
  rewrite Er, Eq. destruct (Z.eqb_spec (n / 10) 0) as [E|E].
  - rewrite E. by replace (sign * 0) with 0 by lia.
  - rewrite (proj2 (Z.eqb_neq _ _)) by (destruct Hs as [->| ->]; lia).
    rewrite Nat2Z.inj_succ, Z.pow_succ_r in Hn by lia.
    assert (Hq : 0 <= n / 10 < 10 ^ Z.of_nat k) by (split; [apply Z.div_pos; lia|apply Z.div_lt_upper_bound; lia]).
    rewrite IH; [done|done|]. destruct k; [simpl in Hq; lia|lia].
Qed.

Lemma itoa_rev_run n : -2 ^ 63 <= n < 2 ^ 63 ->
  exists ds, npf_itoa_rev CBUF_SIZE n = Some (digit_char 0 <$> ds) /\ rev ds = digits 10 (Z.abs n) /\ (0 < length ds <= 22)%nat.
Proof.
  intros Hn. exists (digits_rev 22 10 (Z.abs n)).
  assert (Hb : 0 <= Z.abs n < 10 ^ Z.of_nat 22) by (change (10 ^ Z.of_nat 22) with 10000000000000000000000; lia).
  split; [|split; [|split; [apply digits_rev_pos; lia|apply length_digits_rev]]].
  - unfold npf_itoa_rev. replace n with ((if 0 <=? n then 1 else -1) * Z.abs n) at 2 by (destruct (Z.leb_spec 0 n); lia).
    rewrite (itoa_loop_digits 22); [|destruct (0 <=? n); tauto|done|unfold CBUF_SIZE; lia].
    f_equal. apply list_fmap_ext. intros i d Hd. unfold digit_char.
    pose proof (Forall_lookup_1 _ _ _ _ (digits_rev_bound 10 22 (Z.abs n) ltac:(lia)) Hd) as Hd'. simpl in Hd'.
    by rewrite (proj2 (Z.ltb_lt _ _)) by lia.
  - unfold digits. rewrite (digits_rev_fuel 10 22 64) by lia. done.
Qed.

(** ** Floats into the buffer *)

Lemma frac_step_eq f : 0 <= f -> frac_step f = (f mod 2 ^ 60) * 10 /\ 0 <= frac_step f < 10 * 2 ^ 60.
Proof.
  intros Hf. unfold frac_step. change 0x0fffffffffffffff with (Z.ones 60). rewrite Z.land_ones by lia.
  pose proof (Z.mod_pos_bound f (2 ^ 60) ltac:(lia)). unfold mul64. rewrite w64_small by lia. lia.
Qed.

Lemma shiftr60 f : 0 <= f < 10 * 2 ^ 60 -> 0 <= Z.shiftr f (NPF_FRACTION_BIN_DIGITS - 4) < 10.
Proof. intros Hf. change (NPF_FRACTION_BIN_DIGITS - 4) with 60. rewrite Z.shiftr_div_pow2 by lia. divlia. Qed.

Lemma frac_zeros_run k fuel f : 0 <= f < 10 * 2 ^ 60 -> f = 0 \/ 2 ^ 60 <= f * 10 ^ Z.of_nat k -> (k < fuel)%nat ->
  exists z g, frac_zeros fuel f = Some (z, g) /\ 0 <= z <= Z.of_nat k /\ 0 <= g < 10 * 2 ^ 60.
Proof.
  revert fuel f. induction k as [|k IH]; intros [|fuel] f Hf Hk Hlt; [lia| |lia|]; cbn [frac_zeros];
    change (NPF_FRACTION_BIN_DIGITS - 4) with 60; rewrite Z.shiftr_div_pow2 by lia.
  - assert (negb (f =? 0) && (f / 2 ^ 60 =? 0) = false) as ->; [|exists 0, f; split; [done|lia]].
    destruct Hk as [->|Hk]; [done|]. apply andb_false_intro2, Z.eqb_neq. simpl in Hk. divlia.
  - destruct (negb (f =? 0) && (f / 2 ^ 60 =? 0)) eqn:E; [|exists 0, f; split; [done|lia]].
    apply andb_true_iff in E as [E0 E1]. apply negb_true_iff, Z.eqb_neq in E0. apply Z.eqb_eq in E1.
    assert (Hf60 : f < 2 ^ 60) by divlia. destruct (frac_step_eq f ltac:(lia)) as [Es Hs]. rewrite Z.mod_small in Es by lia.
    destruct (IH fuel (frac_step f) Hs) as (z & g & -> & Hz & Hg); [|lia|exists (z + 1), g; split; [done|lia]].
    right. rewrite Es. destruct Hk as [?|Hk]; [lia|]. rewrite Nat2Z.inj_succ, Z.pow_succ_r in Hk by lia. lia.
Qed.

Lemma frac_digits_bound n f part k : 0 <= f < 10 * 2 ^ 60 -> 0 <= part < 10 ^ Z.of_nat k -> (n + k <= 8)%nat ->
  0 <= frac_digits n f part < 10 ^ 8.
Proof.
  revert f part k. induction n as [|n IH]; intros f part k Hf Hp Hk; cbn [frac_digits].
  - pose proof (Z.pow_le_mono_r 10 (Z.of_nat k) 8 ltac:(lia) ltac:(lia)). lia.
  - destruct (f =? 0).
    + pose proof (Z.pow_le_mono_r 10 (Z.of_nat k) 8 ltac:(lia) ltac:(lia)). lia.
    + pose proof (shiftr60 f Hf) as Hd. pose proof (Z.pow_le_mono_r 10 (Z.of_nat k) 8 ltac:(lia) ltac:(lia)).
      apply (IH _ _ (S k)); [apply frac_step_eq; lia| |lia].
      rewrite Nat2Z.inj_succ, Z.pow_succ_r by lia. unfold add64, mul64. rewrite (w64_small (part * 10)), w64_small by lia. lia.
Qed.

(** The leading digit of the part after the point is among the first [k]. *)
Lemma frac_zeros_start m s k : 0 <= m -> 0 <= s < 60 -> 2 ^ 60 <= 10 * 2 ^ s * 10 ^ Z.of_nat k -> (k < 32)%nat ->
  exists z g, frac_zeros 32 (frac_step (w64 (Z.shiftl m s))) = Some (z, g) /\ 0 <= z <= Z.of_nat k /\ 0 <= g < 10 * 2 ^ 60.
Proof.
  intros Hm Hs Hk Hlt. destruct (frac_step_eq (w64 (Z.shiftl m s))) as [E Hb]; [apply w64_range|].
  apply frac_zeros_run; [done| |done]. rewrite E. unfold w64. rewrite Z.shiftl_mul_pow2 by lia.
  change (2 ^ 64) with (2 ^ 60 * 2 ^ 4).
  assert (Em : (m * 2 ^ s) mod (2 ^ 60 * 2 ^ 4) mod 2 ^ 60 = (m mod 2 ^ (60 - s)) * 2 ^ s).
  { rewrite Z.rem_mul_r by lia. rewrite Z.mul_comm with (n := 2 ^ 60), Z_mod_plus_full, Z.mod_mod by lia.
    replace (2 ^ 60) with (2 ^ (60 - s) * 2 ^ s) by (rewrite <- Z.pow_add_r by lia; f_equal; lia).
    rewrite Zmult_mod_distr_r. done. }
  rewrite Em. pose proof (Z.mod_pos_bound m (2 ^ (60 - s)) ltac:(apply Z.pow_pos_nonneg; lia)) as Hmod.
  destruct (decide (m mod 2 ^ (60 - s) = 0)) as [->|Hne]; [left; lia|right].
  pose proof (Z.pow_pos_nonneg 2 s). pose proof (Z.pow_pos_nonneg 10 (Z.of_nat k)). nia.
Qed.

(** The mantissa with its implicit one. *)
Lemma mantissa_bound b : 0 <= b -> 0 <= Z.lor (Z.land b (2 ^ 23 - 1)) (2 ^ 23) < 2 ^ 24.
Proof.
  intros Hb. change (2 ^ 23 - 1) with (Z.ones 23). rewrite Z.land_ones by lia.
  pose proof (Z.mod_pos_bound b (2 ^ 23) ltac:(lia)). split; [apply Z.lor_nonneg; lia|].
  destruct (decide (Z.lor (b mod 2 ^ 23) (2 ^ 23) = 0)) as [->|Hne]; [lia|].
  apply Z.log2_lt_pow2; [pose proof (Z.lor_nonneg (b mod 2 ^ 23) (2 ^ 23)); lia|]. rewrite Z.log2_lor by lia.
  change (Z.log2 (2 ^ 23)) with 23. apply Z.max_lub_lt; [|lia].
  destruct (decide (b mod 2 ^ 23 = 0)) as [->|]; [done|]. apply Z.log2_lt_pow2; lia.
Qed.

(** The parts of a float fit the buffer: [a] digits of the integer part after the last,
    8 of the fraction, the point and the zeros. *)
Lemma fsplit_run b : 0 <= b -> npf_fsplit_abs b = Some None \/
  exists ip fp z a, npf_fsplit_abs b = Some (Some (ip, fp, z)) /\ 0 <= ip < 10 ^ Z.of_nat (S a) /\ 0 <= fp < 10 ^ 8 /\
    0 <= z /\ 10 + z + Z.of_nat a <= 32.
Proof.
  intros Hb. unfold npf_fsplit_abs. set (e := Z.land _ 0xFF - NPF_EXPONENT_BIAS - NPF_MANTISSA_BITS).
  set (m := Z.lor _ (2 ^ 23)). unfold NPF_MANTISSA_BITS, NPF_FRACTION_BIN_DIGITS.
  destruct (Z.leb_spec (64 - 23) e) as [He|He]; [by left|right].
  assert (Hm : 0 <= m < 2 ^ 24) by (apply mantissa_bound; lia).
  assert (Hsplit : forall ip fr, (exists a k, 0 <= ip < 10 ^ Z.of_nat (S a) /\ Z.of_nat a + Z.of_nat k <= 22 /\
    exists z g, frac_zeros 32 (frac_step fr) = Some (z, g) /\ 0 <= z <= Z.of_nat k /\ 0 <= g < 10 * 2 ^ 60) ->
    exists ip' fp z a, ('(zeros, frac) ← frac_zeros 32 (frac_step fr);
      Some (Some (ip, frac_digits NPF_MAX_FRACTION_DEC_DIGITS frac 0, zeros))) = Some (Some (ip', fp, z)) /\
      0 <= ip' < 10 ^ Z.of_nat (S a) /\ 0 <= fp < 10 ^ 8 /\ 0 <= z /\ 10 + z + Z.of_nat a <= 32).
  { intros ip fr (a & k & Hip & Hak & z & g & -> & Hz & Hg). eexists ip, _, z, a. split; [done|]. split; [done|].
    split; [|lia]. apply (frac_digits_bound 8 g 0 0); [done|simpl; lia|lia]. }
  apply Hsplit. clear Hsplit. destruct (Z.ltb_spec 0 e) as [Hpos|Hpos].
  - exists 19%nat, 0%nat. rewrite (proj2 (Z.leb_le (64 - 4) (64 + e - 4))) by lia. split; [|split; [lia|]].
    + pose proof (w64_range (Z.shiftl m e)). change (10 ^ Z.of_nat 20) with 100000000000000000000. lia.
    + exists 0, 0. split; [reflexivity|lia].
  - destruct (Z.ltb_spec e 0) as [Hneg|Hneg].
    + rewrite (proj2 (Z.leb_gt (64 - 4) (64 + e - 4))) by lia. cbn [orb].
      destruct (Z.ltb_spec 23 (- e)) as [H23|H23].
      * exists 0%nat, 18%nat. split; [simpl; lia|]. split; [lia|]. destruct (Z.ltb_spec (64 + e - 4) 0) as [Hs|Hs].
        { exists 0, 0. split; [reflexivity|lia]. }
        apply frac_zeros_start; [lia..| |lia]. pose proof (Z.pow_pos_nonneg 2 (64 + e - 4)).
        change (10 ^ Z.of_nat 18) with 1000000000000000000. lia.
      * exists 7%nat, 6%nat. split; [|split; [lia|]].
        { rewrite Z.shiftr_div_pow2 by lia. pose proof (Z.pow_pos_nonneg 2 (- e)).
          split; [apply Z.div_pos; lia|]. apply Z.div_lt_upper_bound; [lia|]. change (10 ^ Z.of_nat 8) with 100000000. nia. }
        rewrite (proj2 (Z.ltb_ge _ _)) by lia. apply frac_zeros_start; [lia..| |lia].
        pose proof (Z.pow_le_mono_r 2 37 (64 + e - 4)). change (10 ^ Z.of_nat 6) with 1000000. lia.
    + exists 7%nat, 0%nat. rewrite (proj2 (Z.leb_le (64 - 4) (64 + e - 4))) by lia. split; [|split; [lia|]].
      * change (10 ^ Z.of_nat 8) with 100000000. lia.
      * exists 0, 0. split; [reflexivity|lia].
Qed.

Lemma buf_put_run buf c : (length buf < CBUF_SIZE)%nat -> buf_put buf c = Some (buf ++ [c]).
Proof. intros H. unfold buf_put. by rewrite (proj2 (Nat.ltb_lt _ _)). Qed.

Lemma buf_zeros_run n buf : (length buf + n <= CBUF_SIZE)%nat -> buf_zeros n buf = Some (buf ++ replicate n 48).
Proof.
  revert buf. induction n as [|n IH]; intros buf H; simpl; [by rewrite app_nil_r|].
  rewrite buf_put_run by lia. simpl. rewrite IH by (rewrite length_app; simpl; lia). by rewrite <- app_assoc.
Qed.

Lemma buf_digits_run k fuel n buf : 0 <= n < 10 ^ Z.of_nat k -> (length buf + k <= CBUF_SIZE)%nat -> (k < fuel)%nat ->
  exists l, buf_digits fuel n buf = Some (buf ++ l) /\ (length l <= k)%nat.
Proof.
  revert fuel n buf. induction k as [|k IH]; intros [|fuel] n buf Hn Hl Hf; [lia| |lia|]; cbn [buf_digits].
  - simpl in Hn. assert (n = 0) as -> by lia. exists []. rewrite app_nil_r. split; [done|simpl; lia].
  - destruct (Z.eqb_spec n 0) as [->|Hne]; [exists []; rewrite app_nil_r; split; [done|simpl; lia]|].
    rewrite buf_put_run by lia. cbn [mbind option_bind].
    rewrite Nat2Z.inj_succ, Z.pow_succ_r in Hn by lia.
    destruct (IH fuel (n / 10) (buf ++ [48 + n mod 10])) as (l & -> & Hk); [divlia|rewrite length_app; simpl; lia|lia|].
    exists ((48 + n mod 10) :: l). rewrite <- app_assoc. split; [done|simpl; lia].
Qed.

Lemma ftoa_rev_run b adj : 0 <= b -> exists buf frac sp, npf_ftoa_rev b adj = Some (buf, frac, sp) /\
  (length buf <= CBUF_SIZE)%nat /\ 0 <= frac <= Z.of_nat CBUF_SIZE.
Proof.
  intros Hb. unfold npf_ftoa_rev, CBUF_SIZE.
  destruct (Z.land (Z.shiftr b 23) 0xFF =? 0xFF).
  { destruct (negb _); eexists _, _, _; (split; [reflexivity|simpl; lia]). }
  destruct (fsplit_run b Hb) as [->|(ip & fp & z & a & -> & Hip & Hfp & Hz & Ha)]; cbn [mbind option_bind].
  { eexists _, _, _; (split; [reflexivity|simpl; lia]). }
  destruct (buf_digits_run 8 33 fp []) as (l & -> & Hl); [done|simpl; unfold CBUF_SIZE; lia|lia|].
  cbn [mbind option_bind app]. rewrite buf_zeros_run by (unfold CBUF_SIZE; lia). cbn [mbind option_bind].
  rewrite buf_put_run by (rewrite length_app, length_replicate; unfold CBUF_SIZE; lia). cbn [mbind option_bind].
  rewrite buf_put_run by (rewrite !length_app, length_replicate; unfold CBUF_SIZE; simpl; lia). cbn [mbind option_bind].
  rewrite Nat2Z.inj_succ, Z.pow_succ_r in Hip by lia.
  destruct (buf_digits_run a 33 (ip / 10) (((l ++ replicate (Z.to_nat z) 48) ++ [46]) ++ [48 + ip mod 10])) as (l' & -> & Hl');
    [divlia|rewrite !length_app, length_replicate; unfold CBUF_SIZE; simpl; lia|lia|].
  eexists _, _, _. split; [reflexivity|]. rewrite !length_app, length_replicate. simpl. lia.
Qed.

(** ** A type system for formats *)

(** What a directive takes: an [int], the [int] of a '*', 64 bits, a string, a float. *)
Inductive argty : Set := TInt | TStar | TQuad | TStr | TDouble | TLongDouble.

(** Widths, precisions and strings are far from the bounds of an [int]. *)
Definition SMALL : Z := 2 ^ 28.

Definition has_type (a : arg) (t : argty) : Prop :=
  match t, a with
  | TInt, (AInt z | AQuad z) => True
  | TStar, (AInt z | AQuad z) => - SMALL < s32 (w32 z) < SMALL
  | TQuad, AQuad z => True
  | TStr, AStr s => Z.of_nat (length s) < SMALL
  | TDouble, ADouble b => 0 <= b < 2 ^ 32
  | TLongDouble, ALongDouble b => 0 <= b < 2 ^ 32
  | _, _ => False
  end.

Definition int_type (m : npf_format_spec_length_modifier_t) : argty :=
  match m with
  | NPF_FMT_SPEC_LEN_MOD_NONE | NPF_FMT_SPEC_LEN_MOD_LONG_DOUBLE | NPF_FMT_SPEC_LEN_MOD_SHORT
  | NPF_FMT_SPEC_LEN_MOD_CHAR => TInt
  | _ => TQuad
  end.

Definition value_types (fs : npf_format_spec_t) : list argty :=
  match conv_spec fs with
  | NPF_FMT_SPEC_CONV_PERCENT => []
  | NPF_FMT_SPEC_CONV_CHAR => [TInt]
  | NPF_FMT_SPEC_CONV_STRING => [TStr]
  | NPF_FMT_SPEC_CONV_SIGNED_INT | NPF_FMT_SPEC_CONV_BINARY | NPF_FMT_SPEC_CONV_OCTAL
  | NPF_FMT_SPEC_CONV_HEX_INT | NPF_FMT_SPEC_CONV_UNSIGNED_INT => [int_type (length_modifier fs)]
  | NPF_FMT_SPEC_CONV_POINTER => [TQuad]
  | _ => [if decide (length_modifier fs = NPF_FMT_SPEC_LEN_MOD_LONG_DOUBLE) then TLongDouble else TDouble]
  end.

Definition directive_types (fs : npf_format_spec_t) : list argty :=
  (if decide (field_width_opt fs = NPF_FMT_SPEC_OPT_STAR) then [TStar] else []) ++
  (if decide (prec_opt fs = NPF_FMT_SPEC_OPT_STAR) then [TStar] else []) ++ value_types fs.

(** The types of the arguments a format takes, when its widths and precisions are small. *)
Fixpoint signature_loop (fuel : nat) (cur : list Z) : option (list argty) :=
  match fuel with
  | O => None
  | S fuel =>
      match cur with
      | [] => Some []
      | c :: cur' =>
          spec ← (if c =? 37 then npf_parse_format_spec cur else Some None);
          match spec with
          | None => signature_loop fuel cur'
          | Some (fs, cur) =>
              if (field_width fs <? SMALL) && (prec fs <? SMALL) then
                l ← signature_loop fuel cur; Some (directive_types fs ++ l)
              else None
          end
      end
  end.

Definition signature (format : list Z) : option (list argty) := signature_loop (S (length format)) format.

(** A specification whose fields are in range. *)
Record spec_ok (fs : npf_format_spec_t) : Prop := {
  so_width : 0 <= field_width fs < SMALL;
  so_prec : - SMALL < prec fs < SMALL;
}.

Lemma parse_int_nonneg n l n' l' : 0 <= n -> parse_int n l = Some (n', l') -> 0 <= n' /\ (length l' <= length l)%nat.
Proof.
  revert n. induction l as [|c l IH]; intros n Hn; cbn [parse_int]; [intros [= <- <-]; done|].
  destruct (is_digit c) eqn:Ed; [|intros [= <- <-]; done].
  unfold int. case_match; [|done]. cbn [mbind option_bind]. case_match; [|done]. cbn [mbind option_bind].
  unfold is_digit in Ed. apply andb_true_iff in Ed as [Ed _]. apply Z.leb_le in Ed.
  intros [? ?]%IH; [simpl; lia|lia].
Qed.

Lemma parse_flags_shorter f l f' l' : parse_flags f l = (f', l') -> (length l' <= length l)%nat.
Proof.
  revert f. induction l as [|c l IH]; intros f; cbn [parse_flags]; [by intros [= _ <-]|].
  repeat case_match; intros Hp; try (apply IH in Hp; simpl; lia). by injection Hp as _ <-.
Qed.

Lemma parse_width_ok l o w l' : parse_width l = Some (o, w, l') -> 0 <= w /\ (length l' <= length l)%nat.
Proof.
  unfold parse_width. case_match; [intros [= _ <- <-]; rewrite length_tl; lia|].
  destruct (parse_int 0 l) as [[n l1]|] eqn:E; [|done]. intros [= _ <- <-]. by apply parse_int_nonneg in E.
Qed.

Lemma parse_prec_ok l o p l' : parse_prec l = Some (o, p, l') -> 0 <= p /\ (length l' <= length l)%nat.
Proof.
  unfold parse_prec. destruct (peek l =? 46); [|intros [= _ <- <-]; lia]. pose proof (length_tl l). pose proof (length_tl (tail l)).
  case_match; [intros [= _ <- <-]; lia|].
  case_match; (destruct (parse_int _ _) as [[n l1]|] eqn:E; [|done]); intros [= _ <- <-];
    apply parse_int_nonneg in E as [??]; lia.
Qed.

Lemma parse_length_shorter l m l' : parse_length l = (m, l') -> (length l' <= length l)%nat.
Proof.
  unfold parse_length. pose proof (length_tl l). pose proof (length_tl (tail l)).
  repeat case_match; intros [= _ <-]; lia.
Qed.

(** A specification ends after the '%' it starts with, and its fields are not negative. *)
Lemma parse_ok c l fs rest : npf_parse_format_spec (c :: l) = Some (Some (fs, rest)) ->
  0 <= field_width fs /\ 0 <= prec fs /\ (length rest <= length l)%nat.
Proof.
  unfold npf_parse_format_spec. simpl tail. destruct (parse_flags _ l) as [f l1] eqn:E1.
  destruct (parse_width l1) as [[[o w] l2]|] eqn:E2; [|done]. cbn [mbind option_bind].
  destruct (parse_prec l2) as [[[po p] l3]|] eqn:E3; [|done]. cbn [mbind option_bind].
  destruct (parse_length l3) as [m l4] eqn:E4. intros [= Hc].
  destruct (conversion_of (peek l4)) as [[cv adj]|]; [|done]. cbn [mbind option_bind] in Hc.
  destruct (adjust cv f po p) as [[f' po'] p'] eqn:E5. injection Hc as <- <-. simpl.
  apply parse_flags_shorter in E1. apply parse_width_ok in E2 as [??]. apply parse_prec_ok in E3 as [??].
  apply parse_length_shorter in E4. pose proof (length_tl l4).
  assert (0 <= p'); [|lia]. unfold adjust in E5. destruct cv; injection E5 as _ _ <-; try case_decide; lia.
Qed.

(** *** Each step is defined *)

Lemma va_int_run a t args : has_type a t -> t = TInt \/ t = TStar ->
  exists z, va_int (a :: args) = Some (w32 z, args) /\ (t = TStar -> - SMALL < s32 (w32 z) < SMALL).
Proof. intros Ha [->| ->]; destruct a; try done; exists z; split; try done; intros; by apply Ha. Qed.

Lemma va_quad_run a args : has_type a TQuad -> exists z, va_quad (a :: args) = Some (w64 z, args).
Proof. destruct a; try done. by exists z. Qed.

Lemma s64_range z : -2 ^ 63 <= s64 z < 2 ^ 63.
Proof. unfold s64. pose proof (Z.mod_pos_bound (z + 2 ^ 63) (2 ^ 64) ltac:(lia)). lia. Qed.

Lemma extract_signed_run m a args : has_type a (int_type m) ->
  exists val, extract_signed m (a :: args) = Some (val, args) /\ -2 ^ 63 <= val < 2 ^ 63.
Proof.
  intros Ha. unfold extract_signed. destruct m; simpl in Ha;
    (destruct (va_int_run a TInt args Ha (or_introl eq_refl)) as (z & -> & _) || destruct (va_quad_run a args Ha) as [z ->]);
    cbn [mbind option_bind]; eexists; (split; [done|]); try apply s64_range; unfold s32, s16, s8.
  - pose proof (Z.mod_pos_bound (w32 z + 2 ^ 31) (2 ^ 32) ltac:(lia)). lia.
  - pose proof (Z.mod_pos_bound (w32 z + 2 ^ 15) (2 ^ 16) ltac:(lia)). lia.
  - pose proof (Z.mod_pos_bound (w32 z + 2 ^ 31) (2 ^ 32) ltac:(lia)). lia.
  - pose proof (Z.mod_pos_bound (w32 z + 2 ^ 7) (2 ^ 8) ltac:(lia)). lia.
Qed.

Lemma extract_unsigned_run m a args : has_type a (int_type m) ->
  exists val, extract_unsigned m (a :: args) = Some (val, args) /\ 0 <= val < 2 ^ 64.
Proof.
  intros Ha. unfold extract_unsigned. destruct m; simpl in Ha;
    (destruct (va_int_run a TInt args Ha (or_introl eq_refl)) as (z & -> & _) || destruct (va_quad_run a args Ha) as [z ->]);
    cbn [mbind option_bind]; eexists; (split; [done|]); try apply w64_range.
  - pose proof (w32_range z). lia.
  - unfold w16. pose proof (Z.mod_pos_bound (w32 z) (2 ^ 16) ltac:(lia)). lia.
  - pose proof (w32_range z). lia.
  - pose proof (w8_range (w32 z)). lia.
Qed.

Record conv_ok (c : conv) : Prop := {
  co_len : - (SMALL + 64) < cbuf_len c < SMALL + 64;
  co_frac : 0 <= frac_chars c <= 64;
}.

Lemma convert_signed_run fs val : -2 ^ 63 <= val < 2 ^ 63 -> exists c, convert_signed fs val = Some c /\ conv_ok c.
Proof.
  intros Hv. unfold convert_signed. destruct (prints_nothing fs val).
  - eexists. split; [reflexivity|]. split; simpl; unfold SMALL; lia.
  - destruct (itoa_rev_run val Hv) as (ds & -> & _ & Hl). eexists. split; [reflexivity|].
    split; simpl; rewrite ?length_fmap; unfold SMALL; lia.
Qed.

Lemma bin_len_bound val : 0 <= val < 2 ^ 64 -> 1 <= npf_bin_len val <= 64.
Proof.
  intros Hv. unfold npf_bin_len. destruct (Z.eqb_spec val 0); [lia|].
  pose proof (Z.log2_nonneg val). assert (Z.log2 val < 64) by (apply Z.log2_lt_pow2; lia). lia.
Qed.

Lemma convert_unsigned_run fs val : spec_ok fs -> 0 <= val < 2 ^ 64 ->
  exists fs' c, convert_unsigned fs val = Some (fs', c) /\ spec_ok fs' /\ conv_ok c.
Proof.
  intros [Hw Hp] Hv. unfold convert_unsigned. destruct (prints_nothing fs val).
  - eexists _, _. split; [reflexivity|]. split; [|split; simpl; unfold SMALL; lia].
    case_match; split; simpl; try done; unfold SMALL; lia.
  - case_decide as Hb.
    + pose proof (bin_len_bound val Hv). eexists _, _. split; [reflexivity|].
      split; split; simpl; try done; unfold SMALL; lia.
    + destruct (utoa_rev_run (base_of (conv_spec fs)) (case_adjust fs) val) as (ds & -> & _ & Hl); [by destruct (conv_spec fs)|done|].
      cbn [mbind option_bind]. assert (Hbuf : exists buf, (if negb (val =? 0) && negb (alt_form (flags fs) =? 0) &&
        bool_decide (conv_spec fs = NPF_FMT_SPEC_CONV_OCTAL) then buf_put (digit_char (case_adjust fs) <$> ds) 48
        else Some (digit_char (case_adjust fs) <$> ds)) = Some buf /\ (length buf <= 23)%nat).
      { case_match; [rewrite buf_put_run by (rewrite length_fmap; unfold CBUF_SIZE; lia)|]; eexists; (split; [done|]);
          rewrite ?length_app, length_fmap; simpl; lia. }
      destruct Hbuf as (buf & -> & Hlen). eexists _, _. split; [reflexivity|]. split; [done|].
      split; simpl; unfold SMALL; lia.
Qed.

Lemma convert_float_run fs b : spec_ok fs -> 0 <= b -> exists c, convert_float fs b = Some c /\ conv_ok c.
Proof.
  intros [Hw Hp] Hb. unfold convert_float.
  destruct (ftoa_rev_run b (case_adjust fs) Hb) as (buf & frac & sp & -> & Hl & Hf). cbn [mbind option_bind].
  unfold CBUF_SIZE, SMALL in *. destruct sp.
  - eexists. split; [reflexivity|]. split; simpl; unfold SMALL; lia.
  - rewrite int_some by lia. cbn [mbind option_bind].
    assert (Hmax : 0 <= npf_max 0 (frac - prec fs) <= 2 ^ 28 + 32) by (unfold npf_max; case_match; lia).
    rewrite int_some by lia. eexists. split; [reflexivity|]. split; simpl; unfold SMALL; lia.
Qed.

Lemma str_len_run fs s n : 0 <= n -> n + Z.of_nat (length s) < SMALL -> exists k, str_len fs s n = Some k /\ n <= k <= n + Z.of_nat (length s).
Proof.
  revert n. induction s as [|x s IH]; intros n Hn Hs; cbn [str_len]; [exists n; split; [done|simpl; lia]|].
  simpl in Hs. case_match; [|exists n; split; [done|simpl; lia]].
  rewrite int_some by (unfold SMALL in *; lia). cbn [mbind option_bind].
  destruct (IH (n + 1)) as (k & -> & Hk); [lia..|]. exists k. split; [done|simpl; lia].
Qed.

Lemma va_float_run m a args : has_type a (if decide (m = NPF_FMT_SPEC_LEN_MOD_LONG_DOUBLE) then TLongDouble else TDouble) ->
  exists b, va_float m (a :: args) = Some (b, args) /\ 0 <= b.
Proof.
  intros Ha. unfold va_float. case_decide as Hm; destruct a; try done; rewrite ?decide_True, ?decide_False by done;
    (eexists; split; [done|]; simpl in Ha; lia).
Qed.

Lemma convert_run fs args more : spec_ok fs -> Forall2 has_type args (value_types fs) ->
  exists fs' c, npf_convert fs (args ++ more) = Some (fs', c, more) /\ spec_ok fs' /\ conv_ok c.
Proof.
  intros Hfs Ht. unfold npf_convert, value_types in *.
  assert (Hone : forall t, Forall2 has_type args [t] -> exists a, args = [a] /\ has_type a t).
  { intros t. inversion 1 as [|a ? ? ? Ha Hn]; subst. inversion Hn. by exists a. }
  destruct (conv_spec fs); [apply Forall2_nil_inv_r in Ht as ->; by exists fs, (text [37])|..];
    apply Hone in Ht as (a & -> & Ha); simpl app.
  9-12: destruct (va_float_run _ _ more Ha) as (b & -> & Hb); cbn [mbind option_bind];
    destruct (convert_float_run fs b Hfs Hb) as (c & -> & Hc); by exists fs, c.
  4-7: destruct (extract_unsigned_run _ _ more Ha) as (v & -> & Hv); cbn [mbind option_bind];
    destruct (convert_unsigned_run fs v Hfs Hv) as (fs' & c & -> & Hc); by exists fs', c.
  - destruct (va_int_run a TInt more Ha) as (z & -> & _); [by left|]. by exists fs, (text [s8 (w32 z)]).
  - destruct a as [| |s| |]; try done. simpl in Ha. cbn [va_str mbind option_bind].
    destruct (str_len_run fs s 0) as (n & -> & Hn); [lia..|]. eexists _, _. split; [reflexivity|]. split; [done|].
    split; simpl; unfold SMALL in *; lia.
  - destruct (extract_signed_run _ _ more Ha) as (v & -> & Hv). cbn [mbind option_bind].
    destruct (convert_signed_run fs v Hv) as (c & -> & Hc). by exists fs, c.
  - destruct (va_quad_run _ more Ha) as [z ->]. cbn [mbind option_bind].
    destruct (utoa_rev_run 16 lowercase (w64 z)) as (ds & -> & _ & Hl); [lia|apply w64_range|].
    eexists _, _. split; [reflexivity|]. split; [done|]. split; simpl; rewrite ?length_fmap; unfold SMALL; lia.
Qed.

Lemma npf_max_bound a b x : 0 <= x -> a <= x -> b <= x -> npf_max a b <= x.
Proof. unfold npf_max. case_match; lia. Qed.

Lemma npf_emit_run fs c : spec_ok fs -> conv_ok c -> exists out, npf_emit fs c = Some out.
Proof.
  intros [Hw Hp] [Hl Hf]. unfold npf_emit, SMALL in *.
  assert (Hpp : exists pp, prec_pad fs c = Some pp /\ 0 <= pp <= 2 ^ 29 + 64).
  { unfold prec_pad. case_match; [exists 0; split; [done|lia]|].
    rewrite int_some by (destruct (is_dec fs); lia). eexists. split; [reflexivity|]. unfold npf_max.
    destruct (is_dec fs); case_match; lia. }
  destruct Hpp as (pp & -> & Hpp). cbn [mbind option_bind].
  assert (exists fp, field_pad fs c pp = Some fp) as [fp ->].
  { unfold field_pad. destruct (sign_c c =? 0), (need_0x c =? 0), (no_point fs);
      repeat (rewrite int_some by lia; cbn [mbind option_bind]); by eexists. }
  cbn [mbind option_bind]. by destruct (_ && negb _), (pad_char fs c =? 48); eexists.
Qed.

Lemma star_width_run fs args more : 0 <= field_width fs < SMALL -> - SMALL < prec fs < SMALL ->
  Forall2 has_type args (if decide (field_width_opt fs = NPF_FMT_SPEC_OPT_STAR) then [TStar] else []) ->
  exists fs', star_width fs (args ++ more) = Some (fs', more) /\ spec_ok fs' /\
    prec_opt fs' = prec_opt fs /\ value_types fs' = value_types fs.
Proof.
  intros Hw Hp Ht. unfold star_width. case_decide as Hs.
  - inversion Ht as [|a t args' ts Ha Hn]; subst. inversion Hn; subst.
    destruct (va_int_run a TStar more Ha) as (z & E & Hz); [by right|]. simpl app. rewrite E. cbn [mbind option_bind].
    specialize (Hz eq_refl). unfold SMALL in *. destruct (Z.ltb_spec (s32 (w32 z)) 0).
    + rewrite int_some by lia. eexists. split; [reflexivity|]. split; [split; simpl; unfold SMALL; lia|done].
    + eexists. split; [reflexivity|]. split; [split; simpl; unfold SMALL; lia|done].
  - apply Forall2_nil_inv_r in Ht as ->. by exists fs.
Qed.

Lemma star_prec_run fs args more : spec_ok fs ->
  Forall2 has_type args (if decide (prec_opt fs = NPF_FMT_SPEC_OPT_STAR) then [TStar] else []) ->
  exists fs', star_prec fs (args ++ more) = Some (fs', more) /\ spec_ok fs' /\ value_types fs' = value_types fs.
Proof.
  intros [Hw Hp] Ht. unfold star_prec. case_decide as Hs.
  - inversion Ht as [|a t args' ts Ha Hn]; subst. inversion Hn; subst.
    destruct (va_int_run a TStar more Ha) as (z & E & Hz); [by right|]. simpl app. rewrite E. cbn [mbind option_bind].
    eexists. split; [reflexivity|]. split; [split; simpl; [done|by apply Hz]|done].
  - apply Forall2_nil_inv_r in Ht as ->. by exists fs.
Qed.

Lemma directive_run fs args more : 0 <= field_width fs < SMALL -> - SMALL < prec fs < SMALL ->
  Forall2 has_type args (directive_types fs) -> exists out, npf_directive fs (args ++ more) = Some (out, more).
Proof.
  intros Hw Hp Ht. unfold directive_types in Ht. apply Forall2_app_inv_r in Ht as (args1 & args' & H1 & Ht & ->).
  apply Forall2_app_inv_r in Ht as (args2 & args3 & H2 & H3 & ->). unfold npf_directive. rewrite <- !app_assoc.
  destruct (star_width_run fs args1 (args2 ++ args3 ++ more) Hw Hp H1) as (fs1 & -> & Hok1 & Ep & Ev). cbn [mbind option_bind].
  rewrite <- Ep in H2. destruct (star_prec_run fs1 args2 (args3 ++ more) Hok1 H2) as (fs2 & -> & Hok2 & Ev2). cbn [mbind option_bind].
  rewrite <- Ev, <- Ev2 in H3. destruct (convert_run fs2 args3 more Hok2 H3) as (fs3 & c & -> & Hok3 & Hc). cbn [mbind option_bind].
  destruct (npf_emit_run fs3 c Hok3 Hc) as [out ->]. by exists out.
Qed.

(** ** The loop *)

Lemma loop_run fuel cur tys args more : signature_loop fuel cur = Some tys -> Forall2 has_type args tys ->
  exists out, npf_loop fuel cur (args ++ more) = Some out.
Proof.
  revert cur tys args. induction fuel as [|fuel IH]; intros cur tys args; cbn [signature_loop npf_loop]; [done|].
  destruct cur as [|c cur]; [by eexists|]. intros Hs Ht.
  destruct (if c =? 37 then npf_parse_format_spec (c :: cur) else Some None) as [[[fs rest]|]|] eqn:E; [| |done];
    cbn [mbind option_bind] in *.
  - destruct ((field_width fs <? SMALL) && (prec fs <? SMALL)) eqn:Eb; [|done].
    apply andb_true_iff in Eb as [Hw%Z.ltb_lt Hp%Z.ltb_lt].
    destruct (signature_loop fuel rest) as [l|] eqn:El; [|done]. cbn [mbind option_bind] in Hs. injection Hs as <-.
    apply Forall2_app_inv_r in Ht as (args1 & args2 & H1 & H2 & ->). rewrite <- app_assoc.
    destruct (c =? 37) eqn:Ec; [|done]. apply parse_ok in E as (Hw' & Hp' & _).
    destruct (directive_run fs args1 (args2 ++ more)) as [out ->]; [lia|unfold SMALL in *; lia|done|]. cbn [mbind option_bind].
    destruct (IH _ _ _ El H2) as [out' ->]. by eexists.
  - destruct (IH _ _ _ Hs Ht) as [out ->]. by eexists.
Qed.

(** The fuel [npf_vpprintf] gives is enough: more of it changes nothing. *)
Lemma loop_fuel fuel fuel' cur args : (length cur < fuel)%nat -> (length cur < fuel')%nat ->
  npf_loop fuel cur args = npf_loop fuel' cur args.
Proof.
  revert fuel' cur args. induction fuel as [|fuel IH]; intros [|fuel'] cur args Hf Hf'; [lia..|]. cbn [npf_loop].
  destruct cur as [|c cur]; [done|]. simpl in Hf, Hf'.
  destruct (if c =? 37 then npf_parse_format_spec (c :: cur) else Some None) as [[[fs rest]|]|] eqn:E; cbn [mbind option_bind]; [| |done].
  - destruct (c =? 37); [|done]. apply parse_ok in E as (_ & _ & Hr).
    destruct (npf_directive fs args) as [[out args']|]; [|done]. cbn [mbind option_bind]. by rewrite (IH fuel') by lia.
  - by rewrite (IH fuel') by lia.
Qed.

(** C29. Formats are typed: from a format alone [signature] computes the types of the
    arguments it takes, and for arguments of these types printing is defined.  It ends,
    whatever the fuel above the format's length; no [int] overflows, nothing is written
    past the 32 bytes of the conversion buffer and every [va_arg] finds its argument.
    Arguments that are left over are ignored. *)
Theorem printf_type_sound format tys args more :
  signature format = Some tys -> Forall2 has_type args tys ->
  exists out, (forall fuel, (length format < fuel)%nat -> npf_loop fuel format (args ++ more) = Some out) /\
    (Z.of_nat (length out) < 2 ^ 31 -> npf_vpprintf format (args ++ more) = Some (Z.of_nat (length out), out)).
Proof.
  intros Hs Ht. destruct (loop_run _ _ _ _ more Hs Ht) as [out Hout]. exists out. split.
  - intros fuel Hf. rewrite <- Hout. apply loop_fuel; lia.
  - intros Hl. unfold npf_vpprintf. rewrite Hout. cbn [mbind option_bind]. by rewrite int_some by lia.
Qed.

(** The second line of the kernel's panic message, and a floating-point number. *)
Definition panic_format : list Z := cstr "Panic in %s at %s:%d (%p) %*.3f".

Lemma printf_type_sound_witness : exists out,
  (forall fuel, (length panic_format < fuel)%nat ->
     npf_loop fuel panic_format ([AStr (cstr "kfree"); AStr (cstr "kalloc.c"); AInt 96; AQuad 0xffffffff80001234; AInt 9;
       ADouble 0x40490fdb] ++ [AInt 1]) = Some out) /\
  (Z.of_nat (length out) < 2 ^ 31 ->
     npf_vpprintf panic_format ([AStr (cstr "kfree"); AStr (cstr "kalloc.c"); AInt 96; AQuad 0xffffffff80001234; AInt 9;
       ADouble 0x40490fdb] ++ [AInt 1]) = Some (Z.of_nat (length out), out)).
Proof.
  apply (printf_type_sound panic_format [TStr; TStr; TInt; TQuad; TStar; TDouble]); [vm_compute; reflexivity|].
  repeat constructor; vm_compute; try reflexivity; discriminate.
Defined.

(** ** Specifications printed and parsed *)

Inductive opt_arg : Set := Absent | Literal (n : Z) | Star.

#[export] Instance opt_arg_eq_dec : EqDecision opt_arg.
Proof. solve_decision. Defined.

Record directive := Directive {
  d_left : bool; d_plus : bool; d_space : bool; d_alt : bool; d_zero : bool;
  d_width : opt_arg; d_prec : opt_arg;
  d_mod : npf_format_spec_length_modifier_t;
  d_conv : npf_format_spec_conversion_t; d_upper : bool
}.

Definition show_number (n : Z) : list Z := digit_char 0 <$> digits 10 n.

Definition show_width (o : opt_arg) : list Z :=
  match o with Absent => [] | Literal n => show_number n | Star => [42] end.

Definition show_prec (o : opt_arg) : list Z :=
  match o with Absent => [] | Literal n => 46 :: show_number n | Star => [46; 42] end.

Definition show_mod (m : npf_format_spec_length_modifier_t) : list Z :=
  cstr match m with
       | NPF_FMT_SPEC_LEN_MOD_NONE => EmptyString
       | NPF_FMT_SPEC_LEN_MOD_SHORT => "h"
       | NPF_FMT_SPEC_LEN_MOD_LONG_DOUBLE => "L"
       | NPF_FMT_SPEC_LEN_MOD_CHAR => "hh"
       | NPF_FMT_SPEC_LEN_MOD_LONG => "l"
       | NPF_FMT_SPEC_LEN_MOD_LARGE_LONG_LONG => "ll"
       | NPF_FMT_SPEC_LEN_MOD_LARGE_INTMAX => "j"
       | NPF_FMT_SPEC_LEN_MOD_LARGE_SIZET => "z"
       | NPF_FMT_SPEC_LEN_MOD_LARGE_PTRDIFFT => "t"
       end.

(** The letter of a conversion; only some have an upper case one. *)
Definition show_conv (c : npf_format_spec_conversion_t) (upper : bool) : list Z :=
  cstr match c with
       | NPF_FMT_SPEC_CONV_PERCENT => "%"
       | NPF_FMT_SPEC_CONV_CHAR => "c"
       | NPF_FMT_SPEC_CONV_STRING => "s"
       | NPF_FMT_SPEC_CONV_SIGNED_INT => "d"
       | NPF_FMT_SPEC_CONV_BINARY => if upper then "B" else "b"
       | NPF_FMT_SPEC_CONV_OCTAL => "o"
       | NPF_FMT_SPEC_CONV_HEX_INT => if upper then "X" else "x"
       | NPF_FMT_SPEC_CONV_UNSIGNED_INT => "u"
       | NPF_FMT_SPEC_CONV_POINTER => "p"
       | NPF_FMT_SPEC_CONV_FLOAT_DEC => if upper then "F" else "f"
       | NPF_FMT_SPEC_CONV_FLOAT_SCI => if upper then "E" else "e"
       | NPF_FMT_SPEC_CONV_FLOAT_SHORTEST => if upper then "G" else "g"
       | NPF_FMT_SPEC_CONV_FLOAT_HEX => if upper then "A" else "a"
       end.

Definition show_flag (b : bool) (c : Z) : list Z := if b then [c] else [].

Definition show (d : directive) : list Z :=
  37 :: show_flag (d_left d) 45 ++ show_flag (d_plus d) 43 ++ show_flag (d_space d) 32 ++ show_flag (d_alt d) 35 ++
    show_flag (d_zero d) 48 ++ show_width (d_width d) ++ show_prec (d_prec d) ++ show_mod (d_mod d) ++
    show_conv (d_conv d) (d_upper d).

Definition has_upper (c : npf_format_spec_conversion_t) : bool :=
  match c with
  | NPF_FMT_SPEC_CONV_BINARY | NPF_FMT_SPEC_CONV_HEX_INT => true
  | _ => is_float c
  end.

Definition opt_of (o : opt_arg) : npf_fmt_spec_opt_t * Z :=
  match o with
  | Absent => (NPF_FMT_SPEC_OPT_NONE, 0)
  | Literal n => (NPF_FMT_SPEC_OPT_LITERAL, n)
  | Star => (NPF_FMT_SPEC_OPT_STAR, 0)
  end.

(** The flags a directive stands for: '+' overrides ' ' and '-' overrides '0'. *)
Definition flags_of (d : directive) : npf_flags :=
  Flags (if d_plus d then 43 else if d_space d then 32 else 0) (if d_alt d then 35 else 0)
    (if d_left d then 45 else 0) (if d_zero d && negb (d_left d) then 1 else 0).

Definition spec_of (d : directive) : npf_format_spec_t :=
  let '(f, po, p) := adjust (d_conv d) (flags_of d) (opt_of (d_prec d)).1 (opt_of (d_prec d)).2 in
  FormatSpec f (opt_of (d_width d)).1 (opt_of (d_width d)).2 po p (d_mod d) (d_conv d)
    (if has_upper (d_conv d) && d_upper d then 0 else lowercase).

(** A width starts with another digit than '0'; numbers fit an [int]. *)
Definition directive_ok (d : directive) : Prop :=
  (forall n, d_width d = Literal n -> 0 < n < 2 ^ 31) /\ (forall n, d_prec d = Literal n -> 0 <= n < 2 ^ 31).

Definition is_flag (c : Z) : bool := (c =? 45) || (c =? 48) || (c =? 43) || (c =? 32) || (c =? 35).

Lemma parse_flags_stop f l : is_flag (peek l) = false -> parse_flags f l = (f, l).
Proof.
  destruct l as [|c l]; [done|]. change (peek (c :: l)) with c. unfold is_flag. cbn [parse_flags].
  intros [[[[-> ->]%orb_false_iff ->]%orb_false_iff ->]%orb_false_iff ->]%orb_false_iff. done.
Qed.

Lemma parse_flags_show d l : is_flag (peek l) = false ->
  parse_flags (Flags 0 0 0 0) (show_flag (d_left d) 45 ++ show_flag (d_plus d) 43 ++ show_flag (d_space d) 32 ++
    show_flag (d_alt d) 35 ++ show_flag (d_zero d) 48 ++ l) = (flags_of d, l).
Proof.
  intros Hl. unfold flags_of. destruct (d_left d), (d_plus d), (d_space d), (d_alt d), (d_zero d); simpl; by apply parse_flags_stop.
Qed.

Lemma horner_from_le n ds : 0 <= n -> Forall (fun d => 0 <= d < 10) ds -> n <= foldl (fun n d => n * 10 + d) n ds.
Proof.
  intros Hn Hds. revert n Hn. induction Hds as [|d ds Hd Hds IH]; intros n Hn; simpl; [lia|].
  etrans; [|apply IH; lia]. lia.
Qed.

Lemma digit_char_is_digit d : 0 <= d < 10 -> digit_char 0 d = 48 + d /\ is_digit (48 + d) = true.
Proof.
  intros Hd. unfold digit_char, is_digit. rewrite (proj2 (Z.ltb_lt _ _)) by lia. split; [done|].
  by rewrite (proj2 (Z.leb_le _ _)), (proj2 (Z.leb_le _ _)) by lia.
Qed.

Lemma parse_int_digits n ds l : 0 <= n -> Forall (fun d => 0 <= d < 10) ds ->
  foldl (fun n d => n * 10 + d) n ds < 2 ^ 31 -> is_digit (peek l) = false ->
  parse_int n ((digit_char 0 <$> ds) ++ l) = Some (foldl (fun n d => n * 10 + d) n ds, l).
Proof.
  intros Hn Hds. revert n Hn. induction Hds as [|d ds Hd Hds IH]; intros n Hn Hlt Hl.
  - destruct l as [|c l]; [done|]. change (peek (c :: l)) with c in Hl. simpl. by rewrite Hl.
  - rewrite fmap_cons. destruct (digit_char_is_digit d Hd) as [-> Hdig]. cbn [app parse_int]. rewrite Hdig. simpl in Hlt.
    pose proof (horner_from_le (n * 10 + d) ds ltac:(lia) Hds).
    rewrite int_some by lia. cbn [mbind option_bind]. rewrite int_some by lia. cbn [mbind option_bind].
    replace (n * 10 + (48 + d - 48)) with (n * 10 + d) by lia. apply IH; (lia || done).
Qed.

Lemma parse_show_number n l : 0 <= n < 2 ^ 31 -> is_digit (peek l) = false ->
  parse_int 0 (show_number n ++ l) = Some (n, l).
Proof.
  intros Hn Hl. assert (Hh : horner 10 (digits 10 n) = n) by (apply horner_digits; lia). unfold show_number.
  rewrite parse_int_digits; [|lia|by apply digits_bound|unfold horner in Hh; lia|done]. by rewrite <- Hh at 2.
Qed.

(** A numeral starts with a digit, other than '0' if the number is not 0. *)
Lemma show_number_lead n l : 0 <= n < 2 ^ 64 -> exists c l', show_number n ++ l = c :: l' /\ is_digit c = true /\ (n <> 0 -> c <> 48).
Proof.
  intros Hn. assert (H : exists d ds, digits 10 n = d :: ds /\ (n <> 0 -> d <> 0)).
  { destruct (decide (n = 0)) as [->|Hne]; [by exists 0, []|].
    destruct (digits_lead 10 n) as (d & ds & E & Hd); [lia..|]. by exists d, ds. }
  destruct H as (d & ds & E & Hd). unfold show_number. rewrite E, fmap_cons.
  pose proof (digits_bound 10 n ltac:(lia)) as Hb. rewrite E in Hb. apply Forall_cons_1 in Hb as [Hb _].
  destruct (digit_char_is_digit d Hb) as [-> Hdig]. eexists _, _. split; [done|]. split; [done|]. intros Hne. specialize (Hd Hne). lia.
Qed.

(** *** What can follow *)

Definition show_tail (d : directive) : list Z := show_mod (d_mod d) ++ show_conv (d_conv d) (d_upper d).

Lemma show_tail_peek d l : let c := peek (show_tail d ++ l) in
  is_digit c = false /\ is_flag c = false /\ c <> 42 /\ c <> 46.
Proof. unfold show_tail. destruct (d_mod d), (d_conv d), (d_upper d); by vm_compute. Qed.

Lemma show_prec_peek d l : let c := peek (show_prec (d_prec d) ++ show_tail d ++ l) in
  is_digit c = false /\ is_flag c = false /\ c <> 42.
Proof.
  destruct (d_prec d); [|by vm_compute..]. cbn [show_prec app]. destruct (show_tail_peek d l) as (? & ? & ? & _). done.
Qed.

Lemma is_digit_not_flag c : is_digit c = true -> c <> 48 -> is_flag c = false /\ c <> 42.
Proof.
  unfold is_digit, is_flag. intros [H1%Z.leb_le H2%Z.leb_le]%andb_true_iff Hne. split; [|lia].
  repeat (apply orb_false_iff; split); apply Z.eqb_neq; lia.
Qed.

Lemma show_width_peek d l : directive_ok d ->
  is_flag (peek (show_width (d_width d) ++ show_prec (d_prec d) ++ show_tail d ++ l)) = false.
Proof.
  intros [Hw _]. destruct (d_width d) as [|n|]; [apply show_prec_peek| |by vm_compute]. specialize (Hw n eq_refl).
  cbn [show_width]. destruct (show_number_lead n (show_prec (d_prec d) ++ show_tail d ++ l)) as (c & l' & -> & Hc & Hne); [lia|].
  apply is_digit_not_flag; [done|]. apply Hne. lia.
Qed.

Lemma parse_width_show d l : directive_ok d ->
  parse_width (show_width (d_width d) ++ show_prec (d_prec d) ++ show_tail d ++ l) =
  Some (opt_of (d_width d), show_prec (d_prec d) ++ show_tail d ++ l).
Proof.
  intros [Hw _]. destruct (show_prec_peek d l) as (Hd & _ & H42). unfold parse_width.
  destruct (d_width d) as [|n|]; cbn [show_width opt_of app].
  - rewrite (proj2 (Z.eqb_neq _ _) H42), Hd.
    pose proof (parse_int_digits 0 [] _ ltac:(lia) ltac:(constructor) ltac:(simpl; lia) Hd) as E. simpl in E. by rewrite E.
  - specialize (Hw n eq_refl). rewrite parse_show_number by (done || lia).
    destruct (show_number_lead n (show_prec (d_prec d) ++ show_tail d ++ l)) as (c & l' & -> & Hc & Hne); [lia|].
    change (peek (c :: l')) with c. rewrite Hc, (proj2 (Z.eqb_neq c 42)); [done|]. apply is_digit_not_flag; [done|]. apply Hne. lia.
  - done.
Qed.

Lemma parse_prec_show d l : directive_ok d ->
  parse_prec (show_prec (d_prec d) ++ show_tail d ++ l) = Some (opt_of (d_prec d), show_tail d ++ l).
Proof.
  intros [_ Hp]. destruct (show_tail_peek d l) as (Hd & _ & _ & H46). unfold parse_prec.
  destruct (d_prec d) as [|n|]; cbn [show_prec opt_of app].
  - by rewrite (proj2 (Z.eqb_neq _ _) H46).
  - specialize (Hp n eq_refl). change (peek (46 :: show_number n ++ show_tail d ++ l) =? 46) with true. cbn [tail].
    destruct (show_number_lead n (show_tail d ++ l)) as (c & l' & E & Hc & _); [lia|].
    pose proof (parse_show_number n (show_tail d ++ l) ltac:(lia) Hd) as Hn. rewrite E in *. change (peek (c :: l')) with c.
    unfold is_digit in Hc. apply andb_true_iff in Hc as [Hc1%Z.leb_le Hc2%Z.leb_le].
    rewrite (proj2 (Z.eqb_neq c 42)), (proj2 (Z.eqb_neq c 45)) by lia. by rewrite Hn.
  - done.
Qed.

Lemma parse_length_show d l : parse_length (show_tail d ++ l) = (d_mod d, show_conv (d_conv d) (d_upper d) ++ l).
Proof. unfold show_tail. by destruct (d_mod d), (d_conv d), (d_upper d). Qed.

Lemma conversion_show d l : conversion_of (peek (show_conv (d_conv d) (d_upper d) ++ l)) =
  Some (d_conv d, if has_upper (d_conv d) && d_upper d then 0 else lowercase) /\
  tail (show_conv (d_conv d) (d_upper d) ++ l) = l.
Proof. by destruct (d_conv d), (d_upper d). Qed.

Lemma format_spec_parse d rest : directive_ok d ->
  npf_parse_format_spec (show d ++ rest) = Some (Some (spec_of d, rest)).
Proof.
  intros Hd. unfold npf_parse_format_spec, show. cbn [app tail]. rewrite <- !app_assoc.
  pose proof (show_width_peek d rest Hd) as Hflag. pose proof (parse_width_show d rest Hd) as Hwidth.
  pose proof (parse_prec_show d rest Hd) as Hprec. unfold show_tail in *. rewrite <- !app_assoc in *.
  rewrite parse_flags_show by done. rewrite Hwidth. cbn [mbind option_bind].
  destruct (opt_of (d_width d)) as [wo w] eqn:Ew. rewrite Hprec. cbn [mbind option_bind].
  destruct (opt_of (d_prec d)) as [po p] eqn:Ep.
  pose proof (parse_length_show d rest) as Hlen. unfold show_tail in Hlen. rewrite <- app_assoc in Hlen. rewrite Hlen.
  destruct (conversion_show d rest) as [-> ->]. cbn [mbind option_bind]. unfold spec_of. rewrite Ew, Ep. simpl.
  by destruct (adjust (d_conv d) (flags_of d) po p) as [[? ?] ?].
Qed.

(** C30. Whatever follows it, a printed format specification is parsed back to itself:
    its flags (with '+' over ' ' and '-' over '0'), width, precision, length modifier,
    conversion and case, and exactly its own characters are consumed. *)
Theorem format_spec_roundtrip d rest : directive_ok d ->
  npf_parse_format_spec (show d ++ rest) = Some (Some (spec_of d, rest)) /\
  (length rest < length (show d ++ rest))%nat.
Proof. intros Hd. split; [by apply format_spec_parse|]. unfold show. simpl. rewrite length_app. lia. Qed.

(** "%-+8.3lX" before other text. *)
Definition demo_directive : directive :=
  Directive true true false false false (Literal 8) (Literal 3) NPF_FMT_SPEC_LEN_MOD_LONG NPF_FMT_SPEC_CONV_HEX_INT true.

Lemma format_spec_roundtrip_witness :
  show demo_directive = cstr "%-+8.3lX" /\
  npf_parse_format_spec (show demo_directive ++ cstr "d 5%") = Some (Some (spec_of demo_directive, cstr "d 5%")) /\
  (length (cstr "d 5%") < length (show demo_directive ++ cstr "d 5%"))%nat.
Proof.
  split; [vm_compute; reflexivity|]. apply (format_spec_roundtrip demo_directive). split; intros n [= <-]; lia.
Defined.

(** ** Integers, against a reference printer *)

(** A field of [width] characters: the sign and prefix, and the digits. *)
Definition layout (left zero : bool) (width : Z) (sign body : list Z) : list Z :=
  let n := width - Z.of_nat (length (sign ++ body)) in
  if left then sign ++ body ++ pads n 32
  else if zero then sign ++ pads n 48 ++ body
  else pads n 32 ++ sign ++ body.

Definition base (d : directive) : Z := base_of (d_conv d).
Definition is_octal (d : directive) : bool := bool_decide (d_conv d = NPF_FMT_SPEC_CONV_OCTAL).
Definition is_hex (d : directive) : bool := bool_decide (d_conv d = NPF_FMT_SPEC_CONV_HEX_INT).
Definition is_signed (d : directive) : bool := bool_decide (d_conv d = NPF_FMT_SPEC_CONV_SIGNED_INT).

Definition number_or (o : opt_arg) (x : Z) : Z := match o with Literal n => n | _ => x end.

(** The numeral of the absolute value, with a '0' before it in the alternative octal form;
    nothing for a zero with precision 0, unless that form asks for a digit; then '0's up
    to the precision. *)
Definition body (d : directive) (val : Z) : list Z :=
  let nothing := (val =? 0) && bool_decide (d_prec d = Literal 0) in
  let octal := is_octal d && d_alt d in
  let l :=
    if nothing then (if octal then [48] else [])
    else show_flag (octal && negb (val =? 0)) 48 ++
         (digit_char (if d_upper d then 0 else lowercase) <$> digits (base d) (Z.abs val)) in
  pads (number_or (d_prec d) 0 - Z.of_nat (length l)) 48 ++ l.

(** The sign of a signed number, the "0x" of the alternative hexadecimal form. *)
Definition sign (d : directive) (val : Z) : list Z :=
  if is_signed d then (if val <? 0 then [45] else if d_plus d then [43] else show_flag (d_space d) 32)
  else if is_hex d && d_alt d && negb (val =? 0) then [48; if d_upper d then 88 else 120] else [].

(** What a directive prints for the integer [val]. *)
Definition print_int (d : directive) (val : Z) : list Z :=
  layout (d_left d) (d_zero d && bool_decide (d_prec d = Absent)) (number_or (d_width d) 0) (sign d val) (body d val).

Definition is_int (c : npf_format_spec_conversion_t) : bool :=
  match c with
  | NPF_FMT_SPEC_CONV_SIGNED_INT | NPF_FMT_SPEC_CONV_OCTAL | NPF_FMT_SPEC_CONV_HEX_INT
  | NPF_FMT_SPEC_CONV_UNSIGNED_INT => true
  | _ => false
  end.

(** The value [va_arg] reads for the directive. *)
Definition int_value (d : directive) (a : arg) (val : Z) : Prop :=
  (if is_signed d then extract_signed (d_mod d) [a] else extract_unsigned (d_mod d) [a]) = Some (val, []).

Lemma pads_max n c : pads (npf_max 0 n) c = pads n c.
Proof. unfold pads, npf_max. case_match; [|done]. by replace (Z.to_nat 0) with (Z.to_nat n) by lia. Qed.

Lemma pads_nil n c : n <= 0 -> pads n c = [].
Proof. intros H. unfold pads. by replace (Z.to_nat n) with 0%nat by lia. Qed.

(** The code's emission of a number that is in the buffer backwards. *)
Lemma emit_int fs buf sg need z pc : is_int (conv_spec fs) = true ->
  0 <= field_width fs < SMALL -> 0 <= prec fs < SMALL -> Z.of_nat (length buf) < SMALL -> sg = 0 \/ need = 0 ->
  pad_char fs (Conv buf (Z.of_nat (length buf)) 0 sg need 0 false z) = pc ->
  (pc = 0 /\ field_width fs = 0) \/ pc = 32 \/ (pc = 48 /\ left_justified (flags fs) = 0) ->
  npf_emit fs (Conv buf (Z.of_nat (length buf)) 0 sg need 0 false z) =
  Some (layout (negb (left_justified (flags fs) =? 0)) (pc =? 48) (field_width fs)
    (show_flag (negb (sg =? 0)) sg ++ if need =? 0 then [] else [48; need])
    (pads (prec fs - Z.of_nat (length buf)) 48 ++ rev buf)).
Proof.
  intros Hint Hw Hp Hl Hsn Hpc Hcase.
  assert (Hs : is_string fs = false) by (unfold is_string; by destruct (conv_spec fs)).
  assert (Hd : is_dec fs = false) by (unfold is_dec; by destruct (conv_spec fs)).
  assert (Hnp : no_point fs = false) by (unfold no_point; by rewrite Hd).
  set (c := Conv buf _ _ _ _ _ _ _) in *. set (len := Z.of_nat (length buf)) in *.
  assert (Hpay : payload fs c = rev buf).
  { unfold payload. rewrite decide_False by (intros E; by rewrite E in Hint). rewrite Hnp. simpl.
    unfold len. by rewrite Nat2Z.id, firstn_all. }
  unfold SMALL in *. set (pp := npf_max 0 (prec fs - len)).
  assert (Hpp : prec_pad fs c = Some pp).
  { unfold prec_pad. rewrite Hs, Hd. simpl. by rewrite int_some by lia. }
  assert (Hpos : 0 <= pp <= 2 ^ 28) by (unfold pp, npf_max; case_match; lia).
  set (front := show_flag (negb (sg =? 0)) sg ++ if need =? 0 then [] else [48; need]).
  assert (Hfront : front = (if sg =? 0 then [] else [sg]) ++ (if need =? 0 then [] else [48; need])) by (unfold front; by destruct (sg =? 0)).
  set (digs := pads (prec fs - len) 48 ++ rev buf).
  assert (Hdigs : pads pp 48 ++ rev buf = digs) by (unfold pp; by rewrite pads_max).
  set (n := field_width fs - Z.of_nat (length (front ++ digs))).
  assert (Hfp : field_pad fs c pp = Some (npf_max 0 n)).
  { unfold field_pad, n. rewrite <- Hdigs, Hnp, Hfront. simpl sign_c. simpl need_0x. simpl cbuf_len.
    rewrite !length_app, length_rev. unfold pads. rewrite length_replicate. fold len.
    destruct (sg =? 0), (need =? 0); repeat (rewrite int_some by lia; cbn [mbind option_bind]); do 2 f_equal; simpl; lia. }
  assert (Hswap : (if need =? 0 then [] else [48; need]) ++ (if sg =? 0 then [] else [sg]) = front).
  { rewrite Hfront. destruct Hsn as [->| ->]; by rewrite app_nil_r. }
  unfold npf_emit. rewrite Hpc, Hpp. cbn [mbind option_bind]. rewrite Hfp. cbn [mbind option_bind].
  rewrite Hs, Hd, Hpay, pads_max. simpl sign_c. simpl need_0x. simpl inf_or_nan. cbn [andb negb]. unfold layout. fold n.
  rewrite (app_nil_r (rev buf)), Hdigs.
  destruct Hcase as [[-> Hw0]|[->|[-> Hl0]]].
  - rewrite !(pads_nil n _ ltac:(unfold n; lia)). cbn [Z.eqb negb]. rewrite !andb_false_r, !app_nil_r, app_assoc, Hswap.
    by destruct (left_justified (flags fs) =? 0).
  - rewrite <- Hswap. destruct (left_justified (flags fs) =? 0); cbn [negb andb Z.eqb Pos.eqb]; by rewrite ?app_nil_r, <- !app_assoc.
  - rewrite Hl0, Hfront. cbn [negb andb Z.eqb Pos.eqb]. by rewrite !app_nil_r, <- !app_assoc.
Qed.

(** *** The specification of an integer directive *)

Record int_spec (d : directive) (fs : npf_format_spec_t) : Prop := {
  is_conv : conv_spec fs = d_conv d;
  is_width : field_width fs = number_or (d_width d) 0;
  is_width_opt : field_width_opt fs = NPF_FMT_SPEC_OPT_LITERAL <-> d_width d <> Absent;
  is_prec_opt : prec_opt fs = NPF_FMT_SPEC_OPT_LITERAL <-> d_prec d <> Absent;
  is_left : left_justified (flags fs) = if d_left d then 45 else 0;
  is_zero_pad : leading_zero_pad (flags fs) = if d_zero d && negb (d_left d) && bool_decide (d_prec d = Absent) then 1 else 0;
  is_alt : alt_form (flags fs) = if d_alt d then 35 else 0;
  is_prepend : prepend (flags fs) = if d_plus d then 43 else if d_space d then 32 else 0;
  is_no_star : d_width d <> Star /\ d_prec d <> Star;
  is_case : case_adjust fs = if is_hex d && d_upper d then 0 else lowercase;
}.

Lemma spec_of_int d : is_int (d_conv d) = true -> d_width d <> Star -> d_prec d <> Star ->
  int_spec d (spec_of d) /\ prec (spec_of d) = number_or (d_prec d) 0 /\ field_width_opt (spec_of d) <> NPF_FMT_SPEC_OPT_STAR /\ prec_opt (spec_of d) <> NPF_FMT_SPEC_OPT_STAR /\
  length_modifier (spec_of d) = d_mod d.
Proof.
  intros Hi Hw Hp. destruct d as [l p s a z w pr m c u]; simpl in *.
  destruct c; try done; destruct w as [|w|], pr as [|pr|]; try done; destruct l, z, u; by repeat split.
Qed.

Lemma prints_nothing_int d fs val : int_spec d fs -> prec fs = number_or (d_prec d) 0 ->
  prints_nothing fs val = (val =? 0) && bool_decide (d_prec d = Literal 0).
Proof.
  intros H Hpr. unfold prints_nothing. rewrite <- andb_assoc. f_equal. rewrite Hpr. pose proof (is_prec_opt _ _ H) as Ho.
  destruct (d_prec d) as [|n|] eqn:E; simpl.
  - rewrite bool_decide_false by (intros E'; by apply Ho in E'). done.
  - rewrite bool_decide_true by (by apply Ho). cbn [andb]. apply eq_bool_prop_intro. rewrite Is_true_true, Z.eqb_eq, bool_decide_spec.
    split; congruence.
  - by destruct (is_no_star _ _ H).
Qed.

Lemma pad_char_int d fs c : int_spec d fs -> is_int (d_conv d) = true ->
  pad_char fs c = match d_width d with Absent => 0 | _ => if d_zero d && negb (d_left d) && bool_decide (d_prec d = Absent) then 48 else 32 end.
Proof.
  intros H Hi. unfold pad_char. rewrite (is_conv _ _ H), (is_zero_pad _ _ H). pose proof (is_width_opt _ _ H) as Hw.
  pose proof (is_prec_opt _ _ H) as Hp. destruct (is_no_star _ _ H) as [Hs _]. destruct (d_width d) as [|w|].
  - by rewrite decide_False by (intros E; by apply Hw in E).
  - rewrite decide_True by (by apply Hw). destruct (d_zero d && negb (d_left d)) eqn:Ez; [|done]. cbn [andb].
    case_bool_decide as Ep; [|done]. rewrite (bool_decide_false (prec_opt fs = _)) by (intros E; by apply Hp in E).
    by destruct (d_conv d).
  - done.
Qed.

(** ** The digits of the body *)

Lemma digit_char_case b adj adj' n : b <= 10 -> 1 < b -> digit_char adj <$> digits b n = digit_char adj' <$> digits b n.
Proof.
  intros Hb Hb'. apply list_fmap_ext. intros i d Hd. pose proof (Forall_lookup_1 _ _ _ _ (digits_bound b n Hb') Hd) as Hd'.
  simpl in Hd'. unfold digit_char. by rewrite !(proj2 (Z.ltb_lt d 10)) by lia.
Qed.

Lemma digits_case d adj n : is_int (d_conv d) = true -> adj = (if is_hex d && d_upper d then 0 else lowercase) \/ is_hex d = false ->
  digit_char adj <$> digits (base d) n = digit_char (if d_upper d then 0 else lowercase) <$> digits (base d) n.
Proof.
  intros Hi Hadj. destruct (is_hex d) eqn:Eh.
  - by destruct Hadj as [->|?].
  - apply digit_char_case; unfold base, is_hex in *; by destruct (d_conv d).
Qed.

Lemma rev_fmap {A B} (f : A -> B) (l : list A) : rev (f <$> l) = f <$> rev l.
Proof. symmetry. apply map_rev. Qed.

Lemma length_show_flag b c : (length (show_flag b c) <= 1)%nat.
Proof. destruct b; simpl; lia. Qed.

Lemma length_body_le d val : is_int (d_conv d) = true -> - 2 ^ 64 < val < 2 ^ 64 -> number_or (d_prec d) 0 < SMALL ->
  Z.of_nat (length (body d val)) <= SMALL.
Proof.
  intros Hi Hv Hp. unfold body. cbv zeta. match goal with |- context [_ ++ ?x] => set (l := x) end. assert (Hl : (length l <= 65)%nat).
  { unfold l. destruct ((val =? 0) && bool_decide (d_prec d = Literal 0)); [destruct (is_octal d && d_alt d); simpl; lia|]. rewrite length_app, length_fmap. unfold digits.
    rewrite length_rev. pose proof (length_digits_rev (base d) 64 (Z.abs val)).
    pose proof (length_show_flag (is_octal d && d_alt d && negb (val =? 0)) 48). lia. }
  rewrite length_app. unfold pads. rewrite length_replicate. unfold SMALL in *. lia.
Qed.

Lemma length_layout left zero w sg b : (length (layout left zero w sg b) <= length (sg ++ b) + Z.to_nat w)%nat.
Proof.
  unfold layout, pads. destruct left; [|destruct zero]; rewrite !length_app, length_replicate; lia.
Qed.

(** The numeral in the buffer, backwards, is the reference's body. *)
Lemma body_digits d val l : val <> 0 \/ d_prec d <> Literal 0 -> is_int (d_conv d) = true ->
  l = show_flag (is_octal d && d_alt d && negb (val =? 0)) 48 ++
    (digit_char (if is_hex d && d_upper d then 0 else lowercase) <$> digits (base d) (Z.abs val)) ->
  pads (number_or (d_prec d) 0 - Z.of_nat (length l)) 48 ++ l = body d val.
Proof.
  intros Hne Hi ->. unfold body. assert ((val =? 0) && bool_decide (d_prec d = Literal 0) = false) as ->.
  { destruct Hne as [Hne|Hne]; [by rewrite (proj2 (Z.eqb_neq _ _) Hne)|]. by rewrite bool_decide_false, andb_false_r. }
  by rewrite (digits_case d) by (by auto).
Qed.

Lemma body_nothing d val : val = 0 -> d_prec d = Literal 0 -> body d val = if is_octal d && d_alt d then [48] else [].
Proof. intros -> E. unfold body. rewrite E, bool_decide_true by done. by destruct (is_octal d && d_alt d). Qed.

Lemma nothing_cases d val : (val = 0 /\ d_prec d = Literal 0 /\ (val =? 0) && bool_decide (d_prec d = Literal 0) = true) \/
  ((val <> 0 \/ d_prec d <> Literal 0) /\ (val =? 0) && bool_decide (d_prec d = Literal 0) = false).
Proof.
  destruct (Z.eqb_spec val 0) as [->|Hne]; [|right; split; [by left|done]].
  case_bool_decide as E; [by left|right; split; [by right|done]].
Qed.

(** The pad character and the layout of an integer directive. *)
Lemma emit_int_spec d fs buf sg need z : int_spec d fs -> is_int (d_conv d) = true ->
  number_or (d_width d) 0 < SMALL -> 0 <= number_or (d_width d) 0 -> 0 <= prec fs < SMALL -> (length buf <= 64)%nat ->
  sg = 0 \/ need = 0 ->
  npf_emit fs (Conv buf (Z.of_nat (length buf)) 0 sg need 0 false z) =
  Some (layout (d_left d) (d_zero d && bool_decide (d_prec d = Absent)) (number_or (d_width d) 0)
    (show_flag (negb (sg =? 0)) sg ++ if need =? 0 then [] else [48; need])
    (pads (prec fs - Z.of_nat (length buf)) 48 ++ rev buf)).
Proof.
  intros H Hi Hw Hw0 Hp Hl Hsn.
  pose proof (pad_char_int d fs (Conv buf (Z.of_nat (length buf)) 0 sg need 0 false z) H Hi) as Hpc.
  rewrite <- (is_width _ _ H) in *.
  rewrite (emit_int fs buf sg need z _ (eq_trans (f_equal is_int (is_conv _ _ H)) Hi) (conj Hw0 Hw) Hp ltac:(unfold SMALL; lia) Hsn Hpc).
  - rewrite (is_left _ _ H). rewrite (is_width _ _ H). destruct (is_no_star _ _ H) as [Hs _].
    destruct (d_left d); [done|]. cbn [negb Z.eqb]. rewrite andb_true_r.
    destruct (d_width d) as [|w|]; [|by destruct (d_zero d && bool_decide (d_prec d = Absent))|done]. cbn [number_or Z.eqb].
    generalize (pads (prec fs - Z.of_nat (length buf)) 48 ++ rev buf). intros bd. unfold layout. rewrite (pads_nil _ 32), (pads_nil _ 48) by lia.
    by destruct (d_zero d && bool_decide (d_prec d = Absent)).
  - rewrite (is_left _ _ H), (is_width _ _ H). destruct (d_width d) as [|w|]; [by left|right..];
      destruct (d_zero d), (d_left d), (bool_decide (d_prec d = Absent)); tauto.
Qed.

(** An integer directive without '*', with small width and precision. *)
Record int_directive (d : directive) : Prop := {
  id_ok : directive_ok d;
  id_int : is_int (d_conv d) = true;
  id_no_star : d_width d <> Star /\ d_prec d <> Star;
  id_width : number_or (d_width d) 0 < SMALL;
  id_prec : number_or (d_prec d) 0 < SMALL;
}.

Lemma id_bounds d : int_directive d -> 0 <= number_or (d_width d) 0 < SMALL /\ 0 <= number_or (d_prec d) 0 < SMALL.
Proof.
  intros [[Hw Hp] _ _ Hw' Hp']. split; (split; [|done]).
  - destruct (d_width d) as [|n|]; simpl; [lia| |lia]. specialize (Hw n eq_refl). lia.
  - destruct (d_prec d) as [|n|]; simpl; [lia| |lia]. specialize (Hp n eq_refl). lia.
Qed.

Lemma emit_signed d fs val : int_directive d -> int_spec d fs -> prec fs = number_or (d_prec d) 0 -> is_signed d = true -> -2 ^ 63 <= val < 2 ^ 63 ->
  (c ← convert_signed fs val; npf_emit fs c) = Some (print_int d val).
Proof.
  intros Hd H Hpr Hs Hv. pose proof (id_bounds d Hd) as [Hw Hp]. pose proof (id_int _ Hd) as Hi. unfold convert_signed.
  assert (Hh : is_hex d = false /\ is_octal d = false) by (unfold is_signed, is_hex, is_octal in *; by destruct (d_conv d)).
  destruct Hh as [Hh Ho].
  assert (Hsign : show_flag (negb ((if val <? 0 then 45 else prepend (flags fs)) =? 0)) (if val <? 0 then 45 else prepend (flags fs)) ++ [] = sign d val).
  { unfold sign. rewrite Hs, (is_prepend _ _ H), app_nil_r. by destruct (val <? 0), (d_plus d), (d_space d). }
  assert (Hrun : forall buf, (length buf <= 64)%nat -> pads (prec fs - Z.of_nat (length buf)) 48 ++ rev buf = body d val ->
    npf_emit fs (Conv buf (Z.of_nat (length buf)) 0 (if val <? 0 then 45 else prepend (flags fs)) 0 0 false (val =? 0)) = Some (print_int d val)).
  { intros buf Hl Hb. rewrite (emit_int_spec d), Hb by solve [done|by right|rewrite ?Hpr; lia].
    cbn [Z.eqb]. by rewrite Hsign. }
  rewrite (prints_nothing_int d) by done. destruct (nothing_cases d val) as [(Hv0 & Hp0 & ->)|[Hne ->]]; cbn [mbind option_bind].
  - apply Hrun; [simpl; lia|]. rewrite Hpr, body_nothing, Ho, Hp0 by done. done.
  - destruct (itoa_rev_run val Hv) as (ds & -> & Hds & Hl). cbn [mbind option_bind].
    apply Hrun; [rewrite length_fmap; lia|]. rewrite Hpr, <- (length_rev (digit_char 0 <$> ds)).
    apply body_digits; [done|done|]. rewrite rev_fmap, Hds, Ho. cbn [andb show_flag app].
    assert (base d = 10) as -> by (unfold base, is_signed in *; by destruct (d_conv d)). by apply digit_char_case.
Qed.

Lemma emit_unsigned d fs val : int_directive d -> int_spec d fs -> prec fs = number_or (d_prec d) 0 -> is_signed d = false -> 0 <= val < 2 ^ 64 ->
  ('(fs, c) ← convert_unsigned fs val; npf_emit fs c) = Some (print_int d val).
Proof.
  intros Hd H Hpr Hs Hv. pose proof (id_bounds d Hd) as [Hw Hp]. pose proof (id_int _ Hd) as Hi. unfold convert_unsigned.
  rewrite (prints_nothing_int d) by done. rewrite (is_alt _ _ H), (is_conv _ _ H).
  change (bool_decide (d_conv d = NPF_FMT_SPEC_CONV_OCTAL)) with (is_octal d).
  assert (Halt : negb ((if d_alt d then 35 else 0) =? 0) = d_alt d) by (by destruct (d_alt d)). rewrite Halt.
  destruct (nothing_cases d val) as [(Hv0 & Hp0 & ->)|[Hne ->]]; cbn [mbind option_bind].
  - subst val. change (Conv [] 0 0 0 0 0 false (0 =? 0)) with (Conv [] (Z.of_nat (@length Z [])) 0 0 0 0 false true).
    destruct (is_octal d && d_alt d) eqn:Eo.
    + assert (H' : int_spec d (set_prec (prec_opt fs) 1 fs)) by (destruct H; by split).
      rewrite (emit_int_spec d _ [] 0 0) by solve [done|by left|lia|simpl; unfold SMALL; lia].
      unfold print_int. rewrite body_nothing, Eo by done. unfold sign. rewrite Hs. by destruct (is_hex d), (d_alt d).
    + rewrite (emit_int_spec d fs [] 0 0) by solve [done|by left|lia|rewrite ?Hpr; simpl; lia].
      unfold print_int. rewrite body_nothing, Eo, Hpr, Hp0 by done. unfold sign. rewrite Hs. by destruct (is_hex d), (d_alt d).
  - rewrite decide_False by (intros E; by rewrite E in Hi).
    destruct (utoa_rev_run (base_of (d_conv d)) (case_adjust fs) val) as (ds & -> & Hds & Hl); [by destruct (d_conv d)|done|].
    cbn [mbind option_bind].
    assert (Hbuf : exists buf, (if negb (val =? 0) && d_alt d && is_octal d then buf_put (digit_char (case_adjust fs) <$> ds) 48
        else Some (digit_char (case_adjust fs) <$> ds)) = Some buf /\ (length buf <= 23)%nat /\
      rev buf = show_flag (is_octal d && d_alt d && negb (val =? 0)) 48 ++ (digit_char (case_adjust fs) <$> digits (base d) (Z.abs val))).
    { rewrite Z.abs_eq by lia. unfold base. rewrite <- Hds, <- rev_fmap.
      replace (negb (val =? 0) && d_alt d && is_octal d) with (is_octal d && d_alt d && negb (val =? 0))
        by (by destruct (is_octal d), (d_alt d), (val =? 0)).
      destruct (is_octal d && d_alt d && negb (val =? 0)).
      - rewrite buf_put_run by (rewrite length_fmap; unfold CBUF_SIZE; lia). eexists. split; [done|].
        rewrite length_app, length_fmap, rev_app_distr. split; [simpl; lia|done].
      - eexists. split; [done|]. rewrite length_fmap. split; [lia|done]. }
    destruct Hbuf as (buf & -> & Hlen & Hrev). cbn [mbind option_bind].
    rewrite (emit_int_spec d) by solve [done|by left|rewrite ?Hpr; lia].
    assert (Hb : pads (prec fs - Z.of_nat (length buf)) 48 ++ rev buf = body d val).
    { rewrite Hpr, <- (length_rev buf). apply body_digits; [done|done|]. by rewrite Hrev, (is_case _ _ H). }
    rewrite Hb. unfold print_int. do 2 f_equal. unfold sign, alt_letter. rewrite Hs, (is_conv _ _ H), (is_alt _ _ H), Halt, (is_case _ _ H).
    unfold is_hex. destruct (d_conv d), (negb (val =? 0)), (d_alt d), (d_upper d); done.
Qed.

Lemma int_value_range d a val : int_value d a val ->
  if is_signed d then -2 ^ 63 <= val < 2 ^ 63 else 0 <= val < 2 ^ 64.
Proof.
  unfold int_value. intros H. assert (Ht : has_type a (int_type (d_mod d))).
  { destruct (is_signed d); unfold extract_signed, extract_unsigned in H; destruct a, (d_mod d); done. }
  destruct (is_signed d).
  - destruct (extract_signed_run _ _ [] Ht) as (v & E & Hv). rewrite E in H. by injection H as ->.
  - destruct (extract_unsigned_run _ _ [] Ht) as (v & E & Hv). rewrite E in H. by injection H as ->.
Qed.

Lemma directive_int d a val : int_directive d -> int_value d a val ->
  npf_directive (spec_of d) [a] = Some (print_int d val, []).
Proof.
  intros Hd Hval. pose proof (id_int _ Hd) as Hi. destruct (id_no_star _ Hd) as [Hw Hp].
  destruct (spec_of_int d Hi Hw Hp) as (H & Hpr & Hws & Hps & Hm). pose proof (int_value_range d a val Hval) as Hr.
  unfold npf_directive, star_width, star_prec. rewrite decide_False by done. cbn [mbind option_bind].
  rewrite decide_False by done. cbn [mbind option_bind]. unfold npf_convert. rewrite (is_conv _ _ H), Hm.
  unfold int_value in Hval. destruct (is_signed d) eqn:Es.
  - pose proof (emit_signed d _ val Hd H Hpr Es Hr) as He. unfold is_signed in Es. apply bool_decide_eq_true in Es.
    rewrite Es, Hval. cbn [mbind option_bind]. destruct (convert_signed _ _) as [c|]; [|done]. cbn [mbind option_bind] in *.
    by rewrite He.
  - pose proof (emit_unsigned d _ val Hd H Hpr Es Hr) as He.
    assert (Hc : ('(v, args) ← extract_unsigned (d_mod d) [a]; '(fs, c) ← convert_unsigned (spec_of d) v; Some (fs, c, args))
      = ('(fs, c) ← convert_unsigned (spec_of d) val; Some (fs, c, []))) by (by rewrite Hval).
    unfold is_signed in Es. apply bool_decide_eq_false in Es.
    destruct (convert_unsigned (spec_of d) val) as [[fs' c]|]; [|done]. cbn [mbind option_bind] in *.
    destruct (d_conv d); try done; rewrite Hc; cbn [mbind option_bind]; by rewrite He.
Qed.

Lemma length_sign_le d val : (length (sign d val) <= 2)%nat.
Proof.
  unfold sign. pose proof (length_show_flag (d_space d) 32).
  destruct (is_signed d), (val <? 0), (d_plus d), (is_hex d && d_alt d && negb (val =? 0)); simpl; lia.
Qed.

(** C28. A format made of one integer directive prints what the reference printer does:
    the sign (or '+', or ' ') or the "0x" of the alternative form, the numeral of the
    absolute value extended by zeros to the precision (nothing for zero with precision
    0), in a field of the width asked for, filled with blanks on the side the flags say or
    with zeros after the sign; and it returns the number of characters.  The numeral
    stands for the number. *)
Theorem printf_int_correct d a val : int_directive d -> int_value d a val ->
  npf_vpprintf (show d) [a] = Some (Z.of_nat (length (print_int d val)), print_int d val) /\
  horner (base d) (digits (base d) (Z.abs val)) = Z.abs val.
Proof.
  intros Hd Hval. pose proof (int_value_range d a val Hval) as Hr. pose proof (id_bounds d Hd) as [Hw Hp].
  assert (Hb : 1 < base d) by (unfold base; by destruct (d_conv d)).
  assert (Habs : -2 ^ 63 <= val < 2 ^ 64) by (destruct (is_signed d); lia). split; [|by apply horner_digits; [|lia]].
  assert (Hl : Z.of_nat (length (print_int d val)) < 2 ^ 31).
  { pose proof (length_layout (d_left d) (d_zero d && bool_decide (d_prec d = Absent)) (number_or (d_width d) 0) (sign d val) (body d val)) as Hlay.
    pose proof (length_body_le d val (id_int _ Hd) ltac:(lia) ltac:(lia)). pose proof (length_sign_le d val).
    unfold print_int. rewrite length_app in Hlay. unfold SMALL in *. lia. }
  unfold npf_vpprintf. assert (Hloop : npf_loop (S (length (show d))) (show d) [a] = Some (print_int d val)).
  { unfold show. cbn [length npf_loop]. pose proof (format_spec_parse d [] (id_ok _ Hd)) as Hparse. unfold show in Hparse.
    rewrite app_nil_r in Hparse. rewrite Hparse. cbn [Z.eqb Pos.eqb mbind option_bind].
    rewrite (directive_int d a val Hd Hval). cbn [mbind option_bind]. by rewrite app_nil_r. }
  rewrite Hloop. cbn [mbind option_bind]. by rewrite int_some by lia.
Qed.

(** "%-+8.3lX" of 0xbeef. *)
Lemma printf_int_correct_witness :
  npf_vpprintf (cstr "%-+8.3lX") [AQuad 0xbeef] = Some (8, cstr "BEEF    ") /\
  horner (base demo_directive) (digits (base demo_directive) 0xbeef) = 0xbeef.
Proof.
  apply (printf_int_correct demo_directive (AQuad 0xbeef) 0xbeef); [|vm_compute; reflexivity].
  split; [split; intros n [= <-]; lia|reflexivity|split; discriminate|reflexivity|reflexivity].
Defined.

(** ** What else is printed *)

(** A negative '*' width pads a number with zeros on the right, which makes it another
    number; infinity without a precision loses its last letter; and a negative '*'
    precision takes the point, and more of them the digits before it. *)
Theorem printf_misprints :
  npf_vpprintf (cstr "%0*d") [AInt (-5); AInt 7] = Some (5, cstr "70000") /\
  npf_vpprintf (cstr "%.0f") [ADouble 0x7f800000] = Some (2, cstr "in") /\
  npf_vpprintf (cstr "%.*f") [AInt (-1); ADouble 0x40490fdb] = Some (1, cstr "3") /\
  npf_vpprintf (cstr "%.*f|") [AInt (-2); ADouble 0x40490fdb] = Some (1, cstr "|").
Proof. split_and!; vm_compute; reflexivity. Qed.

(** The buffer gets what fits, and no NUL when that is not all. *)
Lemma npf_vsnprintf_truncates bufsz format args n out : 0 <= bufsz -> npf_vpprintf format args = Some (n, out) ->
  npf_vsnprintf true bufsz format args = Some (n, take (Z.to_nat bufsz) (out ++ [0])).
Proof.
  intros Hb E. unfold npf_vsnprintf. rewrite E. cbn [mbind option_bind]. do 2 f_equal.
  assert (H : forall l dst, Z.of_nat (length dst) <= bufsz ->
    foldl (npf_bufputc bufsz) dst l = take (Z.to_nat bufsz) (dst ++ l)).
  { induction l as [|c l IH]; intros dst Hd; simpl.
    - rewrite app_nil_r, firstn_all2; [done|lia].
    - unfold npf_bufputc at 2. destruct (Z.ltb_spec (Z.of_nat (length dst)) bufsz).
      + rewrite IH by (rewrite length_app; simpl; lia). by rewrite <- app_assoc.
      + rewrite IH by lia. rewrite !take_app_le by lia. done. }
  by rewrite H by (simpl; lia).
Qed.
