(* ===== verification/Screen.v ===== *)
(** * kernel/screen.c, kernel/arch/x86_64/screen.c and putc.c: the framebuffer console

    The framebuffer is kernel memory; a pixel is a 32-bit word in it.  The definitions are
    made for any font; Font.v has the kernel's. *)
From S2P Require Import Prelude Memory Mem State Devices Sched.

Definition putpixel (x y color : Z) : M kernel unit :=
  g ← gets k_scr;
  let b := Z.land color 0xFF in
  let gr := Z.land (Z.shiftr color 8) 0xFF in
  let r := Z.land (Z.shiftr color 16) 0xFF in
  let fb := add64 (add64 (scr_vaddr g) (mul32 x (scr_bpp g / 8))) (mul32 y (scr_pitch g)) in
  store32 fb (w32 (Z.lor (Z.lor (Z.shiftl b (blue_mask_shift g)) (Z.shiftl gr (green_mask_shift g)))
                     (Z.shiftl r (red_mask_shift g)))).

Section font.
Context (font : Z -> Z).

(** [color * (glyph[k] >> (7 - j) & 1)] *)
Definition dot (glyph k j color : Z) : Z :=
  mul32 color (Z.land (Z.shiftr (font (glyph + k)) (7 - j)) 1).

(** [c] is a signed character. *)
Definition putchar (x y c color : Z) : M kernel unit :=
  let glyph := 256 + 8 * c * 4 in
  for_range 8 0 (fun i => for_range 8 0 (fun j =>
    putpixel (add32 x j) (add32 y i) (dot glyph i j color) ;;
    putpixel (add32 x j) (add32 (add32 y i) 8) (dot glyph (i + 8) j color) ;;
    putpixel (add32 (add32 x j) 8) (add32 y i) (dot glyph (i + 16) j color) ;;
    putpixel (add32 (add32 x j) 8) (add32 (add32 y i) 8) (dot glyph (i + 24) j color))).

(** kernel/include/io.h, as signed characters. *)
Definition COLOR_GREEN : Z := s8 0xFD.
Definition COLOR_RED : Z := s8 0xFE.
Definition COLOR_WHITE : Z := s8 0xFF.

Definition set_color (c : Z) (s : kernel) : kernel :=
  let g := k_scr s in
  set_scr (ScreenGlobals (scr_vaddr g) (scr_paddr g) (scr_width g) (scr_height g) (scr_pitch g)
    (scr_bpp g) (red_mask_shift g) (green_mask_shift g) (blue_mask_shift g)
    (con_x g) (con_y g) c (serial_ok g)) s.

Definition set_cursor (x y : Z) (s : kernel) : kernel :=
  let g := k_scr s in
  set_scr (ScreenGlobals (scr_vaddr g) (scr_paddr g) (scr_width g) (scr_height g) (scr_pitch g)
    (scr_bpp g) (red_mask_shift g) (green_mask_shift g) (blue_mask_shift g)
    x y (con_color g) (serial_ok g)) s.

(** The start of a new line: down by 17 pixels, or scroll by as much. *)
Definition new_line : M kernel unit :=
  g ← gets k_scr;
  modify (set_cursor 0 (con_y g)) ;;
  let y := con_y g in
  if scr_height g <? add32 (add32 y 17) 10 then
    memmove (scr_vaddr g) (add64 (scr_vaddr g) (mul32 (scr_pitch g) 17)) (mul32 (scr_pitch g) y) ;;
    memset (add64 (scr_vaddr g) (mul32 (scr_pitch g) y)) 0
      (mul32 (scr_pitch g) (sub32 (scr_height g) y)) ;;
    mret tt
  else modify (set_cursor 0 (add32 y 17)).

Definition putc (fuel : nat) (c : Z) : M kernel unit :=
  if c =? COLOR_RED then modify (set_color 0xFF0000)
  else if c =? COLOR_WHITE then modify (set_color 0xFFFFFF)
  else if c =? COLOR_GREEN then modify (set_color 0x00FF00)
  else
    ok ← gets (fun s => serial_ok (k_scr s));
    (if (ok : bool) then serial_write fuel (w64 c) else mret tt) ;;
    g ← gets k_scr;
    if scr_vaddr g =? 0 then mret tt else
    (if (c =? 10) || (scr_width g <? con_x g) then new_line else mret tt) ;;
    g ← gets k_scr;
    let x := add32 (con_x g) 10 in
    modify (set_cursor x (con_y g)) ;;
    if 32 <? c then putchar x (con_y g) c (con_color g) else mret tt.
End font.

(** [struct limine_framebuffer], the fields the code copies. *)
Record limine_framebuffer := LimineFramebuffer {
  fb_address : Z; fb_width : Z; fb_height : Z; fb_pitch : Z; fb_bpp : Z;
  fb_red : Z; fb_green : Z; fb_blue : Z
}.

(** The loop of [init_fb] that picks a framebuffer. *)
Fixpoint best_fb (fb : option limine_framebuffer) (l : list limine_framebuffer) : option limine_framebuffer :=
  match l with
  | [] => fb
  | f :: l' =>
      best_fb
        (match fb with
         | None => Some f
         | Some b =>
             if (fb_width b <? fb_width f)
                || ((fb_width f =? fb_width b) && (fb_width b <? fb_height f))
             then Some f else fb
         end) l'
  end.

(** [response] is NULL or the list of framebuffers. *)
Definition init_fb (response : option (list limine_framebuffer)) : M kernel unit :=
  match response with
  | None | Some [] => halt Panic
  | Some l =>
      match best_fb None l with
      | None => halt Fault
      | Some fb =>
          high ← gets (fun s => high_addr (k_boot s));
          modify (fun s =>
            let g := k_scr s in
            set_scr (ScreenGlobals (fb_address fb) (sub64 (fb_address fb) high)
              (w32 (fb_width fb)) (w32 (fb_height fb)) (w32 (fb_pitch fb)) (fb_bpp fb)
              (fb_red fb) (fb_green fb) (fb_blue fb)
              (con_x g) (con_y g) (con_color g) (serial_ok g)) s)
      end
  end.
