(* ===== verification/ScreenTheorems.v ===== *)
(** * The console: what a character draws, and where it does not fit

    [putchar] against the bitmap it draws, for any font; and a run in which the console
    writes below the last line of the screen. *)
From S2P Require Import Prelude Memory Mem State Devices Sched Screen.

(** ** Writing pixels *)

(** The word of a pixel of the color [color]. *)
Definition pixel_word (g : screen_globals) (color : Z) : Z :=
  w32 (Z.lor (Z.lor (Z.shiftl (Z.land color 0xFF) (blue_mask_shift g))
                (Z.shiftl (Z.land (Z.shiftr color 8) 0xFF) (green_mask_shift g)))
     (Z.shiftl (Z.land (Z.shiftr color 16) 0xFF) (red_mask_shift g))).

Lemma kstore32 (s : kernel) a v : mapped (k_mem s) a 4 -> store32 a v s = Done tt (set_mem (write32 (k_mem s) a v) s).
Proof.
  intros H. unfold store32. change (mem_of s) with (k_mem s).
  rewrite (proj2 (mappedb_spec (k_mem s) a 4)); [reflexivity|exact H].
Qed.

Lemma changes_write32 m a v : changes (within a 4) m (write32 m a v).
Proof. eapply changes_weaken; [apply changes_write_bytes|]. by rewrite length_le_split. Qed.

Lemma add32_small a b : 0 <= a + b < 2 ^ 32 -> add32 a b = a + b.
Proof. apply w32_small. Qed.

Section glyph.
Context (font : Z -> Z) (s : kernel) (x y c color : Z).
Let g : screen_globals := k_scr s.
(** Pixels of 32 bits, and a glyph that lies between the left and the right end of its
    lines, on lines whose bytes are counted in 32 bits. *)
Context (Hbpp : scr_bpp g = 32) (Hx : 0 <= x) (Hy : 0 <= y) (Hpitch : 4 * (x + 16) <= scr_pitch g).
Context (Hfit : scr_pitch g * (y + 16) < 2 ^ 32) (Hv : 0 <= scr_vaddr g) (Hend : scr_vaddr g + scr_pitch g * (y + 16) < 2 ^ 64).
Context (Hcolor : u32 color).

(** The address of the pixel in row [i] and column [j] of the glyph. *)
Definition pixel_at (i j : Z) : Z := scr_vaddr g + 4 * (x + j) + scr_pitch g * (y + i).

Context (Hmapped : mapped (k_mem s) (scr_vaddr g + scr_pitch g * y) (scr_pitch g * 16)).

(** The bitmap: row [i] of the left half is byte [i] of the glyph, of the right half byte
    [i + 16]; the first column is the most significant bit. *)
Definition bit_at (i j : Z) : Z := Z.land (Z.shiftr (font (256 + 8 * c * 4 + i + 16 * (j / 8))) (7 - j mod 8)) 1.

Definition word_at (i j : Z) : Z := pixel_word g (mul32 color (bit_at i j)).

Lemma pixel_inside i j b : 0 <= i < 16 -> 0 <= j < 16 -> within (pixel_at i j) 4 b ->
  within (scr_vaddr g + scr_pitch g * y) (scr_pitch g * 16) b.
Proof. unfold pixel_at, within. intros. nia. Qed.

(** Two pixels are the same or share no byte. *)
Lemma pixel_apart i j i' j' b : 0 <= i < 16 -> 0 <= j < 16 -> 0 <= i' < 16 -> 0 <= j' < 16 -> (i, j) <> (i', j') ->
  within (pixel_at i j) 4 b -> ~ within (pixel_at i' j') 4 b.
Proof.
  unfold pixel_at, within. intros Hi Hj Hi' Hj' Hne H1 H2. destruct (Z.lt_trichotomy i i') as [Hl|[->|Hl]].
  - assert (scr_pitch g * (y + i + 1) <= scr_pitch g * (y + i')) by (apply Z.mul_le_mono_nonneg_l; lia). lia.
  - destruct (Z.eq_dec j j') as [->|]; [done|lia].
  - assert (scr_pitch g * (y + i' + 1) <= scr_pitch g * (y + i)) by (apply Z.mul_le_mono_nonneg_l; lia). lia.
Qed.

Lemma putpixel_run m i j k : 0 <= i < 16 -> 0 <= j < 16 ->
  mapped m (scr_vaddr g + scr_pitch g * y) (scr_pitch g * 16) ->
  putpixel (x + j) (y + i) k (set_mem m s) = Done tt (set_mem (write32 m (pixel_at i j) (pixel_word g k)) s).
Proof.
  intros Hi Hj Hm. unfold putpixel.
  rewrite (run_bind (gets k_scr) _ (set_mem m s) g (set_mem m s) eq_refl). rewrite Hbpp. change (32 / 8) with 4.
  assert (Hrow : scr_pitch g * (y + i + 1) <= scr_pitch g * (y + 16)) by (apply Z.mul_le_mono_nonneg_l; lia).
  assert (Ha : add64 (add64 (scr_vaddr g) (mul32 (x + j) 4)) (mul32 (y + i) (scr_pitch g)) = pixel_at i j).
  { assert (Hrow0 : 0 <= (y + i) * scr_pitch g) by (apply Z.mul_nonneg_nonneg; lia).
    assert (Hrow1 : scr_pitch g * 1 <= scr_pitch g * (y + 16)) by (apply Z.mul_le_mono_nonneg_l; lia).
    unfold mul32, pixel_at. rewrite !w32_small by lia. rewrite (add64_small (scr_vaddr g)) by lia. rewrite add64_small by lia. lia. }
  rewrite Ha. rewrite (kstore32 (set_mem m s)); [done|]. intros b Hb. apply Hm. by apply (pixel_inside i j).
Qed.

(** ** The loops *)

(** The pixels in the order in which they are drawn. *)
Definition quad (i j : Z) : list (Z * Z) := [(i, j); (i + 8, j); (i, j + 8); (i + 8, j + 8)].
Definition order : list (Z * Z) :=
  seqZ 0 8 ≫= fun i => seqZ 0 8 ≫= fun j => quad i j.

Definition draw (m : gmap Z Z) (l : list (Z * Z)) : gmap Z Z :=
  foldl (fun m '(i, j) => write32 m (pixel_at i j) (word_at i j)) m l.

Lemma draw_changes m l : Forall (fun '(i, j) => 0 <= i < 16 /\ 0 <= j < 16) l ->
  changes (fun b => exists i j, (i, j) ∈ l /\ within (pixel_at i j) 4 b) m (draw m l).
Proof.
  revert m. induction l as [|[i j] l IH]; intros m Hl; [apply changes_refl|].
  apply Forall_cons in Hl as [[Hi Hj] Hl]. eapply changes_trans.
  - eapply changes_weaken; [apply changes_write32|]. intros b Hb. exists i, j. split; [left|exact Hb].
  - eapply changes_weaken; [apply IH, Hl|]. intros b (i' & j' & Hin & Hb). exists i', j'. split; [by right|done].
Qed.

(** A pixel that is drawn once has its word at the end. *)
Lemma draw_pixel m l i j : Forall (fun '(i, j) => 0 <= i < 16 /\ 0 <= j < 16) l -> NoDup l -> (i, j) ∈ l ->
  read32 (draw m l) (pixel_at i j) = Some (word_at i j).
Proof.
  revert m. induction l as [|[i' j'] l IH]; intros m Hl Hnd Hin; [by apply not_elem_of_nil in Hin|].
  apply NoDup_cons in Hnd as [Hni Hnd]. pose proof Hl as Hall. apply Forall_cons in Hl as [[Hi' Hj'] Hl].
  apply elem_of_cons in Hin as [[= -> ->]|Hin]; [|by apply IH].
  change (draw m ((i', j') :: l)) with (draw (write32 m (pixel_at i' j') (word_at i' j')) l).
  trans (read32 (write32 m (pixel_at i' j') (word_at i' j')) (pixel_at i' j')).
  - apply read32_same. intros b Hb. apply (ch_same _ _ _ (draw_changes _ l Hl)).
    intros (i & j & Hin & Hb'). pose proof (proj1 (Forall_forall _ _) Hl _ Hin) as [Hi Hj].
    apply (pixel_apart i' j' i j b) in Hb; try done. by intros [= -> ->].
  - rewrite read32_write32. f_equal. unfold word_at, pixel_word. apply w32_idem.
Qed.

Lemma draw_app m l l' : draw m (l ++ l') = draw (draw m l) l'.
Proof. apply foldl_app. Qed.

Definition ok (m : gmap Z Z) : Prop := mapped m (scr_vaddr g + scr_pitch g * y) (scr_pitch g * 16).

Lemma draw_ok m l : Forall (fun '(i, j) => 0 <= i < 16 /\ 0 <= j < 16) l -> ok m -> ok (draw m l).
Proof. intros Hl Hm. eapply changes_mapped; [by apply draw_changes|done]. Qed.

(** A loop whose body draws draws all of it. *)
Lemma draw_loop (body : Z -> M kernel unit) (f : Z -> list (Z * Z)) n from m :
  (forall i m, from <= i < from + Z.of_nat n -> ok m -> body i (set_mem m s) = Done tt (set_mem (draw m (f i)) s)) ->
  (forall i, from <= i < from + Z.of_nat n -> Forall (fun '(i, j) => 0 <= i < 16 /\ 0 <= j < 16) (f i)) -> ok m ->
  for_range n from body (set_mem m s) = Done tt (set_mem (draw m (seqZ from (Z.of_nat n) ≫= f)) s).
Proof.
  revert from m. induction n as [|n IH]; intros from m Hbody Hf Hm; [done|].
  rewrite seqZ_cons by lia. replace (Z.pred (Z.of_nat (S n))) with (Z.of_nat n) by lia.
  cbn [for_range]. rewrite (run_bind _ _ _ _ _ (Hbody from m ltac:(lia) Hm)). rewrite <- Z.add_1_r, IH.
  - rewrite <- draw_app. done.
  - intros i m' Hi. apply Hbody. lia.
  - intros i Hi. apply Hf. lia.
  - by apply draw_ok; [apply Hf; lia|].
Qed.

Lemma quad_in i j : 0 <= i < 8 -> 0 <= j < 8 -> Forall (fun '(i, j) => 0 <= i < 16 /\ 0 <= j < 16) (quad i j).
Proof. intros Hi Hj. repeat constructor; lia. Qed.

Lemma draw_quad i j m : 0 <= i < 8 -> 0 <= j < 8 -> ok m ->
  (putpixel (add32 x j) (add32 y i) (dot font (256 + 8 * c * 4) i j color) ;;
   putpixel (add32 x j) (add32 (add32 y i) 8) (dot font (256 + 8 * c * 4) (i + 8) j color) ;;
   putpixel (add32 (add32 x j) 8) (add32 y i) (dot font (256 + 8 * c * 4) (i + 16) j color) ;;
   putpixel (add32 (add32 x j) 8) (add32 (add32 y i) 8) (dot font (256 + 8 * c * 4) (i + 24) j color)) (set_mem m s) =
  Done tt (set_mem (draw m (quad i j)) s).
Proof.
  intros Hi Hj Hm.
  assert (Hxs : scr_pitch g * 1 <= scr_pitch g * (y + 16)) by (apply Z.mul_le_mono_nonneg_l; lia).
  assert (Hys : 1 * (y + 16) <= scr_pitch g * (y + 16)) by (apply Z.mul_le_mono_nonneg_r; lia).
  rewrite (add32_small x j), (add32_small y i), (add32_small (x + j) 8), (add32_small (y + i) 8) by lia.
  rewrite <- !Z.add_assoc.
  assert (Hword : forall di dj k, dj = 0 \/ dj = 8 -> k = di + 2 * dj ->
    dot font (256 + 8 * c * 4) (i + k) j color = mul32 color (bit_at (i + di) (j + dj))).
  { intros di dj k Hdj ->. unfold dot, bit_at. do 3 f_equal; [f_equal|].
    - destruct Hdj as [->| ->]; divlia.
    - destruct Hdj as [->| ->]; divlia. }
  pose proof (Hword 0 0 0 ltac:(lia) ltac:(lia)) as W0. rewrite !Z.add_0_r in W0. rewrite W0.
  rewrite (Hword 8 0 8), (Hword 0 8 16), (Hword 8 8 24) by lia. rewrite !Z.add_0_r. unfold draw, quad. cbn [foldl].
  rewrite (run_bind _ _ _ _ _ (putpixel_run m i j _ ltac:(lia) ltac:(lia) Hm)). fold (word_at i j).
  pose proof (draw_ok m [(i, j)] ltac:(repeat constructor; lia) Hm) as Hm1.
  rewrite (run_bind _ _ _ _ _ (putpixel_run _ (i + 8) j _ ltac:(lia) ltac:(lia) Hm1)). fold (word_at (i + 8) j).
  pose proof (draw_ok m [(i, j); (i + 8, j)] ltac:(repeat constructor; lia) Hm) as Hm2.
  rewrite (run_bind _ _ _ _ _ (putpixel_run _ i (j + 8) _ ltac:(lia) ltac:(lia) Hm2)). fold (word_at i (j + 8)).
  pose proof (draw_ok m [(i, j); (i + 8, j); (i, j + 8)] ltac:(repeat constructor; lia) Hm) as Hm3.
  apply (putpixel_run _ (i + 8) (j + 8)); (lia || exact Hm3).
Qed.

Lemma putchar_run : putchar font x y c color s = Done tt (set_mem (draw (k_mem s) order) s).
Proof.
  trans (putchar font x y c color (set_mem (k_mem s) s)); [by rewrite set_mem_same|]. unfold putchar, order. apply (draw_loop _ (fun i => seqZ 0 8 ≫= fun j => quad i j) 8 0).
  - intros i m Hi Hm. apply (draw_loop _ (fun j => quad i j) 8 0); [|intros j Hj; apply quad_in; lia|done].
    intros j m' Hj Hm'. apply draw_quad; (lia || done).
  - intros i Hi. apply Forall_bind. apply Forall_forall. intros j Hj%elem_of_seqZ. apply quad_in; lia.
  - exact Hmapped.
Qed.
End glyph.

Lemma order_spec : NoDup order /\ Forall (fun '(i, j) => 0 <= i < 16 /\ 0 <= j < 16) order /\
  forall i j, 0 <= i < 16 -> 0 <= j < 16 -> (i, j) ∈ order.
Proof.
  split; [apply (bool_decide_unpack _); vm_compute; exact Logic.I|]. split.
  - apply Forall_forall. intros [i j]. unfold order. intros (i' & (j' & Hin & Hj%elem_of_seqZ)%list_elem_of_bind & Hi%elem_of_seqZ)%list_elem_of_bind.
    exact (proj1 (Forall_forall _ _) (quad_in i' j' ltac:(lia) ltac:(lia)) _ Hin).
  - intros i j Hi Hj. unfold order. apply list_elem_of_bind. exists (i mod 8). split; [|apply elem_of_seqZ; divlia].
    apply list_elem_of_bind. exists (j mod 8). split; [|apply elem_of_seqZ; divlia]. unfold quad.
    assert (Ei : i = i mod 8 \/ i = i mod 8 + 8) by divlia. assert (Ej : j = j mod 8 \/ j = j mod 8 + 8) by divlia.
    rewrite !elem_of_cons. destruct Ei as [Ei|Ei], Ej as [Ej|Ej];
      [left|do 2 right; left|right; left|do 3 right; left]; by f_equal.
Qed.

(** C31. Where its 16 by 16 pixels are mapped and fit their lines, [putchar] draws the bitmap
    of its character and nothing else: every dot of the glyph gets the word of the color
    where the font's bit is set and 0 where it is not, and no other byte changes. *)
Theorem putchar_draws (font : Z -> Z) (s : kernel) x y c color :
  scr_bpp (k_scr s) = 32 -> 0 <= x -> 0 <= y -> 4 * (x + 16) <= scr_pitch (k_scr s) ->
  scr_pitch (k_scr s) * (y + 16) < 2 ^ 32 -> 0 <= scr_vaddr (k_scr s) ->
  scr_vaddr (k_scr s) + scr_pitch (k_scr s) * (y + 16) < 2 ^ 64 ->
  mapped (k_mem s) (scr_vaddr (k_scr s) + scr_pitch (k_scr s) * y) (scr_pitch (k_scr s) * 16) ->
  exists m, putchar font x y c color s = Done tt (set_mem m s) /\
    (forall i j, 0 <= i < 16 -> 0 <= j < 16 ->
       read32 m (pixel_at s x y i j) = Some (word_at font s c color i j)) /\
    changes (fun b => exists i j, (0 <= i < 16 /\ 0 <= j < 16) /\ within (pixel_at s x y i j) 4 b) (k_mem s) m.
Proof.
  intros Hbpp Hx Hy Hpitch Hfit Hv Hend Hm. destruct order_spec as (Hnd & Hin & Hall).
  exists (draw font s x y c color (k_mem s) order). split; [by apply putchar_run|]. split.
  - intros i j Hi Hj. apply draw_pixel; [done..|by apply Hall].
  - eapply changes_weaken; [by apply draw_changes|]. intros b (i & j & Hij & Hb). exists i, j. split; [|done].
    exact (proj1 (Forall_forall _ _) Hin _ Hij).
Qed.

(** ** A small screen *)

(** A framebuffer at 4096, 32 pixels wide, [h] lines of 128 bytes, of which [rows] are
    mapped and hold [v]. *)
Definition screen_mem (rows : nat) (v : Z) : gmap Z Z :=
  foldr (fun k m => <[4096 + Z.of_nat k := v]> m) ∅ (seq 0 (128 * rows)).

Definition small_screen (h : Z) (rows : nat) (v : Z) : kernel :=
  set_scr (ScreenGlobals 4096 4096 32 h 128 32 16 8 0 0 10 0xFFFFFF false)
    (quiet_kernel (screen_mem rows v) (PageAllocGlobals 0 0 false) (CpuGlobals 0 1 0 0) (ProcGlobals 0 false 0 0 false) no_paging).

(** A font all of whose dots are set. *)
Definition block_font : Z -> Z := fun _ => 255.

#[local] Opaque screen_mem.

Lemma putchar_draws_witness : let s := small_screen 16 16 7 in
  exists m, putchar block_font 0 0 65 0xFF0000 s = Done tt (set_mem m s) /\
    (forall i j, 0 <= i < 16 -> 0 <= j < 16 -> read32 m (pixel_at s 0 0 i j) = Some (word_at block_font s 65 0xFF0000 i j)) /\
    changes (fun b => exists i j, (0 <= i < 16 /\ 0 <= j < 16) /\ within (pixel_at s 0 0 i j) 4 b) (k_mem s) m.
Proof.
  apply (putchar_draws block_font (small_screen 16 16 7) 0 0 65 0xFF0000); simpl; try lia.
  apply (mappedb_spec _ _ 2048). vm_compute. reflexivity.
Defined.

(** On a screen of 37 lines, all of them mapped, a new line and a letter run into a
    fault: the console goes down to line 27 because 27 lines of it are left under line
    10, and draws 16 lines there.  Where memory follows the screen, its bytes are
    overwritten. *)
Theorem putc_runs_off_screen :
  (putc block_font 10 10 ;; putc block_font 10 65) (small_screen 37 37 7) = Stop Fault /\
  (let r := (putc block_font 10 10 ;; putc block_font 10 65) (small_screen 37 48 7) in
   match r with
   | Done _ s => con_y (k_scr s) = 27 /\ read32 (k_mem s) (4096 + 128 * 37 + 4 * 20) = Some 0xFFFFFF
   | Stop _ => False
   end).
Proof. split; [vm_compute; reflexivity|vm_compute; by split]. Qed.
