(* ===== verification/Font.v ===== *)
(** * kernel/external/fonts/font.c: the console's font

    The bytes of the font file: 256 widths, then the 32 bytes of each of 256 glyphs, the
    left half of the bitmap before the right one.  What the console draws with it can be
    read. *)
From S2P Require Import Prelude Memory Mem State Devices Sched Screen ScreenTheorems.

Definition font_size : Z := 8448.

(** A line of the file: 16 bytes. *)
Definition row (n : Z) : list Z := rev (le_split 16 n).

Definition font_0 : list Z :=
  row 0x00080808080808080808080808080808 ++
  row 0x08080808080808080808080808080808 ++
  row 0x08080808080808080808080808080808 ++
  row 0x08080808080808080808080808080808 ++
  row 0x08080808080808080808080808080808 ++
  row 0x08080808080808080808080808080808 ++
  row 0x08080808080808080808080808080808 ++
  row 0x08080808080808080808080808080808 ++
  row 0x08080808080808080808080808080808 ++
  row 0x08080808080808080808080808080808 ++
  row 0x08080808080808080808080808080808 ++
  row 0x08080808080808080808080808080808 ++
  row 0x08080808080808080808080808080808 ++
  row 0x08080808080808080808080808080808 ++
  row 0x08080808080808080808080808080808 ++
  row 0x08080808080808080808080808080800 ++
  row 0x00000000000000000000000000000000 ++
  row 0x00000000000000000000000000000000 ++
  row 0x007EC381A581BD99C37E000000000000 ++
  row 0x00000000000000000000000000000000 ++
  row 0x007EFFFFDBFFC3E7FF7E000000000000 ++
  row 0x00000000000000000000000000000000 ++
  row 0x000044EEFEFEFE7C3810000000000000 ++
  row 0x00000000000000000000000000000000 ++
  row 0x0010387CFEFE7C381000000000000000 ++
  row 0x00000000000000000000000000000000 ++
  row 0x00183C3CFFE7E718187E000000000000 ++
  row 0x00000000000000000000000000000000 ++
  row 0x00183C7EFFFF7E18187E000000000000 ++
  row 0x00000000000000000000000000000000 ++
  row 0x000000003C7E7E3C0000000000000000 ++
  row 0x00000000000000000000000000000000 ++
  row 0xFFFFFFFFC38181C3FFFFFFFF00000000 ++
  row 0x00000000000000000000000000000000 ++
  row 0x00003C7E664242667E3C000000000000 ++
  row 0x00000000000000000000000000000000 ++
  row 0xFFFFC38199BDBD9981C3FFFF00000000 ++
  row 0x00000000000000000000000000000000 ++
  row 0x003E0E3A72F8CCCCCC78000000000000 ++
  row 0x00000000000000000000000000000000 ++
  row 0x003C6666663C187E1818000000000000 ++
  row 0x00000000000000000000000000000000 ++
  row 0x001F19191F181878F870000000000000 ++
  row 0x00000000000000000000000000000000 ++
  row 0x007F637F63636367E7E6C00000000000 ++
  row 0x00000000000000000000000000000000 ++
  row 0x000018DB7EE7E77EDB18000000000000 ++
  row 0x00000000000000000000000000000000 ++
  row 0x0080C0E0F8FEF8E0C080000000000000 ++
  row 0x00000000000000000000000000000000 ++
  row 0x0002060E3EFE3E0E0602000000000000 ++
  row 0x00000000000000000000000000000000 ++
  row 0x00183C7E1818187E3C18000000000000 ++
  row 0x00000000000000000000000000000000 ++
  row 0x00666666666600006666000000000000 ++
  row 0x00000000000000000000000000000000 ++
  row 0x007FDBDBDB7B1B1B1B1B000000000000 ++
  row 0x00000000000000000000000000000000 ++
  row 0x007E63303C66663C0CC67E0000000000 ++
  row 0x00000000000000000000000000000000 ++
  row 0x00000000000000FEFEFE000000000000 ++
  row 0x00000000000000000000000000000000 ++
  row 0x00183C7E1818187E3C187E0000000000 ++
  row 0x00000000000000000000000000000000 ++
  row 0x00183C7E181818181818000000000000 ++
  row 0x00000000000000000000000000000000 ++
  row 0x001818181818187E3C18000000000000 ++
  row 0x00000000000000000000000000000000 ++
  row 0x000000180CFE0C180000000000000000 ++
  row 0x00000000000000000000000000000000 ++
  row 0x0000003060FE60300000000000000000 ++
  row 0x00000000000000000000000000000000 ++
  row 0x00000000C0C0C0FE0000000000000000 ++
  row 0x00000000000000000000000000000000 ++
  row 0x0000002466FF66240000000000000000 ++
  row 0x00000000000000000000000000000000 ++
  row 0x0000101038387C7CFEFE000000000000 ++
  row 0x00000000000000000000000000000000 ++
  row 0x0000FEFE7C7C38381010000000000000 ++
  row 0x00000000000000000000000000000000 ++
  row 0x00000000000000000000000000000000 ++
  row 0x00000000000000000000000000000000 ++
  row 0x00307878783030003030000000000000 ++
  row 0x00000000000000000000000000000000 ++
  row 0x00666666240000000000000000000000 ++
  row 0x00000000000000000000000000000000 ++
  row 0x006C6CFE6C6C6CFE6C6C000000000000 ++
  row 0x00000000000000000000000000000000 ++
  row 0x30307CC0C0780C0CF830300000000000 ++
  row 0x00000000000000000000000000000000 ++
  row 0x000000C4CC183060CC8C000000000000 ++
  row 0x00000000000000000000000000000000 ++
  row 0x0070D8D870FADECCDC76000000000000 ++
  row 0x00000000000000000000000000000000 ++
  row 0x00303030600000000000000000000000 ++
  row 0x00000000000000000000000000000000 ++
  row 0x000C183060606030180C000000000000 ++
  row 0x00000000000000000000000000000000 ++
  row 0x006030180C0C0C183060000000000000 ++
  row 0x00000000000000000000000000000000 ++
  row 0x000000663CFF3C660000000000000000 ++
  row 0x00000000000000000000000000000000 ++
  row 0x00000018187E18180000000000000000 ++
  row 0x00000000000000000000000000000000 ++
  row 0x00000000000000003838600000000000 ++
  row 0x00000000000000000000000000000000 ++
  row 0x0000000000FE00000000000000000000 ++
  row 0x00000000000000000000000000000000 ++
  row 0x00000000000000003838000000000000 ++
  row 0x00000000000000000000000000000000 ++
  row 0x000002060C183060C080000000000000 ++
  row 0x00000000000000000000000000000000 ++
  row 0x007CC6CEDED6F6E6C67C000000000000 ++
  row 0x00000000000000000000000000000000 ++
  row 0x001030F03030303030FC000000000000 ++
  row 0x00000000000000000000000000000000 ++
  row 0x0078CCCC0C183060CCFC000000000000 ++
  row 0x00000000000000000000000000000000 ++
  row 0x0078CC0C0C380C0CCC78000000000000 ++
  row 0x00000000000000000000000000000000 ++
  row 0x000C1C3C6CCCFE0C0C1E000000000000 ++
  row 0x00000000000000000000000000000000 ++
  row 0x00FCC0C0C0F80C0CCC78000000000000 ++
  row 0x00000000000000000000000000000000 ++
  row 0x003860C0C0F8CCCCCC78000000000000 ++
  row 0x00000000000000000000000000000000 ++
  row 0x00FEC6C6060C18303030000000000000 ++
  row 0x00000000000000000000000000000000 ++
  row 0x0078CCCCCC78CCCCCC78000000000000 ++
  row 0x00000000000000000000000000000000 ++
  row 0x0078CCCCCC7C18183070000000000000 ++
  row 0x00000000000000000000000000000000.

Definition font_1 : list Z :=
  row 0x00000038380000383800000000000000 ++
  row 0x00000000000000000000000000000000 ++
  row 0x00000038380000383818300000000000 ++
  row 0x00000000000000000000000000000000 ++
  row 0x000C183060C06030180C000000000000 ++
  row 0x00000000000000000000000000000000 ++
  row 0x000000007E007E000000000000000000 ++
  row 0x00000000000000000000000000000000 ++
  row 0x006030180C060C183060000000000000 ++
  row 0x00000000000000000000000000000000 ++
  row 0x0078CC0C183030003030000000000000 ++
  row 0x00000000000000000000000000000000 ++
  row 0x007CC6C6DEDEDEC0C07C000000000000 ++
  row 0x00000000000000000000000000000000 ++
  row 0x003078CCCCCCFCCCCCCC000000000000 ++
  row 0x00000000000000000000000000000000 ++
  row 0x00FC6666667C666666FC000000000000 ++
  row 0x00000000000000000000000000000000 ++
  row 0x003C66C6C0C0C0C6663C000000000000 ++
  row 0x00000000000000000000000000000000 ++
  row 0x00F86C66666666666CF8000000000000 ++
  row 0x00000000000000000000000000000000 ++
  row 0x00FE6260647C646062FE000000000000 ++
  row 0x00000000000000000000000000000000 ++
  row 0x00FE6662647C646060F0000000000000 ++
  row 0x00000000000000000000000000000000 ++
  row 0x003C66C6C0C0CEC6663E000000000000 ++
  row 0x00000000000000000000000000000000 ++
  row 0x00CCCCCCCCFCCCCCCCCC000000000000 ++
  row 0x00000000000000000000000000000000 ++
  row 0x00783030303030303078000000000000 ++
  row 0x00000000000000000000000000000000 ++
  row 0x001E0C0C0C0CCCCCCC78000000000000 ++
  row 0x00000000000000000000000000000000 ++
  row 0x00E6666C6C786C6C66E6000000000000 ++
  row 0x00000000000000000000000000000000 ++
  row 0x00F060606060626666FE000000000000 ++
  row 0x00000000000000000000000000000000 ++
  row 0x00C6EEFEFED6C6C6C6C6000000000000 ++
  row 0x00000000000000000000000000000000 ++
  row 0x00C6C6E6F6FEDECEC6C6000000000000 ++
  row 0x00000000000000000000000000000000 ++
  row 0x00386CC6C6C6C6C66C38000000000000 ++
  row 0x00000000000000000000000000000000 ++
  row 0x00FC6666667C606060F0000000000000 ++
  row 0x00000000000000000000000000000000 ++
  row 0x00386CC6C6C6CEDE7C0C1E0000000000 ++
  row 0x00000000000000000000000000000000 ++
  row 0x00FC6666667C6C6666E6000000000000 ++
  row 0x00000000000000000000000000000000 ++
  row 0x0078CCCCC07018CCCC78000000000000 ++
  row 0x00000000000000000000000000000000 ++
  row 0x00FCB430303030303078000000000000 ++
  row 0x00000000000000000000000000000000 ++
  row 0x00CCCCCCCCCCCCCCCC78000000000000 ++
  row 0x00000000000000000000000000000000 ++
  row 0x00CCCCCCCCCCCCCC7830000000000000 ++
  row 0x00000000000000000000000000000000 ++
  row 0x00C6C6C6C6D6D66C6C6C000000000000 ++
  row 0x00000000000000000000000000000000 ++
  row 0x00CCCCCC783078CCCCCC000000000000 ++
  row 0x00000000000000000000000000000000 ++
  row 0x00CCCCCCCC7830303078000000000000 ++
  row 0x00000000000000000000000000000000 ++
  row 0x00FECE9818306062C6FE000000000000 ++
  row 0x00000000000000000000000000000000 ++
  row 0x003C303030303030303C000000000000 ++
  row 0x00000000000000000000000000000000 ++
  row 0x000080C06030180C0602000000000000 ++
  row 0x00000000000000000000000000000000 ++
  row 0x003C0C0C0C0C0C0C0C3C000000000000 ++
  row 0x00000000000000000000000000000000 ++
  row 0x10386CC6000000000000000000000000 ++
  row 0x00000000000000000000000000000000 ++
  row 0x00000000000000000000FF0000000000 ++
  row 0x00000000000000000000000000000000 ++
  row 0x30301800000000000000000000000000 ++
  row 0x00000000000000000000000000000000 ++
  row 0x00000000780C7CCCCC76000000000000 ++
  row 0x00000000000000000000000000000000 ++
  row 0x00E060607C66666666DC000000000000 ++
  row 0x00000000000000000000000000000000 ++
  row 0x0000000078CCC0C0CC78000000000000 ++
  row 0x00000000000000000000000000000000 ++
  row 0x001C0C0C7CCCCCCCCC76000000000000 ++
  row 0x00000000000000000000000000000000 ++
  row 0x0000000078CCFCC0CC78000000000000 ++
  row 0x00000000000000000000000000000000 ++
  row 0x00386C6060F8606060F0000000000000 ++
  row 0x00000000000000000000000000000000 ++
  row 0x0000000076CCCCCC7C0CCC7800000000 ++
  row 0x00000000000000000000000000000000 ++
  row 0x00E060606C76666666E6000000000000 ++
  row 0x00000000000000000000000000000000 ++
  row 0x0018180078181818187E000000000000 ++
  row 0x00000000000000000000000000000000 ++
  row 0x000C0C003C0C0C0C0CCCCC7800000000 ++
  row 0x00000000000000000000000000000000 ++
  row 0x00E06060666C786C66E6000000000000 ++
  row 0x00000000000000000000000000000000 ++
  row 0x0078181818181818187E000000000000 ++
  row 0x00000000000000000000000000000000 ++
  row 0x00000000FCD6D6D6D6C6000000000000 ++
  row 0x00000000000000000000000000000000 ++
  row 0x00000000F8CCCCCCCCCC000000000000 ++
  row 0x00000000000000000000000000000000 ++
  row 0x0000000078CCCCCCCC78000000000000 ++
  row 0x00000000000000000000000000000000 ++
  row 0x00000000DC666666667C60F000000000 ++
  row 0x00000000000000000000000000000000 ++
  row 0x0000000076CCCCCCCC7C0C1E00000000 ++
  row 0x00000000000000000000000000000000 ++
  row 0x00000000EC6E766060F0000000000000 ++
  row 0x00000000000000000000000000000000 ++
  row 0x0000000078CC6018CC78000000000000 ++
  row 0x00000000000000000000000000000000 ++
  row 0x00002060FC6060606C38000000000000 ++
  row 0x00000000000000000000000000000000 ++
  row 0x00000000CCCCCCCCCC76000000000000 ++
  row 0x00000000000000000000000000000000 ++
  row 0x00000000CCCCCCCC7830000000000000 ++
  row 0x00000000000000000000000000000000 ++
  row 0x00000000C6C6D6D66C6C000000000000 ++
  row 0x00000000000000000000000000000000 ++
  row 0x00000000C66C38386CC6000000000000 ++
  row 0x00000000000000000000000000000000 ++
  row 0x00000000666666663C0C18F000000000 ++
  row 0x00000000000000000000000000000000 ++
  row 0x00000000FC8C1860C4FC000000000000 ++
  row 0x00000000000000000000000000000000 ++
  row 0x001C303060C06030301C000000000000 ++
  row 0x00000000000000000000000000000000.

Definition font_2 : list Z :=
  row 0x00181818180018181818000000000000 ++
  row 0x00000000000000000000000000000000 ++
  row 0x00E03030180C183030E0000000000000 ++
  row 0x00000000000000000000000000000000 ++
  row 0x0073DACE000000000000000000000000 ++
  row 0x00000000000000000000000000000000 ++
  row 0x00000010386CC6C6FE00000000000000 ++
  row 0x00000000000000000000000000000000 ++
  row 0x0078CCCCC0C0C0CCCC78306000000000 ++
  row 0x00000000000000000000000000000000 ++
  row 0x00CCCC00CCCCCCCCCC76000000000000 ++
  row 0x00000000000000000000000000000000 ++
  row 0x0C18300078CCFCC0CC78000000000000 ++
  row 0x00000000000000000000000000000000 ++
  row 0x3078CC00780C7CCCCC76000000000000 ++
  row 0x00000000000000000000000000000000 ++
  row 0x00CCCC00780C7CCCCC76000000000000 ++
  row 0x00000000000000000000000000000000 ++
  row 0xC0603000780C7CCCCC76000000000000 ++
  row 0x00000000000000000000000000000000 ++
  row 0x386C6C38F80C7CCCCC76000000000000 ++
  row 0x00000000000000000000000000000000 ++
  row 0x0000000078CCC0C0CC78306000000000 ++
  row 0x00000000000000000000000000000000 ++
  row 0x3078CC0078CCFCC0C07C000000000000 ++
  row 0x00000000000000000000000000000000 ++
  row 0x00CCCC0078CCFCC0C07C000000000000 ++
  row 0x00000000000000000000000000000000 ++
  row 0xC060300078CCFCC0C07C000000000000 ++
  row 0x00000000000000000000000000000000 ++
  row 0x006C6C0078181818187E000000000000 ++
  row 0x00000000000000000000000000000000 ++
  row 0x10386C0078181818187E000000000000 ++
  row 0x00000000000000000000000000000000 ++
  row 0x6030180078181818187E000000000000 ++
  row 0x00000000000000000000000000000000 ++
  row 0x00CC003078CCCCFCCCCC000000000000 ++
  row 0x00000000000000000000000000000000 ++
  row 0x78CCCC7878CCCCFCCCCC000000000000 ++
  row 0x00000000000000000000000000000000 ++
  row 0x0C1800FCC4C0F8C0C4FC000000000000 ++
  row 0x00000000000000000000000000000000 ++
  row 0x00000000FE1B7FD8D8EF000000000000 ++
  row 0x00000000000000000000000000000000 ++
  row 0x003E78D8D8FED8D8D8DE000000000000 ++
  row 0x00000000000000000000000000000000 ++
  row 0x3078CC0078CCCCCCCC78000000000000 ++
  row 0x00000000000000000000000000000000 ++
  row 0x00CCCC0078CCCCCCCC78000000000000 ++
  row 0x00000000000000000000000000000000 ++
  row 0xC060300078CCCCCCCC78000000000000 ++
  row 0x00000000000000000000000000000000 ++
  row 0x3078CC00CCCCCCCCCC76000000000000 ++
  row 0x00000000000000000000000000000000 ++
  row 0xC0603000CCCCCCCCCC76000000000000 ++
  row 0x00000000000000000000000000000000 ++
  row 0x00666600666666663C0C18F000000000 ++
  row 0x00000000000000000000000000000000 ++
  row 0x00CC0078CCCCCCCCCC78000000000000 ++
  row 0x00000000000000000000000000000000 ++
  row 0xCC00CCCCCCCCCCCCCC78000000000000 ++
  row 0x00000000000000000000000000000000 ++
  row 0x0000000078CCDCECCC78000000000000 ++
  row 0x00000000000000000000000000000000 ++
  row 0x3C66606060FC6060C0FE000000000000 ++
  row 0x00000000000000000000000000000000 ++
  row 0x003A6CCED6D6D6E66CB8000000000000 ++
  row 0x00000000000000000000000000000000 ++
  row 0x0000000000C66C386CC6000000000000 ++
  row 0x00000000000000000000000000000000 ++
  row 0x0E1B18187E181818D870000000000000 ++
  row 0x00000000000000000000000000000000 ++
  row 0x0C183000780C7CCCCC76000000000000 ++
  row 0x00000000000000000000000000000000 ++
  row 0x0C18300078181818187E000000000000 ++
  row 0x00000000000000000000000000000000 ++
  row 0x0C18300078CCCCCCCC78000000000000 ++
  row 0x00000000000000000000000000000000 ++
  row 0x0C183000CCCCCCCCCC76000000000000 ++
  row 0x00000000000000000000000000000000 ++
  row 0x0076DC00F8CCCCCCCCCC000000000000 ++
  row 0x00000000000000000000000000000000 ++
  row 0x76DC00C6E6F6DECEC6C6000000000000 ++
  row 0x00000000000000000000000000000000 ++
  row 0x0078CCCC7E00FE000000000000000000 ++
  row 0x00000000000000000000000000000000 ++
  row 0x0078CCCC7800FE000000000000000000 ++
  row 0x00000000000000000000000000000000 ++
  row 0x003030003060C0C0CC78000000000000 ++
  row 0x00000000000000000000000000000000 ++
  row 0x003844BAAABAB2AA4438000000000000 ++
  row 0x00000000000000000000000000000000 ++
  row 0x0000000000FC0C0C0C00000000000000 ++
  row 0x00000000000000000000000000000000 ++
  row 0x0062E66C78306EC3860C1F0000000000 ++
  row 0x00000000000000000000000000000000 ++
  row 0x0063E66C78376FDBB33F030000000000 ++
  row 0x00000000000000000000000000000000 ++
  row 0x00303000303078787830000000000000 ++
  row 0x00000000000000000000000000000000 ++
  row 0x000000003366CCCC6633000000000000 ++
  row 0x00000000000000000000000000000000 ++
  row 0x00000000CC66333366CC000000000000 ++
  row 0x00000000000000000000000000000000 ++
  row 0x24924924924924924924924900000000 ++
  row 0x00000000000000000000000000000000 ++
  row 0x55AA55AA55AA55AA55AA55AA00000000 ++
  row 0x00000000000000000000000000000000 ++
  row 0x6DDBB66DDBB66DDBB66DDBB600000000 ++
  row 0x00000000000000000000000000000000 ++
  row 0x18181818181818181818181800000000 ++
  row 0x00000000000000000000000000000000 ++
  row 0x1818181818F818181818181800000000 ++
  row 0x00000000000000000000000000000000 ++
  row 0x0C18003078CCCCFCCCCC000000000000 ++
  row 0x00000000000000000000000000000000 ++
  row 0x78CC003078CCCCFCCCCC000000000000 ++
  row 0x00000000000000000000000000000000 ++
  row 0x6030003078CCCCFCCCCC000000000000 ++
  row 0x00000000000000000000000000000000 ++
  row 0x003844BAA2A2A2BA4438000000000000 ++
  row 0x00000000000000000000000000000000 ++
  row 0x66666666E60606E66666666600000000 ++
  row 0x00000000000000000000000000000000 ++
  row 0x66666666666666666666666600000000 ++
  row 0x00000000000000000000000000000000 ++
  row 0x00000000FE0606E66666666600000000 ++
  row 0x00000000000000000000000000000000 ++
  row 0x66666666E60606FE0000000000000000 ++
  row 0x00000000000000000000000000000000 ++
  row 0x00303078CCC0C0CC7830300000000000 ++
  row 0x00000000000000000000000000000000.

Definition font_3 : list Z :=
  row 0xCCCCCCCC78FC30FC3030000000000000 ++
  row 0x00000000000000000000000000000000 ++
  row 0x0000000000F818181818181800000000 ++
  row 0x00000000000000000000000000000000 ++
  row 0x18181818181F00000000000000000000 ++
  row 0x00000000000000000000000000000000 ++
  row 0x1818181818FF00000000000000000000 ++
  row 0x00000000000000000000000000000000 ++
  row 0x0000000000FF18181818181800000000 ++
  row 0x00000000000000000000000000000000 ++
  row 0x18181818181F18181818181800000000 ++
  row 0x00000000000000000000000000000000 ++
  row 0x0000000000FF00000000000000000000 ++
  row 0x00000000000000000000000000000000 ++
  row 0x1818181818FF18181818181800000000 ++
  row 0x00000000000000000000000000000000 ++
  row 0x0076DC00780C7CCCCC76000000000000 ++
  row 0x00000000000000000000000000000000 ++
  row 0x76DC003078CCCCFCCCCC000000000000 ++
  row 0x00000000000000000000000000000000 ++
  row 0x666666666760607F0000000000000000 ++
  row 0x00000000000000000000000000000000 ++
  row 0x000000007F6060676666666600000000 ++
  row 0x00000000000000000000000000000000 ++
  row 0x66666666E70000FF0000000000000000 ++
  row 0x00000000000000000000000000000000 ++
  row 0x00000000FF0000E76666666600000000 ++
  row 0x00000000000000000000000000000000 ++
  row 0x66666666676060676666666600000000 ++
  row 0x00000000000000000000000000000000 ++
  row 0x00000000FF0000FF0000000000000000 ++
  row 0x00000000000000000000000000000000 ++
  row 0x66666666E70000E76666666600000000 ++
  row 0x00000000000000000000000000000000 ++
  row 0x0000000000C67C6C7CC6000000000000 ++
  row 0x00000000000000000000000000000000 ++
  row 0xCC30D80C067EC6C6C67C000000000000 ++
  row 0x00000000000000000000000000000000 ++
  row 0x00F86C6666F666666CF8000000000000 ++
  row 0x00000000000000000000000000000000 ++
  row 0x78CC00FCC4C0F8C0C4FC000000000000 ++
  row 0x00000000000000000000000000000000 ++
  row 0x00CC00FCC4C0F8C0C4FC000000000000 ++
  row 0x00000000000000000000000000000000 ++
  row 0x603000FCC4C0F8C0C4FC000000000000 ++
  row 0x00000000000000000000000000000000 ++
  row 0x00F0303030FC00000000000000000000 ++
  row 0x00000000000000000000000000000000 ++
  row 0x18300078303030303078000000000000 ++
  row 0x00000000000000000000000000000000 ++
  row 0x78CC0078303030303078000000000000 ++
  row 0x00000000000000000000000000000000 ++
  row 0x00CC0078303030303078000000000000 ++
  row 0x00000000000000000000000000000000 ++
  row 0x1818181818F800000000000000000000 ++
  row 0x00000000000000000000000000000000 ++
  row 0x00000000001F18181818181800000000 ++
  row 0x00000000000000000000000000000000 ++
  row 0xFFFFFFFFFFFFFFFFFFFFFFFF00000000 ++
  row 0x00000000000000000000000000000000 ++
  row 0x000000000000FFFFFFFFFFFF00000000 ++
  row 0x00000000000000000000000000000000 ++
  row 0x00181818180018181818000000000000 ++
  row 0x00000000000000000000000000000000 ++
  row 0x60300078303030303078000000000000 ++
  row 0x00000000000000000000000000000000 ++
  row 0xFFFFFFFFFFFF00000000000000000000 ++
  row 0x00000000000000000000000000000000 ++
  row 0x18300078CCCCCCCCCC78000000000000 ++
  row 0x00000000000000000000000000000000 ++
  row 0x0078CCCCD8CCCCCCF8C0600000000000 ++
  row 0x00000000000000000000000000000000 ++
  row 0x78CC0078CCCCCCCCCC78000000000000 ++
  row 0x00000000000000000000000000000000 ++
  row 0x60300078CCCCCCCCCC78000000000000 ++
  row 0x00000000000000000000000000000000 ++
  row 0x0076DC0078CCCCCCCC78000000000000 ++
  row 0x00000000000000000000000000000000 ++
  row 0x76DC0078CCCCCCCCCC78000000000000 ++
  row 0x00000000000000000000000000000000 ++
  row 0x0000000066666666667B60C000000000 ++
  row 0x00000000000000000000000000000000 ++
  row 0x0000E0607C66667C60F0000000000000 ++
  row 0x00000000000000000000000000000000 ++
  row 0x00F0607C6666667C60F0000000000000 ++
  row 0x00000000000000000000000000000000 ++
  row 0x183000CCCCCCCCCCCC78000000000000 ++
  row 0x00000000000000000000000000000000 ++
  row 0x78CC00CCCCCCCCCCCC78000000000000 ++
  row 0x00000000000000000000000000000000 ++
  row 0x603000CCCCCCCCCCCC78000000000000 ++
  row 0x00000000000000000000000000000000 ++
  row 0x060C1800666666663C0C18F000000000 ++
  row 0x00000000000000000000000000000000 ++
  row 0x183000CCCCCC78303078000000000000 ++
  row 0x00000000000000000000000000000000 ++
  row 0x00FC0000000000000000000000000000 ++
  row 0x00000000000000000000000000000000 ++
  row 0x0C183000000000000000000000000000 ++
  row 0x00000000000000000000000000000000 ++
  row 0x0000000000FC00000000000000000000 ++
  row 0x00000000000000000000000000000000 ++
  row 0x00003030FC303000FC00000000000000 ++
  row 0x00000000000000000000000000000000 ++
  row 0x0000000000F80000F800000000000000 ++
  row 0x00000000000000000000000000000000 ++
  row 0xE033663CF8376FDBB33F030000000000 ++
  row 0x00000000000000000000000000000000 ++
  row 0x007FDBDBDB7B1B1B1B1B000000000000 ++
  row 0x00000000000000000000000000000000 ++
  row 0x007E63303C66663C0CC67E0000000000 ++
  row 0x00000000000000000000000000000000 ++
  row 0x0000303000FC00303000000000000000 ++
  row 0x00000000000000000000000000000000 ++
  row 0x00000000000000000000307000000000 ++
  row 0x00000000000000000000000000000000 ++
  row 0x003C6666663C00000000000000000000 ++
  row 0x00000000000000000000000000000000 ++
  row 0x00CC0000000000000000000000000000 ++
  row 0x00000000000000000000000000000000 ++
  row 0x00000000001800000000000000000000 ++
  row 0x00000000000000000000000000000000 ++
  row 0x00307030307800000000000000000000 ++
  row 0x00000000000000000000000000000000 ++
  row 0x00780C380C7800000000000000000000 ++
  row 0x00000000000000000000000000000000 ++
  row 0x00780C18307C00000000000000000000 ++
  row 0x00000000000000000000000000000000 ++
  row 0x000000FCFCFCFCFCFC00000000000000 ++
  row 0x00000000000000000000000000000000 ++
  row 0x00000000000000000000000000000000 ++
  row 0x00000000000000000000000000000000.

(** [font] *)
Definition font_bytes : list Z := font_0 ++ font_1 ++ font_2 ++ font_3.

(** [font[k]]; the code does not look outside. *)
Definition font (k : Z) : Z := nth (Z.to_nat k) font_bytes 0.

(** ** Reading what is drawn *)

(** The 32 bytes of the glyph of [c]. *)
Definition glyph (c : Z) : list Z := (fun k => font (256 + 32 * c + k)) <$> seqZ 0 32.

(** The characters [putc] draws: those above the space, a signed [char] at most. *)
Definition drawn : list Z := seqZ 33 95.

Lemma glyphs_distinct : NoDup (glyph <$> drawn).
Proof. apply (bool_decide_unpack _). vm_compute. exact Logic.I. Qed.

Lemma font_length : Z.of_nat (length font_bytes) = font_size.
Proof. vm_compute. reflexivity. Qed.

Lemma font_byte k : 0 <= font k < 256.
Proof.
  unfold font. assert (H : Forall (fun b => 0 <= b < 256) font_bytes).
  { apply Forall_forall. intros b Hb. assert (forallb (fun b => (0 <=? b) && (b <? 256)) font_bytes = true) as Ha by (vm_compute; reflexivity).
    rewrite forallb_forall in Ha. specialize (Ha b). rewrite <- list_elem_of_In in Ha. specialize (Ha Hb). lia. }
  destruct (nth_in_or_default (Z.to_nat k) font_bytes 0) as [Hin|E]; [|lia].
  rewrite Forall_forall in H. apply H. by apply list_elem_of_In.
Qed.

Lemma bit_testbit b k : 0 <= k -> Z.land (Z.shiftr b k) 1 = Z.b2z (Z.testbit b k).
Proof.
  intros Hk. change 1 with (Z.ones 1). rewrite Z.land_ones by lia. change (2 ^ 1) with 2.
  rewrite <- Z.bit0_mod, Z.shiftr_spec by lia. done.
Qed.

(** Bytes with the same bits are the same. *)
Lemma byte_bits a b : 0 <= a < 256 -> 0 <= b < 256 -> (forall k, 0 <= k < 8 -> Z.testbit a k = Z.testbit b k) -> a = b.
Proof.
  intros Ha Hb H. apply Z.bits_inj'. intros k Hk. destruct (Z.ltb_spec k 8); [by apply H|].
  rewrite !Z.bits_above_log2; try done; try lia.
  - destruct (decide (b = 0)) as [->|]; [simpl; lia|]. enough (Z.log2 b < 8) by lia. apply Z.log2_lt_pow2; lia.
  - destruct (decide (a = 0)) as [->|]; [simpl; lia|]. enough (Z.log2 a < 8) by lia. apply Z.log2_lt_pow2; lia.
Qed.

Section legible.
Context (s : kernel) (c c' color : Z).
Context (Hcolor : u32 color) (Hseen : pixel_word (k_scr s) color <> 0).

Lemma word_bit i j : 0 <= j < 16 -> word_at font s c color i j = word_at font s c' color i j ->
  Z.testbit (font (256 + 32 * c + i + 16 * (j / 8))) (7 - j mod 8) = Z.testbit (font (256 + 32 * c' + i + 16 * (j / 8))) (7 - j mod 8).
Proof.
  intros Hj. unfold word_at, bit_at. replace (8 * c * 4) with (32 * c) by lia. replace (8 * c' * 4) with (32 * c') by lia.
  rewrite !bit_testbit by divlia.
  assert (E0 : pixel_word (k_scr s) (mul32 color (Z.b2z false)) = 0).
  { unfold mul32. simpl Z.b2z. rewrite Z.mul_0_r. unfold pixel_word. simpl. by rewrite !Z.shiftl_0_l. }
  assert (E1 : pixel_word (k_scr s) (mul32 color (Z.b2z true)) = pixel_word (k_scr s) color).
  { unfold mul32. simpl Z.b2z. by rewrite Z.mul_1_r, w32_small. }
  destruct (Z.testbit (font (256 + 32 * c + _ + _)) _), (Z.testbit (font (256 + 32 * c' + _ + _)) _); rewrite ?E0, ?E1; congruence.
Qed.

Lemma glyph_of_words : (forall i j, 0 <= i < 16 -> 0 <= j < 16 -> word_at font s c color i j = word_at font s c' color i j) ->
  glyph c = glyph c'.
Proof.
  intros H. apply list_fmap_ext. intros n k Hk%list_elem_of_lookup_2%elem_of_seqZ.
  apply byte_bits; [apply font_byte..|]. intros b Hb.
  assert (Hj : 0 <= 8 * (k / 16) + (7 - b) < 16) by divlia.
  pose proof (word_bit (k mod 16) (8 * (k / 16) + (7 - b)) Hj (H (k mod 16) _ ltac:(divlia) Hj)) as Hbit.
  replace ((8 * (k / 16) + (7 - b)) / 8) with (k / 16) in Hbit by divlia.
  replace (7 - (8 * (k / 16) + (7 - b)) mod 8) with b in Hbit by divlia.
  replace (256 + 32 * c + k mod 16 + 16 * (k / 16)) with (256 + 32 * c + k) in Hbit by divlia.
  by replace (256 + 32 * c' + k mod 16 + 16 * (k / 16)) with (256 + 32 * c' + k) in Hbit by divlia.
Qed.
End legible.

(** C32. What the console draws can be read: the pixels of two different characters, drawn
    at the same place in the same color (one that is not black on this screen), differ. *)
Theorem console_legible (s : kernel) x y c c' color :
  scr_bpp (k_scr s) = 32 -> 0 <= x -> 0 <= y -> 4 * (x + 16) <= scr_pitch (k_scr s) ->
  scr_pitch (k_scr s) * (y + 16) < 2 ^ 32 -> 0 <= scr_vaddr (k_scr s) ->
  scr_vaddr (k_scr s) + scr_pitch (k_scr s) * (y + 16) < 2 ^ 64 ->
  mapped (k_mem s) (scr_vaddr (k_scr s) + scr_pitch (k_scr s) * y) (scr_pitch (k_scr s) * 16) ->
  u32 color -> pixel_word (k_scr s) color <> 0 -> 32 < c < 128 -> 32 < c' < 128 ->
  exists m m', putchar font x y c color s = Done tt (set_mem m s) /\ putchar font x y c' color s = Done tt (set_mem m' s) /\
    (m = m' -> c = c').
Proof.
  intros Hbpp Hx Hy Hpitch Hfit Hv Hend Hm Hcolor Hseen Hc Hc'. destruct order_spec as (Hnd & Hin & Hall).
  exists (draw font s x y c color (k_mem s) order), (draw font s x y c' color (k_mem s) order).
  split; [by apply putchar_run|]. split; [by apply putchar_run|]. intros E.
  assert (Hg : glyph c = glyph c').
  { apply (glyph_of_words s c c' color Hcolor Hseen). intros i j Hi Hj.
    pose proof (draw_pixel font s x y c color Hx Hpitch (k_mem s) order i j Hin Hnd (Hall i j Hi Hj)) as P.
    pose proof (draw_pixel font s x y c' color Hx Hpitch (k_mem s) order i j Hin Hnd (Hall i j Hi Hj)) as P'.
    rewrite <- E, P in P'. by injection P'. }
  pose proof glyphs_distinct as Hd. rewrite NoDup_alt in Hd.
  assert (Hl : forall k, 32 < k < 128 -> (glyph <$> drawn) !! Z.to_nat (k - 33) = Some (glyph k)).
  { intros k Hk. rewrite list_lookup_fmap. unfold drawn. rewrite lookup_seqZ_lt by lia. simpl. do 2 f_equal. lia. }
  pose proof (Hd _ _ _ (Hl c Hc) (eq_trans (Hl c' Hc') (f_equal Some (eq_sym Hg)))). lia.
Qed.

Lemma console_legible_witness : let s := small_screen 16 16 7 in
  exists m m', putchar font 0 0 65 0xFF0000 s = Done tt (set_mem m s) /\ putchar font 0 0 66 0xFF0000 s = Done tt (set_mem m' s) /\
    (m = m' -> 65 = 66).
Proof.
  apply (console_legible (small_screen 16 16 7) 0 0 65 66 0xFF0000); simpl; try lia.
  - apply (mappedb_spec _ _ 2048). vm_compute. reflexivity.
  - unfold u32. lia.
  - vm_compute. discriminate.
Defined.
