(* ===== verification/Console.v ===== *)
(** * kernel/io.c: [printf]

    [printf] as the console runs it, a character at a time; the other files record a call
    as one event. *)
From S2P Require Import Prelude Memory State Screen Printf.

Section console.
Context (font : Z -> Z) (fuel : nat).
(** Where the linker puts [printf_lock]. *)
Context (printf_lock : Z).

(** [putc_ctx] for every character. *)
Fixpoint put_chars (l : list Z) : M kernel unit :=
  match l with
  | [] => mret tt
  | c :: l => putc font fuel c ;; put_chars l
  end.

(** [printf]; a format with undefined behaviour stops. *)
Definition kprintf (f : list Z) (args : list arg) : M kernel unit :=
  ACQUIRE_at printf_lock ;;
  match npf_vpprintf f args with
  | None => halt Fault
  | Some (_, out) => put_chars out
  end ;;
  RELEASE_at printf_lock.

End console.
