(* ===== verification/Panic.v ===== *)
(** * The end of the kernel: kernel/assert.c, stack_prot.c, include/panic.h and kernel/arch/x86_64/backtrace.c and freeze.c

    The other files end in [halt Panic] where the code panics; here is what the code does
    before it stops.  The strings the compiler fills in (the file, the function, the
    text of an assertion) are arguments, as is the frame pointer register [rbp]. *)
From S2P Require Import Prelude Memory State Devices PageAlloc PageTheorems Screen.

(** [struct frame] *)
Definition FRAME_RBP : Z := 0.
Definition FRAME_RIP : Z := 8.

(** The loop of [backtrace]: at most [n] more frames, from [stk]. *)
Fixpoint backtrace_loop (n : nat) (stk : Z) : M kernel unit :=
  match n with
  | O => mret tt
  | S n =>
      if 0xffffffff80000000 <=? stk then
        rip ← load64 (stk + FRAME_RIP);
        printf ("    %p" +:+ nl) [rip] ;;
        stk ← load64 (stk + FRAME_RBP);
        backtrace_loop n stk
      else mret tt
  end.

(** [rbp] is the frame pointer register. *)
Definition backtrace (rbp : Z) : M kernel unit :=
  printf ("Stack trace:" +:+ nl) [] ;;
  backtrace_loop 10 rbp.

(** Interrupts off and [hlt] for ever. *)
Definition freeze : M kernel unit :=
  printf "%c=== Kernel is freezing ===" [COLOR_RED] ;; halt Panic.

(** The macro [panic]; the position it prints is an argument. *)
Definition panic (func file : Z) (line addr : Z) (f : string) (args : list Z) (rbp : Z) : M kernel unit :=
  printf (nl +:+ nl +:+ "%c=== KERNEL PANIC ===" +:+ nl +:+ "%c") [COLOR_RED; COLOR_WHITE] ;;
  printf ("Panic in %s at %s:%d (%p)" +:+ nl +:+ nl) [func; file; line; addr] ;;
  printf f args ;;
  printf nl [] ;;
  backtrace rbp ;;
  freeze.

Section assert.
Context (file line func test_text addr rbp : Z).
(** [__func__] and [__FILE__] of the functions below. *)
Context (this_func this_file : Z).

Definition assertion_failed : M kernel unit :=
  panic this_func this_file line addr "%s:%d in %s: Assertion `%s' failed" [file; line; func; test_text] rbp.

(** [assert_test] *)
Definition assert_test_full (test : bool) : M kernel unit :=
  if test then mret tt else assertion_failed.

(** The values are [long long]s. *)
Definition assert_eq_test (x y : Z) : M kernel unit :=
  if x =? y then mret tt
  else printf (nl +:+ "ASSERTION FAILED: %p == %p") [x; y] ;; assertion_failed.

Definition stack_chk_fail : M kernel unit :=
  panic this_func this_file line addr "Stack overflow detected!" [] rbp.
End assert.

(** ** What a backtrace prints *)

(** Frames from [stk] on with the return addresses [rips], of which the last one links to
    [last]. *)
Fixpoint frames (m : gmap Z Z) (stk : Z) (rips : list Z) (last : Z) : Prop :=
  match rips with
  | [] => stk = last
  | rip :: rips =>
      0xffffffff80000000 <= stk /\ read64 m (stk + FRAME_RIP) = Some rip /\
      exists next, read64 m (stk + FRAME_RBP) = Some next /\ frames m next rips last
  end.

Definition rip_line (rip : Z) : io_event := Printf ("    %p" +:+ nl) [rip].

Lemma printf_run f args s : printf f args s = Done tt (logged [Printf f args] s).
Proof. apply emit_run. Qed.

Lemma backtrace_loop_run n s stk rips last : frames (k_mem s) stk rips last -> (length rips <= n)%nat ->
  backtrace_loop n stk s = backtrace_loop (n - length rips) last (logged (rev (rip_line <$> rips)) s).
Proof.
  revert n s stk. induction rips as [|rip rips IH]; intros n s stk Hf Hn.
  - simpl in Hf. subst stk. simpl. rewrite Nat.sub_0_r. by destruct s as [? ? ? ? ? []].
  - destruct Hf as (Hk & Hrip & next & Hnext & Hf). destruct n as [|n]; [simpl in Hn; lia|]. cbn [backtrace_loop].
    rewrite (proj2 (Z.leb_le _ _) Hk), (run_bind _ _ _ _ _ (kload64 s _ _ Hrip)), (run_bind _ _ _ _ _ (printf_run _ _ s)).
    rewrite (run_bind _ _ (logged [rip_line rip] s) _ _ (kload64 (logged [rip_line rip] s) _ _ Hnext)).
    rewrite (IH n (logged [rip_line rip] s) next Hf) by (simpl in Hn; lia). cbn [length fmap list_fmap rev].
    rewrite logged_logged. done.
Qed.

(** [backtrace] prints the return addresses of the frames that are linked from [rbp],
    ten at most, as long as they lie in the kernel; and it trusts the links: one that
    points to kernel space which is not mapped ends it in a page fault. *)
Theorem backtrace_prints s rbp rips last : frames (k_mem s) rbp rips last -> (length rips <= 10)%nat ->
  let out := logged (rev (rip_line <$> rips)) (logged [Printf ("Stack trace:" +:+ nl) []] s) in
  (length rips = 10%nat \/ last < 0xffffffff80000000 -> backtrace rbp s = Done tt out) /\
  ((length rips < 10)%nat -> 0xffffffff80000000 <= last -> read64 (k_mem s) (last + FRAME_RIP) = None ->
     backtrace rbp s = Stop Fault).
Proof.
  intros Hf Hn out. unfold backtrace. rewrite (run_bind _ _ _ _ _ (printf_run _ _ s)).
  rewrite (backtrace_loop_run 10 (logged [Printf ("Stack trace:" +:+ nl) []] s) rbp rips last Hf Hn). fold out. split.
  - intros [Hl|Hlast]; [by rewrite Hl|]. destruct (10 - length rips)%nat; [done|]. cbn [backtrace_loop].
    by rewrite (proj2 (Z.leb_gt _ _) Hlast).
  - intros Hl Hk Hnone. destruct (10 - length rips)%nat as [|k] eqn:E; [lia|]. cbn [backtrace_loop].
    rewrite (proj2 (Z.leb_le _ _) Hk). apply run_bind_stop. unfold load64. change (mem_of out) with (k_mem s). by rewrite Hnone.
Qed.

(** Two frames, the outer one with no caller. *)
Definition frames_mem : gmap Z Z :=
  write64 (write64 (write64 (write64 (zeros 0xffffffff80001000 64 ∅) 0xffffffff80001000 0xffffffff80001020)
    0xffffffff80001008 0xffffffff80000111) 0xffffffff80001020 0) 0xffffffff80001028 0xffffffff80000222.
Definition frames_kernel : kernel :=
  quiet_kernel frames_mem (PageAllocGlobals 0 0 false) (CpuGlobals 0 1 0 0) (ProcGlobals 0 false 0 0 false) no_paging.

Lemma backtrace_prints_witness :
  let out := logged (rev (rip_line <$> [0xffffffff80000111; 0xffffffff80000222]))
    (logged [Printf ("Stack trace:" +:+ nl) []] frames_kernel) in
  (2%nat = 10%nat \/ 0 < 0xffffffff80000000 -> backtrace 0xffffffff80001000 frames_kernel = Done tt out) /\
  ((2 < 10)%nat -> 0xffffffff80000000 <= 0 -> read64 frames_mem (0 + FRAME_RIP) = None ->
     backtrace 0xffffffff80001000 frames_kernel = Stop Fault).
Proof.
  apply (backtrace_prints frames_kernel 0xffffffff80001000 [0xffffffff80000111; 0xffffffff80000222] 0); [|simpl; lia].
  repeat split; try lia; try (vm_compute; reflexivity). exists 0xffffffff80001020.
  repeat split; try lia; try (vm_compute; reflexivity). exists 0. split; [vm_compute; reflexivity|done].
Defined.

Lemma load64_cases a (s : kernel) : (exists v, load64 a s = Done v s) \/ load64 a s = Stop Fault.
Proof.
  unfold load64. destruct (read64 (mem_of s) a) as [v|]; [left; by exists v|by right].
Qed.

Lemma backtrace_loop_ends n stk s :
  (exists s', backtrace_loop n stk s = Done tt s') \/ backtrace_loop n stk s = Stop Fault.
Proof.
  revert stk s. induction n as [|n IH]; intros stk s; cbn [backtrace_loop]; [left; by eexists|].
  case_match; [|left; by eexists]. destruct (load64_cases (stk + FRAME_RIP) s) as [[v E]|E]; [|right; by apply run_bind_stop].
  rewrite (run_bind _ _ _ _ _ E), (run_bind _ _ _ _ _ (printf_run _ _ s)).
  destruct (load64_cases (stk + FRAME_RBP) (logged [rip_line v] s)) as [[w E']|E']; [|right; by apply run_bind_stop].
  rewrite (run_bind _ _ _ _ _ E'). apply IH.
Qed.

(** Whatever is printed and found on the stack, a panic never returns: this is why
    [halt Panic] stands for it elsewhere. *)
Lemma panic_stops func file line addr f args rbp s :
  panic func file line addr f args rbp s = Stop Panic \/ panic func file line addr f args rbp s = Stop Fault.
Proof.
  unfold panic. do 4 rewrite (run_bind _ _ _ _ _ (printf_run _ _ _)). unfold backtrace.
  set (s' := logged _ _). assert (Hb : (exists s'', (printf ("Stack trace:" +:+ nl) [] ;; backtrace_loop 10 rbp) s' = Done tt s'') \/
    (printf ("Stack trace:" +:+ nl) [] ;; backtrace_loop 10 rbp) s' = Stop Fault).
  { rewrite (run_bind _ _ _ _ _ (printf_run _ _ _)). apply backtrace_loop_ends. }
  destruct Hb as [[s'' E]|E]; [left|right; by apply run_bind_stop]. rewrite (run_bind _ _ _ _ _ E). done.
Qed.

Lemma assert_eq_test_returns file line func text addr rbp this_func this_file x y s :
  (x = y -> assert_eq_test file line func text addr rbp this_func this_file x y s = Done tt s) /\
  (x <> y -> exists e, assert_eq_test file line func text addr rbp this_func this_file x y s = Stop e).
Proof.
  unfold assert_eq_test. destruct (Z.eqb_spec x y) as [E|E]; split; try done. intros _.
  rewrite (run_bind _ _ _ _ _ (printf_run _ _ s)). unfold assertion_failed.
  edestruct panic_stops as [->| ->]; by eexists.
Qed.
