(* ===== verification/PageInit.v ===== *)
(** * page_alloc_init and memmap_init: from the boot loader's memory map to pools

    kernel/arch/x86_64/memmap.c and [page_alloc_init] of kernel/page_alloc.c. *)
From S2P Require Import Prelude Memory Mem Pow2 State FreeList PageAlloc Paging.

(** [struct memmap_entry] *)
Definition MM_BASE : Z := 0.
Definition MM_LEN : Z := 8.
Definition MM_SIZE : Z := 16.

(** [LIMINE_MEMMAP_USABLE] *)
Definition LIMINE_MEMMAP_USABLE : Z := 0.

Definition set_memmap (p len : Z) (s : kernel) : kernel :=
  let g := k_boot s in
  set_boot (BootGlobals (high_addr g) (xsdp_revision g) (xsdp_rsdt g) (xsdp_xsdt g) (acpi64 g)
    (xsdt g) p len) s.

(** The loop over the boot loader's entries (base, length, type). *)
Fixpoint memmap_fill (l : list (Z * Z * Z)) (mm i : Z) : M kernel unit :=
  match l with
  | [] => mret tt
  | (base, len, ty) :: l' =>
      printf ("%d %p %p" +:+ nl) [ty; base; len] ;;
      (if (ty =? LIMINE_MEMMAP_USABLE) && negb (len =? 0) then
         store64 (mm + i * MM_SIZE + MM_BASE) base ;;
         store64 (mm + i * MM_SIZE + MM_LEN) len
       else store64 (mm + i * MM_SIZE + MM_BASE) 0) ;;
      memmap_fill l' mm (i + 1)
  end.

Definition memmap_init (response : option (list (Z * Z * Z))) : M kernel unit :=
  match response with
  | None | Some [] => halt Panic
  | Some l =>
      let n := Z.of_nat (length l) in
      old ← gets (fun s => memmap (k_boot s));
      modify (set_memmap old n) ;;
      mm ← miniheap_alloc (mul64 MM_SIZE n);
      modify (set_memmap mm n) ;;
      printf ("Memory map (length %d):" +:+ nl) [n] ;;
      memmap_fill l mm 0
  end.

(** [do { ++n_pools; len -= prev_pow2(len); } while (len - prev_pow2(len) >= PAGE_SIZE);]:
    how often the body runs. *)
Fixpoint count_chunks (fuel : nat) (len : Z) : option nat :=
  match fuel with
  | O => None
  | S k =>
      let len := sub64 len (prev_pow2 len) in
      if PAGE_SIZE <=? sub64 len (prev_pow2 len) then n ← count_chunks k len; Some (S n)
      else Some 1%nat
  end.

Definition entry_len (i : Z) : M kernel Z :=
  mm ← gets (fun s => memmap (k_boot s)); load64 (mm + i * MM_SIZE + MM_LEN).
Definition entry_base (i : Z) : M kernel Z :=
  mm ← gets (fun s => memmap (k_boot s)); load64 (mm + i * MM_SIZE + MM_BASE).

Fixpoint count_pools (fuel n : nat) (i acc : Z) : M kernel Z :=
  match n with
  | O => mret acc
  | S k =>
      len ← entry_len i;
      if len <? PAGE_SIZE then count_pools fuel k (i + 1) acc else
      match count_chunks fuel len with
      | None => halt OutOfFuel
      | Some c => count_pools fuel k (i + 1) (acc + Z.of_nat c)
      end
  end.

(** The body of the second loop: map the chunk and describe it as pool [j]. *)
Definition init_pool (fuel : nat) (j phys szp2 : Z) : M kernel unit :=
  virt ← premap_anon fuel phys szp2 (Z.lor (Z.lor PAGE_PRESENT PAGE_WRITABLE) PAGE_NX);
  p ← pool_addr j;
  store64 (p + POOL_BASE) virt ;;
  store64 (p + POOL_END) (add64 virt szp2) ;;
  store64 (p + POOL_START) virt ;;
  st ← load64 (p + POOL_START);
  store64 st szp2 ;;
  e ← load64 (p + POOL_END);
  store64 (st + NEXT) e.

(** [do { ...; ++j; } while (sz - szp2 >= PAGE_SIZE);], returning the next [j]. *)
Fixpoint init_chunks (n fuel : nat) (j phys sz szp2 : Z) : M kernel Z :=
  match n with
  | O => halt OutOfFuel
  | S k =>
      init_pool fuel j phys szp2 ;;
      let sz := sub64 sz szp2 in
      let phys := add64 phys szp2 in
      let szp2 := prev_pow2 sz in
      if PAGE_SIZE <=? sub64 sz szp2 then init_chunks k fuel (j + 1) phys sz szp2 else mret (j + 1)
  end.

Fixpoint init_entries (fuel n : nat) (i j : Z) : M kernel unit :=
  match n with
  | O => mret tt
  | S k =>
      phys ← entry_base i;
      sz ← entry_len i;
      let szp2 := prev_pow2 sz in
      if sz <? PAGE_SIZE then init_entries fuel k (i + 1) j else
      j ← init_chunks fuel fuel j phys sz szp2;
      init_entries fuel k (i + 1) j
  end.

Definition set_pools (p n : Z) (s : kernel) : kernel := set_pa (PageAllocGlobals p n (pa_lock (k_pa s))) s.

Definition page_alloc_init (fuel : nat) : M kernel unit :=
  len ← gets (fun s => memmap_len (k_boot s));
  n0 ← gets (fun s => n_pools (k_pa s));
  n ← count_pools fuel (Z.to_nat len) 0 n0;
  old ← gets (fun s => pools (k_pa s));
  modify (set_pools old n) ;;
  assert_test (negb (n =? 0)) ;;
  p ← miniheap_alloc (mul64 n POOL_SIZE);
  modify (set_pools p n) ;;
  assert_test (negb (p =? 0)) ;;
  init_entries fuel (Z.to_nat len) 0 0.
