(* ===== verification/PageInitTheorems.v ===== *)
(** * From the boot loader's memory map to a working heap

    [page_alloc_init] of kernel/page_alloc.c cuts the memory map's entries into powers of
    two, maps each chunk after the kernel and makes it a pool; [kalloc_init] of
    kernel/kalloc.c allocates the heaps' states.  Here: they establish the invariants the
    allocators' theorems start from. *)
From S2P Require Import Prelude Memory Mem Pow2 State FreeList PageSpec PageAlloc PageRefine PageTheorems Allocator Kalloc KallocRefine Devices Paging PageWalk PagingTheorems PageInit.

(** ** The chunks of an entry *)

(** The (address, size) chunks of [sz] bytes from [phys] on, as the loop takes them. *)
Fixpoint chunks (n : nat) (phys sz : Z) : list (Z * Z) :=
  match n with
  | O => []
  | S k =>
      let c := prev_pow2 sz in
      (phys, c) :: if PAGE_SIZE <=? (sz - c) - prev_pow2 (sz - c) then chunks k (phys + c) (sz - c) else []
  end.

(** At most 64 chunks: each takes the top bit of the size. *)
Definition entry_chunks (e : Z * Z) : list (Z * Z) :=
  if e.2 <? PAGE_SIZE then [] else chunks 64 e.1 e.2.

Definition total (cs : list (Z * Z)) : Z := foldr (fun c t => c.2 + t) 0 cs.

Lemma total_app a b : total (a ++ b) = total a + total b.
Proof. induction a as [|c a IH]; simpl; lia. Qed.

Lemma prev_pow2_bounds x : 0 < x < 2 ^ 64 -> 0 < prev_pow2 x <= x /\ x < 2 * prev_pow2 x.
Proof.
  intros Hx. rewrite prev_pow2_log2 by done. pose proof (Z.log2_spec x ltac:(lia)) as H.
  rewrite Z.pow_succ_r in H by apply Z.log2_nonneg. lia.
Qed.

Lemma prev_pow2_page x : 4096 <= x < 2 ^ 64 -> page_pow2 (prev_pow2 x).
Proof.
  intros Hx. rewrite prev_pow2_log2 by lia. exists (Z.log2 x). split; [|done]. split.
  - change 12 with (Z.log2 4096). apply Z.log2_le_mono. lia.
  - apply Z.log2_lt_pow2; lia.
Qed.

Lemma prev_pow2_0 : prev_pow2 0 = 0.
Proof. done. Qed.

(** What is left after a chunk. *)
Lemma rest_bounds sz : 4096 <= sz < 2 ^ 64 -> let r := sz - prev_pow2 sz in
  0 <= r < prev_pow2 sz /\ 0 <= r - prev_pow2 r <= r /\ (4096 <= r - prev_pow2 r -> 4096 <= r /\ Z.log2 r < Z.log2 sz).
Proof.
  intros Hsz r. pose proof (prev_pow2_bounds sz ltac:(lia)) as Hb. assert (Hr : 0 <= r < prev_pow2 sz) by lia.
  split; [done|]. destruct (decide (r = 0)) as [E|Hne]; [rewrite E, prev_pow2_0; lia|].
  pose proof (prev_pow2_bounds r ltac:(lia)). split; [lia|]. intros Hle. split; [lia|].
  rewrite prev_pow2_log2 in Hr by lia. apply Z.log2_lt_pow2; lia.
Qed.

(** The number of rounds is enough. *)
Lemma chunks_enough n m phys sz : 4096 <= sz < 2 ^ 64 -> Z.log2 sz < Z.of_nat n -> (n <= m)%nat -> chunks m phys sz = chunks n phys sz.
Proof.
  revert m phys sz. induction n as [|n IH]; intros m phys sz Hsz Hn Hm; [pose proof (Z.log2_nonneg sz); lia|].
  destruct m as [|m]; [lia|]. cbn [chunks]. destruct (rest_bounds sz Hsz) as (Hr & Hp & Hmore). f_equal.
  destruct (Z.leb_spec PAGE_SIZE (sz - prev_pow2 sz - prev_pow2 (sz - prev_pow2 sz))) as [Hle|]; [|done].
  destruct (Hmore Hle). apply IH; lia.
Qed.

Lemma chunks_64 n phys sz : 4096 <= sz < 2 ^ 64 -> (64 <= n)%nat -> chunks n phys sz = chunks 64 phys sz.
Proof. intros Hsz Hn. apply chunks_enough; [done| |done]. apply Z.log2_lt_pow2; lia. Qed.

(** A chunk that can be a pool. *)
Record chunk_ok (c : Z * Z) : Prop := {
  ck_pow2 : page_pow2 c.2;
  ck_small : c.2 <= 2 ^ 45;
  ck_addr : 0 <= c.1 /\ c.1 + c.2 + 4096 <= 2 ^ 63;
  ck_align : (4096 | c.1);
}.

Lemma page_pow2_4096 c : page_pow2 c -> (4096 | c).
Proof.
  intros (k & Hk & ->). exists (2 ^ (k - 12)). change 4096 with (2 ^ 12). rewrite <- Z.pow_add_r by lia. f_equal. lia.
Qed.

Lemma total_nonneg cs : Forall chunk_ok cs -> 0 <= total cs.
Proof. induction 1 as [|c cs [Hc%page_pow2_pos] _ IH]; simpl; lia. Qed.

Lemma total_pos cs : Forall chunk_ok cs -> cs <> [] -> 0 < total cs.
Proof. intros [|c l [Hc%page_pow2_pos] Hl%total_nonneg] Hne; [done|]. simpl. lia. Qed.

Lemma total_align cs : Forall chunk_ok cs -> (4096 | total cs).
Proof.
  induction 1 as [|c cs [Hc%page_pow2_4096] _ IH]; simpl; [by exists 0|]. by apply Z.divide_add_r.
Qed.

(** An entry as a boot loader gives it: whole pages, below the last physical address. *)
Definition entry_ok (e : Z * Z) : Prop :=
  0 <= e.2 /\ (4096 <= e.2 -> 0 <= e.1 /\ (4096 | e.1) /\ e.1 + e.2 + 4096 <= 2 ^ 63 /\ e.2 < 2 ^ 46).

Lemma chunks_ok n phys sz : 4096 <= sz < 2 ^ 46 -> 0 <= phys -> (4096 | phys) -> phys + sz + 4096 <= 2 ^ 63 ->
  Forall chunk_ok (chunks n phys sz) /\ total (chunks n phys sz) <= sz.
Proof.
  revert phys sz. induction n as [|n IH]; intros phys sz Hsz Hp Ha Hend; [split; [constructor|simpl; lia]|].
  cbn [chunks]. destruct (rest_bounds sz ltac:(lia)) as (Hr & Hpp & Hmore). pose proof (prev_pow2_bounds sz ltac:(lia)).
  pose proof (prev_pow2_page sz ltac:(lia)) as Hpow.
  assert (Hc : chunk_ok (phys, prev_pow2 sz)).
  { split; simpl; [done| |lia|done]. rewrite prev_pow2_log2 by lia. apply Z.pow_le_mono_r; [lia|].
    assert (Z.log2 sz < 46) by (apply Z.log2_lt_pow2; lia). lia. }
  destruct (Z.leb_spec PAGE_SIZE (sz - prev_pow2 sz - prev_pow2 (sz - prev_pow2 sz))) as [Hle|].
  - destruct (Hmore Hle) as [Hr4 _]. destruct (IH (phys + prev_pow2 sz) (sz - prev_pow2 sz)) as [Hok Ht]; [lia|lia| |lia|].
    { apply Z.divide_add_r; [done|by apply page_pow2_4096]. }
    split; [by constructor|]. simpl. lia.
  - split; [by apply Forall_singleton|]. simpl. lia.
Qed.

Lemma chunks_first n phys sz : Forall chunk_ok (chunks (S n) phys sz) -> prev_pow2 sz <= total (chunks (S n) phys sz).
Proof. cbn [chunks]. intros [_ Hok%total_nonneg]%Forall_cons. simpl. lia. Qed.

Lemma entry_chunks_ok e : entry_ok e -> Forall chunk_ok (entry_chunks e) /\ 0 <= total (entry_chunks e) <= e.2 /\
  (4096 <= e.2 -> e.2 < 2 * total (entry_chunks e)).
Proof.
  intros [H0 H]. unfold entry_chunks. destruct (Z.ltb_spec e.2 PAGE_SIZE) as [Hlt|Hge].
  { split; [constructor|]. unfold PAGE_SIZE in Hlt. simpl. lia. }
  destruct (H Hge) as (Hp & Ha & He & Hs). destruct (chunks_ok 64 e.1 e.2) as [Hok Ht]; [unfold PAGE_SIZE in Hge; lia|done..|].
  split; [done|]. pose proof (total_nonneg _ Hok). pose proof (chunks_first 63 e.1 e.2 Hok) as Hfirst.
  pose proof (prev_pow2_bounds e.2). unfold PAGE_SIZE in Hge. lia.
Qed.

(** ** Where the chunks go *)

(** The chunks one after the other from [ep] on: (virtual address, physical address, size). *)
Fixpoint place (ep : Z) (cs : list (Z * Z)) : list (Z * Z * Z) :=
  match cs with
  | [] => []
  | (ph, c) :: cs' => (ep, ph, c) :: place (ep + c) cs'
  end.

Definition pool_of (x : Z * Z * Z) : pool := let '(v, _, c) := x in Pool v (v + c) [(v, c)].

Lemma place_app ep a b : place ep (a ++ b) = place ep a ++ place (ep + total a) b.
Proof.
  revert ep. induction a as [|[ph c] a IH]; intros ep; simpl; [by rewrite Z.add_0_r|]. rewrite IH. do 3 f_equal. lia.
Qed.

Lemma length_place ep cs : length (place ep cs) = length cs.
Proof. revert ep. induction cs as [|[ph c] cs IH]; intros ep; simpl; [done|]. by rewrite IH. Qed.

Lemma place_range ep cs v ph c : Forall chunk_ok cs -> (v, ph, c) ∈ place ep cs -> ep <= v /\ v + c <= ep + total cs /\ chunk_ok (ph, c).
Proof.
  intros Hok. revert ep. induction Hok as [|[ph' c'] cs Hc Hok IH]; intros ep Hin; [by apply not_elem_of_nil in Hin|].
  pose proof (page_pow2_pos _ (ck_pow2 _ Hc)). pose proof (total_nonneg _ Hok). simpl in *.
  apply elem_of_cons in Hin as [[= -> -> ->]|Hin]; [split; [lia|]; split; [lia|done]|].
  destruct (IH _ Hin) as (? & ? & ?). split; [lia|]. split; [lia|done].
Qed.

Lemma place_align ep cs v ph c : Forall chunk_ok cs -> (4096 | ep) -> (v, ph, c) ∈ place ep cs -> (4096 | v).
Proof.
  intros Hok. revert ep. induction Hok as [|[ph' c'] cs Hc Hok IH]; intros ep Ha Hin; [by apply not_elem_of_nil in Hin|].
  apply elem_of_cons in Hin as [[= -> -> ->]|Hin]; [done|]. eapply IH; [|exact Hin].
  apply Z.divide_add_r; [done|]. apply page_pow2_4096, (ck_pow2 _ Hc).
Qed.

(** The pools they make. *)
Lemma pool_of_ok v ph c : 0 < v -> v + c < 2 ^ 64 -> (4096 | v) -> page_pow2 c -> pool_ok (pool_of (v, ph, c)).
Proof.
  intros Hv He Ha Hc. split; simpl; [done|done| | |].
  - by replace (v + c - v) with c by lia.
  - split_and!; [lia|done|rewrite Z.sub_diag; by exists 0|lia|by apply Forall_nil_2|pose proof (page_pow2_pos _ Hc); lia].
  - etrans; [|exact Ha]. by exists 256.
Qed.

Lemma pools_ok ep cs : Forall chunk_ok cs -> 0 < ep -> (4096 | ep) -> ep + total cs < 2 ^ 64 -> Forall pool_ok (pool_of <$> place ep cs).
Proof.
  intros Hok Hp Ha He. apply Forall_fmap, Forall_forall. intros [[v ph] c] Hin.
  destruct (place_range _ _ _ _ _ Hok Hin) as (? & ? & Hc). simpl. apply (pool_of_ok v ph c); [lia|lia| |exact (ck_pow2 _ Hc)].
  by eapply place_align.
Qed.

Lemma place_apart ep cs : Forall chunk_ok cs -> pools_apart (pool_of <$> place ep cs).
Proof.
  intros Hok. revert ep. induction Hok as [|[ph c] cs Hc Hok IH]; intros ep; simpl; [done|]. split; [|apply IH].
  apply Forall_fmap, Forall_forall. intros [[v ph'] c'] Hin. destruct (place_range _ _ _ _ _ Hok Hin) as (? & _). left. simpl. lia.
Qed.

(** All the placed bytes are free. *)
Lemma place_free ep cs x : Forall chunk_ok cs -> free_bytes (pool_of <$> place ep cs) x <-> ep <= x < ep + total cs.
Proof.
  intros Hok. revert ep. induction Hok as [|[ph c] cs Hc Hok IH]; intros ep; simpl.
  - split; [intros (p & Hp & _); by apply not_elem_of_nil in Hp|lia].
  - rewrite free_bytes_cons, IH. pose proof (page_pow2_pos _ (ck_pow2 _ Hc)). pose proof (total_nonneg _ Hok). simpl in *.
    rewrite in_blocks_cons. unfold within. simpl. split; [intros [[?|[]%in_blocks_nil]|?]; lia|].
    intros Hx. destruct (decide (x < ep + c)); [left; left; lia|right; lia].
Qed.

(** ** Making one pool *)

(** Pages of a range and an address before it. *)
Lemma pages_before ep n a : (4096 | ep) -> 0 <= a < ep -> ep + 4096 * n - a <= 2 ^ 47 -> ~ pages ep n (vpn a).
Proof.
  intros [q ->] Ha Hn (i & Hi & E). unfold vpn in E. change (2 ^ 12) with 4096 in E.
  replace (q * 4096 + 4096 * i) with ((q + i) * 4096) in E by lia. rewrite Z.div_mul in E by lia.
  assert (H1 : a / 4096 < q) by divlia. assert (H2 : q + i - a / 4096 < 2 ^ 36) by divlia.
  set (k := a / 4096) in *. clearbody k. clear Ha Hn. 
  assert (E' : (q + i - k) mod 2 ^ 36 = 0) by (rewrite Zminus_mod, E, Z.sub_diag; done).
  rewrite Z.mod_small in E' by lia. lia.
Qed.

(** The words of a descriptor and of its one block, written over memory that is there. *)
Definition pool_words (m : gmap Z Z) (a v c : Z) : gmap Z Z :=
  write64 (write64 (write64 (write64 (write64 m (a + POOL_BASE) v) (a + POOL_END) (v + c)) (a + POOL_START) v) v c) (v + NEXT) (v + c).

Lemma pool_words_changes m a v c : 16 <= c -> changes (fun x => within a POOL_SIZE x \/ within v c x) m (pool_words m a v c).
Proof.
  intros Hc. unfold pool_words, POOL_BASE, POOL_END, POOL_START, POOL_SIZE, NEXT.
  repeat (apply changes_then_write; [|unfold within; lia]). apply changes_refl.
Qed.

Lemma pool_words_at m a v ph c : mapped m v c -> apart a POOL_SIZE v c -> 0 < v -> v + c < 2 ^ 64 -> 16 <= c ->
  pool_at (pool_words m a v c) a (pool_of (v, ph, c)).
Proof.
  intros Hm Hap Hv He Hc. unfold apart, POOL_SIZE in Hap.
  unfold pool_words, POOL_BASE, POOL_END, POOL_START, NEXT. split; unfold POOL_BASE, POOL_END, POOL_START, NEXT; simpl.
  - rewrite !read64_write64_ne by lia. apply read64_write64_eq. lia.
  - rewrite !read64_write64_ne by lia. apply read64_write64_eq. lia.
  - split; [|split].
    + rewrite !read64_write64_ne by lia. apply read64_write64_eq. lia.
    + rewrite !read64_write64_ne by lia. apply read64_write64_eq. lia.
    + apply read64_write64_eq. unfold NEXT. lia.
  - replace (v + c - v) with c by lia. by repeat apply write64_mapped.
Qed.

(** The flags of a pool's pages. *)
Definition pool_flags : Z := Z.lor (Z.lor PAGE_PRESENT PAGE_WRITABLE) PAGE_NX.

(** The state once the chunk is mapped and described: [s1] is the one the page tables
    leave, [a] the descriptor. *)
Definition pool_made (s1 : kernel) (a ep c : Z) : kernel :=
  let s2 := set_end_pos (ep + c) (logged (invlpgs ep (c / 4096)) s1) in set_mem (pool_words (k_mem s1) a ep c) s2.

(** The page tables and the new pool change memory, the paging globals and the log only. *)
Lemma pool_made_state s1 a ep c s m b d : s1 = set_dev d (set_mem m (set_brk b s)) ->
  (exists m' g' d', pool_made s1 a ep c = set_dev d' (set_mem m' (set_pg g' s))) /\
  end_pos_lock (k_pg (pool_made s1 a ep c)) = end_pos_lock (k_pg s) /\
  end_pos (k_pg (pool_made s1 a ep c)) = ep + c /\ brk (k_pg (pool_made s1 a ep c)) = brk (k_pg s1) /\
  miniheap_end (k_pg (pool_made s1 a ep c)) = miniheap_end (k_pg s) /\
  k_mem (pool_made s1 a ep c) = pool_words (k_mem s1) a ep c.
Proof. intros ->. split; [by eexists _, _, _|]. by split_and!. Qed.

Lemma pool_made_frame s1 T a ep c : paging_inv s1 T -> 16 <= c ->
  (forall x, within a POOL_SIZE x \/ within ep c x -> ~ paging_bytes s1 T x) ->
  paging_inv (pool_made s1 a ep c) T /\ forall va, kwalk (pool_made s1 a ep c) va = kwalk s1 va.
Proof.
  intros HI Hc Hsep. unfold pool_made. set (s2 := set_end_pos (ep + c) (logged (invlpgs ep (c / 4096)) s1)).
  assert (HI2 : paging_inv s2 T) by (by apply inv_set_end_pos, inv_logged).
  pose proof (pool_words_changes (k_mem s1) a ep c Hc) as Hch. split.
  - by eapply (paging_inv_frame s2).
  - intros va. rewrite (kwalk_frame s2 T _ _ va HI2 Hch Hsep). unfold s2. by rewrite kwalk_set_end_pos, kwalk_logged.
Qed.

Lemma init_pool_run fuel j ph c s T : chunk_ok (ph, c) -> paging_inv s T -> end_pos_lock (k_pg s) = false ->
  let ep := end_pos (k_pg s) in
  let a := pools (k_pa s) + j * POOL_SIZE in
  0 < ep -> (4096 | ep) -> ep + c < 2 ^ 64 - 2 ^ 14 -> c < 4096 * (Z.of_nat fuel - 1) ->
  brk (k_pg s) + tables_room (c / 4096) * 4096 <= miniheap_end (k_pg s) ->
  mapped (k_mem s) a POOL_SIZE -> mapped (k_mem s) ep c -> apart a POOL_SIZE ep c ->
  exists s1 T', grown (pages ep (c / 4096)) (tables_room (c / 4096)) s T s1 T' /\
    (forall o, 0 <= o < c -> ktrans s1 (ep + o) = Some (ph + o)) /\
    init_pool fuel j ph c s = Done tt (pool_made s1 a ep c).
Proof.
  intros [Hpow Hsmall [Hph Hend] Hal] HI Hlk ep a Hep Hepa Hepc Hf Hroom Hma Hmw Hap. simpl in *.
  pose proof (page_pow2_pos _ Hpow). pose proof (page_pow2_4096 _ Hpow) as [q Hq].
  assert (Hn : (c + 4095) / 4096 = c / 4096) by (rewrite Hq; clear; divlia).
  assert (Hc4 : 4096 * (c / 4096) = c) by (rewrite Hq; clear; divlia).
  destruct (premap_anon_run fuel ph c pool_flags s T) as (s1 & T' & Hrun & HG & Hw); try done; try lia; [by rewrite Hn|].
  fold ep in Hrun, HG, Hw. rewrite Hn in Hrun, HG, Hw. rewrite Hc4 in Hrun.
  assert (Hph0 : ph mod 4096 = 0) by (destruct Hal as [r ->]; by rewrite Z.mod_mul by lia). rewrite Hph0, Z.add_0_r in Hrun.
  exists s1, T'. split; [done|]. split.
  - intros o Ho. unfold ktrans. rewrite (Hw (o / 4096)).
    + rewrite pte_phys by (done || divlia). f_equal. destruct Hal as [r ->], Hepa as [p ->]. clear. divlia.
    + rewrite Hq in *. clear - Ho. divlia.
    + rewrite page_of_byte by lia. destruct Hepa as [p ->]. rewrite Z.mod_mul, Z.add_0_l by lia. done.
  - pose proof (grown_changes _ _ _ _ _ _ HG) as Hch. set (s2 := set_end_pos (ep + c) (logged (invlpgs ep (c / 4096)) s1)) in *.
    assert (Hpa : pools (k_pa s1) = pools (k_pa s)) by (by destruct (gr_state _ _ _ _ _ _ HG) as (? & ? & ? & ->)).
    assert (Hma1 : mapped (k_mem s1) a POOL_SIZE) by (by eapply changes_mapped).
    assert (Hmw1 : mapped (k_mem s1) ep c) by (by eapply changes_mapped).
    unfold apart, POOL_SIZE in Hap.
    unfold init_pool. rewrite (run_bind _ _ _ _ _ Hrun).
    unfold pool_addr. rewrite (run_bind (gets (fun s => pools (k_pa s)) ≫= _) _ s2 a s2) by (unfold a; rewrite <- Hpa; reflexivity).
    rewrite add64_small by lia.
    assert (M : forall x n, a <= x -> x + n <= a + POOL_SIZE -> mapped (k_mem s1) x n) by (intros; eapply mapped_sub; [exact Hma1|lia|lia]).
    assert (W : forall x n, ep <= x -> x + n <= ep + c -> mapped (k_mem s1) x n) by (intros; eapply mapped_sub; [exact Hmw1|lia|lia]).
    set (m1 := write64 (k_mem s1) (a + POOL_BASE) ep). set (m2 := write64 m1 (a + POOL_END) (ep + c)).
    set (m3 := write64 m2 (a + POOL_START) ep). set (m4 := write64 m3 ep c).
    assert (M1 : mapped m1 (a + POOL_END) 8) by (apply write64_mapped, M; unfold POOL_END, POOL_SIZE; lia).
    assert (M2 : mapped m2 (a + POOL_START) 8) by (do 2 apply write64_mapped; apply M; unfold POOL_START, POOL_SIZE; lia).
    assert (M3 : mapped m3 ep 8) by (do 3 apply write64_mapped; apply W; lia).
    assert (M4 : mapped m4 (ep + NEXT) 8) by (do 4 apply write64_mapped; apply W; unfold NEXT; lia).
    assert (R3 : read64 m3 (a + POOL_START) = Some ep) by (apply read64_write64_eq; lia).
    assert (R4 : read64 m4 (a + POOL_END) = Some (ep + c)).
    { unfold m4, m3, m2, POOL_END, POOL_START. rewrite !read64_write64_ne by lia. apply read64_write64_eq. lia. }
    rewrite (run_bind _ _ _ tt _ (kstore64 s2 (a + POOL_BASE) ep ltac:(apply M; unfold POOL_BASE, POOL_SIZE; lia))).
    rewrite (run_bind _ _ _ tt _ (kstore64 (set_mem m1 s2) _ (ep + c) M1)), (run_bind _ _ _ tt _ (kstore64 (set_mem m2 s2) _ ep M2)).
    rewrite (run_bind _ _ _ ep _ (kload64 (set_mem m3 s2) _ ep R3)), (run_bind _ _ _ tt _ (kstore64 (set_mem m3 s2) _ c M3)).
    rewrite (run_bind _ _ _ (ep + c) _ (kload64 (set_mem m4 s2) _ _ R4)), (kstore64 (set_mem m4 s2) _ (ep + c) M4). done.
Qed.

(** Room for the tables of all the chunks. *)
Definition chunks_room (cs : list (Z * Z)) : Z := foldr (fun c t => tables_room (c.2 / 4096) + t) 0 cs.

Lemma chunks_room_app a b : chunks_room (a ++ b) = chunks_room a + chunks_room b.
Proof. induction a as [|c a IH]; simpl; lia. Qed.

Lemma chunks_room_nonneg cs : Forall chunk_ok cs -> 0 <= chunks_room cs.
Proof.
  induction 1 as [|c cs [Hc%page_pow2_pos] _ IH]; simpl; [lia|]. unfold tables_room.
  assert (0 <= (c.2 / 4096 + 1022) / 512) by (apply Z.div_pos; [|lia]; assert (0 <= c.2 / 4096) by (apply Z.div_pos; lia); lia). lia.
Qed.

(** ** Making all the pools *)

Section booting.
Context (fuel : nat) (s0 : kernel) (T0 : gmap (list Z) Z) (mp ep0 : Z) (cs : list (Z * Z)).
Definition array_size : Z := POOL_SIZE * Z.of_nat (length cs).
Context (HI0 : paging_inv s0 T0) (Hlk0 : end_pos_lock (k_pg s0) = false) (Hep0 : end_pos (k_pg s0) = ep0) (Hmp0 : pools (k_pa s0) = mp).
Context (Hep : 0 < ep0) (Hepa : (4096 | ep0)) (Hepe : ep0 + total cs < 2 ^ 64 - 2 ^ 14) (Htot : total cs <= 2 ^ 46).
Context (Hok : Forall chunk_ok cs) (Hfuel : Forall (fun c => c.2 < 4096 * (Z.of_nat fuel - 1)) cs).
Context (Hroom : brk (k_pg s0) + chunks_room cs * 4096 <= miniheap_end (k_pg s0)).
Context (Harr : mapped (k_mem s0) mp array_size) (Hwin : mapped (k_mem s0) ep0 (total cs)).
Context (Hap : apart mp array_size ep0 (total cs)).
Context (Hout : forall x, within mp array_size x \/ within ep0 (total cs) x -> ~ paging_bytes s0 T0 x).

(** What has been written when the chunks [done] have been made pools. *)
Definition written (done : list (Z * Z)) (x : Z) : Prop :=
  paging_bytes s0 T0 x \/ within mp (POOL_SIZE * Z.of_nat (length done)) x \/ within ep0 (total done) x.

Record built (done : list (Z * Z)) (s : kernel) (T : gmap (list Z) Z) : Prop := {
  bt_state : exists m g d, s = set_dev d (set_mem m (set_pg g s0));
  bt_inv : paging_inv s T;
  bt_lock : end_pos_lock (k_pg s) = false;
  bt_pos : end_pos (k_pg s) = ep0 + total done;
  bt_end : miniheap_end (k_pg s) = miniheap_end (k_pg s0);
  bt_brk : brk (k_pg s) <= brk (k_pg s0) + chunks_room done * 4096;
  bt_bytes x : paging_bytes s T x -> paging_bytes s0 T0 x;
  bt_mem : changes (written done) (k_mem s0) (k_mem s);
  bt_pools i x : place ep0 done !! i = Some x -> pool_at (k_mem s) (desc mp i) (pool_of x);
  bt_trans v ph c o : (v, ph, c) ∈ place ep0 done -> 0 <= o < c -> ktrans s (v + o) = Some (ph + o);
  bt_walk va : ~ pages ep0 (total done / 4096) (vpn va) -> kwalk s va = kwalk s0 va;
}.

Lemma built_nil : built [] s0 T0.
Proof.
  clear Hroom Harr Hwin Hout Hfuel Hok.
  split; try done; simpl; try lia.
  - exists (k_mem s0), (k_pg s0), (k_dev s0). by destruct s0.
  - intros v ph c o []%not_elem_of_nil.
Qed.

(** A pool's words are among those written when it was made. *)
Lemma built_old done s T i x y : built done s T -> Forall chunk_ok done -> place ep0 done !! i = Some x ->
  within (desc mp i) POOL_SIZE y \/ in_blocks (p_free (pool_of x)) y ->
  within mp (POOL_SIZE * Z.of_nat (length done)) y \/ within ep0 (total done) y.
Proof.
  intros HB Hd Hi Hy. pose proof (lookup_lt_Some _ _ _ Hi) as Hlt. rewrite length_place in Hlt. destruct x as [[v ph] c].
  apply list_elem_of_lookup_2 in Hi. destruct (place_range _ _ _ _ _ Hd Hi) as (? & ? & _). unfold within, desc, POOL_SIZE in *.
  destruct Hy as [Hy|[Hy|[]%in_blocks_nil]%in_blocks_cons]; [left; lia|]. right. unfold within in Hy. simpl in Hy. lia.
Qed.

(** The pools made so far stay, whatever else is written. *)
Lemma pools_kept done s T m' (P : Z -> Prop) : built done s T -> Forall chunk_ok done -> ep0 + total done < 2 ^ 64 ->
  changes P (k_mem s) m' -> (forall x, P x -> ~ (within mp (POOL_SIZE * Z.of_nat (length done)) x \/ within ep0 (total done) x)) ->
  forall i x, place ep0 done !! i = Some x -> pool_at m' (desc mp i) (pool_of x).
Proof.
  intros HB Hd He Hch HP i x Hi. pose proof (built_old done s T i x) as Hbo. destruct x as [[v pv] cv].
  pose proof (list_elem_of_lookup_2 _ _ _ Hi) as Hin.
  destruct (place_range _ _ _ _ _ Hd Hin) as (? & ? & Hcv). pose proof (place_align _ _ _ _ _ Hd Hepa Hin).
  eapply pool_at_changes; [by apply (bt_pools _ _ _ HB)|exact Hch|..].
  - intros y Hy Hp. apply (HP y Hp), Hbo; auto.
  - intros y Hy Hp. apply (HP y Hp), Hbo; auto.
  - apply pool_of_ok; [lia|lia|done|exact (ck_pow2 _ Hcv)].
Qed.

(** ... and so do their pages' translations. *)
Lemma trans_kept done s T s' n : built done s T -> Forall chunk_ok done -> total done + 4096 * n <= 2 ^ 47 ->
  (forall va, ~ pages (ep0 + total done) n (vpn va) -> kwalk s' va = kwalk s va) ->
  forall v ph c o, (v, ph, c) ∈ place ep0 done -> 0 <= o < c -> ktrans s' (v + o) = Some (ph + o).
Proof.
  intros HB Hd Hn Hk v ph c o Hin Ho. rewrite <- (bt_trans _ _ _ HB v ph c o Hin Ho). unfold ktrans. rewrite Hk; [done|].
  destruct (place_range _ _ _ _ _ Hd Hin) as (? & ? & _). apply pages_before; [|lia|lia].
  apply Z.divide_add_r; [done|by apply total_align].
Qed.

(** The pages of the chunks, the last one added. *)
Lemma pages_more done ph c v : Forall chunk_ok done -> chunk_ok (ph, c) ->
  pages ep0 (total done / 4096) v \/ pages (ep0 + total done) (c / 4096) v -> pages ep0 (total (done ++ [(ph, c)]) / 4096) v.
Proof.
  intros Hd Hc. rewrite total_app. simpl. pose proof (total_nonneg _ Hd) as H0. pose proof (page_pow2_pos _ (ck_pow2 _ Hc)) as H1.
  destruct (total_align _ Hd) as [a Ea], (page_pow2_4096 _ (ck_pow2 _ Hc)) as [b Eb]. simpl in H1, Eb. rewrite Ea, Eb in *.
  replace (a * 4096 + (b * 4096 + 0)) with ((a + b) * 4096) by lia. rewrite !Z.div_mul by lia.
  intros [(i & Hi & ->)|(i & Hi & ->)]; [exists i; split; [lia|done]|exists (a + i); split; [lia|f_equal; lia]].
Qed.

(** One more chunk. *)
Section step.
Context (done : list (Z * Z)) (ph c : Z) (rest : list (Z * Z)) (s : kernel) (T : gmap (list Z) Z).
Context (Ecs : cs = done ++ (ph, c) :: rest) (HB : built done s T).
Local Abbreviation ep := (ep0 + total done).
Local Abbreviation a := (desc mp (length done)).

Lemma step_chunks : Forall chunk_ok done /\ chunk_ok (ph, c) /\ c < 4096 * (Z.of_nat fuel - 1).
Proof.
  rewrite Ecs in Hok, Hfuel. apply Forall_app in Hok as [? [? _]%Forall_cons]. apply Forall_app in Hfuel as [_ [? _]%Forall_cons]. done.
Qed.

(** Where the chunk and its descriptor lie. *)
Lemma step_bounds : 4096 <= c /\ 0 <= total done /\ ep + c <= ep0 + total cs /\
  mp <= a /\ a + POOL_SIZE <= mp + array_size /\ a = mp + POOL_SIZE * Z.of_nat (length done) /\
  chunks_room done + tables_room (c / 4096) <= chunks_room cs.
Proof.
  destruct step_chunks as (Hd & Hc & _). pose proof (page_pow2_pos _ (ck_pow2 _ Hc)). pose proof (total_nonneg _ Hd).
  assert (Hrest : Forall chunk_ok rest) by (rewrite Ecs in Hok; by apply Forall_app in Hok as [_ [_ ?]%Forall_cons]).
  pose proof (total_nonneg _ Hrest). pose proof (chunks_room_nonneg _ Hrest).
  unfold array_size, desc, POOL_SIZE. rewrite Ecs, total_app, chunks_room_app, length_app. simpl in *. lia.
Qed.

Lemma step_new x : within a POOL_SIZE x \/ within ep c x -> within mp array_size x \/ within ep0 (total cs) x.
Proof. pose proof step_bounds. unfold within. lia. Qed.

Lemma step_written x : written done x \/ within a POOL_SIZE x \/ within ep c x -> written (done ++ [(ph, c)]) x.
Proof.
  pose proof step_bounds. unfold written, within. rewrite total_app, length_app. simpl. unfold POOL_SIZE in *.
  intros [[?|?]|?]; [by left|right; lia|right; lia].
Qed.

Lemma step_mapped : mapped (k_mem s) a POOL_SIZE /\ mapped (k_mem s) ep c.
Proof.
  pose proof step_bounds. pose proof (bt_mem _ _ _ HB) as Hmem.
  split; eapply changes_mapped; [exact Hmem| |exact Hmem|]; eapply mapped_sub; [exact Harr|lia|lia|exact Hwin|lia|lia].
Qed.

Lemma step_apart : apart a POOL_SIZE ep c.
Proof. pose proof step_bounds. unfold apart in *. lia. Qed.

(** The pools, with the new one, once its chunk is mapped. *)
Lemma step_pools m1 : changes (paging_bytes s0 T0) (k_mem s) m1 ->
  forall i x, place ep0 (done ++ [(ph, c)]) !! i = Some x -> pool_at (pool_words m1 a ep c) (desc mp i) (pool_of x).
Proof.
  intros Hch1 i x Hi. pose proof step_bounds as Hb. destruct step_chunks as (Hd & _).
  pose proof (pool_words_changes m1 a ep c ltac:(lia)) as Hch2.
  rewrite place_app in Hi. apply lookup_app_Some in Hi as [Hi|[Hi0 Hi]].
  - eapply (pools_kept done s T _ (fun x => paging_bytes s0 T0 x \/ within a POOL_SIZE x \/ within ep c x) HB Hd); [lia| | |exact Hi].
    + eapply changes_trans; [eapply changes_weaken; [exact Hch1|by left]|eapply changes_weaken; [exact Hch2|by right]].
    + pose proof Hap as Hap'. unfold apart in Hap'. intros y [Hy|Hy] Hy'; [apply (Hout y); [|done]|]; unfold within, POOL_SIZE in *; lia.
  - destruct (i - length (place ep0 done))%nat as [|k] eqn:Ei; [|done]. injection Hi as <-. rewrite length_place in *.
    assert (i = length done) as -> by lia. apply pool_words_at; [|apply step_apart|lia..]. eapply changes_mapped; [exact Hch1|apply step_mapped].
Qed.

Lemma step_trans s' : (forall va, ~ pages ep (c / 4096) (vpn va) -> kwalk s' va = kwalk s va) ->
  (forall o, 0 <= o < c -> ktrans s' (ep + o) = Some (ph + o)) ->
  forall v pv cv o, (v, pv, cv) ∈ place ep0 (done ++ [(ph, c)]) -> 0 <= o < cv -> ktrans s' (v + o) = Some (pv + o).
Proof.
  intros Hk Htr v pv cv o Hin Ho. pose proof step_bounds. destruct step_chunks as (Hd & _). rewrite place_app in Hin. apply elem_of_app in Hin as [Hin|Hin].
  - eapply (trans_kept done s T _ (c / 4096) HB Hd); [|exact Hk|exact Hin|exact Ho].
    assert (4096 * (c / 4096) <= c) by (clear; divlia). lia.
  - apply list_elem_of_singleton in Hin as [= -> -> ->]. by apply Htr.
Qed.

Lemma step_run : exists s1 T', grown (pages ep (c / 4096)) (tables_room (c / 4096)) s T s1 T' /\
  (forall o, 0 <= o < c -> ktrans s1 (ep + o) = Some (ph + o)) /\
  init_pool fuel (Z.of_nat (length done)) ph c s = Done tt (pool_made s1 a ep c).
Proof.
  pose proof step_bounds. destruct step_chunks as (Hd & Hc & Hf). destruct step_mapped as [Ha Hm]. pose proof HB as [(m & g & d & Es) HI Hlk Hpos Hme Hbrk _ _ _ _ _].
  assert (Ea : pools (k_pa s) + Z.of_nat (length done) * POOL_SIZE = a) by (rewrite Es; unfold desc; simpl; rewrite Hmp0; lia).
  destruct (init_pool_run fuel (Z.of_nat (length done)) ph c s T) as (s1 & T' & HG & Htr & Hrun); rewrite ?Hpos, ?Ea, ?Hme; try done; try lia.
  { apply Z.divide_add_r; [done|by apply total_align]. }
  { exact step_apart. }
  rewrite Ea, Hpos in Hrun. rewrite Hpos in HG, Htr. by exists s1, T'.
Qed.

Lemma built_step : exists s' T', init_pool fuel (Z.of_nat (length done)) ph c s = Done tt s' /\ built (done ++ [(ph, c)]) s' T'.
Proof.
  pose proof step_bounds. destruct step_chunks as (Hd & Hc & _). destruct step_run as (s1 & T' & HG & Htr & Hrun).
  pose proof HB as [(m & g & d & Es) HI Hlk Hpos Hme Hbrk Hbytes Hmem _ _ Hwalk].
  assert (Hch1 : changes (paging_bytes s0 T0) (k_mem s) (k_mem s1)) by (eapply changes_weaken; [exact (grown_changes _ _ _ _ _ _ HG)|exact Hbytes]).
  assert (Hb1 : forall x, paging_bytes s1 T' x -> paging_bytes s0 T0 x).
  { intros x Hx. apply Hbytes. exact (grown_paging_bytes _ _ _ _ _ _ x HG Hx). }
  destruct (pool_made_frame s1 T' a ep c (gr_inv _ _ _ _ _ _ HG)) as [HI2 Hk]; [lia|intros x Hx Hx'%Hb1; by apply (Hout x); [apply step_new|]|].
  destruct (gr_state _ _ _ _ _ _ HG) as (m3 & b3 & d3 & E3).
  destruct (pool_made_state s1 a ep c s m3 b3 d3 E3) as ((m4 & g4 & d4 & E4) & F1 & F2 & F3 & F4 & F5).
  exists (pool_made s1 a ep c), T'. split; [exact Hrun|]. split; rewrite ?F1, ?F2, ?F3, ?F4, ?F5; try done.
  - rewrite E4, Es. by exists m4, g4, d4.
  - rewrite total_app. simpl. lia.
  - rewrite chunks_room_app. simpl. pose proof (gr_brk _ _ _ _ _ _ HG). lia.
  - eapply changes_trans; [eapply changes_weaken; [exact Hmem|intros x Hx; apply step_written; by left]|].
    eapply changes_trans; [eapply changes_weaken; [exact Hch1|by left]|]. eapply changes_weaken; [apply pool_words_changes; lia|].
    intros x Hx. apply step_written. by right.
  - by apply step_pools.
  - apply step_trans; [intros va Hva; rewrite Hk; exact (gr_walk _ _ _ _ _ _ HG va Hva)|]. intros o Ho. unfold ktrans. rewrite Hk. by apply Htr.
  - intros va Hva. rewrite Hk, (gr_walk _ _ _ _ _ _ HG); [apply Hwalk|]; intros Hp; apply Hva, pages_more; auto.
Qed.
End step.

(** The chunks of one entry. *)
Lemma built_chunks n done phys sz rest s T : 4096 <= sz < 2 ^ 64 -> Z.log2 sz < Z.of_nat n ->
  cs = done ++ chunks n phys sz ++ rest -> built done s T ->
  exists s' T', init_chunks n fuel (Z.of_nat (length done)) phys sz (prev_pow2 sz) s =
      Done (Z.of_nat (length (done ++ chunks n phys sz))) s' /\ built (done ++ chunks n phys sz) s' T'.
Proof.
  revert done phys sz s T. induction n as [|n IH]; intros done phys sz s T Hsz Hn Ecs HB; [pose proof (Z.log2_nonneg sz); lia|].
  cbn [chunks init_chunks] in *. destruct (rest_bounds sz Hsz) as (Hr & Hpp & Hmore). set (c := prev_pow2 sz) in *.
  destruct (built_step done phys c (_ ++ rest) s T Ecs HB) as (s1 & T1 & Hrun & HB1). rewrite (run_bind _ _ _ _ _ Hrun).
  assert (Hc : chunk_ok (phys, c)) by (rewrite Ecs in Hok; apply Forall_app in Hok as [_ Hok]; by apply Forall_cons in Hok as [? _]).
  destruct (ck_addr _ Hc) as [? ?]. simpl in *. pose proof (page_pow2_pos _ (ck_pow2 _ Hc)) as Hc4. simpl in Hc4.
  rewrite (sub64_small sz c), (add64_small phys c), (sub64_small (sz - c)) by lia.
  assert (El : forall l : list (Z * Z), done ++ (phys, c) :: l = (done ++ [(phys, c)]) ++ l) by (intros l; by rewrite <- app_assoc).
  assert (Ej : Z.of_nat (length done) + 1 = Z.of_nat (length (done ++ [(phys, c)]))) by (rewrite length_app; simpl; lia).
  destruct (Z.leb_spec PAGE_SIZE (sz - c - prev_pow2 (sz - c))) as [Hle|].
  - destruct (Hmore Hle). rewrite (El (chunks n (phys + c) (sz - c))), Ej. rewrite (El (chunks n (phys + c) (sz - c) ++ rest)) in Ecs.
    apply (IH (done ++ [(phys, c)]) (phys + c) (sz - c) s1 T1); [lia|lia|done|done].
  - exists s1, T1. split; [by rewrite Ej|done].
Qed.

(** ** The loops over the memory map *)

(** The memory map in memory. *)
Definition memmap_at (s : kernel) (es : list (Z * Z)) : Prop :=
  memmap_len (k_boot s) = Z.of_nat (length es) /\
  forall i e, es !! i = Some e ->
    read64 (k_mem s) (memmap (k_boot s) + Z.of_nat i * MM_SIZE + MM_BASE) = Some e.1 /\
    read64 (k_mem s) (memmap (k_boot s) + Z.of_nat i * MM_SIZE + MM_LEN) = Some e.2.

Context (es : list (Z * Z)) (Hmm : memmap_at s0 es) (Hes : Forall entry_ok es) (Hcs : cs = es ≫= entry_chunks) (Hf64 : (64 <= fuel)%nat).
Context (Hmmout : forall x, within (memmap (k_boot s0)) (MM_SIZE * Z.of_nat (length es)) x ->
  ~ paging_bytes s0 T0 x /\ ~ within mp array_size x /\ ~ within ep0 (total cs) x).

(** It is still there when some pools have been made. *)
Lemma built_memmap done rest s T i e : cs = done ++ rest -> built done s T -> es !! i = Some e ->
  entry_base (Z.of_nat i) s = Done e.1 s /\ entry_len (Z.of_nat i) s = Done e.2 s.
Proof.
  intros Ecs HB Hi. destruct (proj2 Hmm i e Hi) as [Hb Hl]. pose proof (lookup_lt_Some _ _ _ Hi).
  assert (Ebt : k_boot s = k_boot s0) by (by destruct (bt_state _ _ _ HB) as (? & ? & ? & ->)).
  assert (Hlen : (length done <= length cs)%nat) by (rewrite Ecs, length_app; lia).
  assert (Htot' : total done <= total cs).
  { rewrite Ecs, total_app. rewrite Ecs in Hok. apply Forall_app in Hok as [_ Hr%total_nonneg]. lia. }
  assert (Hrd : forall o, 0 <= o <= 8 -> read64 (k_mem s) (memmap (k_boot s0) + Z.of_nat i * MM_SIZE + o) =
    read64 (k_mem s0) (memmap (k_boot s0) + Z.of_nat i * MM_SIZE + o)).
  { intros o Ho. apply (changes_read64 _ _ _ _ (bt_mem _ _ _ HB)). intros x Hx.
    destruct (Hmmout x) as (H1 & H2 & H3); [unfold within, MM_SIZE in *; lia|].
    unfold array_size, within, POOL_SIZE in *. intros [Hx'|[Hx'|Hx']]; [done|apply H2; unfold within, POOL_SIZE in *; lia|apply H3; unfold within in *; lia]. }
  unfold entry_base, entry_len. rewrite !(run_bind (gets _) _ s (memmap (k_boot s0)) s) by (unfold gets; by rewrite Ebt).
  split; apply kload64; rewrite Hrd; done.
Qed.

Lemma built_entries k i done s T : length es = (i + k)%nat -> done = (take i es ≫= entry_chunks) -> built done s T ->
  exists s' T', init_entries fuel k (Z.of_nat i) (Z.of_nat (length done)) s = Done tt s' /\ built cs s' T'.
Proof.
  revert i done s T. induction k as [|k IH]; intros i done s T Hlen Hd HB.
  - rewrite take_ge in Hd by lia. exists s, T. split; [done|]. by rewrite Hcs, <- Hd.
  - destruct (lookup_lt_is_Some_2 es i ltac:(lia)) as [e He].
    assert (Hsplit : es = take i es ++ e :: drop (S i) es) by (by rewrite take_drop_middle).
    assert (Ecs : cs = done ++ entry_chunks e ++ (drop (S i) es ≫= entry_chunks)) by (by rewrite Hcs, Hsplit at 1; rewrite bind_app, <- Hd).
    assert (Hd' : (take (S i) es ≫= entry_chunks) = done ++ entry_chunks e).
    { rewrite (take_S_r es i e He), bind_app, <- Hd. simpl. by rewrite app_nil_r. }
    destruct (built_memmap done _ s T i e Ecs HB He) as [Hb Hl].
    cbn [init_entries]. rewrite (run_bind _ _ _ _ _ Hb), (run_bind _ _ _ _ _ Hl).
    replace (Z.of_nat i + 1) with (Z.of_nat (S i)) by lia.
    assert (Hek : entry_ok e) by (rewrite Forall_forall in Hes; apply Hes; by eapply list_elem_of_lookup_2).
    destruct Hek as [He0 Hek]. destruct (Z.ltb_spec e.2 PAGE_SIZE) as [Hlt|Hge].
    + assert (Ee : entry_chunks e = []) by (unfold entry_chunks; by rewrite (proj2 (Z.ltb_lt _ _))).
      rewrite Ee, app_nil_r in Hd'. by apply (IH (S i) done s T); [lia| |].
    + destruct (Hek Hge) as (? & ? & ? & ?). unfold PAGE_SIZE in Hge.
      assert (Ee : entry_chunks e = chunks fuel e.1 e.2).
      { unfold entry_chunks. rewrite (proj2 (Z.ltb_ge _ _)) by done. symmetry. apply chunks_64; [lia|done]. }
      rewrite Ee in Ecs, Hd'. destruct (built_chunks fuel done e.1 e.2 (drop (S i) es ≫= entry_chunks) s T ltac:(lia)) as (s1 & T1 & Hrun & HB1); [|exact Ecs|exact HB|].
      { assert (Z.log2 e.2 < 64) by (apply Z.log2_lt_pow2; lia). lia. }
      rewrite (run_bind _ _ _ _ _ Hrun). by apply (IH (S i) _ s1 T1); [lia| |].
Qed.
End booting.

(** ** Counting the pools *)

Lemma count_chunks_run n phys sz : 4096 <= sz < 2 ^ 64 -> Z.log2 sz < Z.of_nat n ->
  count_chunks n sz = Some (length (chunks n phys sz)).
Proof.
  revert phys sz. induction n as [|n IH]; intros phys sz Hsz Hn; [pose proof (Z.log2_nonneg sz); lia|].
  cbn [chunks count_chunks length]. destruct (rest_bounds sz Hsz) as (Hr & Hpp & Hmore).
  rewrite (sub64_small sz), (sub64_small (sz - prev_pow2 sz)) by lia.
  destruct (Z.leb_spec PAGE_SIZE (sz - prev_pow2 sz - prev_pow2 (sz - prev_pow2 sz))) as [Hle|]; [|done].
  destruct (Hmore Hle). by rewrite (IH (phys + prev_pow2 sz)) by lia.
Qed.

Lemma count_pools_run fuel es s : memmap_at s es -> Forall entry_ok es -> (64 <= fuel)%nat ->
  forall k i acc, length es = (i + k)%nat ->
  count_pools fuel k (Z.of_nat i) acc s = Done (acc + Z.of_nat (length (drop i es ≫= entry_chunks))) s.
Proof.
  intros [_ Hmm] Hes Hf k. induction k as [|k IH]; intros i acc Hlen.
  - rewrite drop_ge by lia. simpl. by rewrite Z.add_0_r.
  - destruct (lookup_lt_is_Some_2 es i ltac:(lia)) as [e He]. destruct (Hmm i e He) as [_ Hl].
    assert (Hrun : entry_len (Z.of_nat i) s = Done e.2 s) by (by apply kload64).
    cbn [count_pools]. rewrite (run_bind _ _ _ _ _ Hrun), (drop_S es e i He). simpl. rewrite length_app.
    replace (Z.of_nat i + 1) with (Z.of_nat (S i)) by lia. unfold entry_chunks at 1.
    assert (Hek : entry_ok e) by (rewrite Forall_forall in Hes; apply Hes; by eapply list_elem_of_lookup_2). destruct Hek as [He0 Hek].
    destruct (Z.ltb_spec e.2 PAGE_SIZE) as [Hlt|Hge]; [by rewrite (IH (S i)) by lia|].
    destruct (Hek Hge) as (? & ? & ? & ?). unfold PAGE_SIZE in Hge.
    assert (Z.log2 e.2 < 64) by (apply Z.log2_lt_pow2; lia).
    rewrite (count_chunks_run fuel e.1), (chunks_64 fuel) by (lia || done). rewrite (IH (S i)) by lia. by rewrite Nat2Z.inj_add, Z.add_assoc.
Qed.

(** ** From the memory map to the pools *)

(** [miniheap_alloc] of any size. *)
Lemma miniheap_alloc_run s n : miniheap_lock (k_pg s) = false -> 0 <= brk (k_pg s) -> 0 <= n <= 2 ^ 40 ->
  brk (k_pg s) + round_up_page n <= miniheap_end (k_pg s) -> miniheap_end (k_pg s) < 2 ^ 64 ->
  miniheap_alloc n s = Done (brk (k_pg s)) (set_brk (brk (k_pg s) + round_up_page n) s).
Proof.
  intros Hl Hb Hn He Hw. pose proof (round_up_page_bounds n ltac:(lia)) as [Hr _].
  destruct s as [m pa cpu pr [b e l ep el vb pb k4 ks pt al] dv sc tm bt].
  cbn [k_pg brk miniheap_end miniheap_lock] in *. subst l.
  unfold miniheap_alloc. erewrite run_bind by reflexivity. erewrite run_bind by reflexivity.
  erewrite run_bind by reflexivity. erewrite run_bind by reflexivity. erewrite run_bind by reflexivity.
  cbn [k_pg set_brk set_pg set_miniheap_lock brk miniheap_end]. rewrite add64_small by lia.
  by rewrite (proj2 (Z.ltb_ge e _)) by lia.
Qed.

(** Pages taken from the mini heap are not the tables'. *)
Lemma paging_inv_brk s T n : paging_inv s T -> 0 <= n -> (4096 | n) -> paging_inv (set_brk (brk (k_pg s) + n) s) T.
Proof.
  intros [H1 H2 (H3 & H3' & H3'' & H3''') H4 H5 H6 H7] Hn Ha. split; cbn [k_pg k_mem set_brk set_pg brk miniheap_end miniheap_lock virtual_base physical_base kpml4]; try done.
  - split_and!; try done; lia.
  - by apply Z.divide_add_r.
  - intros x Hx. apply H6. lia.
  - intros x Hx%H7. lia.
Qed.

(** The bytes of the memory map and those the pools will manage. *)
Definition memmap_bytes (s : kernel) (es : list (Z * Z)) : Z -> Prop := within (memmap (k_boot s)) (MM_SIZE * Z.of_nat (length es)).
Definition all_chunks (es : list (Z * Z)) : list (Z * Z) := es ≫= entry_chunks.
Definition array_pages (es : list (Z * Z)) : Z := round_up_page (POOL_SIZE * Z.of_nat (length (all_chunks es))).

(** The kernel as [page_alloc_init] finds it: the memory map [es] read, nothing allocated
    yet, the addresses after the kernel free and backed by memory, and room for the page
    tables in the mini heap. *)
Record boot_memory (fuel : nat) (s : kernel) (T : gmap (list Z) Z) (es : list (Z * Z)) : Prop := {
  bm_inv : paging_inv s T;
  bm_lock : end_pos_lock (k_pg s) = false /\ pa_lock (k_pa s) = false;
  bm_none : n_pools (k_pa s) = 0;
  bm_map : memmap_at s es;
  bm_entries : Forall entry_ok es;
  bm_small : total (all_chunks es) <= 2 ^ 46 /\ Z.of_nat (length (all_chunks es)) <= 2 ^ 30;
  bm_pos : 0 < end_pos (k_pg s) /\ (4096 | end_pos (k_pg s)) /\ end_pos (k_pg s) + total (all_chunks es) < 2 ^ 64 - 2 ^ 14;
  bm_window : mapped (k_mem s) (end_pos (k_pg s)) (total (all_chunks es));
  bm_apart x : within (end_pos (k_pg s)) (total (all_chunks es)) x -> ~ paging_bytes s T x /\ ~ memmap_bytes s es x;
  bm_mapapart x : memmap_bytes s es x -> ~ paging_bytes s T x;
  bm_room : 0 < brk (k_pg s) /\ brk (k_pg s) + array_pages es + chunks_room (all_chunks es) * 4096 <= miniheap_end (k_pg s);
  bm_fuel : (65 <= fuel)%nat /\ total (all_chunks es) < 4096 * (Z.of_nat fuel - 1);
}.

Section init.
Context (fuel : nat) (s : kernel) (T : gmap (list Z) Z) (es : list (Z * Z)) (H : boot_memory fuel s T es).
Let cs := all_chunks es.
Let ep := end_pos (k_pg s).
Let p := brk (k_pg s).

(** The state in which the pools are made: their array taken from the mini heap. *)
Definition array_taken : kernel := set_pools p (Z.of_nat (length cs)) (set_brk (p + array_pages es) s).

Lemma all_chunks_ok l : Forall entry_ok l -> Forall chunk_ok (all_chunks l).
Proof.
  induction 1 as [|e l He _ IH]; simpl; [constructor|]. apply Forall_app. split; [|exact IH]. by apply entry_chunks_ok.
Qed.

Lemma init_chunk_ok : Forall chunk_ok cs.
Proof. exact (all_chunks_ok es (bm_entries _ _ _ _ H)). Qed.

Lemma array_bounds : 0 <= POOL_SIZE * Z.of_nat (length cs) <= array_pages es /\ (4096 | array_pages es) /\ 0 <= p /\
  p + array_pages es <= miniheap_end (k_pg s) /\ miniheap_end (k_pg s) < 2 ^ 64.
Proof.
  destruct (bm_small _ _ _ _ H) as [_ Hs]. destruct (bm_room _ _ _ _ H) as [Hb Hr]. fold cs p in Hs, Hb, Hr.
  pose proof (chunks_room_nonneg _ init_chunk_ok). pose proof (pi_end _ _ (bm_inv _ _ _ _ H)) as [? _].
  destruct (round_up_page_bounds (POOL_SIZE * Z.of_nat (length cs)) ltac:(unfold POOL_SIZE; lia)) as [? Ha].
  unfold array_pages. fold cs. split; [unfold POOL_SIZE in *; lia|]. split; [exact Ha|]. unfold array_pages in Hr. fold cs in Hr. lia.
Qed.

Lemma taken_bytes x : paging_bytes array_taken T x -> paging_bytes s T x /\ ~ within p (array_pages es) x.
Proof.
  pose proof array_bounds as (? & _ & _ & Hle & _).
  intros [Hx|Hx]; [|change (p + array_pages es <= x < miniheap_end (k_pg s)) in Hx; split; [right; fold p|unfold within]; lia].
  split; [by left|]. intros Hx'. pose proof (pi_apart _ _ (bm_inv _ _ _ _ H) x Hx). fold p in H1. unfold within in Hx'. lia.
Qed.

Lemma array_in_paging x : within p (array_pages es) x -> paging_bytes s T x.
Proof. pose proof array_bounds as (? & _ & _ & Hle & _). intros Hx. right. fold p. unfold within in Hx. lia. Qed.

Lemma array_apart_window : cs <> [] -> apart p (array_size cs) ep (total cs).
Proof.
  intros Hne. pose proof array_bounds as (Ha & _ & _ & _ & _). unfold array_size.
  assert (Hx : forall x, within ep (total cs) x -> ~ within p (POOL_SIZE * Z.of_nat (length cs)) x).
  { intros x Hx Hx'. apply (proj1 (bm_apart _ _ _ _ H x Hx)), array_in_paging. unfold within in *. lia. }
  pose proof (total_pos _ init_chunk_ok Hne). pose proof (proj2 (Nat.neq_0_lt_0 (length cs))) as Hl.
  assert (length cs <> 0%nat) by (by rewrite length_zero_iff_nil).
  pose proof (Hx (Z.max p ep)) as Hmax. unfold within, apart, POOL_SIZE in *. lia.
Qed.

Lemma init_pools_made : cs <> [] -> exists s' T', init_entries fuel (length es) 0 0 array_taken = Done tt s' /\ built array_taken T p ep cs s' T'.
Proof.
  intros Hne. pose proof array_bounds as (Ha & Ha4 & Hp0 & Hpe & He64). destruct (bm_pos _ _ _ _ H) as (Hep & Hepa & Hepe). fold ep cs in Hep, Hepa, Hepe.
  destruct (bm_small _ _ _ _ H) as [Hs Hs']. destruct (bm_fuel _ _ _ _ H) as [Hf64 Hft]. destruct (bm_room _ _ _ _ H) as [_ Hroom]. fold cs p in Hs, Hs', Hft, Hroom.
  assert (HI0 : paging_inv array_taken T).
  { exact (paging_inv_same (set_brk (p + array_pages es) s) array_taken T eq_refl eq_refl (paging_inv_brk s T (array_pages es) (bm_inv _ _ _ _ H) ltac:(lia) Ha4)). }
  assert (Hmapped : mapped (k_mem s) p (array_size cs)).
  { intros x Hx. rewrite (pi_zero _ _ (bm_inv _ _ _ _ H)); [by eexists|]. fold p. unfold array_size in Hx. lia. }
  assert (Hsum : forall c, c ∈ cs -> c.2 <= total cs).
  { intros c (l1 & l2 & E)%list_elem_of_split. pose proof init_chunk_ok as Hok. rewrite E in Hok |- *.
    apply Forall_app in Hok as [H1%total_nonneg [_ H2%total_nonneg]%Forall_cons]. rewrite total_app. simpl. lia. }
  assert (HT : forall x, within p (array_size cs) x \/ within ep (total cs) x -> ~ paging_bytes array_taken T x).
  { intros x Hx [Hx1 Hx2]%taken_bytes. destruct Hx as [Hx|Hx].
    - apply Hx2. unfold within, array_size in *. lia.
    - exact (proj1 (bm_apart _ _ _ _ H x Hx) Hx1). }
  assert (Hmm : forall x, memmap_bytes s es x -> ~ paging_bytes array_taken T x /\ ~ within p (array_size cs) x /\ ~ within ep (total cs) x).
  { intros x Hx. pose proof (bm_mapapart _ _ _ _ H x Hx) as Hpx. split; [by intros [? _]%taken_bytes|]. split.
    - intros Hx'. apply Hpx, array_in_paging. unfold within, array_size in *. lia.
    - intros Hx'. exact (proj2 (bm_apart _ _ _ _ H x Hx') Hx). }
  apply (built_entries fuel array_taken T p ep cs eq_refl Hep Hepa Hepe Hs init_chunk_ok) with (done := []) (i := 0%nat) (es := es) (T := T); try done.
  - apply Forall_forall. intros c Hc%Hsum. lia.
  - exact (bm_window _ _ _ _ H).
  - by apply array_apart_window.
  - exact (bm_map _ _ _ _ H).
  - exact (bm_entries _ _ _ _ H).
  - lia.
  - apply built_nil; [exact HI0|exact (proj1 (bm_lock _ _ _ _ H))|done|done].
Qed.

(** The calls before the pools are made. *)
Lemma init_start : page_alloc_init fuel s =
  if decide (cs = []) then Stop Panic else init_entries fuel (length es) 0 0 array_taken.
Proof.
  pose proof array_bounds as (Ha & Ha4 & Hp0 & Hpe & He64). destruct (bm_map _ _ _ _ H) as [Hml _].
  unfold page_alloc_init. rewrite (run_bind (gets _) _ s _ s eq_refl), (run_bind (gets _) _ s 0 s) by (unfold gets; by rewrite (bm_none _ _ _ _ H)).
  rewrite Hml, Nat2Z.id.
  rewrite (run_bind _ _ _ _ _ (count_pools_run fuel es s (bm_map _ _ _ _ H) (bm_entries _ _ _ _ H) ltac:(pose proof (proj1 (bm_fuel _ _ _ _ H)); lia) (length es) 0 0 eq_refl)).
  rewrite drop_0, Z.add_0_l. change (es ≫= entry_chunks) with cs.
  rewrite (run_bind (gets _) _ s _ s eq_refl). rewrite (run_bind (modify _) _ s tt _ eq_refl).
  destruct (decide (cs = [])) as [E|Hne]; [by rewrite E|].
  assert (length cs <> 0%nat) by (by rewrite length_zero_iff_nil). rewrite (proj2 (Z.eqb_neq _ _)) by lia. cbn [negb].
  rewrite (run_bind (assert_test true) _ _ tt _ eq_refl).
  set (s1 := set_pools (pools (k_pa s)) (Z.of_nat (length cs)) s).
  assert (Em : mul64 (Z.of_nat (length cs)) POOL_SIZE = POOL_SIZE * Z.of_nat (length cs)).
  { unfold mul64. rewrite w64_small; [lia|]. destruct (bm_small _ _ _ _ H) as [_ Hs']. fold cs in Hs'. unfold POOL_SIZE. lia. }
  rewrite Em, (run_bind _ _ _ p (set_brk (p + array_pages es) s1)).
  - rewrite (run_bind (modify _) _ _ tt _ eq_refl), (proj2 (Z.eqb_neq p 0)) by (pose proof (bm_room _ _ _ _ H); unfold p; lia).
    reflexivity.
  - apply (miniheap_alloc_run s1); [exact (pi_lock _ _ (bm_inv _ _ _ _ H))|exact Hp0| |exact Hpe|exact He64].
    destruct (bm_small _ _ _ _ H) as [_ Hs']. fold cs in Hs'. unfold POOL_SIZE. lia.
Qed.
End init.

(** What a run that makes pools establishes. *)
Lemma page_alloc_init_run fuel s T es : boot_memory fuel s T es -> all_chunks es <> [] ->
  let cs := all_chunks es in
  let ep := end_pos (k_pg s) in
  let ps := pool_of <$> place ep cs in
  exists s' T', page_alloc_init fuel s = Done tt s' /\ repr s' ps /\ pa_lock (k_pa s') = false /\
    (forall x, free_bytes ps x <-> ep <= x < ep + total cs) /\
    (forall v ph c o, (v, ph, c) ∈ place ep cs -> 0 <= o < c -> ktrans s' (v + o) = Some (ph + o)) /\
    (forall e, e ∈ es -> PAGE_SIZE <= e.2 -> e.2 < 2 * total (entry_chunks e)) /\
    (forall va, ~ pages ep (total cs / 4096) (vpn va) -> kwalk s' va = kwalk s va) /\
    paging_inv s' T' /\ (forall x, paging_bytes s' T' x -> paging_bytes s T x /\ ~ within (brk (k_pg s)) (array_pages es) x) /\
    changes (fun x => paging_bytes s T x \/ within ep (total cs) x) (k_mem s) (k_mem s') /\
    (exists m g d pa, s' = set_dev d (set_mem m (set_pg g (set_pa pa s)))) /\ pools (k_pa s') = brk (k_pg s).
Proof.
  intros H Hne cs ep ps. rewrite (init_start fuel s T es H), decide_False by done.
  destruct (init_pools_made fuel s T es H Hne) as (s' & T' & Hrun & HB). fold cs ep in HB.
  pose proof (init_chunk_ok fuel s T es H) as Hok. fold cs in Hok. destruct (bm_pos _ _ _ _ H) as (Hep & Hepa & Hepe). fold ep cs in Hep, Hepa, Hepe.
  destruct (array_bounds fuel s T es H) as (Ha & _ & Hp0 & Hpe & _). fold cs in Ha.
  destruct (bt_state _ _ _ _ _ _ _ HB) as (m & g & d & Es).
  assert (Hpa : k_pa s' = k_pa (array_taken s es)) by (by rewrite Es).
  assert (Hps : pools (k_pa s') = brk (k_pg s)) by (by rewrite Hpa).
  exists s', T'. split; [exact Hrun|]. split_and!.
  - split; rewrite ?Hps.
    + exact (proj1 (bm_room _ _ _ _ H)).
    + rewrite Hpa. unfold ps. by rewrite length_fmap, length_place.
    + intros i q Hi. unfold ps in Hi. apply list_lookup_fmap_Some in Hi as (x & -> & Hi). exact (bt_pools _ _ _ _ _ _ _ HB i x Hi).
    + apply pools_ok; try done. lia.
    + by apply place_apart.
    + pose proof (array_apart_window fuel s T es H Hne) as Hap. unfold ps. rewrite length_fmap, length_place.
      apply Forall_fmap, Forall_forall. intros [[v ph] c] Hin. destruct (place_range _ _ _ _ _ Hok Hin) as (? & ? & _).
      unfold apart, array_size in *. fold cs ep in Hap. simpl. lia.
  - rewrite Hpa. exact (proj2 (bm_lock _ _ _ _ H)).
  - intros x. by apply place_free.
  - exact (bt_trans _ _ _ _ _ _ _ HB).
  - intros e He Hpe'. pose proof (bm_entries _ _ _ _ H) as Hes. rewrite Forall_forall in Hes. by apply entry_chunks_ok; [apply Hes|].
  - exact (bt_walk _ _ _ _ _ _ _ HB).
  - exact (bt_inv _ _ _ _ _ _ _ HB).
  - intros x Hx. by apply (taken_bytes fuel s T es H), (bt_bytes _ _ _ _ _ _ _ HB).
  - eapply changes_weaken; [exact (bt_mem _ _ _ _ _ _ _ HB)|]. intros x [Hx|[Hx|Hx]]; [left|left|by right].
    + exact (proj1 (taken_bytes fuel s T es H x Hx)).
    + apply (array_in_paging fuel s T es H). unfold within in *. lia.
  - rewrite Es. by exists m, g, d, (k_pa (array_taken s es)).
  - exact Hps.
Qed.

(** C15. [page_alloc_init] makes a page allocator of the boot loader's memory map: the
    entries are cut into powers of two, each of which becomes a pool that is one free
    block, mapped after the kernel to its own frames and apart from all the others, while
    every other page is translated as before; as many pools are made as were counted; more than half of every entry is there; and nothing
    but those pages and the paging code's own memory is written.  A map with no whole page
    of use is a panic. *)
Theorem page_alloc_init_correct fuel s T es : boot_memory fuel s T es ->
  let cs := all_chunks es in
  let ep := end_pos (k_pg s) in
  let ps := pool_of <$> place ep cs in
  if decide (cs = []) then page_alloc_init fuel s = Stop Panic else
  exists s' T', page_alloc_init fuel s = Done tt s' /\ repr s' ps /\ pa_lock (k_pa s') = false /\
    (forall x, free_bytes ps x <-> ep <= x < ep + total cs) /\
    (forall v ph c o, (v, ph, c) ∈ place ep cs -> 0 <= o < c -> ktrans s' (v + o) = Some (ph + o)) /\
    (forall e, e ∈ es -> PAGE_SIZE <= e.2 -> e.2 < 2 * total (entry_chunks e)) /\
    (forall va, ~ pages ep (total cs / 4096) (vpn va) -> kwalk s' va = kwalk s va) /\
    paging_inv s' T' /\ (forall x, paging_bytes s' T' x -> paging_bytes s T x /\ ~ within (brk (k_pg s)) (array_pages es) x) /\
    changes (fun x => paging_bytes s T x \/ within ep (total cs) x) (k_mem s) (k_mem s') /\
    (exists m g d pa, s' = set_dev d (set_mem m (set_pg g (set_pa pa s)))) /\ pools (k_pa s') = brk (k_pg s).
Proof.
  intros H cs ep ps. destruct (decide (cs = [])) as [E|Hne]; [|by apply (page_alloc_init_run fuel s T es H)].
  rewrite (init_start fuel s T es H). by rewrite decide_True.
Qed.

(** ** The heap on top *)

(** [kalloc_init]: the heaps' states in a zeroed block of the page allocator. *)
Lemma kalloc_init_run s F n : page_inv s F -> ncpus (k_cpu s) = n -> 0 <= cpu_id (k_cpu s) < n -> n <= 2 ^ 40 ->
  (exists p m G, (forall fuel, page_alloc fuel (KALLOC_STATE_SIZE * n) s <> Stop OutOfFuel -> kalloc_init fuel s = Done tt (set_states p (set_mem m s))) /\
     heap_inv (set_states p (set_mem m s)) G /\ changes F (k_mem s) m /\ forall x, G x -> F x) \/
  eventually (fun fuel => page_alloc fuel (KALLOC_STATE_SIZE * n)) s (Stop Panic).
Proof.
  intros HF Hn Hid Hmax. unfold KALLOC_STATE_SIZE. destruct (page_inv_alloc s F (8 * n) HF ltac:(lia)) as [(r & m1 & G & Hrun & HG & Hgr)|Hp]; [left|by right].
  destruct (page_round_pow2 (8 * n) ltac:(lia)) as [_ Hle]. destruct Hgr as [Hr Hrend Hrin Hrest Hch1 Hmap1 _]. rewrite Z.sub_0_r, Z.add_0_l in *.
  set (m := write_bytes m1 r (replicate (Z.to_nat (8 * n)) (w8 0))).
  assert (Hch : changes (within r (8 * n)) m1 m).
  { eapply changes_weaken; [apply changes_write_bytes|]. rewrite length_replicate. intros x. unfold within. lia. }
  assert (Hz : forall x, within r (8 * n) x -> m !! x = Some 0).
  { intros x Hx. unfold m. rewrite lookup_write_bytes, length_replicate. unfold within in Hx. rewrite decide_True by lia. apply lookup_replicate_2. lia. }
  set (c := r + cpu_id (k_cpu s) * 8). assert (Hin : forall x, within c 8 x -> within r (8 * n) x) by (unfold within, c; lia).
  assert (HG' : page_inv (set_mem m s) G).
  { apply (page_inv_frame (set_mem m1 s) G m _ HG Hch). intros x Hx HGx. apply (Hrest x HGx). unfold within in *. lia. }
  exists r, m, (fun x => G x \/ heap_fp c [] x). split; [|split; [|split]].
  - intros fuel Hfuel. unfold kalloc_init. rewrite (run_bind (gets _) _ s n s) by (unfold gets; by rewrite Hn).
    assert (Em : mul64 KALLOC_STATE_SIZE n = 8 * n) by (unfold mul64, KALLOC_STATE_SIZE; rewrite w64_small; lia).
    rewrite Em. unfold page_zalloc.
    pose proof (eventually_at (fun f => page_alloc f (8 * n)) s _ fuel (fun f f' Hf => page_alloc_mono f f' _ Hf) Hrun Hfuel) as Hpa.
    assert (Hset : wp (memset r 0 (8 * n)) (fun _ s' => s' = set_mem m s) (set_mem m1 s)).
    { apply wp_memset; [lia| |done]. eapply mapped_sub; [exact Hmap1|lia|lia]. }
    apply wp_done in Hset as (a & s' & Hset & ->).
    erewrite run_bind; [|rewrite (run_bind _ _ _ _ _ Hpa), (proj2 (Z.eqb_neq r 0)) by lia; cbn [negb];
      erewrite run_bind by (by rewrite (run_bind _ _ _ _ _ Hset)); reflexivity]. done.
  - exists G, []. change (cpu_state (set_states r (set_mem m s))) with c. split_and!.
    + destruct HG' as (ps & Hps & Hl & HF'). exists ps. split; [|done]. by apply (repr_same (set_mem m s)).
    + apply heap_at_nil; [apply read64_zero; intros x Hx; by apply Hz, Hin|]. intros x Hx. rewrite Hz by (by apply Hin). by eexists.
    + intros x HGx [Hx|Hx%in_exts_nil]; [|done]. apply (Hrest x HGx). apply Hin in Hx. unfold within in *. lia.
    + constructor.
    + done.
  - eapply changes_trans; [exact Hch1|]. eapply changes_weaken; [exact Hch|]. intros x Hx. apply Hrin. unfold within in *. lia.
  - intros x [Hx|[Hx|Hx%in_exts_nil]]; [by apply Hrest| |done]. apply Hrin. apply Hin in Hx. unfold within in *. lia.
Qed.

Lemma page_round_page n : 0 <= n <= 4096 -> page_round n = 4096.
Proof.
  intros Hn. unfold page_round, PAGE_SIZE. destruct (decide (n = 0)) as [->|Hne]; [done|].
  rewrite next_pow2_log2_up by lia. assert (Hl : 2 ^ Z.log2_up n <= 2 ^ 12).
  { apply Z.pow_le_mono_r; [lia|]. change 12 with (Z.log2_up 4096). apply Z.log2_up_le_mono. lia. }
  rewrite w64_small by (pose proof (Z.pow_pos_nonneg 2 (Z.log2_up n) ltac:(lia) (Z.log2_up_nonneg n)); lia). destruct (Z.ltb_spec (2 ^ Z.log2_up n) 4096); lia.
Qed.

(** A page is to be had from pools that are one free block each. *)
Lemma alloc_pools_page ep cs : Forall chunk_ok cs -> cs <> [] -> exists x, alloc_pools 4096 (pool_of <$> place ep cs) = Some x.
Proof.
  intros [|[ph c] l Hc _] Hne; [done|]. pose proof (page_pow2_pos _ (ck_pow2 _ Hc)) as H4. simpl in H4.
  cbn [place fmap list_fmap pool_of alloc_pools p_free fit]. rewrite (proj2 (Z.leb_le 4096 c)) by done. by eexists.
Qed.

(** From the memory map to a heap: once [page_alloc_init] has run, [kalloc_init] gives
    the CPU an empty heap on top of the page allocator, in the state from which kalloc,
    kfree, krealloc and the maps are proved correct; all its memory comes from the pages
    of the map and the mini heap, and the page tables stay as they are but for those pages. *)
Theorem boot_heap_ready fuel s T es : boot_memory fuel s T es -> all_chunks es <> [] ->
  0 <= cpu_id (k_cpu s) < ncpus (k_cpu s) -> ncpus (k_cpu s) <= 512 ->
  let ep := end_pos (k_pg s) in
  let W := fun x => paging_bytes s T x \/ within ep (total (all_chunks es)) x in
  exists s1 s2 T' F, page_alloc_init fuel s = Done tt s1 /\ kalloc_init fuel s1 = Done tt s2 /\
    heap_inv s2 F /\ (forall x, F x -> W x) /\ changes W (k_mem s) (k_mem s2) /\
    paging_inv s2 T' /\ (forall va, ~ pages ep (total (all_chunks es) / 4096) (vpn va) -> kwalk s2 va = kwalk s va) /\
    (exists m g d pa p, s2 = set_states p (set_dev d (set_mem m (set_pg g (set_pa pa s))))).
Proof.
  intros H Hne Hid Hn ep W. pose proof (page_alloc_init_run fuel s T es H Hne) as Hinit. cbv zeta in Hinit.
  destruct Hinit as (s1 & T1 & Hrun & Hrepr & Hlock & Hfree & _ & _ & Hwalk & HI1 & Hbytes & Hch & (m1 & g & d & pa & Es) & Hpools).
  pose proof (init_chunk_ok fuel s T es H) as Hok. pose proof (array_bounds fuel s T es H) as ([_ Harr] & _).
  fold ep in Hrepr, Hfree, Hwalk, Hch. set (ps := pool_of <$> place ep (all_chunks es)) in *. set (n := ncpus (k_cpu s)) in *.
  assert (Ecpu : k_cpu s1 = k_cpu s) by (by rewrite Es).
  assert (Ha : forall x, pa_footprint s1 ps x -> within (brk (k_pg s)) (array_pages es) x \/ within ep (total (all_chunks es)) x).
  { intros x [Hx|Hx%Hfree]; [left|by right]. unfold ps in Hx. rewrite Hpools, length_fmap, length_place in Hx. unfold within in *. lia. }
  assert (HF : forall x, pa_footprint s1 ps x -> W x).
  { intros x [Hx|Hx]%Ha; [left|by right]. by apply (array_in_paging fuel s T es H). }
  destruct (alloc_pools_page ep _ Hok Hne) as [[r qs] Hx]. fold ps in Hx.
  pose proof (page_alloc_refines fuel (KALLOC_STATE_SIZE * n) s1 ps Hrepr Hlock) as Hal.
  rewrite page_round_page, Hx in Hal by (unfold KALLOC_STATE_SIZE; lia).
  destruct Hal as (ma & Hal & _).
  { apply Forall_fmap, Forall_forall. intros [[v ph] c] _. simpl. pose proof (proj1 (bm_fuel _ _ _ _ H)). lia. }
  { unfold KALLOC_STATE_SIZE. lia. }
  destruct (kalloc_init_run s1 (pa_footprint s1 ps) n) as [(p & m & F & Hk & Hheap & Hchm & HG)|Hpanic];
    [by exists ps|by rewrite Ecpu|by rewrite Ecpu|lia| |].
  - assert (Hsep : forall x, pa_footprint s1 ps x -> ~ paging_bytes s1 T1 x).
    { intros x Hx1%Ha [Hx2 Hx3]%Hbytes. destruct Hx1 as [Hx1|Hx1]; [done|]. exact (proj1 (bm_apart _ _ _ _ H x Hx1) Hx2). }
    exists s1, (set_states p (set_mem m s1)), T1, F. split; [exact Hrun|]. split; [apply Hk; by rewrite Hal|]. split; [exact Hheap|].
    split; [by intros x Hx1%HG%HF|]. split; [eapply changes_trans; [exact Hch|]; eapply changes_weaken; [exact Hchm|exact HF]|].
    split; [exact (paging_inv_same (set_mem m s1) (set_states p (set_mem m s1)) T1 eq_refl eq_refl (paging_inv_frame s1 T1 m _ HI1 Hchm Hsep))|]. split.
    + intros va Hva. etrans; [exact (kwalk_frame s1 T1 m _ va HI1 Hchm Hsep)|by apply Hwalk].
    + rewrite Es. by exists m, g, d, pa, p.
  - exfalso. pose proof (eventually_at (fun f => page_alloc f _) s1 _ fuel (fun f f' Hf => page_alloc_mono f f' _ Hf) Hpanic) as E.
    cbv beta in E. rewrite Hal in E. by discriminate E.
Qed.

(** ** A small memory map

    Two entries, of three pages and of a page and a half; the page tables start empty. *)
Definition boot_es : list (Z * Z) := [(0x100000, 0x3000); (0x200000, 0x1800)].
Definition boot_mem : gmap Z Z :=
  write64 (write64 (write64 (write64 (zeros 0x1000 0x42000 ∅) 0x30000 0x100000) 0x30008 0x3000) 0x30010 0x200000) 0x30018 0x1800.
Definition boot_demo : kernel :=
  set_boot (BootGlobals 0 0 0 0 false 0 0x30000 2)
    (quiet_kernel boot_mem (PageAllocGlobals 0 0 false) (CpuGlobals 0 1 0 0) (ProcGlobals 0 false 0 0 false)
      (PagingGlobals 0x2000 0x21000 false 0x40000 false 0 0 0x1000 0 0x30000000 w64)).
Definition boot_tables : gmap (list Z) Z := {[ [] := 0x1000 ]}.

#[local] Opaque zeros.

Lemma boot_chunks : all_chunks boot_es = [(0x100000, 0x2000); (0x200000, 0x1000)].
Proof. vm_compute. reflexivity. Qed.

Lemma boot_zero x : 0x1000 <= x < 0x43000 -> ~ within 0x30000 32 x -> boot_mem !! x = Some 0.
Proof.
  intros Hx Hx'. unfold boot_mem. rewrite !write64_lookup_ne by (unfold within in *; lia). apply lookup_zeros. lia.
Qed.

Lemma boot_inv : paging_inv boot_demo boot_tables.
Proof.
  apply (fresh_paging_inv boot_demo 0x1000 0x21000); [reflexivity..|by exists 1|lia|lia|lia|].
  intros x Hx. apply boot_zero; unfold within; lia.
Qed.

Lemma boot_paging_bytes x : paging_bytes boot_demo boot_tables x -> 0x1000 <= x < 0x21000.
Proof.
  intros [(q & t & Hq & Hx)|Hx]; [|change (0x2000 <= x < 0x21000) in Hx; lia].
  unfold boot_tables in Hq; apply lookup_singleton_Some in Hq as [_ <-]. unfold within in Hx. lia.
Qed.

Lemma boot_demo_memory : boot_memory 65 boot_demo boot_tables boot_es.
Proof.
  split; rewrite ?boot_chunks.
  - exact boot_inv.
  - done.
  - done.
  - split; [done|]. intros i e Hi. change (memmap (k_boot boot_demo)) with 0x30000. change (k_mem boot_demo) with boot_mem. unfold boot_mem, MM_SIZE, MM_BASE, MM_LEN.
    destruct i as [|[|i]]; [injection Hi as <-|injection Hi as <-|done]; simpl; split;
      rewrite ?read64_write64_ne by lia; apply read64_write64_eq; lia.
  - repeat constructor; simpl; try lia; [by exists 0x100|by exists 0x200].
  - simpl. lia.
  - change (end_pos (k_pg boot_demo)) with 0x40000. simpl. split; [lia|]. split; [by exists 0x40|lia].
  - change (end_pos (k_pg boot_demo)) with 0x40000. change (k_mem boot_demo) with boot_mem. simpl. intros x Hx. rewrite boot_zero by (unfold within; lia). by eexists.
  - change (end_pos (k_pg boot_demo)) with 0x40000. simpl. intros x Hx. split; [intros Hx'%boot_paging_bytes; unfold within in *; lia|].
    unfold memmap_bytes. change (memmap (k_boot boot_demo)) with 0x30000. unfold within, MM_SIZE in *. simpl. lia.
  - unfold memmap_bytes. change (memmap (k_boot boot_demo)) with 0x30000. intros x Hx Hx'%boot_paging_bytes. unfold within, MM_SIZE in *. simpl in Hx. lia.
  - unfold array_pages. rewrite boot_chunks. by vm_compute.
  - simpl. lia.
Qed.

Lemma page_alloc_init_correct_witness :
  exists s', page_alloc_init 65 boot_demo = Done tt s' /\
    repr s' [Pool 0x40000 0x42000 [(0x40000, 0x2000)]; Pool 0x42000 0x43000 [(0x42000, 0x1000)]] /\
    ktrans s' 0x42fff = Some 0x200fff.
Proof.
  pose proof (page_alloc_init_correct 65 boot_demo boot_tables boot_es boot_demo_memory) as H. cbv zeta in H. rewrite boot_chunks in H.
  destruct H as (s' & T' & Hrun & Hrepr & _ & _ & Htr & _). exists s'. split; [exact Hrun|]. split; [exact Hrepr|].
  apply (Htr 0x42000 0x200000 0x1000 0xfff); [right; left|lia].
Defined.

Lemma boot_heap_ready_witness : exists s1 s2 F, page_alloc_init 65 boot_demo = Done tt s1 /\
  kalloc_init 65 s1 = Done tt s2 /\ heap_inv s2 F.
Proof.
  destruct (boot_heap_ready 65 boot_demo boot_tables boot_es boot_demo_memory) as (s1 & s2 & T & F & Hrun & Hk & Hheap & _).
  - rewrite boot_chunks. discriminate.
  - simpl. lia.
  - simpl. lia.
  - exists s1, s2, F. split; [exact Hrun|]. split; [exact Hk|exact Hheap].
Defined.
