(* ===== verification/Acpi.v ===== *)
(** * kernel/acpi/acpi.c, laihost.c, and the discovery parts of hpet.c and apic.c

    The search for an ACPI table by signature, the parsing of the MADT, and the
    functions the ACPI interpreter calls back.  The layout of the tables comes from a
    header outside the repository: the offsets are a parameter. *)
From S2P Require Import Prelude Memory Mem Pow2 State FreeList PageAlloc Kalloc HashMap Paging MapPages Devices Pci Timer Sched.

(** [acpispec/tables.h]: the size of [acpi_header_t], the offsets of [length],
    [dsdt], [x_dsdt], and of [addr.base] in the HPET table. *)
Record acpi_layout := AcpiLayout {
  HDR_SIZE : Z; OFF_LENGTH : Z; OFF_DSDT : Z; OFF_X_DSDT : Z; OFF_HPET_BASE : Z
}.

Definition set_xsdt (p : Z) (s : kernel) : kernel :=
  let g := k_boot s in
  set_boot (BootGlobals (high_addr g) (xsdp_revision g) (xsdp_rsdt g) (xsdp_xsdt g) (acpi64 g) p
    (memmap g) (memmap_len g)) s.

Section acpi.
Context (L : acpi_layout).

Definition MAP_RW : Z := Z.lor (Z.lor PAGE_PRESENT PAGE_WRITABLE) PAGE_NX.

(** Map a table's header to learn its length, then the whole table. *)
Definition map_table_at (fuel : nat) (phys : Z) : M kernel (Z * Z) :=
  t ← map_anon fuel phys (HDR_SIZE L) MAP_RW;
  length ← load32 (t + OFF_LENGTH L);
  unmap_pages fuel t (HDR_SIZE L) ;;
  t ← map_anon fuel phys length MAP_RW;
  mret (t, length).

Definition XSDT_P : Z := HDR_SIZE L.

(** The loop over the [entries] of the root table; [count] starts at [(size_t)-1]. *)
Fixpoint acpi_scan (fuel n : nat) (x i count : Z) (sig : list Z) (index : Z) : M kernel Z :=
  match n with
  | O => mret 0
  | S k =>
      a64 ← gets (fun s => acpi64 (k_boot s));
      phys ← (if (a64 : bool) then load64 (x + XSDT_P + 8 * i) else load32 (x + XSDT_P + 4 * i));
      '(t, length) ← map_table_at fuel phys;
      same ← equal_bytes 4 t sig;
      let count := if (same : bool) then add64 count 1 else count in
      if count =? index then mret t else
      (if negb (t =? x) then unmap_pages fuel t length else mret tt) ;;
      acpi_scan fuel k x (i + 1) count sig index
  end.

(** The root table, mapped at the first call. *)
Definition acpi_root (fuel : nat) : M kernel Z :=
  x ← gets (fun s => xsdt (k_boot s));
  if negb (x =? 0) then mret x else
  phys ← gets (fun s => if acpi64 (k_boot s) then xsdp_xsdt (k_boot s) else xsdp_rsdt (k_boot s));
  '(t, _) ← map_table_at fuel phys;
  modify (set_xsdt t) ;;
  ok ← equal_bytes 3 (t + 1) [83; 68; 84];
  assert_test ok ;;
  mret t.

(** [acpi_find] of any table but the DSDT. *)
Definition acpi_find_table (fuel : nat) (sig : list Z) (index : Z) : M kernel Z :=
  x ← acpi_root fuel;
  len ← load32 (x + OFF_LENGTH L);
  a64 ← gets (fun s => acpi64 (k_boot s));
  let entries := sub64 len (HDR_SIZE L) / (if (a64 : bool) then 8 else 4) in
  acpi_scan fuel (Z.to_nat entries) x 0 (2 ^ 64 - 1) sig index.

Definition FACP : list Z := [70; 65; 67; 80].
Definition DSDT : list Z := [68; 83; 68; 84].

Definition acpi_find (fuel : nat) (sig : list Z) (index : Z) : M kernel Z :=
  if bool_decide (take 4 sig = DSDT) then
    facp ← acpi_find_table fuel FACP 0;
    a64 ← gets (fun s => acpi64 (k_boot s));
    phys ← (if (a64 : bool) then load64 (facp + OFF_X_DSDT L) else load32 (facp + OFF_DSDT L));
    '(t, _) ← map_table_at fuel phys;
    mret t
  else acpi_find_table fuel sig index.

(** ** hpet.c *)

Definition HPET : list Z := [72; 80; 69; 84].

Definition hpet_init (fuel : nat) : M kernel unit :=
  tab ← acpi_find fuel HPET 0;
  (if tab =? 0 then halt Panic else mret tt) ;;
  base ← load64 (tab + OFF_HPET_BASE L);
  h ← map_anon fuel base HPET_SIZE
        (Z.lor (Z.lor (Z.lor PAGE_PRESENT PAGE_WRITABLE) PAGE_NOCACHE) PAGE_NX);
  base ← load64 (tab + OFF_HPET_BASE L);
  printf ("HPET at %p (phys=%p)" +:+ nl) [h; base] ;;
  hpet_start h.

(** ** apic.c *)

(** [struct madt], [struct record] and the enumeration of apic.c. *)
Definition MADT_LAPIC_ADDR : Z := HDR_SIZE L.
Definition MADT_DATA : Z := HDR_SIZE L + 8.
Definition REC_TYPE : Z := 0.
Definition REC_LEN : Z := 1.
Definition REC_DATA : Z := 2.
Definition LAPIC_PHYS_ADDR : Z := 0.
Definition LAPIC_FLAGS : Z := 2.
Definition MADT_LAPIC : Z := 0.
Definition MADT_64BIT : Z := 5.

(** The loop over the records: number of usable cores and the local APIC's address.
    The length of a record is a signed byte. *)
Fixpoint madt_scan (fuel : nat) (p e numcores base : Z) : M kernel (Z * Z) :=
  match fuel with
  | O => halt OutOfFuel
  | S k =>
      if negb (p <? e) then mret (numcores, base) else
      ty ← load8 (p + REC_TYPE);
      '(numcores, base) ←
        (if s8 ty =? MADT_LAPIC then
           fl ← load8 (p + REC_DATA + LAPIC_FLAGS);
           mret (if negb (Z.land fl 1 =? 0) || negb (Z.land fl 2 =? 0) then w16 (numcores + 1) else numcores, base)
         else if s8 ty =? MADT_64BIT then
           a ← load64 (p + REC_DATA + LAPIC_PHYS_ADDR); mret (numcores, a)
         else mret (numcores, base));
      len ← load8 (p + REC_LEN);
      madt_scan k (w64 (p + s8 len)) e numcores base
  end.

Definition APIC : list Z := [65; 80; 73; 67].

Definition apic_init (fuel : nat) : M kernel unit :=
  madt ← acpi_find fuel APIC 0;
  (if madt =? 0 then halt Panic else mret tt) ;;
  printf ("MADT at %p" +:+ nl) [madt] ;;
  b0 ← load32 (madt + MADT_LAPIC_ADDR);
  len ← load32 (madt + OFF_LENGTH L);
  '(numcores, base) ← madt_scan fuel (madt + MADT_DATA) (madt + len) 0 b0;
  modify (set_lapic_base base) ;;
  n ← gets (fun s => ncpus (k_cpu s));
  assert_test (numcores =? n) ;;
  printf "LAPIC at phys=%p, " [base] ;;
  v ← map_anon fuel base PAGE_SIZE (Z.lor (Z.lor PAGE_PRESENT PAGE_WRITABLE) PAGE_NOCACHE);
  modify (set_lapic_base v) ;;
  printf ("virt=%p" +:+ nl) [v] ;;
  apic_start fuel.

(** ** laihost.c: what the ACPI interpreter calls *)

Definition laihost_malloc (fuel : nat) (size : Z) : M kernel Z := kalloc fuel size.
Definition laihost_free (fuel : nat) (ptr size : Z) : M kernel unit := kfree fuel ptr.
Definition laihost_realloc (fuel : nat) (ptr newsize oldsize : Z) : M kernel Z := krealloc fuel ptr newsize.
Definition laihost_map (fuel : nat) (address count : Z) : M kernel Z := map_anon fuel address count MAP_RW.
Definition laihost_unmap (fuel : nat) (address count : Z) : M kernel unit := unmap_pages fuel address count.
Definition laihost_log (level : Z) (msg : list Z) : M kernel unit := printf ("%s" +:+ nl) msg.
Definition laihost_panic : M kernel unit := halt Panic.
Definition laihost_scan (fuel : nat) (sig : list Z) (index : Z) : M kernel Z := acpi_find fuel sig index.
Definition laihost_sleep (fuel : nat) (ms : Z) : M kernel unit := timer_sleep_ms fuel ms.
Definition laihost_timer : M kernel Z := timer_count_ms.
End acpi.

Definition laihost_inb (port : Z) : M kernel Z := port_inb port.
Definition laihost_inw (port : Z) : M kernel Z := port_inw port.
Definition laihost_ind (port : Z) : M kernel Z := port_ind port.
Definition laihost_outb (port x : Z) : M kernel unit := port_outb port x.
Definition laihost_outw (port x : Z) : M kernel unit := port_outb port x.
Definition laihost_outd (port x : Z) : M kernel unit := port_outd port x.

(** The 16-bit offset becomes the [uint8_t] parameter of [pci_read], [pci_write]. *)
Definition laihost_pci_writeb (seg bus slot fun_ offset val : Z) : M kernel unit :=
  pci_write bus slot fun_ (w8 offset) (w8 val) 1.
Definition laihost_pci_writew (seg bus slot fun_ offset val : Z) : M kernel unit :=
  pci_write bus slot fun_ (w8 offset) (w16 val) 2.
Definition laihost_pci_writed (seg bus slot fun_ offset val : Z) : M kernel unit :=
  pci_write bus slot fun_ (w8 offset) (w32 val) 4.
Definition laihost_pci_readb (seg bus slot fun_ offset : Z) : M kernel Z :=
  pci_read bus slot fun_ (w8 offset) 1.
Definition laihost_pci_readw (seg bus slot fun_ offset : Z) : M kernel Z :=
  pci_read bus slot fun_ (w8 offset) 2.
Definition laihost_pci_readd (seg bus slot fun_ offset : Z) : M kernel Z :=
  pci_read bus slot fun_ (w8 offset) 4.
