(* ===== verification/Boot.v ===== *)
(** * kernel/arch/x86_64/mp.c, start.c and kernel/kmain.c: the boot sequence

    [kmain] runs the initialisers of the other components in order.  What the boot
    loader, the linker, the assembly files and the ACPI interpreter provide is a
    record of parameters. *)
From S2P Require Import Prelude Memory Mem Pow2 State FreeList PageAlloc Kalloc HashMap Paging MapPages Devices Pci Timer Sched Ctx Desc Screen PageInit Acpi.

Record boot_params := BootParams {
  (* boot loader: the responses of the requests, NULL being [None] *)
  bp_hhdm : option Z;
  bp_rsdp : option (Z * Z * Z);                   (* revision, rsdt, xsdt *)
  bp_fbs : option (list limine_framebuffer);
  bp_memmap : option (list (Z * Z * Z));
  bp_kernel_addr : option (Z * Z);
  bp_smp_response : Z;
  (* linker and static objects *)
  bp_sections : sections;
  bp_cpu_data : Z;
  bp_cpu_ptrs : Z;
  bp_kproc : Z;
  bp_idt : Z;
  bp_cpus_ready : Z;
  bp_proc_slot : Z;                               (* the local [struct proc] of [proc_new] *)
  (* assembly *)
  bp_isrs : Z -> Z;
  bp_syscall_entry : Z;
  bp_mp_start : Z;
  bp_check_rdseed : bool;
  bp_user_main1 : Z;
  bp_user_main2 : Z;
  (* the ACPI interpreter and its tables *)
  bp_layout : acpi_layout;
  bp_lai_init : M kernel unit                     (* lai_create_namespace, lai_enable_acpi *)
}.

Section boot.
Context (bp : boot_params).

(** ** mp.c *)

(** [struct cpu_data] is packed: kstack, proc_current, id. *)
Definition CPU_DATA_SIZE : Z := 20.

(** [ebx] is an [int]: the shifts are arithmetic. *)
Definition cpuid_id (ebx : Z) : Z := Z.shiftr (s32 ebx) 24.
Definition cpuid_ncpus (ebx : Z) : Z := Z.shiftr (s32 ebx) 16.

Definition get_cpuid : M kernel Z := ebx ← cpuid 1 EBX; mret (cpuid_id ebx).
Definition get_ncpus : M kernel Z := ebx ← cpuid 1 EBX; mret (cpuid_ncpus ebx).

Definition init_cpu_early (fuel : nat) : M kernel unit :=
  id ← get_cpuid;
  store64 (bp_cpu_ptrs bp + 8 * id) (bp_cpu_data bp + id * CPU_DATA_SIZE) ;;
  wrmsr MSR_GS_BASE (w64 (bp_cpu_ptrs bp + 8 * id)) ;;
  mp_pages fuel.

Definition set_cpu_id (id : Z) (s : kernel) : kernel :=
  let g := k_cpu s in set_cpu (CpuGlobals (states g) (ncpus g) id (proc_current g)) s.

Definition set_ncpus (n : Z) (s : kernel) : kernel :=
  let g := k_cpu s in set_cpu (CpuGlobals (states g) n (cpu_id g) (proc_current g)) s.

Definition init_cpu_local (fuel : nat) : M kernel unit :=
  id ← get_cpuid;
  modify (set_cpu_id id) ;;
  modify (set_current (bp_kproc bp)) ;;
  ks ← gets (fun s => kspace (k_pg s));
  store64 (bp_kproc bp + PROC_SPACE) ks ;;
  pm ← load64 (ks + SPACE_PHYSMAP);
  if pm =? 0 then
    m ← map_new fuel 0x10; store64 (ks + SPACE_PHYSMAP) m
  else mret tt.

(** What another CPU runs, up to its endless loop; [++cpus_ready] is a plain load and
    store of a shared word. *)
Definition mp_start (fuel : nat) (tabs : Z * Z * Z) : M kernel unit :=
  init_cpu_early fuel ;;
  init_cpu_local fuel ;;
  idt_load (IDT_ENTRY_SIZE * 256 - 1) (bp_idt bp) ;;
  gdt_init fuel tabs ;;
  apic_start fuel ;;
  init_syscalls (bp_syscall_entry bp) ;;
  c ← load32 (bp_cpus_ready bp);
  store32 (bp_cpus_ready bp) (add32 c 1) ;;
  id ← gets (fun s => cpu_id (k_cpu s));
  printf ("CPU %d ready" +:+ nl) [id].

(** [while (cpus_ready != ncpus);] reads a word other CPUs write: its values come from
    the environment. *)
Fixpoint wait_cpus (fuel : nat) (n : Z) : M kernel unit :=
  match fuel with
  | O => halt OutOfFuel
  | S k => c ← ask (Mmio32 (bp_cpus_ready bp)) 32; if c =? n then mret tt else wait_cpus k n
  end.

(** [struct limine_smp_response] and [struct limine_smp_info]. *)
Definition SMP_CPU_COUNT : Z := 16.
Definition SMP_CPUS : Z := 24.
Definition SMP_RESPONSE_SIZE : Z := 32.
Definition SMP_GOTO : Z := 16.
Definition SMP_INFO_SIZE : Z := 32.

Definition H2PHYS (s : kernel) (x : Z) : Z := sub64 x (high_addr (k_boot s)).

Definition mp_init (fuel : nat) : M kernel unit :=
  n ← gets (fun s => ncpus (k_cpu s));
  phys ← gets (fun s => H2PHYS s (bp_smp_response bp));
  response ← map_anon fuel phys SMP_RESPONSE_SIZE MAP_RW;
  count ← load64 (response + SMP_CPU_COUNT);
  assert_test (count =? n) ;;
  cpus ← load64 (response + SMP_CPUS);
  phys ← gets (fun s => H2PHYS s cpus);
  cpus ← map_anon fuel phys (mul64 n 8) MAP_RW;
  store64 (response + SMP_CPUS) cpus ;;
  for_range (Z.to_nat n) 0 (fun i =>
    cpus ← load64 (response + SMP_CPUS);
    cpu ← load64 (cpus + 8 * i);
    phys ← gets (fun s => H2PHYS s cpu);
    cpu ← map_anon fuel phys SMP_INFO_SIZE (Z.lor PAGE_PRESENT PAGE_WRITABLE);
    store64 (cpu + SMP_GOTO) (bp_mp_start bp)) ;;
  wait_cpus fuel n.

(** ** start.c *)

Definition set_acpi64 (b : bool) (s : kernel) : kernel :=
  let g := k_boot s in
  set_boot (BootGlobals (high_addr g) (xsdp_revision g) (xsdp_rsdt g) (xsdp_xsdt g) b (xsdt g)
    (memmap g) (memmap_len g)) s.

Definition set_firmware (high : Z) (xsdp : Z * Z * Z) (s : kernel) : kernel :=
  let g := k_boot s in
  let '(rev, r, x) := xsdp in
  set_boot (BootGlobals high rev r x (acpi64 g) (xsdt g) (memmap g) (memmap_len g)) s.

(** [arch_init]; the GDT tables are returned for the other CPUs. *)
Definition arch_init (fuel : nat) : M kernel (Z * Z * Z) :=
  idt_init (bp_idt bp) (bp_isrs bp) ;;
  tabs ← gdt_meta_init fuel;
  gdt_init fuel tabs ;;
  rev ← gets (fun s => xsdp_revision (k_boot s));
  printf ("ACPI Revision: %d" +:+ nl) [rev] ;;
  x ← gets (fun s => xsdp_xsdt (k_boot s));
  modify (set_acpi64 ((2 <=? rev) && negb (x =? 0))) ;;
  hpet_init (bp_layout bp) fuel ;;
  rand_init (bp_check_rdseed bp) ;;
  bp_lai_init bp ;;
  apic_init (bp_layout bp) fuel ;;
  mret tabs.

(** ** kmain.c *)

(** From the memory map to the heap. *)
Definition kmain_memory (fuel : nat) : M kernel unit :=
  memmap_init (bp_memmap bp) ;;
  map_kern_pages fuel (bp_kernel_addr bp) (bp_sections bp) ;;
  map_screen fuel ;;
  init_cpu_early fuel ;;
  flush_pages fuel 0 ;;
  id ← gets (fun s => cpu_id (k_cpu s));
  n ← get_ncpus;
  modify (set_ncpus n) ;;
  printf ("CPU %d (%d total)" +:+ nl) [id; n] ;;
  page_alloc_init fuel ;;
  kalloc_init fuel.

Definition kmain (fuel : nat) : M kernel unit :=
  serial_init ;;
  init_fb (bp_fbs bp) ;;
  printf ("%c Silkware%c" +:+ nl +:+ nl) [COLOR_GREEN; COLOR_WHITE] ;;
  g ← gets k_scr;
  printf ("Framebuffer: phys=%p virt=%p" +:+ nl) [scr_paddr g; scr_vaddr g] ;;
  kmain_memory fuel ;;
  init_cpu_local fuel ;;
  printf ("Remapped kernel" +:+ nl) [] ;;
  g ← gets k_scr;
  printf ("Framebuffer mapped at: %p" +:+ nl) [scr_vaddr g] ;;
  arch_init fuel ;;
  printf ("Arch initialization complete" +:+ nl) [] ;;
  init_syscalls (bp_syscall_entry bp) ;;
  printf ("Syscall initialization complete" +:+ nl) [] ;;
  mp_init fuel ;;
  proc_init fuel ;;
  sched_init fuel ;;
  p1 ← proc_new fuel (bp_proc_slot bp) (bp_user_main1 bp) PAGE_SIZE;
  schedule fuel 0 p1 1 ;;
  p2 ← proc_new fuel (bp_proc_slot bp) (bp_user_main2 bp) PAGE_SIZE;
  schedule fuel 0 p2 2 ;;
  sched_begin.

Definition start (fuel : nat) : M kernel unit :=
  match bp_hhdm bp, bp_rsdp bp with
  | Some high, Some xsdp => modify (set_firmware high xsdp) ;; kmain fuel
  | _, _ => halt Panic
  end.
End boot.
