(* ===== verification/Keeps.v ===== *)
(** * What every operation of the kernel keeps

    [keeps L m M]: a run of [m] that starts with the locks in the state [L] and with
    bytes in memory, and that returns, ends with the locks in the state [M] says for its
    result, again with bytes in memory; it has written mapped memory only, so that the
    same addresses are mapped, and has added its events to the trace.  The rules follow
    the program's structure, and [keep] applies them. *)
From S2P Require Import Prelude Memory Mem Pow2 Rand State FreeList PageAlloc Kalloc HashMap Paging MapPages Devices Pci Timer Sched Ctx Desc Screen PageInit Acpi Boot.

Definition byte_ok (b : Z) : Prop := 0 <= b < 2 ^ 8.

(** Memory holds bytes. *)
Definition bytes_ok (m : gmap Z Z) : Prop := forall x b, m !! x = Some b -> byte_ok b.

(** The locks of page_alloc.c, proc.c, miniheap.c and paging.c. *)
Definition locks (s : kernel) : bool * bool * bool * bool :=
  (pa_lock (k_pa s), pid_cur_lock (k_proc s), miniheap_lock (k_pg s), end_pos_lock (k_pg s)).

Record grows (s s' : kernel) : Prop := {
  gw_mapped x : is_Some (k_mem s' !! x) <-> is_Some (k_mem s !! x);
  gw_log : exists l, dv_log (k_dev s') = l ++ dv_log (k_dev s);
  gw_env : dv_env (k_dev s') = dv_env (k_dev s);
}.

#[export] Instance grows_refl : Reflexive grows.
Proof. intros s. split; [done|by exists []|done]. Qed.

#[export] Instance grows_trans : Transitive grows.
Proof.
  intros s1 s2 s3 [H1 [l1 L1] E1] [H2 [l2 L2] E2]. split.
  - intros x. by rewrite H2, H1.
  - exists (l2 ++ l1). by rewrite L2, L1, app_assoc.
  - congruence.
Qed.

Definition keeps {A} (L : bool * bool * bool * bool) (m : M kernel A) (M : A -> bool * bool * bool * bool) : Prop :=
  forall s, bytes_ok (k_mem s) -> locks s = L ->
  match m s with
  | Done a s' => bytes_ok (k_mem s') /\ locks s' = M a /\ grows s s'
  | Stop _ => True
  end.

(** The locks end as they were. *)
Abbreviation steady m := (forall L, keeps L m (fun _ => L)).

Create HintDb keep.

Lemma keeps_ret {A} L (a : A) M : L = M a -> keeps L (mret a) M.
Proof. intros E s Hb HL. simpl. split; [done|]. split; [congruence|reflexivity]. Qed.

Lemma keeps_mret {A} L (a : A) : keeps L (mret a) (fun _ => L).
Proof. by apply keeps_ret. Qed.

Lemma keeps_halt {A} L e (M : A -> _) : keeps L (halt e) M.
Proof. by intros s Hb HL. Qed.

Lemma keeps_bind {A B} L (m : M kernel A) (k : A -> M kernel B) M N :
  keeps L m M -> (forall a, keeps (M a) (k a) N) -> keeps L (m ≫= k) N.
Proof.
  intros Hm Hk s Hb HL. unfold mbind, M_bind. specialize (Hm s Hb HL). destruct (m s) as [a s1|e]; [|done].
  destruct Hm as (Hb1 & HL1 & G1). specialize (Hk a s1 Hb1 HL1). destruct (k a s1) as [b s2|e]; [|done].
  destruct Hk as (Hb2 & HL2 & G2). split; [done|]. split; [done|]. by etrans.
Qed.

(** A computation that only reads, and whose result is good. *)
Lemma keeps_read {A B} L (m : M kernel A) (k : A -> M kernel B) (P : A -> Prop) N :
  (forall s, bytes_ok (k_mem s) -> match m s with Done a s' => s' = s /\ P a | Stop _ => True end) ->
  (forall a, P a -> keeps L (k a) N) -> keeps L (m ≫= k) N.
Proof.
  intros Hm Hk s Hb HL. unfold mbind, M_bind. specialize (Hm s Hb). destruct (m s) as [a s1|e]; [|done].
  destruct Hm as [-> Ha]. by apply Hk.
Qed.

Lemma keeps_gets {A} L (f : kernel -> A) : keeps L (gets f) (fun _ => L).
Proof. intros s Hb HL. simpl. split; [done|]. split; [done|reflexivity]. Qed.

(** A change of globals. *)
Lemma keeps_modify L (f : kernel -> kernel) : (forall s, k_mem (f s) = k_mem s) -> (forall s, locks (f s) = locks s) ->
  (forall s, k_dev (f s) = k_dev s) -> keeps L (modify f) (fun _ => L).
Proof.
  intros Hm Hl Hd s Hb HL. simpl. rewrite Hm, Hl. split; [done|]. split; [done|].
  split; [by rewrite Hm|exists []; by rewrite Hd|by rewrite Hd].
Qed.

Lemma keeps_for_range L n from (body : Z -> M kernel unit) : (forall i, keeps L (body i) (fun _ => L)) ->
  keeps L (for_range n from body) (fun _ => L).
Proof.
  intros H. revert from. induction n as [|n IH]; intros from; simpl; [by apply keeps_ret|].
  eapply keeps_bind; [apply H|]. intros ?. apply IH.
Qed.

(** ** Accesses to memory *)

Lemma bytes_ok_insert m x b : bytes_ok m -> byte_ok b -> bytes_ok (<[x := b]> m).
Proof. intros Hm Hb y c Hy. apply lookup_insert_Some in Hy as [[_ <-]|[_ Hy]]; [done|by apply (Hm y)]. Qed.

Lemma bytes_ok_write m a bs : bytes_ok m -> Forall byte_ok bs -> bytes_ok (write_bytes m a bs).
Proof.
  intros Hm Hbs x b Hx. rewrite lookup_write_bytes in Hx. case_decide; [|by apply (Hm x)].
  rewrite Forall_forall in Hbs. apply Hbs. by eapply list_elem_of_lookup_2.
Qed.

Lemma le_split_ok n v : Forall byte_ok (le_split n v).
Proof. apply Forall_forall. intros b Hb. by eapply le_split_range. Qed.

Lemma read_bytes_ok m a n bs : bytes_ok m -> read_bytes m a n = Some bs -> Forall byte_ok bs.
Proof.
  intros Hm [Hl Hi]%read_bytes_spec. apply Forall_lookup. intros i b Hb.
  apply (Hm (a + Z.of_nat i)). rewrite <- Hi, Hb; [done|]. apply lookup_lt_Some in Hb. lia.
Qed.

Lemma keeps_write L a n bs : Forall byte_ok bs -> length bs = n ->
  keeps L (fun s => if mappedb (k_mem s) a n then Done tt (set_mem (write_bytes (k_mem s) a bs) s) else Stop Fault) (fun _ => L).
Proof.
  intros Hbs Hn s Hb HL. destruct (mappedb _ _ _) eqn:E; [|done]. apply mappedb_spec in E.
  split; [by apply bytes_ok_write|]. split; [done|]. split; [|by exists []|done].
  intros x. simpl. rewrite lookup_write_bytes. case_decide as Hx; [|done]. split; intros _.
  - apply E. lia.
  - apply lookup_lt_is_Some_2. lia.
Qed.

Lemma keeps_load8 {B} L a (k : Z -> M kernel B) N : (forall b, byte_ok b -> keeps L (k b) N) -> keeps L (load8 a ≫= k) N.
Proof.
  apply keeps_read. intros s Hb. unfold load8. simpl. destruct (k_mem s !! a) as [b|] eqn:E; [|done]. split; [done|by apply (Hb a)].
Qed.

Lemma keeps_load_bytes {B} L a n (k : list Z -> M kernel B) N : (forall bs, Forall byte_ok bs -> keeps L (k bs) N) ->
  keeps L (load_bytes a n ≫= k) N.
Proof.
  apply keeps_read. intros s Hb. unfold load_bytes. destruct (read_bytes _ _ _) as [bs|] eqn:E; [|done].
  split; [done|by eapply read_bytes_ok].
Qed.

Lemma keeps_load64 L a : keeps L (load64 a) (fun _ => L).
Proof. intros s Hb HL. unfold load64. destruct (read64 _ _); [|done]. split; [done|]. split; [done|reflexivity]. Qed.

Lemma keeps_load32 L a : keeps L (load32 a) (fun _ => L).
Proof. intros s Hb HL. unfold load32. destruct (read32 _ _); [|done]. split; [done|]. split; [done|reflexivity]. Qed.

Lemma keeps_store8 L a v : byte_ok v -> keeps L (store8 a v) (fun _ => L).
Proof.
  intros Hv s Hb HL. unfold store8. simpl. destruct (k_mem s !! a) as [b|] eqn:E; [|done].
  split; [by apply bytes_ok_insert|]. split; [done|]. split; [|by exists []|done].
  intros x. simpl. rewrite lookup_insert_is_Some'. split; [|by right]. intros [<-|H]; [by eexists|done].
Qed.

Lemma keeps_store64 L a v : keeps L (store64 a v) (fun _ => L).
Proof. apply (keeps_write L a 8); [apply le_split_ok|apply length_le_split]. Qed.

Lemma keeps_store32 L a v : keeps L (store32 a v) (fun _ => L).
Proof. apply (keeps_write L a 4); [apply le_split_ok|apply length_le_split]. Qed.

(** ** Events *)

Lemma keeps_emit L e : keeps L (emit e) (fun _ => L).
Proof. intros s Hb HL. simpl. split; [done|]. split; [done|]. split; [done|by exists [e]|done]. Qed.

Lemma keeps_ask L r w : keeps L (ask r w) (fun _ => L).
Proof.
  eapply keeps_bind; [apply keeps_gets|]. intros v. eapply keeps_bind; [apply keeps_emit|]. intros ?. by apply keeps_ret.
Qed.

#[export] Hint Resolve keeps_ret keeps_halt keeps_gets keeps_load64 keeps_load32 keeps_store64 keeps_store32 keeps_emit keeps_ask : keep.

(** ** Locks *)

Lemma keeps_ACQUIRE {B} L L' x lk set (k : unit -> M kernel B) N :
  (forall s, k_mem (set true s) = k_mem s) -> (forall s, k_dev (set true s) = k_dev s) ->
  (forall s, locks s = L -> lk s = x) -> (forall s, locks s = L -> locks (set true s) = L') ->
  (x = false -> keeps L' (k tt) N) -> keeps L (ACQUIRE lk set ≫= k) N.
Proof.
  intros Hm Hd Hx HL' Hk s Hb HL. unfold mbind, M_bind, ACQUIRE. rewrite (Hx s HL). destruct x; [done|].
  specialize (Hk eq_refl (set true s)). rewrite Hm in Hk. specialize (Hk Hb (HL' s HL)).
  destruct (k tt (set true s)) as [b s2|e]; [|done]. destruct Hk as (H1 & H2 & [G1 G2 G3]).
  split; [done|]. split; [done|]. rewrite Hm in G1. rewrite Hd in G2, G3. by split.
Qed.

Lemma keeps_RELEASE L L' set : (forall s, k_mem (set false s) = k_mem s) -> (forall s, k_dev (set false s) = k_dev s) ->
  (forall s, locks s = L -> locks (set false s) = L') -> keeps L (RELEASE set) (fun _ => L').
Proof.
  intros Hm Hd HL' s Hb HL. simpl. rewrite Hm. split; [done|]. split; [by apply HL'|].
  split; [by rewrite Hm|exists []; by rewrite Hd|by rewrite Hd].
Qed.

(** The four locks. *)
Section four_locks.
Context {B : Type} (a b c d : bool) (k : unit -> M kernel B) (N : B -> bool * bool * bool * bool).

Ltac acquire := intros Hk; eapply keeps_ACQUIRE; [done|done| | |exact Hk]; by intros s [= <- <- <- <-].

Lemma keeps_acquire_pa : (a = false -> keeps (true, b, c, d) (k tt) N) ->
  keeps (a, b, c, d) (ACQUIRE (fun s => pa_lock (k_pa s)) set_pa_lock ≫= k) N.
Proof. acquire. Qed.

Lemma keeps_acquire_pid : (b = false -> keeps (a, true, c, d) (k tt) N) ->
  keeps (a, b, c, d) (ACQUIRE (fun s => pid_cur_lock (k_proc s)) set_pid_cur_lock ≫= k) N.
Proof. acquire. Qed.

Lemma keeps_acquire_miniheap : (c = false -> keeps (a, b, true, d) (k tt) N) ->
  keeps (a, b, c, d) (ACQUIRE (fun s => miniheap_lock (k_pg s)) set_miniheap_lock ≫= k) N.
Proof. acquire. Qed.

Lemma keeps_acquire_end_pos : (d = false -> keeps (a, b, c, true) (k tt) N) ->
  keeps (a, b, c, d) (ACQUIRE (fun s => end_pos_lock (k_pg s)) set_end_pos_lock ≫= k) N.
Proof. acquire. Qed.

Lemma keeps_release_pa : keeps (a, b, c, d) (RELEASE set_pa_lock) (fun _ => (false, b, c, d)).
Proof. apply keeps_RELEASE; [done|done|]. by intros s [= _ <- <- <-]. Qed.

Lemma keeps_release_pid : keeps (a, b, c, d) (RELEASE set_pid_cur_lock) (fun _ => (a, false, c, d)).
Proof. apply keeps_RELEASE; [done|done|]. by intros s [= <- _ <- <-]. Qed.

Lemma keeps_release_miniheap : keeps (a, b, c, d) (RELEASE set_miniheap_lock) (fun _ => (a, b, false, d)).
Proof. apply keeps_RELEASE; [done|done|]. by intros s [= <- <- _ <-]. Qed.

Lemma keeps_release_end_pos : keeps (a, b, c, d) (RELEASE set_end_pos_lock) (fun _ => (a, b, c, false)).
Proof. apply keeps_RELEASE; [done|done|]. by intros s [= <- <- <- _]. Qed.
End four_locks.

#[export] Hint Resolve keeps_release_pa keeps_release_pid keeps_release_miniheap keeps_release_end_pos : keep.

Ltac head t :=
  match t with
  | ?f _ => head f
  | _ => t
  end.

(** Unfolds an operation that is not recursive. *)
Ltac keep_unfold :=
  match goal with
  | |- keeps _ ?m _ => let h := head m in unfold h
  end;
  match goal with
  | |- keeps _ ?m _ => let h := head m in first [is_fix h; fail 1 | idtac]
  end.

Lemma byte_ok_w8 x : byte_ok (w8 x).
Proof. apply w8_range. Qed.

(** Follows the program. *)
Ltac keep_step :=
  match goal with
  | |- keeps _ (load8 _ ≫= _) _ => apply keeps_load8; intros ? ?
  | |- keeps _ (load_bytes _ _ ≫= _) _ => apply keeps_load_bytes; intros ? ?
  | |- keeps _ (ACQUIRE _ set_pa_lock ≫= _) _ => apply keeps_acquire_pa; intros ->
  | |- keeps _ (ACQUIRE _ set_pid_cur_lock ≫= _) _ => apply keeps_acquire_pid; intros ->
  | |- keeps _ (ACQUIRE _ set_miniheap_lock ≫= _) _ => apply keeps_acquire_miniheap; intros ->
  | |- keeps _ (ACQUIRE _ set_end_pos_lock ≫= _) _ => apply keeps_acquire_end_pos; intros ->
  | |- keeps _ (_ ≫= _) _ => eapply keeps_bind; [|intros ?; cbv beta]
  | |- keeps _ (mret _) _ => first [apply keeps_mret | apply keeps_ret; reflexivity]
  | |- keeps _ (for_range _ _ _) _ => apply keeps_for_range; intros ?
  | |- keeps _ (modify _) _ => apply keeps_modify; intros ?; reflexivity
  | |- keeps _ (store8 _ _) _ => apply keeps_store8
  | |- keeps _ (let _ := _ in _) _ => cbv zeta
  | |- keeps _ (if ?b then _ else _) _ => destruct b
  | |- keeps _ (match ?x with _ => _ end) _ => destruct x
  | |- byte_ok _ => solve [assumption | apply byte_ok_w8 | done]
  | |- Forall byte_ok _ => solve [assumption | apply le_split_ok]
  | |- keeps _ _ _ => solve [auto with keep]
  | IH : context [keeps _ _ _] |- keeps _ _ _ => apply IH
  | |- keeps _ _ _ => progress keep_unfold
  end.
Ltac keep := repeat keep_step.
(** For an operation that takes locks. *)
Ltac keep_locks := intros [[[? ?] ?] ?]; keep.

(** ** kernel/mem.c *)

Lemma keeps_copy_down n dst src : steady (copy_down n dst src).
Proof. intros L. induction n as [|n IH]; simpl; keep. Qed.
#[export] Hint Resolve keeps_copy_down : keep.

Lemma keeps_memmove dst src n : steady (memmove dst src n).
Proof. intros L. keep_unfold. keep. Qed.

Lemma keeps_fill_down n dst c : steady (fill_down n dst c).
Proof. intros L. induction n as [|n IH]; simpl; keep. Qed.
#[export] Hint Resolve keeps_fill_down : keep.

Lemma keeps_memset dst c n : steady (memset dst c n).
Proof. intros L. keep_unfold. keep. Qed.
#[export] Hint Resolve keeps_memmove keeps_memset : keep.

(** ** kernel/page_alloc.c *)

Lemma keeps_split_loop fuel b sz base : steady (split_loop fuel b sz base).
Proof. intros L. induction fuel as [|fuel IH]; simpl; keep. Qed.
#[export] Hint Resolve keeps_split_loop : keep.

(** The lock is given back together with the block. *)
Lemma keeps_alloc_in_pool fuel i sz prev b x y z t : keeps (x, y, z, t) (alloc_in_pool fuel i sz prev b)
  (fun r => match r with Some _ => (false, y, z, t) | None => (x, y, z, t) end).
Proof. revert prev b. induction fuel as [|fuel IH]; intros prev b; simpl; keep. Qed.
#[export] Hint Resolve keeps_alloc_in_pool : keep.

Lemma keeps_alloc_in_pools fuel n i sz x y z t : keeps (x, y, z, t) (alloc_in_pools fuel n i sz)
  (fun r => match r with Some _ => (false, y, z, t) | None => (x, y, z, t) end).
Proof. revert i. induction n as [|n IH]; intros i; simpl; keep. Qed.
#[export] Hint Resolve keeps_alloc_in_pools : keep.

Lemma keeps_page_alloc fuel sz : steady (page_alloc fuel sz).
Proof. keep_locks. Qed.
Lemma keeps_free_in_pool fuel i page prev b : steady (free_in_pool fuel i page prev b).
Proof. intros L. revert prev b. induction fuel as [|fuel IH]; intros prev b; simpl; keep. Qed.
#[export] Hint Resolve keeps_page_alloc keeps_free_in_pool : keep.

Lemma keeps_free_in_pools fuel n i page : steady (free_in_pools fuel n i page).
Proof. intros L. revert i. induction n as [|n IH]; intros i; simpl; keep. Qed.
#[export] Hint Resolve keeps_free_in_pools : keep.

Lemma keeps_page_free fuel page sz : steady (page_free fuel page sz).
Proof. keep_locks. Qed.
#[export] Hint Resolve keeps_page_free : keep.

(** ** kernel/kalloc.c *)

Lemma keeps_insert_walk fuel new prev cur : steady (insert_walk fuel new prev cur).
Proof. intros L. revert prev cur. induction fuel as [|fuel IH]; intros prev cur; simpl; keep. Qed.
#[export] Hint Resolve keeps_insert_walk : keep.

Lemma keeps_insert_block fuel state new : steady (insert_block fuel state new).
Proof. intros L. keep_unfold. keep. Qed.
#[export] Hint Resolve keeps_insert_block : keep.

Lemma keeps_kalloc_scan fuel state size prev cur : steady (kalloc_scan fuel state size prev cur).
Proof. intros L. revert prev cur. induction fuel as [|fuel IH]; intros prev cur; simpl; keep. Qed.
#[export] Hint Resolve keeps_kalloc_scan : keep.

Lemma keeps_kalloc fuel size : steady (kalloc fuel size).
Proof. intros L. keep_unfold. keep. Qed.
Lemma keeps_kfree fuel addr : steady (kfree fuel addr).
Proof. intros L. keep_unfold. keep. Qed.
#[export] Hint Resolve keeps_kalloc keeps_kfree : keep.

Lemma keeps_krealloc fuel old newsize : steady (krealloc fuel old newsize).
Proof. intros L. keep_unfold. keep. Qed.
Lemma keeps_kzalloc fuel sz : steady (kzalloc fuel sz).
Proof. intros L. keep_unfold. keep. Qed.
Lemma keeps_kalloc_init fuel : steady (kalloc_init fuel).
Proof. intros L. keep_unfold. keep. Qed.
#[export] Hint Resolve keeps_krealloc keeps_kzalloc keeps_kalloc_init : keep.

(** ** kernel/map.c *)

Lemma keeps_equal_bytes n p k : steady (equal_bytes n p k).
Proof. intros L. induction n as [|n IH]; simpl; keep. Qed.
#[export] Hint Resolve keeps_equal_bytes : keep.

Lemma keeps_store_bytes a bs L : Forall byte_ok bs -> keeps L (store_bytes a bs) (fun _ => L).
Proof. revert a. induction bs as [|b bs IH]; intros a H; simpl; [keep|]. apply Forall_cons in H as [Hb Hbs]. keep; done. Qed.

Lemma word_bytes_ok v : Forall byte_ok (word_bytes v).
Proof. apply le_split_ok. Qed.
#[export] Hint Resolve keeps_store_bytes word_bytes_ok : keep.

Lemma keeps_map_new fuel n : steady (map_new fuel n).
Proof. intros L. keep_unfold. keep. Qed.
Lemma keeps_cell_matches m i h k : steady (cell_matches m i h k).
Proof. intros L. keep_unfold. keep. Qed.
#[export] Hint Resolve keeps_map_new keeps_cell_matches : keep.

Lemma keeps_map_probe fuel m max h idx i k : steady (map_probe fuel m max h idx i k).
Proof. intros L. revert i. induction fuel as [|fuel IH]; intros i; simpl; keep. Qed.
#[export] Hint Resolve keeps_map_probe : keep.

Lemma keeps_map_find fuel m k : steady (map_find fuel m k).
Proof. intros L. keep_unfold. keep. Qed.
Lemma keeps_map_get fuel m k : steady (map_get fuel m k).
Proof. intros L. keep_unfold. keep. Qed.
#[export] Hint Resolve keeps_map_find keeps_map_get : keep.

Lemma keeps_grow_probe fuel new cap idx : steady (grow_probe fuel new cap idx).
Proof. intros L. revert idx. induction fuel as [|fuel IH]; intros idx; simpl; keep. Qed.
#[export] Hint Resolve keeps_grow_probe : keep.

Lemma keeps_map_grow fuel m n : steady (map_grow fuel m n).
Proof. intros L. keep_unfold. keep. Qed.
#[export] Hint Resolve keeps_map_grow : keep.

Lemma keeps_insert_probe fuel m cap idx i : steady (insert_probe fuel m cap idx i).
Proof. intros L. revert i. induction fuel as [|fuel IH]; intros i; simpl; keep. Qed.
#[export] Hint Resolve keeps_insert_probe : keep.

Lemma keeps_map_insert fuel mp k v L : Forall byte_ok k -> Forall byte_ok v -> keeps L (map_insert fuel mp k v) (fun _ => L).
Proof. intros Hk Hv. keep_unfold. keep. Qed.
Lemma keeps_map_del fuel m k : steady (map_del fuel m k).
Proof. intros L. keep_unfold. keep. Qed.
Lemma keeps_map_free fuel m : steady (map_free fuel m).
Proof. intros L. keep_unfold. keep. Qed.
#[export] Hint Resolve keeps_map_insert keeps_map_del keeps_map_free : keep.

