(* ===== verification/Invariants.v ===== *)
(** * Invariants of the kernel

    Every operation keeps the state of the locks, the set of mapped addresses and the
    width of what memory holds, and only extends the trace.  After the boot sequence the
    kernel runs in steps, one per interrupt or system call: the invariants hold in every
    state the steps reach. *)
From S2P Require Import Prelude Memory Mem Pow2 Rand State FreeList PageAlloc PageTheorems Kalloc HashMap Paging MapPages Devices Pci Timer Sched Ctx Desc Screen PageInit Acpi Boot Keeps.

(** ** Paging *)

Lemma keeps_miniheap_alloc size : steady (miniheap_alloc size).
Proof. keep_locks. Qed.
#[export] Hint Resolve keeps_miniheap_alloc : keep.

Lemma keeps_premap_page dst src xflags : steady (premap_page dst src xflags).
Proof. intros L. keep_unfold. keep. Qed.
#[export] Hint Resolve keeps_premap_page : keep.

Lemma keeps_premap_loop fuel dst src dst_end src_end xflags : steady (premap_loop fuel dst src dst_end src_end xflags).
Proof. intros L. revert dst src. induction fuel as [|fuel IH]; intros dst src; simpl; keep. Qed.
#[export] Hint Resolve keeps_premap_loop : keep.

Lemma keeps_premap_pages fuel dst src length flags : steady (premap_pages fuel dst src length flags).
Proof. intros L. keep_unfold. keep. Qed.
Lemma keeps_kvirt2phys fuel cur virt : steady (kvirt2phys fuel cur virt).
Proof. intros L. keep_unfold. keep. Qed.
Lemma keeps_refresh_loop fuel p e : steady (refresh_loop fuel p e).
Proof. intros L. revert p. induction fuel as [|fuel IH]; intros p; simpl; keep. Qed.
#[export] Hint Resolve keeps_premap_pages keeps_kvirt2phys keeps_refresh_loop : keep.

Lemma keeps_premap_anon fuel phys len flags : steady (premap_anon fuel phys len flags).
Proof. keep_locks. Qed.
Lemma keeps_unmap_pages fuel virt len : steady (unmap_pages fuel virt len).
Proof. intros L. keep_unfold. keep. Qed.
Lemma keeps_map_kern_pages fuel response sec : steady (map_kern_pages fuel response sec).
Proof. keep_locks. Qed.
Lemma keeps_map_screen fuel : steady (map_screen fuel).
Proof. keep_locks. Qed.
#[export] Hint Resolve keeps_premap_anon keeps_unmap_pages keeps_map_kern_pages keeps_map_screen : keep.

(** ** Address spaces *)

Lemma keeps_flush_pages fuel space : steady (flush_pages fuel space).
Proof. intros L. keep_unfold. keep. Qed.
Lemma keeps_map_table fuel space tab i : steady (map_table fuel space tab i).
Proof. intros L. keep_unfold. keep. Qed.
#[export] Hint Resolve keeps_flush_pages keeps_map_table : keep.

Lemma keeps_map_loop n fuel space pml4 dst src dst_end src_end xflags : steady (map_loop n fuel space pml4 dst src dst_end src_end xflags).
Proof. intros L. revert dst src. induction n as [|n IH]; intros dst src; simpl; keep. Qed.
#[export] Hint Resolve keeps_map_loop : keep.

Lemma keeps_map_pages fuel space dst src length flags : steady (map_pages fuel space dst src length flags).
Proof. intros L. keep_unfold. keep. Qed.
#[export] Hint Resolve keeps_map_pages : keep.

Lemma keeps_map_anon fuel phys len flags : steady (map_anon fuel phys len flags).
Proof. keep_locks. Qed.
Lemma keeps_proc_pages_init fuel p start len : steady (proc_pages_init fuel p start len).
Proof. intros L. keep_unfold. keep. Qed.
#[export] Hint Resolve keeps_map_anon keeps_proc_pages_init : keep.

(** ** Timers *)

Lemma keeps_sleep_loop fuel e : steady (sleep_loop fuel e).
Proof. intros L. induction fuel as [|fuel IH]; simpl; keep. Qed.
#[export] Hint Resolve keeps_sleep_loop : keep.

Lemma keeps_apic_start fuel : steady (apic_start fuel).
Proof. intros L. keep_unfold. keep. Qed.
Lemma keeps_hpet_start h : steady (hpet_start h).
Proof. intros L. keep_unfold. keep. Qed.
Lemma keeps_rand_init b : steady (rand_init b).
Proof. intros L. keep_unfold. keep. Qed.
#[export] Hint Resolve keeps_apic_start keeps_hpet_start keeps_rand_init : keep.

(** ** Processes and the scheduler *)

Lemma keeps_proc_activate fuel pid : steady (proc_activate fuel pid).
Proof. intros L. keep_unfold. keep. Qed.
Lemma keeps_push_unlocked cq new priority : steady (push_unlocked cq new priority).
Proof. intros L. keep_unfold. keep. Qed.
#[export] Hint Resolve keeps_proc_activate keeps_push_unlocked : keep.

Lemma keeps_RELEASE_at a : steady (RELEASE_at a).
Proof. intros L. by apply keeps_store8. Qed.
Lemma keeps_ACQUIRE_at a : steady (ACQUIRE_at a).
Proof. intros L. keep_unfold. keep. Qed.
#[export] Hint Resolve keeps_RELEASE_at keeps_ACQUIRE_at : keep.

Lemma keeps_pop_levels n cq i : steady (pop_levels n cq i).
Proof. intros L. revert i. induction n as [|n IH]; intros i; simpl; keep. Qed.
#[export] Hint Resolve keeps_pop_levels : keep.

Lemma keeps_least_loaded n cpu cpu_min n_min : steady (least_loaded n cpu cpu_min n_min).
Proof. intros L. revert cpu cpu_min n_min. induction n as [|n IH]; intros cpu cpu_min n_min; simpl; keep. Qed.
#[export] Hint Resolve keeps_least_loaded : keep.

Lemma keeps_schedule fuel garbage pid priority : steady (schedule fuel garbage pid priority).
Proof. intros L. keep_unfold. keep. Qed.
Lemma keeps_proc_next fuel : steady (proc_next fuel).
Proof. intros L. keep_unfold. keep. Qed.
#[export] Hint Resolve keeps_schedule keeps_proc_next : keep.

Lemma keeps_remove_walk fuel q i pid prev n : steady (remove_walk fuel q i pid prev n).
Proof. intros L. revert prev n. induction fuel as [|fuel IH]; intros prev n; simpl; keep. Qed.
#[export] Hint Resolve keeps_remove_walk : keep.

Lemma keeps_remove_levels fuel n q i pid : steady (remove_levels fuel n q i pid).
Proof. intros L. revert i. induction n as [|n IH]; intros i; simpl; keep. Qed.
#[export] Hint Resolve keeps_remove_levels : keep.

Lemma keeps_unschedule fuel pid : steady (unschedule fuel pid).
Proof. intros L. keep_unfold. keep. Qed.
Lemma keeps_sched_init fuel : steady (sched_init fuel).
Proof. intros L. keep_unfold. keep. Qed.
Lemma keeps_proc_init fuel : steady (proc_init fuel).
Proof. intros L. keep_unfold. keep. Qed.
Lemma keeps_proc_new fuel p start len : steady (proc_new fuel p start len).
Proof. keep_locks. Qed.
#[export] Hint Resolve keeps_unschedule keeps_sched_init keeps_proc_init keeps_proc_new : keep.

(** ** Interrupts and system calls *)

Lemma keeps_irq2state {B} L frame (k : list Z -> M kernel B) N :
  (forall bs, Forall byte_ok bs -> keeps L (k bs) N) -> keeps L (irq2state frame ≫= k) N.
Proof.
  apply keeps_read. intros s Hb. unfold irq2state, mbind, M_bind, load64, load_bytes.
  do 3 (destruct (read64 _ _); [|done]). destruct (read_bytes _ _ _) as [bs|] eqn:E; [|done]. split; [done|].
  rewrite !Forall_app. split_and!; [by eapply read_bytes_ok|apply word_bytes_ok..].
Qed.

Lemma keeps_ctx_switch fuel frame : steady (ctx_switch fuel frame).
Proof.
  intros L. unfold ctx_switch. eapply keeps_bind; [keep|intros p]. eapply (keeps_bind _ _ _ (fun _ => L)); [|intros ?; keep].
  destruct (_ && _); [|keep]. apply keeps_irq2state. intros bs Hbs. keep.
Qed.
#[export] Hint Resolve keeps_ctx_switch : keep.

Lemma keeps_isr_handle fuel frame : steady (isr_handle fuel frame).
Proof. intros L. keep_unfold. keep. Qed.
Lemma keeps_syscall_test i : steady (syscall_test i).
Proof. intros L. keep_unfold. keep. Qed.
Lemma keeps_syscall_exit fuel : steady (syscall_exit fuel).
Proof. intros L. keep_unfold. keep. Qed.
#[export] Hint Resolve keeps_isr_handle keeps_syscall_test keeps_syscall_exit : keep.

(** ** Boot *)

Lemma desc_bytes_ok : Forall byte_ok (flat_map desc_bytes gdt_entries ++ replicate 16 0).
Proof. vm_compute. repeat constructor; discriminate. Qed.

Lemma byte_ok_land x : byte_ok (Z.land x 0xFF).
Proof. unfold byte_ok. change 0xFF with (Z.ones 8). rewrite Z.land_ones by lia. apply Z.mod_pos_bound. lia. Qed.

Lemma tss_desc_bytes_ok base : Forall byte_ok (tss_desc_bytes (tss_descriptor base)).
Proof.
  unfold tss_desc_bytes. rewrite !Forall_app. split_and!; try apply le_split_ok.
  repeat constructor; try apply byte_ok_land; done.
Qed.

Lemma gate_bytes_ok isr : Forall byte_ok (gate_bytes (idt_gate isr (Z.lor 0x8E 0x60))).
Proof. unfold gate_bytes. rewrite !Forall_app. split_and!; try apply le_split_ok. by repeat constructor. Qed.
#[export] Hint Resolve desc_bytes_ok tss_desc_bytes_ok gate_bytes_ok le_split_ok : keep.

Lemma keeps_make_gdt fuel tabs : steady (make_gdt fuel tabs).
Proof. intros L. unfold make_gdt. keep. Qed.

Lemma keeps_idt_init idt isrs : steady (idt_init idt isrs).
Proof.
  intros L. unfold idt_init, idt_set. apply keeps_bind with (fun _ => L); [|intros ?; keep].
  induction X_ISR as [|x l IH]; simpl; [by apply keeps_ret|]. apply keeps_bind with (fun _ => L); [keep|by intros ?].
Qed.
#[export] Hint Resolve keeps_make_gdt keeps_idt_init : keep.

Lemma keeps_gdt_init fuel tabs : steady (gdt_init fuel tabs).
Proof. intros L. keep_unfold. keep. Qed.
Lemma keeps_gdt_meta_init fuel : steady (gdt_meta_init fuel).
Proof. intros L. keep_unfold. keep. Qed.
#[export] Hint Resolve keeps_gdt_init keeps_gdt_meta_init : keep.

Lemma keeps_memmap_fill l mm i : steady (memmap_fill l mm i).
Proof. intros L. revert i. induction l as [|[[? ?] ?] l IH]; intros i; simpl; keep. Qed.
#[export] Hint Resolve keeps_memmap_fill : keep.

Lemma keeps_memmap_init response : steady (memmap_init response).
Proof. intros L. keep_unfold. keep. Qed.
#[export] Hint Resolve keeps_memmap_init : keep.

Lemma keeps_count_pools fuel n i acc : steady (count_pools fuel n i acc).
Proof. intros L. revert i acc. induction n as [|n IH]; intros i acc; simpl; keep. Qed.
Lemma keeps_init_pool fuel j phys szp2 : steady (init_pool fuel j phys szp2).
Proof. intros L. keep_unfold. keep. Qed.
#[export] Hint Resolve keeps_count_pools keeps_init_pool : keep.

Lemma keeps_init_chunks n fuel j phys sz szp2 : steady (init_chunks n fuel j phys sz szp2).
Proof. intros L. revert j phys sz szp2. induction n as [|n IH]; intros j phys sz szp2; simpl; keep. Qed.
#[export] Hint Resolve keeps_init_chunks : keep.

Lemma keeps_init_entries fuel n i j : steady (init_entries fuel n i j).
Proof. intros L. revert i j. induction n as [|n IH]; intros i j; simpl; keep. Qed.
#[export] Hint Resolve keeps_init_entries : keep.

Lemma keeps_page_alloc_init fuel : steady (page_alloc_init fuel).
Proof. intros L. keep_unfold. keep. Qed.
Lemma keeps_init_fb response : steady (init_fb response).
Proof. intros L. keep_unfold. keep. Qed.
#[export] Hint Resolve keeps_page_alloc_init keeps_init_fb : keep.

(** The layout [T] of the ACPI headers is any. *)
Lemma keeps_map_table_at T fuel phys : steady (map_table_at T fuel phys).
Proof. intros L. keep_unfold. keep. Qed.
#[export] Hint Resolve keeps_map_table_at : keep.

Lemma keeps_acpi_scan T fuel n x i count sig index : steady (acpi_scan T fuel n x i count sig index).
Proof. intros L. revert i count. induction n as [|n IH]; intros i count; simpl; keep. Qed.
#[export] Hint Resolve keeps_acpi_scan : keep.

Lemma keeps_acpi_find T fuel sig index : steady (acpi_find T fuel sig index).
Proof. intros L. keep_unfold. keep. Qed.
#[export] Hint Resolve keeps_acpi_find : keep.

Lemma keeps_madt_scan fuel p e numcores base : steady (madt_scan fuel p e numcores base).
Proof. intros L. revert p numcores base. induction fuel as [|fuel IH]; intros p numcores base; simpl; keep. Qed.
#[export] Hint Resolve keeps_madt_scan : keep.

Lemma keeps_apic_init T fuel : steady (apic_init T fuel).
Proof. intros L. keep_unfold. keep. Qed.
Lemma keeps_hpet_init T fuel : steady (hpet_init T fuel).
Proof. intros L. keep_unfold. keep. Qed.
#[export] Hint Resolve keeps_apic_init keeps_hpet_init : keep.

Section boot.
Context (bp : boot_params) (Hlai : steady (bp_lai_init bp)).
#[local] Hint Resolve Hlai : keep.

Lemma keeps_init_cpu_early fuel : steady (init_cpu_early bp fuel).
Proof. intros L. keep_unfold. keep. Qed.

Lemma keeps_init_cpu_local fuel : steady (init_cpu_local bp fuel).
Proof. intros L. keep_unfold. keep. Qed.
#[local] Hint Resolve keeps_init_cpu_early keeps_init_cpu_local : keep.

Lemma keeps_mp_start fuel tabs : steady (mp_start bp fuel tabs).
Proof. intros L. keep_unfold. keep. Qed.

Lemma keeps_wait_cpus fuel n : steady (wait_cpus bp fuel n).
Proof. intros L. induction fuel as [|fuel IH]; simpl; keep. Qed.
#[local] Hint Resolve keeps_wait_cpus : keep.

Lemma keeps_mp_init fuel : steady (mp_init bp fuel).
Proof. intros L. keep_unfold. keep. Qed.

Lemma keeps_arch_init fuel : steady (arch_init bp fuel).
Proof. intros L. keep_unfold. keep. Qed.
#[local] Hint Resolve keeps_mp_init keeps_arch_init : keep.

Lemma keeps_start fuel : steady (start bp fuel).
Proof. intros L. unfold start. destruct (bp_hhdm bp), (bp_rsdp bp) as [[[? ?] ?]|]; keep. Qed.
End boot.

(** ** The boot sequence *)

(** Whatever the boot loader, the firmware and the hardware answer, a boot that
    returns leaves memory typed: every address holds a byte, and exactly the addresses
    mapped before are mapped, so that no operation of the boot has written outside
    mapped memory.  Every lock is as it was, and the trace of what was done to the
    hardware has only grown. *)
Theorem boot_typed bp fuel s s' :
  (forall L, keeps L (bp_lai_init bp) (fun _ => L)) -> bytes_ok (k_mem s) -> start bp fuel s = Done tt s' ->
  bytes_ok (k_mem s') /\ locks s' = locks s /\ grows s s'.
Proof.
  intros Hlai Hb Hrun. pose proof (keeps_start bp Hlai fuel (locks s) s Hb eq_refl) as H. by rewrite Hrun in H.
Qed.

(** ** After the boot *)

(** A step of the running kernel on one CPU: an interrupt with its frame pushed on the
    stack, a system call, or a stretch of user code, which may write anything to memory
    that is mapped. *)
Inductive kernel_step (fuel : nat) : kernel -> kernel -> Prop :=
  | step_interrupt frame s s' : isr_handle fuel frame s = Done tt s' -> kernel_step fuel s s'
  | step_syscall_test i s s' : syscall_test i s = Done tt s' -> kernel_step fuel s s'
  | step_syscall_exit s s' : syscall_exit fuel s = Done tt s' -> kernel_step fuel s s'
  | step_user m s : bytes_ok m -> (forall x, is_Some (m !! x) <-> is_Some (k_mem s !! x)) ->
      kernel_step fuel s (set_mem m s).

Record kernel_ok (s0 s : kernel) : Prop := {
  ko_bytes : bytes_ok (k_mem s);
  ko_locks : locks s = (false, false, false, false);
  ko_grows : grows s0 s;
}.

Lemma kernel_step_ok fuel s0 s s' : kernel_step fuel s s' -> kernel_ok s0 s -> kernel_ok s0 s'.
Proof.
  intros Hstep [Hb Hl Hg]. assert (Hkeep : forall m : M kernel unit, steady m -> m s = Done tt s' -> kernel_ok s0 s').
  { intros m Hm Hrun. specialize (Hm _ s Hb Hl). rewrite Hrun in Hm. destruct Hm as (H1 & H2 & H3).
    split; [done|done|by etrans]. }
  destruct Hstep as [frame s s' Hrun|i s s' Hrun|s s' Hrun|m s Hm Hdom].
  - apply (Hkeep _ (keeps_isr_handle fuel frame) Hrun).
  - apply (Hkeep _ (keeps_syscall_test i) Hrun).
  - apply (Hkeep _ (keeps_syscall_exit fuel) Hrun).
  - split; [done|done|]. etrans; [exact Hg|]. split; [done|by exists []|done].
Qed.

(** C14. In every state the running kernel reaches from one in which the locks are free
    and memory holds bytes, the locks are free again, so that no path through an
    interrupt handler or a system call returns with a lock held, memory still holds
    bytes at the same addresses, and the trace has only grown. *)
Theorem kernel_invariant fuel s s' :
  locks s = (false, false, false, false) -> bytes_ok (k_mem s) -> rtc (kernel_step fuel) s s' ->
  locks s' = (false, false, false, false) /\ bytes_ok (k_mem s') /\
  (forall x, is_Some (k_mem s' !! x) <-> is_Some (k_mem s !! x)) /\
  exists l, dv_log (k_dev s') = l ++ dv_log (k_dev s).
Proof.
  intros Hl Hb Hsteps. assert (Hok : kernel_ok s s) by (split; [done|done|reflexivity]).
  assert (H : kernel_ok s s') by (clear Hl Hb; revert Hok; generalize s at 1 3; intros s0;
    induction Hsteps as [|x y z Hxy _ IH]; [done|]; intros Hx; apply IH; by eapply kernel_step_ok).
  destruct H as [H1 H2 [H3 H4 _]]. done.
Qed.

(** A kernel that has been interrupted by its timer, the frame at 4096. *)
Definition ticked_mem : gmap Z Z := write64 (zeros 4096 176 ∅) (4096 + FRAME_NUM) 32.
Definition ticked : kernel :=
  quiet_kernel ticked_mem (PageAllocGlobals 0 0 false) (CpuGlobals 0 1 0 0) (ProcGlobals 0 false 0 0 false) no_paging.
Definition ticked_later : kernel :=
  set_mem ticked_mem (set_dev (Devices (fun _ _ => 0) [Printf ("Hello from userspace! %d" +:+ nl) [7]]) ticked).

Lemma ticked_bytes : bytes_ok ticked_mem.
Proof.
  unfold ticked_mem, zeros. apply bytes_ok_write; [|apply le_split_ok]. apply bytes_ok_write; [|by apply Forall_replicate].
  intros x b Hx. by apply lookup_empty_Some in Hx.
Qed.

Lemma kernel_invariant_witness :
  locks ticked_later = (false, false, false, false) /\ bytes_ok (k_mem ticked_later) /\
  (forall x, is_Some (k_mem ticked_later !! x) <-> is_Some (k_mem ticked !! x)) /\
  exists l, dv_log (k_dev ticked_later) = l ++ dv_log (k_dev ticked).
Proof.
  apply (kernel_invariant 1 ticked ticked_later).
  - reflexivity.
  - exact ticked_bytes.
  - eapply rtc_l; [apply (step_syscall_test 1 7 ticked); reflexivity|].
    eapply rtc_l; [apply (step_interrupt 1 4096); vm_compute; reflexivity|].
    apply rtc_once, (step_user 1 ticked_mem); [exact ticked_bytes|done].
Defined.
