(* ===== verification/BootTheorems.v ===== *)
(** * From the boot loader to the heap

    [kmain] up to [kalloc_init]: the memory map is copied into the mini heap, the kernel's
    sections and the screen are mapped, the tables are loaded, the pages of the memory map
    become pools and the heap is set up on top.  The initialisers are proved one by one and
    then composed. *)
From S2P Require Import Prelude Memory Mem Pow2 State FreeList PageSpec PageAlloc PageRefine PageTheorems Allocator Kalloc KallocRefine Devices Paging PageWalk PagingTheorems MapPages PageInit PageInitTheorems Acpi Boot Keeps Invariants.

(** ** The memory map *)

(** What is kept of an entry (base, length, type) of the boot loader. *)
Definition kept_entry (x : Z * Z * Z) : Z * Z :=
  let '(base, len, ty) := x in if (ty =? LIMINE_MEMMAP_USABLE) && negb (len =? 0) then (base, len) else (0, 0).

Definition entry_u64 (x : Z * Z * Z) : Prop := u64 x.1.1 /\ u64 x.1.2.

Definition mm_slot (m : gmap Z Z) (a : Z) (e : Z * Z) : Prop :=
  read64 m (a + MM_BASE) = Some e.1 /\ read64 m (a + MM_LEN) = Some e.2.

Lemma mm_slot_changes m m' a e (P : Z -> Prop) : mm_slot m a e -> changes P m m' -> (forall x, within a MM_SIZE x -> ~ P x) -> mm_slot m' a e.
Proof.
  intros [H1 H2] Hch HP. split; rewrite (changes_read64 P m) by (done || (intros x Hx; apply HP; unfold within, MM_SIZE, MM_BASE, MM_LEN in *; lia)); done.
Qed.

(** One entry of the array, zero before. *)
Lemma memmap_slot base len ty a s : entry_u64 (base, len, ty) -> (forall x, within a MM_SIZE x -> k_mem s !! x = Some 0) ->
  exists m, (if (ty =? LIMINE_MEMMAP_USABLE) && negb (len =? 0) then store64 (a + MM_BASE) base ;; store64 (a + MM_LEN) len
    else store64 (a + MM_BASE) 0) s = Done tt (set_mem m s) /\
    changes (within a MM_SIZE) (k_mem s) m /\ mm_slot m a (kept_entry (base, len, ty)).
Proof.
  intros [Hb Hl] Hz. unfold MM_SIZE, MM_BASE, MM_LEN in *. simpl in Hb, Hl.
  assert (Hm : forall o, 0 <= o <= 8 -> mapped (k_mem s) (a + o) 8) by (intros o Ho x Hx; rewrite Hz by (unfold within; lia); by eexists).
  unfold kept_entry, mm_slot, MM_BASE, MM_LEN. destruct ((ty =? LIMINE_MEMMAP_USABLE) && negb (len =? 0)); simpl.
  - exists (write64 (write64 (k_mem s) (a + 0) base) (a + 8) len). split; [|split; [|split]].
    + rewrite (run_bind _ _ _ tt _ (kstore64 s _ base (Hm 0 ltac:(lia)))), kstore64; [done|]. apply write64_mapped, (Hm 8). lia.
    + do 2 (apply changes_then_write; [|unfold within; lia]). apply changes_refl.
    + rewrite read64_write64_ne by lia. by apply read64_write64_eq.
    + by apply read64_write64_eq.
  - exists (write64 (k_mem s) (a + 0) 0). split; [|split; [|split]].
    + by apply kstore64, Hm.
    + apply changes_then_write; [apply changes_refl|unfold within; lia].
    + by apply read64_write64_eq.
    + rewrite read64_write64_ne by lia. apply read64_zero. intros x Hx. apply Hz. unfold within in *. lia.
Qed.

(** The loop writes the kept entries one after the other. *)
Lemma memmap_fill_run l mm i s : 0 <= i -> Forall entry_u64 l ->
  (forall x, within (mm + i * MM_SIZE) (MM_SIZE * Z.of_nat (length l)) x -> k_mem s !! x = Some 0) ->
  exists es m, memmap_fill l mm i s = Done tt (logged es (set_mem m s)) /\
    changes (within (mm + i * MM_SIZE) (MM_SIZE * Z.of_nat (length l))) (k_mem s) m /\
    forall j x, l !! j = Some x -> mm_slot m (mm + (i + Z.of_nat j) * MM_SIZE) (kept_entry x).
Proof.
  revert i s. induction l as [|[[base len] ty] l IH]; intros i s Hi Hl Hz.
  { exists [], (k_mem s). split; [|split; [apply changes_refl|done]]. by destruct s as [? ? ? ? ? []]. }
  apply Forall_cons in Hl as [He Hl]. set (ev := Printf ("%d %p %p" +:+ nl) [ty; base; len]).
  destruct (memmap_slot base len ty (mm + i * MM_SIZE) (logged [ev] s) He) as (m1 & Hrun & Hch1 & Hs1).
  { intros x Hx. apply Hz. unfold within, MM_SIZE in *. simpl length. lia. }
  assert (Hz1 : forall x, within (mm + (i + 1) * MM_SIZE) (MM_SIZE * Z.of_nat (length l)) x -> m1 !! x = Some 0).
  { intros x Hx. rewrite (ch_same _ _ _ Hch1) by (unfold within, MM_SIZE in *; lia). apply Hz. unfold within, MM_SIZE in *. simpl length. lia. }
  destruct (IH (i + 1) (set_mem m1 (logged [ev] s)) ltac:(lia) Hl Hz1) as (es & m & Hrest & Hch & Hsl).
  exists (es ++ [ev]), m. split; [|split].
  - simpl. rewrite (run_bind (printf _ _) _ _ _ _ (emit_run ev s)), (run_bind _ _ _ _ _ Hrun), Hrest. f_equal.
    destruct s as [? ? ? ? ? []]. unfold logged, log. simpl. by rewrite <- app_assoc.
  - eapply changes_trans; [eapply changes_weaken; [exact Hch1|]|eapply changes_weaken; [exact Hch|]];
      intros x; unfold within, MM_SIZE; simpl length; lia.
  - intros [|j] x Hj.
    + injection Hj as <-. rewrite Z.add_0_r. eapply mm_slot_changes; [exact Hs1|exact Hch|]. intros x. unfold within, MM_SIZE. lia.
    + replace (i + Z.of_nat (S j)) with (i + 1 + Z.of_nat j) by lia. by apply Hsl.
Qed.

Definition map_pages (l : list (Z * Z * Z)) : Z := round_up_page (MM_SIZE * Z.of_nat (length l)).

(** [memmap_init]: the usable entries are copied into pages of the mini heap; since these
    are zero, an entry that is not usable has no length. *)
Lemma memmap_init_run l s : l <> [] -> Forall entry_u64 l -> Z.of_nat (length l) <= 2 ^ 30 ->
  miniheap_lock (k_pg s) = false -> 0 <= brk (k_pg s) ->
  brk (k_pg s) + map_pages l <= miniheap_end (k_pg s) -> miniheap_end (k_pg s) < 2 ^ 64 ->
  (forall x, brk (k_pg s) <= x < miniheap_end (k_pg s) -> k_mem s !! x = Some 0) ->
  let b := brk (k_pg s) in
  exists es m, let s' := logged es (set_mem m (set_memmap b (Z.of_nat (length l)) (set_brk (b + map_pages l) s))) in
    memmap_init (Some l) s = Done tt s' /\ memmap_at s' (kept_entry <$> l) /\
    changes (within b (MM_SIZE * Z.of_nat (length l))) (k_mem s) m.
Proof.
  intros Hne Hl Hlen Hlk Hb He He64 Hz b. set (n := Z.of_nat (length l)) in *.
  assert (Hn : MM_SIZE * n <= map_pages l) by (apply round_up_page_bounds; unfold MM_SIZE; lia).
  set (s1 := set_memmap (memmap (k_boot s)) n s).
  set (s2 := set_memmap b n (set_brk (b + map_pages l) s1)). set (ev := Printf ("Memory map (length %d):" +:+ nl) [n]).
  destruct (memmap_fill_run l b 0 (logged [ev] s2) ltac:(lia) Hl) as (es & m & Hrun & Hch & Hsl).
  { intros x Hx. apply Hz. unfold within, MM_SIZE in *. lia. }
  exists (es ++ [ev]), m. split; [|split].
  - unfold memmap_init. destruct l as [|x l']; [done|]. fold n. rewrite (run_bind (gets _) _ s (memmap (k_boot s)) s eq_refl).
    rewrite (run_bind (modify (set_memmap (memmap (k_boot s)) n)) _ s tt s1 eq_refl). assert (Em : mul64 MM_SIZE n = MM_SIZE * n) by (unfold mul64, MM_SIZE; apply w64_small; lia).
    rewrite Em. rewrite (run_bind _ _ _ _ _ (miniheap_alloc_run s1 (MM_SIZE * n) Hlk Hb ltac:(unfold MM_SIZE; lia) He He64)).
    change (brk (k_pg s1)) with b. erewrite (run_bind (modify (set_memmap b n)) _ _ tt s2) by reflexivity.
    rewrite (run_bind (printf _ _) _ _ _ _ (emit_run ev s2)), Hrun. f_equal.
    destruct s as [? ? ? ? ? []]. unfold logged, log. simpl. by rewrite <- app_assoc.
  - split; [change (n = Z.of_nat (length (kept_entry <$> l))); by rewrite length_fmap|].
    intros i e Hi. apply list_lookup_fmap_Some in Hi as (x & -> & Hi). exact (Hsl i x Hi).
  - eapply changes_weaken; [exact Hch|]. intros x. by rewrite Z.mul_0_l, Z.add_0_r.
Qed.

(** ** Mapped ranges *)

(** The [len] bytes at [dst] are those at the physical address [src], with the flags. *)
Definition shows (s : kernel) (dst src len flags : Z) : Prop :=
  forall j, 0 <= j < len -> kwalk s (dst + j) = pte (src + 4096 * (j / 4096)) (x86_flags flags).

Definition size_pages (len : Z) : Z := (len + 4095) / 4096.

Lemma shows_trans s dst src len flags j : shows s dst src len flags -> Z.land flags PAGE_PRESENT <> 0 ->
  0 <= src -> src + len <= 2 ^ 63 -> (4096 | dst) -> (4096 | src) -> 0 <= j < len -> ktrans s (dst + j) = Some (src + j).
Proof.
  intros Hs Hf H0 Hl [q ->] [r ->] Hj. unfold ktrans. rewrite (Hs j Hj), pte_phys by (done || divlia). f_equal. divlia.
Qed.

Lemma premap_range fuel s T dst src len flags :
  paging_inv s T -> 0 <= dst -> (4096 | dst) -> 0 <= src -> (4096 | src) -> 0 <= len < 2 ^ 47 ->
  dst + len < 2 ^ 64 - 2 ^ 13 -> src + len + 4096 <= 2 ^ 63 ->
  size_pages len < Z.of_nat fuel -> brk (k_pg s) + tables_room (size_pages len) * 4096 <= miniheap_end (k_pg s) ->
  exists s' T', premap_pages fuel dst src len flags s = Done tt s' /\
    grown (pages dst (size_pages len)) (tables_room (size_pages len)) s T s' T' /\ shows s' dst src len flags.
Proof.
  intros HI Hd Hda Hs Hsa Hl Hdl Hsl Hf Hroom.
  assert (Hn : page_count dst src len = size_pages len) by (apply page_count_aligned; done || lia).
  pose proof (premap_pages_spec fuel s T dst src len flags HI Hd Hs Hl ltac:(lia) ltac:(lia)) as H.
  cbv zeta in H. rewrite Hn in H. apply wp_done in H as ([] & s' & Hrun & T' & HG & Hw); [|done..].
  exists s', T'. split; [done|]. split; [done|]. intros j Hj. apply Hw; [unfold size_pages; divlia|].
  rewrite (Z.div_mod j 4096) at 1 by lia. rewrite Z.add_assoc. apply vpn_page; [apply Z.mod_pos_bound; lia|].
  apply Z.divide_add_r; [done|by eexists (j / 4096); lia].
Qed.

(** Mapping later pages keeps it. *)
Lemma shows_kept s s' dst src len flags a n : shows s dst src len flags -> (4096 | a) -> 0 <= dst -> dst + len <= a ->
  a + 4096 * n - dst <= 2 ^ 47 -> (forall va, ~ pages a n (vpn va) -> kwalk s' va = kwalk s va) -> shows s' dst src len flags.
Proof.
  intros Hs Ha Hd Hda Hn Hk j Hj. rewrite Hk; [by apply Hs|]. apply pages_before; [done|lia|lia].
Qed.

Lemma shows_same s s' dst src len flags : (forall va, kwalk s' va = kwalk s va) -> shows s dst src len flags -> shows s' dst src len flags.
Proof. intros Hk Hs j Hj. rewrite Hk. by apply Hs. Qed.

(** ** The kernel's image *)

(** The sections as the linker script lays them out, at [vb] in the address space and at
    [pb] in memory. *)
Record image_ok (vb pb : Z) (sec : sections) : Prop := {
  im_base : (4096 | vb) /\ (4096 | pb) /\ 0 <= vb /\ 0 <= pb;
  im_aligned : (4096 | text_start sec) /\ (4096 | rodata_start sec) /\ (4096 | data_start sec);
  im_text : vb <= text_start sec <= text_end sec;
  im_rodata : text_end sec <= rodata_start sec <= rodata_end sec;
  im_data : rodata_end sec <= data_start sec <= data_end sec;
  im_end : data_end sec <= kern_end sec < 2 ^ 64 - 2 ^ 14;
  im_size : kern_end sec - vb <= 2 ^ 40 /\ kern_end sec - vb + pb + 4096 <= 2 ^ 63;
}.

Definition text_len (sec : sections) : Z := text_end sec - text_start sec.
Definition rodata_len (sec : sections) : Z := rodata_end sec - rodata_start sec.
Definition data_len (sec : sections) : Z := data_end sec - data_start sec.

Definition image_page (sec : sections) (v : Z) : Prop :=
  pages (text_start sec) (size_pages (text_len sec)) v \/ pages (rodata_start sec) (size_pages (rodata_len sec)) v \/
  pages (data_start sec) (size_pages (data_len sec)) v.

(** Room for the tables that map it. *)
Definition image_room (sec : sections) : Z :=
  tables_room (size_pages (text_len sec)) + tables_room (size_pages (rodata_len sec)) + tables_room (size_pages (data_len sec)).

(** Every section at its place in memory, the data alone writable. *)
Definition image_mapped (s : kernel) (vb pb : Z) (sec : sections) : Prop :=
  shows s (text_start sec) (text_start sec - vb + pb) (text_len sec) PAGE_PRESENT /\
  shows s (rodata_start sec) (rodata_start sec - vb + pb) (rodata_len sec) (Z.lor PAGE_PRESENT PAGE_NX) /\
  shows s (data_start sec) (data_start sec - vb + pb) (data_len sec) (Z.lor (Z.lor PAGE_PRESENT PAGE_NX) PAGE_WRITABLE).

Lemma tables_room_nonneg len : 0 <= len -> 0 <= tables_room (size_pages len).
Proof. intros Hl. unfold tables_room, size_pages. assert (0 <= (len + 4095) / 4096) by divlia. divlia. Qed.

(** One section of the image. *)
Lemma map_section fuel vb pb sec s T start fin flags : image_ok vb pb sec -> paging_inv s T ->
  virtual_base (k_pg s) = vb -> physical_base (k_pg s) = pb -> (4096 | start) -> vb <= start <= fin -> fin <= kern_end sec ->
  size_pages (fin - start) < Z.of_nat fuel -> brk (k_pg s) + tables_room (size_pages (fin - start)) * 4096 <= miniheap_end (k_pg s) ->
  exists s' T', premap_pages fuel start (VK2PHYSK (k_pg s) start) (sub64 fin start) flags s = Done tt s' /\
    grown (pages start (size_pages (fin - start))) (tables_room (size_pages (fin - start))) s T s' T' /\
    shows s' start (start - vb + pb) (fin - start) flags.
Proof.
  intros Hi HI Hvb Hpb Ha Hs Hf Hfuel Hroom. pose proof (im_base _ _ _ Hi) as (Hav & Hap & Hv0 & Hp0).
  pose proof (im_end _ _ _ Hi). pose proof (im_size _ _ _ Hi).
  assert (E : VK2PHYSK (k_pg s) start = start - vb + pb) by (unfold VK2PHYSK; rewrite Hvb, Hpb, sub64_small, add64_small; lia).
  rewrite E, sub64_small by lia. apply premap_range; try done; try lia.
  apply Z.divide_add_r; [by apply Z.divide_sub_r|done].
Qed.

Lemma grown_bases V k s T s' T' : grown V k s T s' T' ->
  virtual_base (k_pg s') = virtual_base (k_pg s) /\ physical_base (k_pg s') = physical_base (k_pg s).
Proof. intros H. by destruct (gr_state _ _ _ _ _ _ H) as (? & ? & ? & ->). Qed.

(** The three of them, one after the other. *)
Lemma map_sections fuel vb pb sec s T : image_ok vb pb sec -> paging_inv s T ->
  virtual_base (k_pg s) = vb -> physical_base (k_pg s) = pb -> kern_end sec - vb < 4096 * (Z.of_nat fuel - 1) ->
  brk (k_pg s) + image_room sec * 4096 <= miniheap_end (k_pg s) ->
  exists s1 s2 s3 (T3 : gmap (list Z) Z),
    premap_pages fuel (text_start sec) (VK2PHYSK (k_pg s) (text_start sec)) (sub64 (text_end sec) (text_start sec)) PAGE_PRESENT s = Done tt s1 /\
    premap_pages fuel (rodata_start sec) (VK2PHYSK (k_pg s) (rodata_start sec)) (sub64 (rodata_end sec) (rodata_start sec)) (Z.lor PAGE_PRESENT PAGE_NX) s1 = Done tt s2 /\
    premap_pages fuel (data_start sec) (VK2PHYSK (k_pg s) (data_start sec)) (sub64 (data_end sec) (data_start sec))
      (Z.lor (Z.lor PAGE_PRESENT PAGE_NX) PAGE_WRITABLE) s2 = Done tt s3 /\
    grown (image_page sec) (image_room sec) s T s3 T3 /\ image_mapped s3 vb pb sec.
Proof.
  intros Hi HI Hvb Hpb Hf Hroom. pose proof (im_base _ _ _ Hi) as (Hav & Hap & Hv0 & Hp0).
  pose proof (im_aligned _ _ _ Hi) as (Ha1 & Ha2 & Ha3). pose proof (im_text _ _ _ Hi). pose proof (im_rodata _ _ _ Hi).
  pose proof (im_data _ _ _ Hi). pose proof (im_end _ _ _ Hi). pose proof (im_size _ _ _ Hi).
  assert (Hsz : forall a b, vb <= a -> a <= b -> b <= kern_end sec -> size_pages (b - a) < Z.of_nat fuel /\ 4096 * size_pages (b - a) <= b - a + 4095).
  { intros a b Ha Hab Hb. unfold size_pages. divlia. }
  unfold image_room, text_len, rodata_len, data_len in *.
  pose proof (tables_room_nonneg (text_end sec - text_start sec) ltac:(lia)) as R1.
  pose proof (tables_room_nonneg (rodata_end sec - rodata_start sec) ltac:(lia)) as R2.
  pose proof (tables_room_nonneg (data_end sec - data_start sec) ltac:(lia)) as R3.
  destruct (map_section fuel vb pb sec s T (text_start sec) (text_end sec) PAGE_PRESENT) as (s1 & T1 & E1 & G1 & S1); try done; try lia; [apply Hsz; lia|].
  pose proof (grown_bases _ _ _ _ _ _ G1) as [B1 P1]. pose proof (gr_brk _ _ _ _ _ _ G1). pose proof (grown_end _ _ _ _ _ _ G1) as M1.
  destruct (map_section fuel vb pb sec s1 T1 (rodata_start sec) (rodata_end sec) (Z.lor PAGE_PRESENT PAGE_NX)) as (s2 & T2 & E2 & G2 & S2);
    try done; try lia; [exact (gr_inv _ _ _ _ _ _ G1)|apply Hsz; lia|].
  pose proof (grown_bases _ _ _ _ _ _ G2) as [B2 P2]. pose proof (gr_brk _ _ _ _ _ _ G2). pose proof (grown_end _ _ _ _ _ _ G2) as M2.
  destruct (map_section fuel vb pb sec s2 T2 (data_start sec) (data_end sec) (Z.lor (Z.lor PAGE_PRESENT PAGE_NX) PAGE_WRITABLE)) as (s3 & T3 & E3 & G3 & S3);
    try done; try lia; [exact (gr_inv _ _ _ _ _ _ G2)|apply Hsz; lia|].
  assert (EV : forall x, VK2PHYSK (k_pg s1) x = VK2PHYSK (k_pg s) x) by (intros x; unfold VK2PHYSK; by rewrite B1, P1).
  assert (EV2 : forall x, VK2PHYSK (k_pg s2) x = VK2PHYSK (k_pg s) x) by (intros x; unfold VK2PHYSK; by rewrite B2, P2, B1, P1).
  rewrite EV in E2. rewrite EV2 in E3. exists s1, s2, s3, T3. split_and!; [done|done|done|..].
  - eapply grown_trans; [eapply grown_trans|].
    + eapply grown_weaken; [exact G1|by left|apply Z.le_refl].
    + eapply grown_weaken; [exact G2|by right; left|apply Z.le_refl].
    + eapply grown_weaken; [exact G3|by right; right|apply Z.le_refl].
  - destruct (Hsz (rodata_start sec) (rodata_end sec)) as [_ Hp2]; [lia..|]. destruct (Hsz (data_start sec) (data_end sec)) as [_ Hp3]; [lia..|].
    split; [|split; [|exact S3]].
    + apply (shows_kept s2 s3 _ _ _ _ (data_start sec) (size_pages (data_end sec - data_start sec))); [|exact Ha3|lia|unfold text_len; lia|lia|exact (gr_walk _ _ _ _ _ _ G3)].
      by apply (shows_kept s1 s2 _ _ _ _ (rodata_start sec) (size_pages (rodata_end sec - rodata_start sec)) S1 Ha2); [lia|unfold text_len; lia|lia|exact (gr_walk _ _ _ _ _ _ G2)].
    + by apply (shows_kept s2 s3 _ _ _ _ (data_start sec) (size_pages (data_end sec - data_start sec)) S2 Ha3); [lia|unfold rodata_len; lia|lia|exact (gr_walk _ _ _ _ _ _ G3)].
Qed.

(** Whether the processor lets the kernel write to the page of an address; [None] when
    there is no page. *)
Definition writable (s : kernel) (va : Z) : option bool := (fun e => Z.testbit e 1) <$> kwalk s va.

Lemma shows_writable s dst src len flags j : shows s dst src len flags -> Z.land flags PAGE_PRESENT <> 0 -> 0 <= j < len ->
  writable s (dst + j) = Some (Z.testbit (x86_flags flags) 1).
Proof.
  intros Hs Hf Hj. unfold writable. rewrite (Hs j Hj), pte_present by done. cbn [fmap option_fmap option_map]. by rewrite Z.lor_spec, Z.land_spec, andb_false_r.
Qed.

(** [map_kern_pages] takes the image of the kernel as it is in memory. *)
Lemma map_kern_pages_run fuel vb pb sec s T : image_ok vb pb sec -> end_pos_lock (k_pg s) = false ->
  paging_inv (set_kern_resp vb pb s) T -> kern_end sec - vb < 4096 * (Z.of_nat fuel - 1) ->
  brk (k_pg s) + image_room sec * 4096 <= miniheap_end (k_pg s) ->
  exists s1 T1, map_kern_pages fuel (Some (vb, pb)) sec s = Done tt (set_end_pos (round_up_page (kern_end sec)) s1) /\
    grown (image_page sec) (image_room sec) (set_kern_resp vb pb s) T s1 T1 /\ image_mapped s1 vb pb sec.
Proof.
  intros Hi Hlk HI Hf Hroom. set (s0 := set_kern_resp vb pb s) in *.
  destruct (map_sections fuel vb pb sec (set_end_pos_lock true s0) T) as (s1 & s2 & s3 & T3 & E1 & E2 & E3 & HG & (S1 & S2 & S3));
    [exact Hi|by apply inv_set_end_pos_lock|done..|].
  assert (Hk : forall va, kwalk (set_end_pos_lock false s3) va = kwalk s3 va) by (intros va; apply kwalk_set_end_pos_lock).
  exists (set_end_pos_lock false s3), T3. split; [|split].
  - unfold map_kern_pages. rewrite (run_bind (modify (set_kern_resp vb pb)) _ s tt s0 eq_refl).
    erewrite run_bind; [|unfold ACQUIRE; change (end_pos_lock (k_pg s0)) with (end_pos_lock (k_pg s)); by rewrite Hlk].
    rewrite (run_bind (gets _) _ _ _ _ eq_refl), (run_bind _ _ _ _ _ E1), (run_bind _ _ _ _ _ E2), (run_bind _ _ _ _ _ E3). done.
  - by apply grown_locked.
  - by split; [|split]; eapply shows_same.
Qed.

(** C16. [map_kern_pages]: for an image laid out as the linker script does, in the order
    text, read-only data, data, at [vb] and loaded at [pb], every byte of a section is
    translated to where it was loaded; the text and the read-only data cannot be written,
    the data can; every other page is translated as before; the addresses after the image
    are the next to be given out; and nothing but page tables is written. *)
Theorem map_kern_pages_correct fuel vb pb sec s T : image_ok vb pb sec -> end_pos_lock (k_pg s) = false ->
  paging_inv (set_kern_resp vb pb s) T -> kern_end sec - vb < 4096 * (Z.of_nat fuel - 1) ->
  brk (k_pg s) + image_room sec * 4096 <= miniheap_end (k_pg s) ->
  exists s' T', map_kern_pages fuel (Some (vb, pb)) sec s = Done tt s' /\ paging_inv s' T' /\
    end_pos (k_pg s') = round_up_page (kern_end sec) /\ end_pos_lock (k_pg s') = false /\
    (forall x, text_start sec <= x < text_end sec \/ rodata_start sec <= x < rodata_end sec ->
      ktrans s' x = Some (x - vb + pb) /\ writable s' x = Some false) /\
    (forall x, data_start sec <= x < data_end sec -> ktrans s' x = Some (x - vb + pb) /\ writable s' x = Some true) /\
    (forall va, ~ image_page sec (vpn va) -> kwalk s' va = kwalk (set_kern_resp vb pb s) va) /\
    changes (paging_bytes s T) (k_mem s) (k_mem s').
Proof.
  intros Hi Hlk HI Hf Hroom. destruct (map_kern_pages_run fuel vb pb sec s T) as (s1 & T1 & Hrun & HG & (S1 & S2 & S3)); try done.
  pose proof (im_base _ _ _ Hi) as (Hav & Hap & Hv0 & Hp0). pose proof (im_aligned _ _ _ Hi) as (Ha1 & Ha2 & Ha3).
  pose proof (im_text _ _ _ Hi). pose proof (im_rodata _ _ _ Hi). pose proof (im_data _ _ _ Hi). pose proof (im_end _ _ _ Hi). pose proof (im_size _ _ _ Hi).
  set (s' := set_end_pos (round_up_page (kern_end sec)) s1) in *.
  assert (Hk : forall va, kwalk s' va = kwalk s1 va) by (intros va; apply kwalk_set_end_pos).
  assert (Hsec : forall a b flags, shows s1 a (a - vb + pb) (b - a) flags -> (4096 | a) -> vb <= a -> b <= kern_end sec ->
    Z.land flags PAGE_PRESENT <> 0 -> forall x, a <= x < b -> ktrans s' x = Some (x - vb + pb) /\ writable s' x = Some (Z.testbit (x86_flags flags) 1)).
  { intros a b flags Hs%(shows_same s1 s' _ _ _ _ Hk) Ha Hva Hb Hfl x Hx. replace x with (a + (x - a)) at 1 3 by lia. split.
    - rewrite (shows_trans _ _ _ _ _ _ Hs Hfl) by (lia || done || (apply Z.divide_add_r; [by apply Z.divide_sub_r|done])). f_equal. lia.
    - by rewrite (shows_writable _ _ _ _ _ _ Hs Hfl) by lia. }
  exists s', T1. split; [exact Hrun|]. split; [by apply inv_set_end_pos, (gr_inv _ _ _ _ _ _ HG)|]. split; [done|]. split.
  { destruct (gr_state _ _ _ _ _ _ HG) as (? & ? & ? & E). unfold s'. rewrite E. exact Hlk. }
  split; [|split; [|split]].
  - intros x [Hx|Hx]; [apply (Hsec _ _ _ S1)|apply (Hsec _ _ _ S2)]; done || lia.
  - intros x Hx. apply (Hsec _ _ _ S3); done || lia.
  - intros va Hva. rewrite Hk. by apply (gr_walk _ _ _ _ _ _ HG).
  - exact (grown_changes _ _ _ _ _ _ HG).
Qed.

(** ** The screen *)

(** [pitch * (bpp/8) * height] *)
Definition screen_len (s : kernel) : Z := let g := k_scr s in mul32 (mul32 (scr_pitch g) (scr_bpp g / 8)) (scr_height g).

Definition screen_flags : Z := Z.lor (Z.lor PAGE_PRESENT PAGE_WRITABLE) PAGE_NX.

(** [map_screen] maps the framebuffer at the end of what is mapped. *)
Lemma map_screen_run fuel s T : paging_inv s T -> end_pos_lock (k_pg s) = false ->
  let ep := end_pos (k_pg s) in let len := screen_len s in
  0 <= ep -> (4096 | ep) -> ep + len < 2 ^ 64 - 2 ^ 14 -> 0 <= scr_paddr (k_scr s) -> (4096 | scr_paddr (k_scr s)) ->
  scr_paddr (k_scr s) + len + 4096 <= 2 ^ 63 -> len < 4096 * (Z.of_nat fuel - 1) ->
  brk (k_pg s) + tables_room (size_pages len) * 4096 <= miniheap_end (k_pg s) ->
  exists s1 T1, map_screen fuel s = Done tt (set_end_pos (ep + 4096 * size_pages len) (set_vaddr ep s1)) /\
    grown (pages ep (size_pages len)) (tables_room (size_pages len)) s T s1 T1 /\ shows s1 ep (scr_paddr (k_scr s)) len screen_flags.
Proof.
  intros HI Hlk ep len Hep Hepa Hepl Hp Hpa Hpl Hf Hroom.
  assert (Hlen : 0 <= len < 2 ^ 32) by (apply Z.mod_pos_bound; lia).
  destruct (premap_range fuel (set_end_pos_lock true s) T ep (scr_paddr (k_scr s)) len screen_flags) as (s1 & T1 & Hrun & HG & Hs);
    try done; try lia; [by apply inv_set_end_pos_lock|unfold size_pages; divlia|].
  exists (set_end_pos_lock false s1), T1. split; [|split].
  - unfold map_screen. rewrite (run_bind (gets _) _ s (k_scr s) s eq_refl). cbv zeta. fold (screen_len s) len.
    erewrite run_bind; [|unfold ACQUIRE; by rewrite Hlk]. erewrite run_bind; [|reflexivity].
    change (end_pos (k_pg (set_end_pos_lock true s))) with ep. rewrite (run_bind _ _ _ _ _ Hrun).
    rewrite add64_small, round_up_page_eq by lia.
    replace (4096 * ((ep + len + 4095) / 4096)) with (ep + 4096 * size_pages len) by (destruct Hepa as [q Hq]; rewrite Hq; unfold size_pages; clear; divlia).
    done.
  - by apply grown_locked.
  - eapply shows_same; [|exact Hs]. intros va. apply kwalk_set_end_pos_lock.
Qed.

(** ** From the image to the heap *)

(** The kernel as the boot loader leaves it: [l] is the loader's memory map, the image is
    at [vb] and [pb], [ebx] is what cpuid answers.  The root table and the mini heap lie in
    the zeroed part of the image's data; the memory that will be mapped behind the image
    and the screen is there; and the mini heap has room for the memory map, the pools'
    descriptors and the page tables. *)
Record loaded (bp : boot_params) (fuel : nat) (s : kernel) (l : list (Z * Z * Z)) (vb pb ebx : Z) : Prop := {
  ld_params : bp_memmap bp = Some l /\ bp_kernel_addr bp = Some (vb, pb);
  ld_map : l <> [] /\ Forall entry_u64 l /\ Forall entry_ok (kept_entry <$> l) /\ Z.of_nat (length l) <= 2 ^ 30;
  ld_image : image_ok vb pb (bp_sections bp);
  ld_locks : miniheap_lock (k_pg s) = false /\ end_pos_lock (k_pg s) = false /\ pa_lock (k_pa s) = false;
  ld_none : n_pools (k_pa s) = 0;
  ld_bytes : bytes_ok (k_mem s);
  ld_root : (4096 | kpml4 (k_pg s)) /\ data_start (bp_sections bp) <= kpml4 (k_pg s) /\ kpml4 (k_pg s) + 4096 <= data_end (bp_sections bp);
  ld_heap : (4096 | brk (k_pg s)) /\ 0 < brk (k_pg s) /\ data_start (bp_sections bp) <= brk (k_pg s) /\ miniheap_end (k_pg s) <= data_end (bp_sections bp);
  ld_apart x : within (kpml4 (k_pg s)) 4096 x -> x < brk (k_pg s) \/ miniheap_end (k_pg s) <= x;
  ld_zero x : within (kpml4 (k_pg s)) 4096 x \/ brk (k_pg s) <= x < miniheap_end (k_pg s) -> k_mem s !! x = Some 0;
  ld_screen : (4096 | scr_paddr (k_scr s)) /\ 0 <= scr_paddr (k_scr s) /\ scr_paddr (k_scr s) + screen_len s + 4096 <= 2 ^ 63;
  ld_cpuid t : dv_env (k_dev s) t (Cpuid 1 EBX) mod 2 ^ 32 = ebx;
  ld_cpus : 1 <= cpuid_ncpus ebx <= 512 /\ cpu_id (k_cpu s) = 0;
  ld_slot x : within (bp_cpu_ptrs bp + 8 * cpuid_id ebx) 8 x -> is_Some (k_mem s !! x) /\ x < kern_end (bp_sections bp) /\
    ~ within (kpml4 (k_pg s)) 4096 x /\ ~ (brk (k_pg s) <= x < miniheap_end (k_pg s));
  ld_pages : all_chunks (kept_entry <$> l) <> [] /\ total (all_chunks (kept_entry <$> l)) <= 2 ^ 46 /\
    Z.of_nat (length (all_chunks (kept_entry <$> l))) <= 2 ^ 30;
  ld_window : let ep := round_up_page (kern_end (bp_sections bp)) + 4096 * size_pages (screen_len s) in
    ep + total (all_chunks (kept_entry <$> l)) < 2 ^ 64 - 2 ^ 14 /\ mapped (k_mem s) ep (total (all_chunks (kept_entry <$> l)));
  ld_room : brk (k_pg s) + map_pages l + array_pages (kept_entry <$> l) +
    4096 * (image_room (bp_sections bp) + tables_room (size_pages (screen_len s)) + chunks_room (all_chunks (kept_entry <$> l))) <= miniheap_end (k_pg s);
  ld_fuel : (65 <= fuel)%nat /\ kern_end (bp_sections bp) - vb < 4096 * (Z.of_nat fuel - 1) /\
    screen_len s < 4096 * (Z.of_nat fuel - 1) /\ total (all_chunks (kept_entry <$> l)) < 4096 * (Z.of_nat fuel - 1);
}.

Lemma keeps_run {A} (m : M kernel A) s a s' : steady m -> m s = Done a s' -> bytes_ok (k_mem s) -> bytes_ok (k_mem s') /\ grows s s'.
Proof. intros Hm E Hb. specialize (Hm (locks s) s Hb eq_refl). rewrite E in Hm. destruct Hm as (? & _ & ?). done. Qed.

Lemma memmap_at_changes s s' es (P : Z -> Prop) : memmap_at s es -> k_boot s' = k_boot s -> changes P (k_mem s) (k_mem s') ->
  (forall x, memmap_bytes s es x -> ~ P x) -> memmap_at s' es.
Proof.
  intros [Hl Hr] Eb Hch HP. unfold memmap_at. rewrite Eb. split; [exact Hl|]. intros i e Hi. pose proof (lookup_lt_Some _ _ _ Hi).
  eapply (mm_slot_changes _ _ _ _ _ (Hr i e Hi) Hch). intros x Hx. apply HP. unfold memmap_bytes, within, MM_SIZE in *. lia.
Qed.

Lemma map_pages_bounds l : Z.of_nat (length l) <= 2 ^ 30 -> 0 <= MM_SIZE * Z.of_nat (length l) <= map_pages l /\ (4096 | map_pages l).
Proof.
  intros Hl. destruct (round_up_page_bounds (MM_SIZE * Z.of_nat (length l)) ltac:(unfold MM_SIZE; lia)) as [H Ha].
  split; [|exact Ha]. unfold map_pages. split; [unfold MM_SIZE; lia|lia].
Qed.

Section early.
Context (bp : boot_params) (fuel : nat) (s : kernel) (l : list (Z * Z * Z)) (vb pb ebx : Z) (H : loaded bp fuel s l vb pb ebx).
Let sec := bp_sections bp.
Let es := kept_entry <$> l.
Let b := brk (k_pg s).
Let me := miniheap_end (k_pg s).
Let root := kpml4 (k_pg s).
Let len := screen_len s.
Let ep1 := round_up_page (kern_end sec).
Let ep2 := ep1 + 4096 * size_pages len.
Let slot := bp_cpu_ptrs bp + 8 * cpuid_id ebx.

(** What the paging code may write: the root table and the rest of the mini heap. *)
Definition early_bytes (x : Z) : Prop := within root 4096 x \/ b + map_pages l <= x < me.

Lemma early_bounds : map_pages l >= 0 /\ 0 <= MM_SIZE * Z.of_nat (length l) <= map_pages l /\ (4096 | map_pages l) /\
  0 <= len < 2 ^ 32 /\ kern_end sec <= ep1 < kern_end sec + 4096 /\ (4096 | ep1) /\ len <= 4096 * size_pages len < len + 4096 /\
  0 <= image_room sec /\ 0 <= tables_room (size_pages len) /\ 0 <= chunks_room (all_chunks es) /\ 0 <= array_pages es /\ me < 2 ^ 64 - 2 ^ 14 /\ 0 <= total (all_chunks es).
Proof.
  destruct (ld_map _ _ _ _ _ _ _ H) as (_ & _ & He & Hl). destruct (map_pages_bounds l Hl) as [Hm Hma].
  pose proof (ld_image _ _ _ _ _ _ _ H) as Hi. fold sec in Hi. pose proof (im_end _ _ _ Hi). pose proof (im_text _ _ _ Hi).
  pose proof (im_rodata _ _ _ Hi). pose proof (im_data _ _ _ Hi). pose proof (im_base _ _ _ Hi) as (_ & _ & Hv0 & _).
  destruct (round_up_page_bounds (kern_end sec) ltac:(lia)) as [Hr Hra].
  assert (Hlen : 0 <= len < 2 ^ 32) by (apply Z.mod_pos_bound; lia).
  pose proof (ld_heap _ _ _ _ _ _ _ H) as (_ & _ & _ & Hh). fold sec me in Hh.
  pose proof (tables_room_nonneg len ltac:(lia)). pose proof (chunks_room_nonneg _ (all_chunks_ok _ He)). fold es in H5.
  pose proof (total_nonneg _ (all_chunks_ok _ He)). fold es in H6. destruct (ld_pages _ _ _ _ _ _ _ H) as (_ & _ & Hn). fold es in Hn.
  pose proof (round_up_page_bounds (POOL_SIZE * Z.of_nat (length (all_chunks es))) ltac:(unfold POOL_SIZE; lia)) as [Ha _]. fold (array_pages es) in Ha.
  assert (0 <= image_room sec).
  { unfold image_room. pose proof (tables_room_nonneg (text_len sec)). pose proof (tables_room_nonneg (rodata_len sec)).
    pose proof (tables_room_nonneg (data_len sec)). unfold text_len, rodata_len, data_len in *. lia. }
  split_and!; try done; try lia; [unfold size_pages; divlia|unfold size_pages; divlia|unfold POOL_SIZE in Ha; lia].
Qed.

(** The memory map is read. *)
Lemma early_map : exists evs m, let sA := logged evs (set_mem m (set_memmap b (Z.of_nat (length l)) (set_brk (b + map_pages l) s))) in
  memmap_init (bp_memmap bp) s = Done tt sA /\ memmap_at sA es /\ changes (within b (MM_SIZE * Z.of_nat (length l))) (k_mem s) m /\
  paging_inv (set_kern_resp vb pb sA) {[ [] := root ]}.
Proof.
  destruct early_bounds as (_ & Hm & Hma & _ & _ & _ & _ & Hr1 & Hr2 & Hr3 & Hr4 & Hme & _).
  destruct (ld_map _ _ _ _ _ _ _ H) as (Hne & Hu & _ & Hl). destruct (ld_locks _ _ _ _ _ _ _ H) as (Hlk & _).
  destruct (ld_heap _ _ _ _ _ _ _ H) as (Hba & Hb0 & Hbd & Hmd). destruct (ld_root _ _ _ _ _ _ _ H) as (Hra & Hrd & Hre).
  pose proof (ld_image _ _ _ _ _ _ _ H) as Hi. pose proof (im_base _ _ _ Hi) as (Hva & Hpa & Hv0 & Hp0).
  pose proof (im_text _ _ _ Hi). pose proof (im_rodata _ _ _ Hi). pose proof (im_data _ _ _ Hi). pose proof (im_end _ _ _ Hi). pose proof (im_size _ _ _ Hi).
  pose proof (ld_room _ _ _ _ _ _ _ H) as Hroom. fold es b me sec len in Hroom. fold b in Hba, Hb0, Hbd. fold me sec in Hmd, Hbd. fold root sec in Hra, Hrd, Hre. fold sec in Hi, H0, H1, H2, H3, H4.
  destruct (memmap_init_run l s Hne Hu Hl Hlk) as (evs & m & Hrun & Hat & Hch); fold b me; try lia.
  { intros x Hx. apply (ld_zero _ _ _ _ _ _ _ H). by right. }
  exists evs, m. split; [by rewrite (proj1 (ld_params _ _ _ _ _ _ _ H))|]. split; [exact Hat|]. split; [exact Hch|].
  set (sA := set_kern_resp vb pb _). apply (blank_paging_inv sA root); try done;
    change (brk (k_pg sA)) with (b + map_pages l); change (miniheap_end (k_pg sA)) with me;
    change (virtual_base (k_pg sA)) with vb; change (physical_base (k_pg sA)) with pb; change (k_mem sA) with m.
  - split_and!; try done; lia.
  - by apply Z.divide_add_r.
  - lia.
  - lia.
  - intros x Hx. rewrite (ch_same _ _ _ Hch).
    + apply (ld_zero _ _ _ _ _ _ _ H). fold root b me. destruct Hx as [Hx|Hx]; [by left|right; lia].
    + pose proof (ld_apart _ _ _ _ _ _ _ H x). fold root b me in H5. unfold within in *. lia.
  - intros x Hx. pose proof (ld_apart _ _ _ _ _ _ _ H x Hx). fold b me in H5. lia.
Qed.

(** The state when the image and the screen are mapped and the tables loaded. *)
Record early (s' : kernel) (T : gmap (list Z) Z) : Prop := {
  ea_inv : paging_inv s' T;
  ea_bytes x : paging_bytes s' T x -> early_bytes x;
  ea_mem : changes (fun x => early_bytes x \/ within b (map_pages l) x \/ within slot 8 x) (k_mem s) (k_mem s');
  ea_map : memmap_at s' es;
  ea_mapptr : memmap (k_boot s') = b;
  ea_image : image_mapped s' vb pb sec;
  ea_screen : shows s' ep1 (scr_paddr (k_scr s)) len screen_flags;
  ea_vaddr : scr_vaddr (k_scr s') = ep1;
  ea_pos : end_pos (k_pg s') = ep2;
  ea_locks : end_pos_lock (k_pg s') = false /\ k_pa s' = k_pa s;
  ea_cpu : k_cpu s' = k_cpu s;
  ea_bases : kpml4 (k_pg s') = root /\ virtual_base (k_pg s') = vb /\ physical_base (k_pg s') = pb;
  ea_room : brk (k_pg s') <= b + map_pages l + 4096 * (image_room sec + tables_room (size_pages len)) /\
    b <= brk (k_pg s') /\ miniheap_end (k_pg s') = me;
}.

(** The last of it: the per-CPU pointer is written and the tables are loaded. *)
Definition cr3_loaded (sC : kernel) : kernel :=
  logged [WCr3 (VK2PHYSK (k_pg sC) (kpml4 (k_pg sC))); Wrmsr MSR_GS_BASE (w64 slot); Read (Cpuid 1 EBX) ebx]
    (set_mem (write64 (k_mem sC) slot (bp_cpu_data bp + cpuid_id ebx * CPU_DATA_SIZE)) sC).

Lemma cpuid_run sC : (forall t, dv_env (k_dev sC) t (Cpuid 1 EBX) mod 2 ^ 32 = ebx) ->
  cpuid 1 EBX sC = Done ebx (logged [Read (Cpuid 1 EBX) ebx] sC).
Proof. intros Henv. unfold cpuid. rewrite ask_run. unfold answer. by rewrite Henv. Qed.

Lemma init_cpu_early_run sC : (forall t, dv_env (k_dev sC) t (Cpuid 1 EBX) mod 2 ^ 32 = ebx) -> mapped (k_mem sC) slot 8 ->
  init_cpu_early bp fuel sC = Done tt (cr3_loaded sC).
Proof.
  intros Henv Hm. unfold init_cpu_early, get_cpuid. rewrite (run_bind (_ ≫= _) _ sC (cpuid_id ebx) (logged [Read (Cpuid 1 EBX) ebx] sC)).
  2: { by rewrite (run_bind _ _ _ _ _ (cpuid_run sC Henv)). }
  fold slot. erewrite run_bind by (apply kstore64; exact Hm). rewrite (run_bind _ _ _ _ _ (wrmsr_run _ _ _ (w64_range slot))). done.
Qed.
(** Writing the pointer touches neither the tables nor the memory map. *)
Lemma slot_apart x : within slot 8 x -> ~ early_bytes x /\ ~ within b (MM_SIZE * Z.of_nat (length l)) x.
Proof.
  intros Hx. destruct (ld_slot _ _ _ _ _ _ _ H x Hx) as (_ & _ & Hr & Hh). fold root b me in Hr, Hh.
  pose proof early_bounds as (? & ? & ? & _). pose proof (ld_room _ _ _ _ _ _ _ H) as Hroom. fold es b me sec len in Hroom.
  pose proof early_bounds as (_ & _ & _ & _ & _ & _ & _ & ? & ? & ? & ? & _).
  split; [intros [?|?]; [done|lia]|]. unfold within. lia.
Qed.

Lemma cr3_frame sC T : paging_inv sC T -> (forall x, paging_bytes sC T x -> early_bytes x) ->
  paging_inv (cr3_loaded sC) T /\ forall va, kwalk (cr3_loaded sC) va = kwalk sC va.
Proof.
  intros HI Hb. set (m' := write64 (k_mem sC) slot (bp_cpu_data bp + cpuid_id ebx * CPU_DATA_SIZE)).
  assert (Hch : changes (within slot 8) (k_mem sC) m') by (apply changes_then_write; [apply changes_refl|done]).
  assert (Hsep : forall x, within slot 8 x -> ~ paging_bytes sC T x) by (intros x Hx Hp%Hb; exact (proj1 (slot_apart x Hx) Hp)).
  split; [by apply inv_logged, (paging_inv_frame sC T m' _ HI Hch)|]. intros va. unfold cr3_loaded. rewrite kwalk_logged.
  exact (kwalk_frame sC T m' _ va HI Hch Hsep).
Qed.

(** The image is mapped over the memory map's state. *)
Lemma early_image sA : k_pg sA = k_pg (set_brk (b + map_pages l) s) -> paging_inv (set_kern_resp vb pb sA) {[ [] := root ]} ->
  exists s1 T1, map_kern_pages fuel (bp_kernel_addr bp) sec sA = Done tt (set_end_pos ep1 s1) /\
    grown (image_page sec) (image_room sec) (set_kern_resp vb pb sA) {[ [] := root ]} s1 T1 /\ image_mapped s1 vb pb sec.
Proof.
  intros Eg HI. destruct early_bounds as (_ & _ & _ & _ & _ & _ & _ & ? & ? & ? & ? & _).
  pose proof (ld_room _ _ _ _ _ _ _ H) as Hroom. fold es b me sec len in Hroom. rewrite (proj2 (ld_params _ _ _ _ _ _ _ H)).
  apply map_kern_pages_run; rewrite ?Eg; [exact (ld_image _ _ _ _ _ _ _ H)|exact (proj1 (proj2 (ld_locks _ _ _ _ _ _ _ H)))|exact HI| |].
  - exact (proj1 (proj2 (ld_fuel _ _ _ _ _ _ _ H))).
  - change (b + map_pages l + image_room sec * 4096 <= me). lia.
Qed.

Lemma root_bytes sA x : k_pg sA = k_pg (set_brk (b + map_pages l) s) ->
  paging_bytes (set_kern_resp vb pb sA) {[ [] := root ]} x -> early_bytes x.
Proof.
  intros Eg [(q & t & Hq & Hx)|Hx]; [left; by apply lookup_singleton_Some in Hq as [_ <-]|right].
  change (brk (k_pg sA) <= x < miniheap_end (k_pg sA)) in Hx. by rewrite Eg in Hx.
Qed.
(** The image ends below the screen's pages. *)
Lemma image_kept s1 s2 a n : image_mapped s1 vb pb sec -> (4096 | a) -> kern_end sec <= a -> a + 4096 * n <= kern_end sec + 2 ^ 46 + 2 ^ 33 ->
  (forall va, ~ pages a n (vpn va) -> kwalk s2 va = kwalk s1 va) -> image_mapped s2 vb pb sec.
Proof.
  intros (S1 & S2 & S3) Ha Hk Hn Hw. pose proof (ld_image _ _ _ _ _ _ _ H) as Hi. fold sec in Hi. pose proof (im_base _ _ _ Hi) as (_ & _ & Hv0 & _).
  pose proof (im_text _ _ _ Hi). pose proof (im_rodata _ _ _ Hi). pose proof (im_data _ _ _ Hi). pose proof (im_end _ _ _ Hi). pose proof (im_size _ _ _ Hi).
  unfold image_mapped. split_and!; eapply (shows_kept s1 s2 _ _ _ _ a n); try done; unfold text_len, rodata_len, data_len; lia.
Qed.

(** The screen is mapped over the image's state. *)
Lemma early_screen sA s1 T1 : k_pg sA = k_pg (set_brk (b + map_pages l) s) -> k_scr sA = k_scr s ->
  grown (image_page sec) (image_room sec) (set_kern_resp vb pb sA) {[ [] := root ]} s1 T1 ->
  exists s2 T2, map_screen fuel (set_end_pos ep1 s1) = Done tt (set_end_pos ep2 (set_vaddr ep1 s2)) /\
    grown (pages ep1 (size_pages len)) (tables_room (size_pages len)) (set_end_pos ep1 s1) T1 s2 T2 /\
    shows s2 ep1 (scr_paddr (k_scr s)) len screen_flags.
Proof.
  intros Eg Es G1. destruct early_bounds as (_ & Hm & Hma & Hlen & Hep & Hepa & Hsp & R1 & R2 & R3 & R4 & Hme & Ht0).
  pose proof (ld_room _ _ _ _ _ _ _ H) as Hroom. fold es b me sec len in Hroom. destruct (ld_screen _ _ _ _ _ _ _ H) as (Hfa & Hf0 & Hfe). fold len in Hfe.
  destruct (ld_window _ _ _ _ _ _ _ H) as [Hwe _]. fold sec es len ep1 ep2 in Hwe. pose proof (ld_image _ _ _ _ _ _ _ H) as Hi. fold sec in Hi.
  pose proof (im_base _ _ _ Hi) as (_ & _ & Hv0 & _). pose proof (im_end _ _ _ Hi). pose proof (im_text _ _ _ Hi). pose proof (im_rodata _ _ _ Hi). pose proof (im_data _ _ _ Hi).
  destruct (gr_state _ _ _ _ _ _ G1) as (m1 & b1 & d1 & E1). set (sB := set_end_pos ep1 s1) in *.
  assert (EsB : k_scr sB = k_scr s) by (unfold sB; rewrite E1; exact Es). assert (El : screen_len sB = len) by (unfold screen_len, len; by rewrite EsB).
  pose proof (grown_end _ _ _ _ _ _ G1) as Em1. pose proof (gr_brk _ _ _ _ _ _ G1) as Hb1.
  change (miniheap_end (k_pg (set_kern_resp vb pb sA))) with (miniheap_end (k_pg sA)) in Em1. change (brk (k_pg (set_kern_resp vb pb sA))) with (brk (k_pg sA)) in Hb1.
  rewrite Eg in Em1, Hb1. change (miniheap_end (k_pg (set_brk _ s))) with me in Em1. change (brk (k_pg (set_brk (b + map_pages l) s))) with (b + map_pages l) in Hb1.
  destruct (map_screen_run fuel sB T1) as (s2 & T2 & HrunC & G2 & Hsc); rewrite ?El, ?EsB; try done;
    change (end_pos (k_pg sB)) with ep1; change (brk (k_pg sB)) with (brk (k_pg s1)); change (miniheap_end (k_pg sB)) with (miniheap_end (k_pg s1)); try lia.
  { by apply inv_set_end_pos, (gr_inv _ _ _ _ _ _ G1). }
  { change (end_pos_lock (k_pg sB)) with (end_pos_lock (k_pg s1)). rewrite E1. change (end_pos_lock (k_pg sA) = false). rewrite Eg.
    by destruct (ld_locks _ _ _ _ _ _ _ H) as (_ & Hlk & _). }
  { exact (proj1 (proj2 (proj2 (ld_fuel _ _ _ _ _ _ _ H)))). }
  rewrite El, EsB in *. by exists s2, T2.
Qed.

(** What mapping the two has written. *)
Lemma early_kept sA s1 T1 s2 T2 V1 k1 V2 k2 : k_pg sA = k_pg (set_brk (b + map_pages l) s) ->
  grown V1 k1 (set_kern_resp vb pb sA) {[ [] := root ]} s1 T1 -> grown V2 k2 (set_end_pos ep1 s1) T1 s2 T2 ->
  changes early_bytes (k_mem sA) (k_mem s2) /\ forall x, paging_bytes s2 T2 x -> early_bytes x.
Proof.
  intros Eg G1 G2.
  assert (H1 : forall x, paging_bytes (set_end_pos ep1 s1) T1 x -> early_bytes x).
  { intros x Hx. apply (root_bytes sA x Eg). exact (grown_paging_bytes _ _ _ _ _ _ x G1 Hx). }
  split; [|intros x Hx; apply H1; exact (grown_paging_bytes _ _ _ _ _ _ x G2 Hx)].
  eapply changes_trans; [eapply changes_weaken; [exact (grown_changes _ _ _ _ _ _ G1)|intros x; by apply root_bytes]|].
  eapply changes_weaken; [exact (grown_changes _ _ _ _ _ _ G2)|exact H1].
Qed.

Lemma early_tables : exists sA sB sC T, memmap_init (bp_memmap bp) s = Done tt sA /\
  map_kern_pages fuel (bp_kernel_addr bp) sec sA = Done tt sB /\ map_screen fuel sB = Done tt sC /\ early sC T.
Proof.
  destruct early_bounds as (_ & Hm & Hma & Hlen & Hep & Hepa & Hsp & R1 & R2 & R3 & R4 & Hme & Ht0).
  destruct (ld_locks _ _ _ _ _ _ _ H) as (_ & Hlk & _). pose proof (ld_room _ _ _ _ _ _ _ H) as Hroom. fold es b me sec len in Hroom.
  destruct early_map as (evs & m & HrunA & Hat & HchA & HIA). set (sA := logged evs _) in *.
  destruct (early_image sA eq_refl HIA) as (s1 & T1 & HrunB & G1 & Him). destruct (early_screen sA s1 T1 eq_refl eq_refl G1) as (s2 & T2 & HrunC & G2 & Hsc).
  destruct (early_kept sA s1 T1 s2 T2 _ _ _ _ eq_refl G1 G2) as [HchB Hbytes]. set (sB := set_end_pos ep1 s1) in *. set (sC := set_end_pos ep2 (set_vaddr ep1 s2)) in *.
  destruct (gr_state _ _ _ _ _ _ G1) as (m1 & b1 & d1 & E1), (gr_state _ _ _ _ _ _ G2) as (m2 & b2 & d2 & E2).
  pose proof (grown_end _ _ _ _ _ _ G1) as Em1. pose proof (gr_brk _ _ _ _ _ _ G1) as Hb1. pose proof (gr_low _ _ _ _ _ _ G1) as Hb1'.
  change (miniheap_end (k_pg (set_kern_resp vb pb sA))) with me in Em1. change (brk (k_pg (set_kern_resp vb pb sA))) with (b + map_pages l) in Hb1, Hb1'.
  pose proof (grown_end _ _ _ _ _ _ G2) as Em2. pose proof (gr_brk _ _ _ _ _ _ G2) as Hb2. pose proof (gr_low _ _ _ _ _ _ G2) as Hb2'.
  change (miniheap_end (k_pg sB)) with (miniheap_end (k_pg s1)) in Em2. change (brk (k_pg sB)) with (brk (k_pg s1)) in Hb2, Hb2'.
  assert (Hk : forall va, kwalk sC va = kwalk s2 va) by (intros va; exact (kwalk_set_end_pos ep2 (set_vaddr ep1 s2) va)).
  assert (Ebt : k_boot sC = k_boot sA) by (unfold sC, sB in *; rewrite E2, E1; reflexivity).
  exists sA, sB, sC, T2. split; [exact HrunA|]. split; [exact HrunB|]. split; [exact HrunC|]. split.
  - by apply inv_set_end_pos, (paging_inv_same s2), (gr_inv _ _ _ _ _ _ G2).
  - exact Hbytes.
  - eapply changes_trans; [eapply changes_weaken; [exact HchA|intros x; unfold within; lia]|].
    eapply changes_weaken; [exact HchB|by left].
  - apply (memmap_at_changes sA sC es early_bytes Hat Ebt HchB).
    unfold memmap_bytes. change (memmap (k_boot sA)) with b. unfold es. rewrite length_fmap. intros x Hx [Hx'|Hx']; [|unfold within in Hx; lia].
    pose proof (ld_apart _ _ _ _ _ _ _ H x Hx') as Hx2. fold b me in Hx2. unfold within in Hx. lia.
  - by rewrite Ebt.
  - pose proof (ld_window _ _ _ _ _ _ _ H) as [Hwe _]. pose proof (ld_image _ _ _ _ _ _ _ H) as Hi. fold sec in Hi. pose proof (im_end _ _ _ Hi).
    eapply (image_kept s1 sC ep1 (size_pages len) Him); [done|lia|lia|]. intros va Hva. rewrite Hk, (gr_walk _ _ _ _ _ _ G2) by done.
    apply kwalk_set_end_pos.
  - by eapply shows_same.
  - unfold sC. by rewrite E2.
  - done.
  - unfold sC, sB in *. rewrite E2, E1. split; [exact Hlk|done].
  - unfold sC, sB in *. by rewrite E2, E1.
  - unfold sC, sB in *. by rewrite E2, E1.
  - change (brk (k_pg sC)) with (brk (k_pg s2)). change (miniheap_end (k_pg sC)) with (miniheap_end (k_pg s2)). rewrite Em2, Em1. lia.
Qed.

(** Loading the tables changes none of it. *)
Lemma early_cr3 sC T : early sC T -> early (cr3_loaded sC) T.
Proof.
  intros [H1 H2 H3 H4 H5 H6 H7 H8 H9 H10 H11 H12 H13]. destruct (cr3_frame sC T H1 H2) as [HI Hk].
  assert (Hch : changes (within slot 8) (k_mem sC) (k_mem (cr3_loaded sC))) by (apply changes_then_write; [apply changes_refl|done]).
  split; try done.
  - eapply changes_trans; [exact H3|]. eapply changes_weaken; [exact Hch|]. tauto.
  - apply (memmap_at_changes sC (cr3_loaded sC) es _ H4 eq_refl Hch). unfold memmap_bytes. rewrite H5. unfold es. rewrite length_fmap.
    intros x Hx Hx'. exact (proj2 (slot_apart x Hx') Hx).
  - destruct H6 as (S1 & S2 & S3). by split; [|split]; eapply shows_same.
  - by eapply shows_same.
Qed.
(** What the rest of the boot starts from. *)
Definition booting_cpu (sD : kernel) : kernel :=
  logged [Printf ("CPU %d (%d total)" +:+ nl) [0; cpuid_ncpus ebx]] (set_ncpus (cpuid_ncpus ebx) (logged [Read (Cpuid 1 EBX) ebx]
    (logged [WCr3 (VK2PHYSK (k_pg sD) (kpml4 (k_pg sD)))] sD))).

Lemma early_memory sD T : early sD T -> boot_memory fuel (booting_cpu sD) T es.
Proof.
  intros [H1 H2 H3 H4 H5 H6 H7 H8 H9 [H10 H10'] H11 _ (H12 & H13 & H14)]. set (sE := booting_cpu sD).
  destruct early_bounds as (_ & Hm & Hma & Hlen & Hep & Hepa & Hsp & R1 & R2 & R3 & R4 & Hme & Ht0).
  pose proof (ld_room _ _ _ _ _ _ _ H) as Hroom. fold es b me sec len in Hroom.
  destruct (ld_window _ _ _ _ _ _ _ H) as [Hwe Hwm]. fold sec es len ep1 ep2 in Hwe, Hwm.
  destruct (ld_heap _ _ _ _ _ _ _ H) as (Hba & Hb0 & _ & Hhd). fold b in Hba, Hb0. fold me sec in Hhd.
  pose proof (ld_image _ _ _ _ _ _ _ H) as Hi. fold sec in Hi. pose proof (im_end _ _ _ Hi).
  destruct (ld_root _ _ _ _ _ _ _ H) as (_ & _ & Hre). fold root sec in Hre.
  assert (Hlow : forall x, early_bytes x \/ within b (map_pages l) x -> x < ep2).
  { unfold ep2. intros x [[Hx|Hx]|Hx]; unfold within in Hx; lia. }
  assert (Hbytes : forall x, paging_bytes sE T x -> early_bytes x) by exact H2.
  split; fold es.
  - by apply (paging_inv_same sD).
  - split; [exact H10|]. change (pa_lock (k_pa sD) = false). rewrite H10'. exact (proj2 (proj2 (ld_locks _ _ _ _ _ _ _ H))).
  - change (n_pools (k_pa sD) = 0). rewrite H10'. exact (ld_none _ _ _ _ _ _ _ H).
  - exact H4.
  - exact (proj1 (proj2 (proj2 (ld_map _ _ _ _ _ _ _ H)))).
  - exact (proj2 (ld_pages _ _ _ _ _ _ _ H)).
  - change (end_pos (k_pg sE)) with (end_pos (k_pg sD)). rewrite H9. unfold ep2. split; [lia|]. split; [|exact Hwe].
    apply Z.divide_add_r; [exact Hepa|]. by eexists; apply Z.mul_comm.
  - change (end_pos (k_pg sE)) with (end_pos (k_pg sD)). rewrite H9. change (k_mem sE) with (k_mem sD). by eapply changes_mapped.
  - change (end_pos (k_pg sE)) with (end_pos (k_pg sD)). rewrite H9. intros x Hx. unfold memmap_bytes.
    change (memmap (k_boot sE)) with (memmap (k_boot sD)). rewrite H5. unfold es. rewrite length_fmap. split.
    + intros Hx'%Hbytes. pose proof (Hlow x (or_introl Hx')). unfold within in Hx. lia.
    + intros Hx'. pose proof (Hlow x (or_intror ltac:(unfold within in *; lia))). unfold within in Hx. lia.
  - intros x Hx Hx'%Hbytes. unfold memmap_bytes in Hx. change (memmap (k_boot sE)) with (memmap (k_boot sD)) in Hx. rewrite H5 in Hx.
    unfold es in Hx. rewrite length_fmap in Hx. destruct Hx' as [Hx'|Hx']; [|unfold within in Hx; lia].
    pose proof (ld_apart _ _ _ _ _ _ _ H x Hx') as Hx2. fold b me in Hx2. unfold within in Hx. lia.
  - change (brk (k_pg sE)) with (brk (k_pg sD)). change (miniheap_end (k_pg sE)) with (miniheap_end (k_pg sD)). lia.
  - destruct (ld_fuel _ _ _ _ _ _ _ H) as (? & _ & _ & ?). done.
Qed.
(** The whole of [kmain_memory], in terms of what its last two calls do. *)
Lemma kmain_memory_start : exists sD T, early sD T /\ bytes_ok (k_mem sD) /\
  kmain_memory bp fuel s = (page_alloc_init fuel ;; kalloc_init fuel) (booting_cpu sD).
Proof.
  destruct early_tables as (sA & sB & sC & T & EA & EB & EC & HC). exists (cr3_loaded sC), T.
  assert (HbC : bytes_ok (k_mem sC) /\ grows s sC).
  { destruct (keeps_run _ _ _ _ (keeps_memmap_init _) EA (ld_bytes _ _ _ _ _ _ _ H)) as [bA gA].
    destruct (keeps_run _ _ _ _ (keeps_map_kern_pages _ _ _) EB bA) as [bB gB].
    destruct (keeps_run _ _ _ _ (keeps_map_screen _) EC bB) as [bC gC]. split; [exact bC|]. by do 2 (etrans; [eassumption|]). }
  destruct HbC as [bC gC]. assert (Henv : forall t, dv_env (k_dev sC) t (Cpuid 1 EBX) mod 2 ^ 32 = ebx).
  { intros t. rewrite (gw_env _ _ gC). apply (ld_cpuid _ _ _ _ _ _ _ H). }
  assert (ED : init_cpu_early bp fuel sC = Done tt (cr3_loaded sC)).
  { apply init_cpu_early_run; [exact Henv|]. intros x Hx. apply (gw_mapped _ _ gC). by apply (ld_slot _ _ _ _ _ _ _ H). }
  split; [by apply early_cr3|]. split; [exact (proj1 (keeps_run _ _ _ _ (keeps_init_cpu_early bp _) ED bC))|].
  unfold kmain_memory. rewrite (run_bind _ _ _ _ _ EA), (run_bind _ _ _ _ _ EB), (run_bind _ _ _ _ _ EC), (run_bind _ _ _ _ _ ED).
  set (sD := cr3_loaded sC). set (sE := logged [WCr3 (VK2PHYSK (k_pg sD) (kpml4 (k_pg sD)))] sD).
  rewrite (run_bind (flush_pages fuel 0) _ sD tt sE eq_refl), (run_bind (gets _) _ sE 0 sE).
  2: { unfold gets. change (k_cpu sE) with (k_cpu sC). rewrite (ea_cpu _ _ HC). by rewrite (proj2 (ld_cpus _ _ _ _ _ _ _ H)). }
  rewrite (run_bind get_ncpus _ sE (cpuid_ncpus ebx) (logged [Read (Cpuid 1 EBX) ebx] sE)).
  2: { unfold get_ncpus. by rewrite (run_bind _ _ _ _ _ (cpuid_run sE Henv)). }
  by rewrite (run_bind (modify (set_ncpus (cpuid_ncpus ebx))) _ _ tt _ eq_refl), (run_bind (printf _ _) _ _ _ _ (emit_run _ _)).
Qed.
End early.

(** C13. The memory side of the boot, from the boot loader's hand-over to the heap: [kmain]
    reads the memory map, maps the kernel's sections where they were loaded and the screen
    behind them, loads these tables, and makes the pages of the map the page allocator's
    and an empty heap on top of it.  Then the invariants of the page tables and of the heap
    hold, the sections and the screen are still mapped, CR3 has been loaded with the root
    table, and the heap manages only the kernel's data and the pages behind the screen. *)
Theorem kmain_memory_correct bp fuel s l vb pb ebx : loaded bp fuel s l vb pb ebx ->
  let sec := bp_sections bp in
  let screen := round_up_page (kern_end sec) in
  let ep := screen + 4096 * size_pages (screen_len s) in
  exists s' T' F, kmain_memory bp fuel s = Done tt s' /\ paging_inv s' T' /\ heap_inv s' F /\
    (forall x, F x -> data_start sec <= x < data_end sec \/ within ep (total (all_chunks (kept_entry <$> l))) x) /\
    image_mapped s' vb pb sec /\ scr_vaddr (k_scr s') = screen /\
    shows s' screen (scr_paddr (k_scr s)) (screen_len s) screen_flags /\
    ncpus (k_cpu s') = cpuid_ncpus ebx /\ WCr3 (kpml4 (k_pg s) - vb + pb) ∈ log s'.
Proof.
  intros H sec screen ep. destruct (kmain_memory_start _ _ _ _ _ _ _ H) as (sD & T & HD & HbD & Hrun).
  pose proof (early_memory _ _ _ _ _ _ _ H sD T HD) as Hbm.
  destruct (early_bounds _ _ _ _ _ _ _ H) as (Hmp & _ & _ & Hlen & Hep & Hepa & Hsp & _ & _ & _ & _ & _ & Ht0). fold sec screen in Hep, Hepa.
  destruct (ld_pages _ _ _ _ _ _ _ H) as (Hne & Ht & _). destruct (ld_cpus _ _ _ _ _ _ _ H) as [Hn Hid].
  destruct (ld_root _ _ _ _ _ _ _ H) as (_ & Hr1 & Hr2). destruct (ld_heap _ _ _ _ _ _ _ H) as (_ & _ & Hh1 & Hh2). fold sec in Hr1, Hr2, Hh1, Hh2.
  pose proof (im_end _ _ _ (ld_image _ _ _ _ _ _ _ H)) as Hke. fold sec in Hke. pose proof (im_base _ _ _ (ld_image _ _ _ _ _ _ _ H)) as (_ & _ & Hv0 & Hp0).
  pose proof (im_text _ _ _ (ld_image _ _ _ _ _ _ _ H)) as Ho1. pose proof (im_rodata _ _ _ (ld_image _ _ _ _ _ _ _ H)) as Ho2.
  pose proof (im_data _ _ _ (ld_image _ _ _ _ _ _ _ H)) as Ho3. pose proof (im_size _ _ _ (ld_image _ _ _ _ _ _ _ H)) as Ho4. fold sec in Ho1, Ho2, Ho3, Ho4.
  set (es := kept_entry <$> l) in *. set (sE := booting_cpu ebx sD) in *.
  assert (Epos : end_pos (k_pg sE) = ep) by exact (ea_pos _ _ _ _ _ _ _ _ HD).
  assert (Eid : cpu_id (k_cpu sE) = 0) by (change (cpu_id (k_cpu sD) = 0); by rewrite (ea_cpu _ _ _ _ _ _ _ _ HD)).
  destruct (boot_heap_ready fuel sE T es Hbm Hne) as (s1 & s2 & T' & F & E1 & E2 & Hheap & HF & _ & HI & Hk & (m & g & d & pa & cp & Es)).
  { rewrite Eid. change (0 <= 0 < cpuid_ncpus ebx). lia. } { exact (proj2 Hn). }
  rewrite Epos in HF, Hk. 
  exists s2, T', F. split; [by rewrite Hrun, (run_bind _ _ _ _ _ E1)|]. split; [exact HI|]. split; [exact Hheap|].
  pose proof (ea_bytes _ _ _ _ _ _ _ _ HD) as Hb. split; [|split; [|split; [|split; [|split]]]].
  - intros x [Hx%Hb|Hx]%HF; [left|by right]. destruct Hx as [Hx|Hx]; unfold within in Hx; lia.
  - apply (image_kept _ _ _ _ _ _ _ H sE s2 ep (total (all_chunks es) / 4096)); [exact (ea_image _ _ _ _ _ _ _ _ HD)|..|exact Hk].
    + apply Z.divide_add_r; [exact Hepa|]. by eexists; apply Z.mul_comm.
    + fold sec. unfold ep. lia.
    + fold sec. unfold ep. pose proof (Z.mul_div_le (total (all_chunks es)) 4096). lia.
  - rewrite Es. exact (ea_vaddr _ _ _ _ _ _ _ _ HD).
  - apply (shows_kept sE s2 _ _ _ _ ep (total (all_chunks es) / 4096)); [exact (ea_screen _ _ _ _ _ _ _ _ HD)|..|exact Hk].
    + apply Z.divide_add_r; [exact Hepa|]. by eexists; apply Z.mul_comm.
    + lia.
    + unfold ep. lia.
    + unfold ep. pose proof (Z.mul_div_le (total (all_chunks es)) 4096). lia.
  - by rewrite Es.
  - destruct (keeps_run _ _ _ _ (keeps_page_alloc_init fuel) E1 HbD) as [b1 [_ [l1 L1] _]].
    destruct (keeps_run _ _ _ _ (keeps_kalloc_init fuel) E2 b1) as [_ [_ [l2 L2] _]]. unfold log. rewrite L2, L1, app_assoc.
    destruct (ea_bases _ _ _ _ _ _ _ _ HD) as (Er & Ev & Ep).
    assert (Ecr : VK2PHYSK (k_pg sD) (kpml4 (k_pg sD)) = kpml4 (k_pg s) - vb + pb).
    { rewrite Er. unfold VK2PHYSK. rewrite Ev, Ep, sub64_small, add64_small by lia. done. }
    rewrite <- Ecr. apply elem_of_app. right. do 2 right. left.
Qed.

(** ** A small machine

    An image of 80 pages at 1 MiB, loaded at 4 MiB, with a mini heap of 75 pages; one CPU,
    a screen of four pages and a memory map with one usable entry, of three pages. *)
Definition machine_sections : sections := Sections 0x100000 0x101800 0x102000 0x102400 0x103000 0x150000 0x150000.
Definition machine_map : list (Z * Z * Z) := [(0x800000, 0x3000, 0); (0x900000, 0x1000, 1)].
Definition machine_params : boot_params :=
  BootParams (Some 0) (Some (0, 0, 0)) None (Some machine_map) (Some (0x100000, 0x400000)) 0 machine_sections
    0 0x103000 0 0 0 0 (fun _ => 0) 0 0 false 0 0 (AcpiLayout 0 0 0 0 0) (mret tt).
Definition machine_mem : gmap Z Z := zeros 0x103000 0x54000 ∅.
Definition machine : kernel :=
  Kernel machine_mem (PageAllocGlobals 0 0 false) (CpuGlobals 0 1 0 0) (ProcGlobals 0 false 0 0 false)
    (PagingGlobals 0x105000 0x150000 false 0 false 0 0 0x104000 0 0 w64)
    (Devices (fun _ r => match r with Cpuid _ _ => 0x10000 | _ => 0 end) [])
    (ScreenGlobals 0 0xE0000000 32 32 128 32 0 0 0 0 10 0xFFFFFF false)
    (TimerGlobals 0 0 false 0 0 false) (BootGlobals 0 0 0 0 false 0 0 0).

#[local] Opaque zeros.

Lemma machine_zero x : 0x103000 <= x < 0x157000 -> machine_mem !! x = Some 0.
Proof. intros Hx. apply lookup_zeros. lia. Qed.

Lemma machine_bytes : bytes_ok machine_mem.
Proof.
  intros x b Hx. unfold machine_mem in Hx. destruct (decide (0x103000 <= x < 0x157000)) as [Hin|Hout].
  - rewrite lookup_zeros in Hx by lia. injection Hx as <-. unfold byte_ok. lia.
  - rewrite (ch_same _ _ _ (changes_zeros 0x103000 0x54000 ∅ ltac:(lia))) in Hx by (unfold within; lia). by rewrite lookup_empty in Hx.
Qed.

Lemma machine_image : image_ok 0x100000 0x400000 machine_sections.
Proof. split; simpl; split_and?; try lia; [by exists 0x100|by exists 0x400|by exists 0x100|by exists 0x102|by exists 0x103]. Qed.

Lemma machine_chunks : all_chunks (kept_entry <$> machine_map) = [(0x800000, 0x2000)].
Proof. vm_compute. reflexivity. Qed.

Lemma machine_loaded : loaded machine_params 90 machine machine_map 0x100000 0x400000 0x10000.
Proof.
  split; rewrite ?machine_chunks;
    change (bp_sections machine_params) with machine_sections; change (kpml4 (k_pg machine)) with 0x104000;
    change (brk (k_pg machine)) with 0x105000; change (miniheap_end (k_pg machine)) with 0x150000;
    change (screen_len machine) with 0x4000; change (k_mem machine) with machine_mem;
    change (round_up_page (kern_end machine_sections)) with 0x150000; change (4096 * size_pages 0x4000) with 0x4000.
  - done.
  - split; [done|]. split; [repeat constructor; unfold u64; simpl; lia|]. split; [|simpl; lia].
    repeat constructor; simpl; try lia; [by exists 0x800|by exists 0].
  - exact machine_image.
  - done.
  - done.
  - exact machine_bytes.
  - split; [by exists 0x104|]. simpl. lia.
  - split; [by exists 0x105|]. simpl. lia.
  - unfold within. lia.
  - unfold within. intros x Hx. apply machine_zero. lia.
  - split; [by exists 0xE0000|]. simpl. lia.
  - done.
  - simpl. done.
  - change (bp_cpu_ptrs machine_params + 8 * cpuid_id 0x10000) with 0x103000. unfold within. simpl. intros x Hx.
    split; [rewrite machine_zero by lia; by eexists|]. lia.
  - simpl. split; [done|lia].
  - simpl. split; [lia|]. intros x Hx. rewrite machine_zero by lia. by eexists.
  - unfold array_pages. rewrite machine_chunks. by vm_compute.
  - simpl. lia.
Qed.

Lemma machine_paging : paging_inv (set_kern_resp 0x100000 0x400000 machine) {[ [] := 0x104000 ]}.
Proof.
  set (s := set_kern_resp _ _ _). apply (blank_paging_inv s 0x104000); [reflexivity|reflexivity|..]; change (k_mem s) with machine_mem;
    change (virtual_base (k_pg s)) with 0x100000; change (physical_base (k_pg s)) with 0x400000;
    change (brk (k_pg s)) with 0x105000; change (miniheap_end (k_pg s)) with 0x150000.
  - split; [by exists 0x100|]. split; [by exists 0x400|]. lia.
  - by exists 0x105.
  - lia.
  - by exists 0x104.
  - lia.
  - unfold within. intros x Hx. apply machine_zero. lia.
  - unfold within. lia.
Qed.

Lemma map_kern_pages_correct_witness : exists s' T',
  map_kern_pages 90 (Some (0x100000, 0x400000)) machine_sections machine = Done tt s' /\ paging_inv s' T' /\
  end_pos (k_pg s') = 0x150000 /\ ktrans s' 0x103004 = Some 0x403004 /\ writable s' 0x102010 = Some false.
Proof.
  destruct (map_kern_pages_correct 90 0x100000 0x400000 machine_sections machine {[ [] := 0x104000 ]}) as (s' & T' & Hrun & HI & Hp & _ & Hro & Hd & _);
    [exact machine_image|done|exact machine_paging|simpl; lia|by vm_compute|].
  - exists s', T'. split; [exact Hrun|]. split; [exact HI|]. split; [exact Hp|]. split.
    + by apply (Hd 0x103004); simpl; lia.
    + apply (Hro 0x102010). simpl. lia.
Defined.

Lemma kmain_memory_correct_witness : exists s' T' F,
  kmain_memory machine_params 90 machine = Done tt s' /\ paging_inv s' T' /\ heap_inv s' F /\
  scr_vaddr (k_scr s') = 0x150000 /\ WCr3 0x404000 ∈ log s'.
Proof.
  destruct (kmain_memory_correct machine_params 90 machine machine_map 0x100000 0x400000 0x10000 machine_loaded)
    as (s' & T' & F & Hrun & HI & Hheap & _ & _ & Hv & _ & _ & Hcr).
  exists s', T', F. split; [exact Hrun|]. split; [exact HI|]. split; [exact Hheap|]. split; [exact Hv|exact Hcr].
Defined.
