(* ===== verification/Spaces.v ===== *)
(** * Process address spaces

    The tables of an address space made by [map_pages] of kernel/arch/x86_64/paging.c: pages
    of the page allocator, known by the physical addresses their parents hold, with the
    space's hash map telling where the kernel sees them.  [space_ok] relates them to a tree
    of tables as PageWalk.v has it; [tab_new], [tab_get] and [map_pages] act on it. *)
From S2P Require Import Prelude Memory Mem Pow2 State FreeList PageSpec PageAlloc PageRefine PageTheorems Allocator Kalloc KallocRefine KallocTheorems HashMap MapTable MapRefine Devices Paging PageWalk PagingTheorems MapPages.

(** The free pages have been zero before they came to the allocator. *)
#[local] Existing Instance clean_pools.

(** ** The space's map of its tables *)

(** Where the space's hash map has the frame [P]. *)
Definition sees (M : gmap (list Z) (list Z)) (P : Z) : option Z := le_join <$> M !! word_bytes P.

Lemma join_word v : u64 v -> le_join (word_bytes v) = v.
Proof. intros Hv. unfold word_bytes. rewrite le_join_split. by apply w64_small. Qed.

Lemma word_bytes_inj v w : u64 v -> u64 w -> word_bytes v = word_bytes w -> v = w.
Proof. intros Hv Hw E. by rewrite <- (join_word v), <- (join_word w), E. Qed.

Lemma word_short v : short (word_bytes v).
Proof. unfold short, word_bytes. rewrite length_le_split. lia. Qed.

Lemma sees_insert M P v Q : u64 P -> u64 v -> u64 Q ->
  sees (<[word_bytes P := word_bytes v]> M) Q = if decide (Q = P) then Some v else sees M Q.
Proof.
  intros HP Hv HQ. unfold sees. case_decide as E.
  - subst Q. rewrite lookup_insert_eq. change (Some (le_join (word_bytes v)) = Some v). by rewrite join_word.
  - rewrite lookup_insert_ne; [done|]. intros E'%word_bytes_inj; congruence.
Qed.

Lemma sees_empty P : sees ∅ P = None.
Proof. unfold sees. by rewrite lookup_empty. Qed.

Lemma root_only a y : in_tables {[ [] := a ]} y -> within a 4096 y.
Proof. intros (q & u & Hq & Hy). by apply lookup_singleton_Some in Hq as [_ <-]. Qed.

(** ** A page from below the heap *)

Lemma even_word (mm : gmap Z Z) a b e : mm !! a = Some b -> (2 | b) -> read64 mm a = Some e -> Z.land e X86_PAGE_PRESENT = 0.
Proof.
  intros Ha [k ->] (bs & Hbs & ->)%fmap_Some. apply read_bytes_spec in Hbs as [Hl Hi].
  destruct bs as [|b bs]; [done|]. specialize (Hi 0%nat ltac:(lia)). rewrite Z.add_0_r, Ha in Hi; simpl in Hi. injection Hi as ->.
  cbn [le_join]. change X86_PAGE_PRESENT with (Z.ones 1). rewrite Z.land_ones by lia.
  replace (k * 2 + 2 ^ 8 * le_join bs) with ((k + 2 ^ 7 * le_join bs) * 2) by lia. by apply Z.mod_mul.
Qed.

Lemma heap_pages s F sz : heap_inv s F -> 0 <= sz <= 2 ^ 63 ->
  (exists r mm G, eventually (fun fuel => page_alloc fuel sz) s (Done r (set_mem mm s)) /\
     heap_inv (set_mem mm s) G /\ granted 0 (page_round sz) r F G (k_mem s) mm /\ (4096 | r) /\
     forall x, within r (page_round sz) x -> (8 | x) -> exists b, mm !! x = Some b /\ (2 | b)) \/
  eventually (fun fuel => page_alloc fuel sz) s (Stop Panic).
Proof.
  intros (G & l & HG & Hat & Hd & Hal & HF) Hsz.
  destruct (clean_inv_alloc s G sz HG Hsz) as [(r & mm & G' & Hrun & HG' & Hgr & Hr & Hclean)|Hp]; [left|by right].
  destruct Hgr as [H1 H2 H3 H4 H5 H6 H7]. rewrite Z.sub_0_r, Z.add_0_l in *.
  exists r, mm, (fun x => G' x \/ heap_fp (cpu_state s) l x). split_and!; [done| | |done|done].
  - exists G', l. split_and!; [done| |  |done|done].
    + by eapply heap_at_changes.
    + intros x Hx. by apply Hd, H4.
  - split; rewrite ?Z.sub_0_r, ?Z.add_0_l; try done.
    + intros x Hx. apply HF. left. by apply H3.
    + intros x [Hx|Hx]; [split; [apply HF; left; by apply H4|by apply H4]|].
      split; [apply HF; by right|]. intros Hw. by apply (Hd x (H3 x Hw)).
    + eapply changes_weaken; [exact H5|]. intros x Hx. apply HF. by left.
Qed.

Lemma heap_page s F : heap_inv s F ->
  (exists r mm G, eventually (fun fuel => page_alloc fuel PAGE_SIZE) s (Done r (set_mem mm s)) /\
     heap_inv (set_mem mm s) G /\ granted 0 4096 r F G (k_mem s) mm /\ (4096 | r) /\
     forall j, 0 <= j < 512 -> exists e, read64 mm (entry r j) = Some e /\ Z.land e X86_PAGE_PRESENT = 0) \/
  eventually (fun fuel => page_alloc fuel PAGE_SIZE) s (Stop Panic).
Proof.
  intros HF. destruct (heap_pages s F PAGE_SIZE HF ltac:(unfold PAGE_SIZE; lia)) as [(r & mm & G & Hrun & HG & Hgr & Hr & Hclean)|Hp]; [left|by right].
  change (page_round PAGE_SIZE) with 4096 in *. exists r, mm, G. do 4 (split; [done|]). intros j Hj.
  pose proof (gr_mapped _ _ _ _ _ _ _ Hgr) as Hm. rewrite Z.sub_0_r, Z.add_0_l in Hm.
  destruct (read64_is_Some mm (entry r j)) as [_ [e He]]; [eapply mapped_sub; [exact Hm|unfold entry; lia|unfold entry; lia]|].
  exists e. split; [done|]. destruct (Hclean (entry r j)) as (b & Hb & Heven); [unfold within, entry; lia| |by eapply even_word].
  destruct Hr as [y ->]. exists (512 * y + j). unfold entry. lia.
Qed.

(** ** The invariant of a space *)

(** What changes as the space grows: the heap's bytes, those of the space's map, the kernel's
    own tables, the space's tables, and the contents of its map. *)
Record aspace := ASpace {
  as_heap : Z -> Prop;
  as_map : Z -> Prop;
  as_kernel : gmap (list Z) Z;
  as_tables : gmap (list Z) Z;
  as_frames : gmap (list Z) (list Z);
}.

(** The processor's walk from the space's root. *)
Definition swalk (s : kernel) (x : aspace) (root va : Z) : option Z := walk (k_mem s) (sees (as_frames x)) root va.

Section space.
(** The structure [space] of the address space, its root table, its map with [cap] cells,
    the address space [cur] of the running process, and bytes [W] nobody writes here. *)
Context (space root m cap cur : Z) (W : Z -> Prop).

(** The running process, if any, has the kernel's own tables. *)
Record in_kernel (s : kernel) : Prop := {
  ik_run : proc_current (k_cpu s) = 0 /\ cur = 0 \/
    proc_current (k_cpu s) <> 0 /\ read64 (k_mem s) (proc_current (k_cpu s) + PROC_SPACE) = Some cur /\
    forall x, within (proc_current (k_cpu s) + PROC_SPACE) 8 x -> W x;
  ik_root : cur = 0 \/ read64 (k_mem s) (cur + SPACE_ADDR) = Some (kpml4 (k_pg s)) /\
    forall x, within (cur + SPACE_ADDR) 8 x -> W x;
}.

(** The page frames of the kernel's tables, and of the pages they grow by, are in the memory
    where the kernel's image has them. *)
Definition image_window (s : kernel) (KT : gmap (list Z) Z) : Prop :=
  (4096 | page_tmp (k_pg s)) /\ 0 <= page_tmp (k_pg s) < 2 ^ 64 - 2 ^ 14 /\
  forall P, paging_bytes s KT (PHYSK2VK (k_pg s) P) -> alias (k_pg s) P = PHYSK2VK (k_pg s) P.

Lemma image_window_ok s KT : image_window s KT -> window_ok s KT.
Proof. intros (H1 & H2 & H3). split; [done|]. split; [done|]. intros P HP. apply H3. by left. Qed.

Lemma image_window_grown V k s T s' T' : grown V k s T s' T' -> image_window s T -> image_window s' T'.
Proof.
  intros HG (H1 & H2 & H3). destruct (grown_globals _ _ _ _ _ _ HG) as (E1 & E2 & E3). unfold image_window. rewrite E1, E2.
  split; [done|]. split; [done|]. intros P HP. rewrite E3 in *. apply H3. by eapply grown_paging_bytes.
Qed.

(** No byte has two uses. *)
Record uses_apart (s : kernel) (x : aspace) : Prop := {
  ua_heap y : as_heap x y -> ~ in_tables (as_tables x) y /\ ~ paging_bytes s (as_kernel x) y /\ ~ W y;
  ua_map y : as_map x y -> ~ in_tables (as_tables x) y /\ ~ paging_bytes s (as_kernel x) y /\ ~ W y;
  ua_tables y : in_tables (as_tables x) y -> ~ paging_bytes s (as_kernel x) y /\ ~ W y;
  ua_kernel y : paging_bytes s (as_kernel x) y -> ~ W y;
}.

(** The kernel maps the free memory and the tables, outside the temporary window, and two
    pages of them have two frames. *)
Record free_mapped (s : kernel) (x : aspace) : Prop := {
  fm_mapped v : as_heap x v \/ in_tables (as_tables x) v ->
    is_Some (kwalk s v) /\ vpn v <> vpn (page_tmp (k_pg s)) /\ v <> 0;
  fm_frame v w P : (4096 | v) -> (4096 | w) -> as_heap x v -> as_heap x w \/ sees (as_frames x) P = Some w ->
    ktrans s v = Some P -> ktrans s w = Some P -> v = w;
}.

Record space_ok (s : kernel) (x : aspace) : Prop := {
  so_heap : heap_inv s (as_heap x);
  so_kernel : paging_inv s (as_kernel x);
  so_window : image_window s (as_kernel x);
  so_current : in_kernel s;
  so_map : kvmap s (as_heap x) (as_map x) m cap (as_frames x);
  so_addr : read64 (k_mem s) (space + SPACE_ADDR) = Some root;
  so_physmap : read64 (k_mem s) (space + SPACE_PHYSMAP) = Some m;
  so_fields y : within space 16 y -> W y;
  so_tables : tables_at (k_mem s) (sees (as_frames x)) root (as_tables x);
  so_seen P w : u64 P -> sees (as_frames x) P = Some w <->
    exists p, p <> [] /\ as_tables x !! p = Some w /\ ktrans s w = Some P;
  so_words k b : as_frames x !! k = Some b -> length b = 8%nat;
  so_foreign p t i e : as_tables x !! p = Some t -> (length p < 3)%nat -> 0 <= i < 512 ->
    read64 (k_mem s) (entry t i) = Some e -> Z.land e X86_PAGE_PRESENT <> 0 -> as_tables x !! (p ++ [i]) = None ->
    p = [] /\ i = 511 /\ forall v, as_heap x v -> (4096 | v) -> ktrans s v <> Some (Z.land e ADDR_MASK);
  so_first : as_frames x = ∅ -> forall v P, as_heap x v -> (4096 | v) -> ktrans s v = Some P ->
    hash (word_bytes P) mod cap <> cap - 1;
  so_free : free_mapped s x;
  so_apart : uses_apart s x;
}.

(** ** Looking a table up *)

Lemma tab_get_run s x P t : space_ok s x -> u64 P -> sees (as_frames x) P = Some t ->
  eventually (fun fuel => tab_get fuel space P) s (Done t s).
Proof.
  intros Hok HP Ht. unfold sees in Ht. destruct (as_frames x !! word_bytes P) as [b|] eqn:Hb; [|done]. simpl in Ht.
  injection Ht as <-. destruct (map_get_finds s _ _ m cap _ (word_bytes P) (so_map _ _ Hok)) as (r & Hrun & Hr).
  rewrite Hb in Hr. destruct Hr as [Hr0 Hr]. exists (Z.to_nat cap). intros fuel Hf. unfold tab_get.
  rewrite (run_bind _ _ _ _ _ (kload64 s _ _ (so_physmap _ _ Hok))), (run_bind _ _ _ _ _ (Hrun fuel Hf)).
  rewrite (run_bind (gets k_pg) _ s (k_pg s) s eq_refl), (proj2 (Z.eqb_neq r 0)) by done. cbn [andb].
  apply kload64. unfold read64. rewrite (so_words _ _ Hok _ _ Hb) in Hr. by rewrite Hr.
Qed.

(** ** A new table *)

(** [s'] and [x'] after [tab_new] has given the page [r] with the frame [P]: the map has it,
    the tables do not yet. *)
Record new_table (s : kernel) (x : aspace) (r P : Z) (s' : kernel) (x' : aspace) : Prop := {
  nt_heap : heap_inv s' (as_heap x');
  nt_kernel : paging_inv s' (as_kernel x');
  nt_window : image_window s' (as_kernel x');
  nt_map : kvmap s' (as_heap x') (as_map x') m cap (as_frames x');
  nt_tables : as_tables x' = as_tables x;
  nt_frames : as_frames x' = <[word_bytes P := word_bytes r]> (as_frames x);
  nt_new : as_frames x !! word_bytes P = None;
  nt_state : exists mm b d, s' = set_dev d (set_mem mm (set_brk b s));
  nt_brk : brk (k_pg s') <= brk (k_pg s) + 9 * 4096;
  nt_page y : within r 4096 y -> as_heap x y;
  nt_less y : as_heap x' y -> as_heap x y /\ ~ within r 4096 y;
  nt_owns y : as_map x' y -> as_heap x y /\ ~ within r 4096 y \/ as_map x y;
  nt_paging y : paging_bytes s' (as_kernel x') y -> paging_bytes s (as_kernel x) y;
  nt_walk va : vpn va <> vpn (page_tmp (k_pg s)) -> kwalk s' va = kwalk s va;
  nt_changes : changes (fun y => as_heap x y \/ as_map x y \/ paging_bytes s (as_kernel x) y) (k_mem s) (k_mem s');
  nt_aligned : (4096 | r) /\ 0 < r /\ r + 4096 < 2 ^ 64;
  nt_frame : ktrans s r = Some P /\ 0 <= P < 2 ^ 63 /\ (4096 | P);
  nt_blank j : 0 <= j < 512 -> exists e, read64 (k_mem s') (entry r j) = Some e /\ Z.land e X86_PAGE_PRESENT = 0;
}.

(** The frame of a page. *)
Lemma frame_of s v e : (4096 | v) -> kwalk s v = Some e -> phys_of e v = Z.land e ADDR_MASK /\ ktrans s v = Some (Z.land e ADDR_MASK).
Proof.
  intros [y ->] He. assert (E : phys_of e (y * 4096) = Z.land e ADDR_MASK).
  { unfold phys_of. change 0xFFF with (Z.ones 12). rewrite Z.land_ones by lia.
    change (2 ^ 12) with 4096. by rewrite Z.mod_mul, Z.lor_0_r. }
  split; [done|]. unfold ktrans. rewrite He. simpl. by rewrite E.
Qed.

Lemma current_run s : in_kernel s -> current_space 0 s = Done cur s.
Proof.
  intros [[[H1 H2]|(H1 & H2 & _)] _]; unfold current_space.
  - rewrite (run_bind (gets (fun s => proc_current (k_cpu s))) _ s (proc_current (k_cpu s)) s eq_refl), H1, H2. done.
  - rewrite (run_bind (gets (fun s => proc_current (k_cpu s))) _ s (proc_current (k_cpu s)) s eq_refl).
    rewrite (proj2 (Z.eqb_neq _ 0)) by done. by apply kload64.
Qed.

Lemma premap_loop_mono f f' dst src de se xf :
  (f <= f')%nat -> approx (premap_loop f dst src de se xf) (premap_loop f' dst src de se xf).
Proof. revert f' dst src. induction f as [|f IH]; intros [|f'] dst src Hf; try lia; cbn [premap_loop]; mono. Qed.
#[local] Hint Resolve premap_loop_mono : fuel.

Lemma map_page_tmp_mono f f' P : (f <= f')%nat -> approx (map_page_tmp f P) (map_page_tmp f' P).
Proof. intros. unfold map_page_tmp, premap_pages. mono. Qed.
#[local] Hint Resolve map_page_tmp_mono : fuel.

Lemma kvirt2phys_mono f f' cs v : (f <= f')%nat -> approx (kvirt2phys f cs v) (kvirt2phys f' cs v).
Proof. intros. unfold kvirt2phys. mono. Qed.

(** The heap and the maps on it, as the kernel's tables grow. *)
Lemma heap_inv_grown V k s T s' T' F : heap_inv s F -> grown V k s T s' T' ->
  (forall y, F y -> ~ paging_bytes s T y) -> heap_inv s' F.
Proof.
  intros HF HG HK. pose proof (grown_changes _ _ _ _ _ _ HG) as HC. destruct (gr_state _ _ _ _ _ _ HG) as (mm & b & d & ->).
  apply (heap_inv_same (set_mem mm s)); [done..|]. eapply heap_inv_frame; [exact HF|exact HC|]. intros y Hy Hf. by apply (HK y Hf).
Qed.

Lemma kvmap_grown V k s T s' T' F B M : kvmap s F B m cap M -> grown V k s T s' T' ->
  (forall y, B y -> ~ paging_bytes s T y) -> kvmap s' F B m cap M.
Proof.
  intros HM HG HK. pose proof (grown_changes _ _ _ _ _ _ HG) as HC. destruct (gr_state _ _ _ _ _ _ HG) as (mm & b & d & ->).
  apply (kvmap_same (set_mem mm s)); [done|]. eapply kvmap_frame; [exact HM|exact HC|].
  intros y Hy. split; [by apply HK|]. by apply (kvmap_apart _ _ _ _ _ _ _ HM).
Qed.

(** Nothing the paging code writes matters to the words it goes by. *)
Lemma in_kernel_same s s' : in_kernel s -> k_cpu s' = k_cpu s -> kpml4 (k_pg s') = kpml4 (k_pg s) ->
  (forall y, W y -> k_mem s' !! y = k_mem s !! y) -> in_kernel s'.
Proof.
  intros [H1 H2] Ec Ek HW. split; rewrite ?Ec, ?Ek.
  - destruct H1 as [?|(Hp & Hr & Hin)]; [by left|right]. split; [done|]. split; [|done].
    rewrite <- Hr. apply read64_same. intros y Hy. by apply HW, Hin.
  - destruct H2 as [?|[Hr Hin]]; [by left|right]. split; [|done].
    rewrite <- Hr. apply read64_same. intros y Hy. by apply HW, Hin.
Qed.

(** [r] after [tab_new] has taken it from the page allocator and looked its frame [P] up,
    in the state [s2]; [KT] are the kernel's tables then and [G] the free memory. *)
Record fresh_page (s : kernel) (x : aspace) (r P : Z) (s2 : kernel) (KT : gmap (list Z) Z) (G : Z -> Prop) : Prop := {
  fp_run s' res : eventually (fun f => map_insert f (space + SPACE_PHYSMAP) (word_bytes P) (word_bytes r)) s2 res ->
    res = Done tt s' \/ res = Stop Panic ->
    eventually (fun f => tab_new f space) s (if res is Done _ _ then Done P s' else Stop Panic);
  fp_heap : heap_inv s2 G;
  fp_kernel : paging_inv s2 KT;
  fp_window : image_window s2 KT;
  fp_state : exists mm b d, s2 = set_dev d (set_mem mm (set_brk b s));
  fp_brk : brk (k_pg s2) <= brk (k_pg s) + 9 * 4096;
  fp_page y : within r 4096 y -> as_heap x y;
  fp_less y : G y -> as_heap x y /\ ~ within r 4096 y;
  fp_paging y : paging_bytes s2 KT y -> paging_bytes s (as_kernel x) y;
  fp_walk va : vpn va <> vpn (page_tmp (k_pg s)) -> kwalk s2 va = kwalk s va;
  fp_changes : changes (fun y => as_heap x y \/ paging_bytes s (as_kernel x) y) (k_mem s) (k_mem s2);
  fp_aligned : (4096 | r) /\ 0 < r /\ r + 4096 < 2 ^ 64;
  fp_frame : ktrans s r = Some P /\ 0 <= P < 2 ^ 63 /\ (4096 | P);
  fp_blank j : 0 <= j < 512 -> exists e, read64 (k_mem s2) (entry r j) = Some e /\ Z.land e X86_PAGE_PRESENT = 0;
}.

(** The calls of [tab_new] one after the other. *)
Lemma tab_new_calls s r s1 P s2 s' res : in_kernel s ->
  eventually (fun f => page_alloc f PAGE_SIZE) s (Done r s1) -> kvirt2phys 2 cur r s1 = Done P s2 ->
  eventually (fun f => map_insert f (space + SPACE_PHYSMAP) (word_bytes P) (word_bytes r)) s2 res ->
  res = Done tt s' \/ res = Stop Panic ->
  eventually (fun f => tab_new f space) s (if res is Done _ _ then Done P s' else Stop Panic).
Proof.
  intros Hk H1 H2 H3 Hres. eapply (eventually_bind (fun _ => current_space 0)); [by apply eventually_const, current_run|].
  eapply (eventually_bind (fun f => page_alloc f PAGE_SIZE)); [exact H1|].
  eapply (eventually_bind (fun f => kvirt2phys f cur r)); [eapply eventually_mono; [by auto using kvirt2phys_mono|exact H2|done]|].
  destruct Hres as [-> | ->].
  - eapply (eventually_bind (fun f => map_insert f (space + SPACE_PHYSMAP) (word_bytes P) (word_bytes r))); [exact H3|]. by apply eventually_const.
  - by apply (eventually_bind_stop (fun f => map_insert f (space + SPACE_PHYSMAP) (word_bytes P) (word_bytes r))).
Qed.

Lemma fresh_page_run s x : space_ok s x -> brk (k_pg s) + 9 * 4096 <= miniheap_end (k_pg s) ->
  (exists r P s2 KT G, fresh_page s x r P s2 KT G) \/ eventually (fun fuel => tab_new fuel space) s (Stop Panic).
Proof.
  intros Hok Hroom. pose proof Hok as []. destruct so_apart0 as [AH AM AT AK].
  destruct (heap_page s _ so_heap0) as [(r & m1 & G & Hrun1 & HG & Hgr & Hr & Hblank)|Hp].
  2:{ right. eapply (eventually_bind (fun _ => current_space 0)); [by apply eventually_const, current_run|].
      by apply (eventually_bind_stop (fun f => page_alloc f PAGE_SIZE)). }
  left. destruct Hgr as [R1 R2 R3 R4 R5 R6 _]. rewrite Z.sub_0_r, Z.add_0_l in *. set (s1 := set_mem m1 s) in *.
  assert (Hrh : as_heap x r) by (apply R3; unfold within; lia).
  destruct (fm_mapped _ _ so_free0 r (or_introl Hrh)) as ([e He] & Hvpn & Hr0).
  assert (HK1 : forall y, as_heap x y -> ~ paging_bytes s (as_kernel x) y) by (intros y Hy; by apply AH).
  assert (HI1 : paging_inv s1 (as_kernel x)) by by eapply paging_inv_frame.
  assert (Hw1 : kwalk s1 r = Some e) by (rewrite <- He; by eapply kwalk_frame).
  destruct (frame_of s r e Hr He) as [EP Htr]. destruct (addr_mask_ok e) as [HP HP12].
  assert (Hcur1 : in_kernel s1).
  { apply (in_kernel_same s); [done..|]. intros y Hy. apply (ch_same _ _ _ R5). intros Hh. by apply (AH y Hh). }
  destruct (kvirt2phys_run 2 cur (kpml4 (k_pg s1)) r e s1 (as_kernel x) HI1 (image_window_ok _ _ so_window0)) as (s2 & KT & Hrun2 & Hgrown);
    [|done|exact Hw1|exact Hvpn|lia|exact Hroom|].
  { split; [|done]. destruct (ik_root _ Hcur1) as [->|[Hroot _]]; [done|]. destruct (Z.eqb_spec cur 0); [done|exact Hroot]. }
  rewrite EP in Hrun2. pose proof (grown_changes _ _ _ _ _ _ Hgrown) as HC2. pose proof (gr_brk _ _ _ _ _ _ Hgrown) as Hbrk.
  exists r, (Z.land e ADDR_MASK), s2, KT, G. split; try done.
  - intros s' res. exact (tab_new_calls s r s1 _ s2 s' res so_current0 Hrun1 Hrun2).
  - eapply heap_inv_grown; [exact HG|exact Hgrown|]. intros y [Hy _]%R4. by apply HK1.
  - exact (gr_inv _ _ _ _ _ _ Hgrown).
  - by apply (image_window_grown _ _ _ _ _ _ Hgrown).
  - destruct (gr_state _ _ _ _ _ _ Hgrown) as (mm & b & d & ->). by exists mm, b, d.
  - intros y Hy. by apply (grown_paging_bytes _ _ _ _ _ _ y Hgrown).
  - intros va Hva. rewrite (gr_walk _ _ _ _ _ _ Hgrown); [by eapply kwalk_frame|]. by rewrite pages_one.
  - eapply changes_trans; [eapply changes_weaken; [exact R5|by left]|]. eapply changes_weaken; [exact HC2|by right].
  - intros j Hj. destruct (Hblank j Hj) as (w & Hw & Hz). exists w. split; [|done]. rewrite <- Hw.
    apply read64_same. intros y Hy. apply (ch_same _ _ _ HC2). by apply HK1, R3, (entry_in_table r j).
Qed.

(** A frame not used for a table is not in the map. *)
Lemma fresh_frame s x r P s2 KT G : space_ok s x -> fresh_page s x r P s2 KT G -> as_frames x !! word_bytes P = None.
Proof.
  intros Hok HF. destruct (as_frames x !! word_bytes P) as [bs|] eqn:E; [|done].
  destruct (fp_frame _ _ _ _ _ _ _ HF) as (Htr & HP & _). destruct (fp_aligned _ _ _ _ _ _ _ HF) as (Hr & _).
  assert (Hs : sees (as_frames x) P = Some (le_join bs)) by (unfold sees; by rewrite E).
  pose proof Hs as (p & _ & Hp & Hw)%(so_seen _ _ Hok); [|unfold u64; lia].
  assert (Hin : in_tables (as_tables x) (le_join bs)) by (exists p, (le_join bs); split; [done|unfold within; lia]).
  destruct (ta_page _ _ _ _ (so_tables _ _ Hok) _ _ Hp) as (_ & Hal & _).
  assert (Hrh : as_heap x r) by (apply (fp_page _ _ _ _ _ _ _ HF); unfold within; lia).
  rewrite <- (fm_frame _ _ (so_free _ _ Hok) r (le_join bs) P Hr Hal Hrh (or_intror Hs) Htr Hw) in Hin.
  by destruct (ua_heap _ _ (so_apart _ _ Hok) r Hrh).
Qed.

(** The space's map and its pointer, when the page has been taken. *)
Lemma fresh_map s x r P s2 KT G : space_ok s x -> fresh_page s x r P s2 KT G ->
  kvmap s2 G (as_map x) m cap (as_frames x) /\ read64 (k_mem s2) (space + SPACE_PHYSMAP) = Some m.
Proof.
  intros Hok HF. destruct (so_apart _ _ Hok) as [AH AM AT AK]. pose proof (fp_changes _ _ _ _ _ _ _ HF) as HC.
  destruct (fp_state _ _ _ _ _ _ _ HF) as (mm & b & d & E). split.
  - apply (kvmap_same (set_mem (k_mem s2) s)); [done|]. eapply kvmap_frame; [exact (so_map _ _ Hok)|exact HC|].
    intros y Hy. pose proof (kvmap_apart _ _ _ _ _ _ y (so_map _ _ Hok) Hy) as Hn.
    split; [intros [H|H]; [done|by destruct (AM y Hy) as (_ & ? & _)]|]. intros [HGy _]%(fp_less _ _ _ _ _ _ _ HF). by apply Hn.
  - rewrite <- (so_physmap _ _ Hok). eapply changes_read64; [exact HC|]. intros y Hy.
    assert (HW : W y) by (apply (so_fields _ _ Hok); unfold within, SPACE_PHYSMAP in *; lia).
    intros [H|H]; [by apply (AH y H)|by apply (AK y H)].
Qed.

Lemma tab_new_run s x : space_ok s x -> Z.of_nat (size (as_frames x)) < cap ->
  brk (k_pg s) + 9 * 4096 <= miniheap_end (k_pg s) ->
  (exists r P s' x', eventually (fun fuel => tab_new fuel space) s (Done P s') /\ new_table s x r P s' x') \/
  eventually (fun fuel => tab_new fuel space) s (Stop Panic).
Proof.
  intros Hok Hsize Hroom. destruct (fresh_page_run s x Hok Hroom) as [(r & P & s2 & KT & G & HF)|Hp]; [|by right].
  pose proof (fresh_frame _ _ _ _ _ _ _ Hok HF) as Hnew. destruct (fresh_map _ _ _ _ _ _ _ Hok HF) as [Hmap Hptr].
  destruct HF as [F1 F2 F3 F4 F5 F6 F7 F8 F9 F10 F11 F12 F13 F14]. destruct (so_apart _ _ Hok) as [AH AM AT AK].
  assert (HB : forall y, as_map x y -> ~ as_heap x y) by (intros y; by apply (kvmap_apart _ _ _ _ _ _ _ (so_map _ _ Hok))).
  assert (Hin : within r 4096 r) by (unfold within; lia).
  destruct (map_insert_run s2 G (as_map x) (space + SPACE_PHYSMAP) m cap (as_frames x) (word_bytes P) (word_bytes r) F2 Hmap Hptr
    (word_short P) (word_short r) Hnew Hsize) as [(m3 & F & B & Hrun & HF3 & Hmap3 & HC & HFG & HBG)|Hp].
  { intros E. by apply (so_first _ _ Hok E r P); [apply F7|apply F12|apply F13]. }
  2:{ right. exact (F1 s _ Hp (or_intror eq_refl)). }
  left. exists r, P, (set_mem m3 s2), (ASpace F B KT (as_tables x) (<[word_bytes P := word_bytes r]> (as_frames x))).
  split; [exact (F1 _ _ Hrun (or_introl eq_refl))|].
  assert (HK : forall y, G y \/ as_map x y -> ~ paging_bytes s2 KT y).
  { intros y Hy HKy%F9. destruct Hy as [[Hy _]%F8|Hy]; [by destruct (AH y Hy) as (_ & ? & _)|by destruct (AM y Hy) as (_ & ? & _)]. }
  split; cbn [as_heap as_map as_kernel as_tables as_frames]; try done.
  - exact (paging_inv_frame s2 KT m3 _ F3 HC HK).
  - destruct F5 as (mm & b & d & ->). by exists m3, b, d.
  - intros y Hy%HFG. by apply F8.
  - intros y [Hy%F8|Hy]%HBG; [by left|by right].
  - intros va Hva. etrans; [exact (kwalk_frame s2 KT m3 _ va F3 HC HK)|by apply F10].
  - eapply changes_trans; [eapply changes_weaken; [exact F11|intros y []; [by left|by right; right]]|].
    eapply changes_weaken; [exact HC|]. intros y [[Hy _]%F8|Hy]; [by left|by right; left].
  - intros j Hj. destruct (F14 j Hj) as (w & Hw & Hz). exists w. split; [|done]. rewrite <- Hw.
    apply read64_same. intros y Hy%(entry_in_table r j); [|done]. apply (ch_same _ _ _ HC).
    intros [HGy%F8|HBy]; [by apply HGy|by apply (HB y HBy), F7].
Qed.

(** What a run of the paging code does to a space: [V] are the pages whose translation may
    change, [k] bounds the number of new tables. *)
Definition space_bytes (s : kernel) (x : aspace) (y : Z) : Prop :=
  as_heap x y \/ as_map x y \/ in_tables (as_tables x) y \/ paging_bytes s (as_kernel x) y.

Record spaced (V : Z -> Prop) (k : Z) (s : kernel) (x : aspace) (s' : kernel) (x' : aspace) : Prop := {
  sd_ok : space_ok s' x';
  sd_state : exists mm b d, s' = set_dev d (set_mem mm (set_brk b s));
  sd_brk : brk (k_pg s') <= brk (k_pg s) + k * (9 * 4096);
  sd_size : Z.of_nat (size (as_frames x')) <= Z.of_nat (size (as_frames x)) + k;
  sd_tables : as_tables x ⊆ as_tables x';
  sd_walk va : ~ V (vpn va) -> swalk s' x' root va = swalk s x root va;
  sd_kwalk va : vpn va <> vpn (page_tmp (k_pg s)) -> kwalk s' va = kwalk s va;
  sd_heap y : as_heap x' y -> as_heap x y;
  sd_bytes y : space_bytes s' x' y -> space_bytes s x y;
  sd_changes : changes (space_bytes s x) (k_mem s) (k_mem s');
  sd_top : read64 (k_mem s') (entry root 511) = read64 (k_mem s) (entry root 511);
}.

Lemma spaced_refl V s x : space_ok s x -> spaced V 0 s x s x.
Proof.
  intros Hok. split; try done; try lia. exists (k_mem s), (brk (k_pg s)), (k_dev s). by destruct s as [? ? ? ? [] ? ? ? ?].
Qed.

Lemma spaced_weaken (V V' : Z -> Prop) j k s x s' x' : (forall v, V v -> V' v) -> j <= k ->
  spaced V j s x s' x' -> spaced V' k s x s' x'.
Proof. intros HV Hjk [H1 H2 H3 H4 H5 H6 H7 H8 H9 H10 H11]. split; try done; [lia|lia|]. intros va Hva. apply H6. intros Hv. by apply Hva, HV. Qed.

Lemma spaced_globals V k s x s' x' : spaced V k s x s' x' ->
  page_tmp (k_pg s') = page_tmp (k_pg s) /\ miniheap_end (k_pg s') = miniheap_end (k_pg s).
Proof. intros H. by destruct (sd_state _ _ _ _ _ _ H) as (? & ? & ? & ->). Qed.

Lemma spaced_trans V j k s1 x1 s2 x2 s3 x3 : spaced V j s1 x1 s2 x2 -> spaced V k s2 x2 s3 x3 -> spaced V (j + k) s1 x1 s3 x3.
Proof.
  intros H12 H23. destruct (spaced_globals _ _ _ _ _ _ H12) as [Etmp _].
  destruct H12 as [A1 (m1 & b1 & d1 & E1) A3 A4 A5 A6 A7 A8 A9 A10 A11], H23 as [B1 (m2 & b2 & d2 & E2) B3 B4 B5 B6 B7 B8 B9 B10 B11]. split; try done.
  - exists m2, b2, d2. subst s3 s2. by destruct s1 as [? ? ? ? [] ? ? ? ?].
  - lia.
  - lia.
  - by etrans.
  - intros va Hva. by rewrite B6, A6.
  - intros va Hva. rewrite B7 by by rewrite Etmp. by apply A7.
  - intros y Hy. by apply A8, B8.
  - intros y Hy. by apply A9, B9.
  - eapply changes_trans; [exact A10|]. by eapply changes_weaken.
  - by rewrite B11.
Qed.

(** Free memory given away and written, and writes [Q] that are not the space's business. *)
Lemma space_less s x G mm (Q : Z -> Prop) : space_ok s x -> heap_inv (set_mem mm s) G -> (forall y, G y -> as_heap x y) ->
  changes (fun y => as_heap x y \/ Q y) (k_mem s) mm -> (forall y, Q y -> ~ space_bytes s x y /\ ~ within space 16 y) ->
  in_kernel (set_mem mm s) ->
  let x' := ASpace G (as_map x) (as_kernel x) (as_tables x) (as_frames x) in
  space_ok (set_mem mm s) x' /\ (forall va, swalk (set_mem mm s) x' root va = swalk s x root va) /\
  (forall va, kwalk (set_mem mm s) va = kwalk s va) /\ read64 mm (entry root 511) = read64 (k_mem s) (entry root 511).
Proof.
  intros Hok HG HGF HC HQ Hk x'. subst x'. pose proof Hok as []. pose proof so_apart0 as [AH AM AT AK]. unfold space_bytes in HQ.
  assert (HP : forall y, as_heap x y \/ Q y -> ~ in_tables (as_tables x) y /\ ~ paging_bytes s (as_kernel x) y /\ ~ within space 16 y /\ ~ as_map x y).
  { intros y [Hy|Hy]; [destruct (AH y Hy) as (? & ? & HW)|destruct (HQ y Hy) as [Hn Hns]].
    - split_and!; [done|done|intros Hs; by apply HW, so_fields0|intros Hm; by apply (kvmap_apart _ _ _ _ _ _ y so_map0 Hm)].
    - split_and!; [intros H; apply Hn; tauto|intros H; apply Hn; tauto|done|intros H; apply Hn; tauto]. }
  assert (HK : forall y, as_heap x y \/ Q y -> ~ paging_bytes s (as_kernel x) y) by (intros y Hy; by apply HP).
  assert (Hw : forall va, kwalk (set_mem mm s) va = kwalk s va) by (intros va; by eapply kwalk_frame).
  assert (Ht : forall va, ktrans (set_mem mm s) va = ktrans s va) by (intros va; unfold ktrans; by rewrite Hw).
  assert (Hs : same_on (in_tables (as_tables x)) (k_mem s) mm).
  { intros y Hy. apply (ch_same _ _ _ HC). intros H. by destruct (HP y H). }
  assert (HW : forall a, (forall y, within a 8 y -> within space 16 y) -> read64 mm a = read64 (k_mem s) a).
  { intros a Ha. eapply changes_read64; [exact HC|]. intros y Hy%Ha H. by destruct (HP y H) as (_ & _ & ? & _). }
  assert (Hent : forall p t i, as_tables x !! p = Some t -> 0 <= i < 512 -> read64 mm (entry t i) = read64 (k_mem s) (entry t i)).
  { intros p t i Hp Hi. apply read64_same. intros y Hy. apply Hs. exists p, t. split; [done|by apply (entry_in_table t i)]. }
  split; [|split; [intros va; exact (walk_same _ _ _ _ _ va Hs so_tables0)|split; [exact Hw|apply (Hent [] root 511); [apply so_tables0|lia]]]].
  split; cbn [as_heap as_map as_kernel as_tables as_frames]; try done.
  - by eapply paging_inv_frame.
  - eapply kvmap_frame; [exact so_map0|exact HC|]. intros y Hy.
    split; [intros H; by destruct (HP y H) as (_ & _ & _ & ?)|intros H%HGF; by apply (kvmap_apart _ _ _ _ _ _ y so_map0 Hy)].
  - rewrite <- so_addr0. apply HW. unfold within, SPACE_ADDR. lia.
  - rewrite <- so_physmap0. apply HW. unfold within, SPACE_PHYSMAP. lia.
  - exact (tables_same _ _ _ _ _ Hs so_tables0).
  - intros P w HPw. rewrite (so_seen0 P w HPw). split; intros (q & H1 & H2 & H3); exists q; [by rewrite Ht|by rewrite Ht in H3].
  - intros q u j e Hq Hlq Hj He Hpr Hno. simpl in He. rewrite (Hent q u j Hq Hj) in He.
    destruct (so_foreign0 q u j e Hq Hlq Hj He Hpr Hno) as (H1 & H2 & H3). split; [done|]. split; [done|].
    intros w Hw'%HGF. rewrite Ht. by apply H3.
  - intros E w P Hw'%HGF. rewrite Ht. by apply so_first0.
  - destruct so_free0 as [Fm Ff]. split; cbn [as_heap as_tables as_frames].
    + intros w [Hw'%HGF|Hw']; rewrite Hw; apply Fm; [by left|by right].
    + intros w u P H1 H2 H3%HGF [H4%HGF|H4]; rewrite !Ht; apply Ff; try done; [by left|by right].
  - split; cbn [as_heap as_map as_kernel as_tables]; try done. intros y Hy%HGF. by apply AH.
Qed.

Lemma space_alloc s x sz : space_ok s x -> 0 <= sz <= 2 ^ 63 ->
  (exists r s' x', eventually (fun fuel => page_alloc fuel sz) s (Done r s') /\
     (4096 | r) /\ 0 < r /\ (forall y, within r (page_round sz) y -> as_heap x y) /\
     spaced (fun _ => False) 0 s x s' x') \/
  eventually (fun fuel => page_alloc fuel sz) s (Stop Panic).
Proof.
  intros Hok Hsz. destruct (heap_pages s _ sz (so_heap _ _ Hok) Hsz) as [(r & mm & G & Hrun & HG & Hgr & Hr & _)|Hp]; [left|by right].
  destruct Hgr as [H1 _ H3 H4 H5 _ _]. rewrite Z.sub_0_r, Z.add_0_l in *.
  assert (HGF : forall y, G y -> as_heap x y) by (intros y Hy; by apply H4).
  assert (Hk : in_kernel (set_mem mm s)).
  { apply (in_kernel_same s); [apply (so_current _ _ Hok)|done..|]. intros y Hy. apply (ch_same _ _ _ H5).
    intros H. by destruct (ua_heap _ _ (so_apart _ _ Hok) y H) as (_ & _ & ?). }
  destruct (space_less s x G mm (fun _ => False) Hok HG HGF) as (S1 & S2 & S3 & S4); [eapply changes_weaken; [exact H5|by left]|done|done|].
  eexists r, _, _. split; [exact Hrun|]. do 3 (split; [done|]).
  split; [exact S1| |change (brk (k_pg (set_mem mm s))) with (brk (k_pg s)); lia|cbn; lia|done|intros va _; apply S2|intros va _; apply S3|exact HGF| | |exact S4].
  - exists mm, (brk (k_pg s)), (k_dev s). by destruct s as [? ? ? ? [] ? ? ? ?].
  - unfold space_bytes. cbn [as_heap as_map as_kernel as_tables]. intros y [H|H]; [left; by apply HGF|by right].
  - eapply changes_weaken; [exact H5|]. intros y Hy. by left.
Qed.

(** Writes that are not the space's business. *)
Lemma space_frame s x mm (Q : Z -> Prop) : space_ok s x -> changes Q (k_mem s) mm ->
  (forall y, Q y -> ~ space_bytes s x y /\ ~ within space 16 y) -> in_kernel (set_mem mm s) ->
  space_ok (set_mem mm s) x /\ (forall va, swalk (set_mem mm s) x root va = swalk s x root va) /\
  read64 mm (entry root 511) = read64 (k_mem s) (entry root 511).
Proof.
  intros Hok HC HQ Hk. destruct (space_less s x (as_heap x) mm Q Hok) as (S1 & S2 & _ & S4); [|done|eapply changes_weaken; [exact HC|by right]|done|done|].
  - eapply heap_inv_frame; [exact (so_heap _ _ Hok)|exact HC|]. intros y Hy H. destruct (HQ y Hy) as [Hn _]. apply Hn. by left.
  - by destruct x.
Qed.

Section hang.
Context (s s1 : kernel) (x x1 : aspace) (r P : Z) (p : list Z) (t i : Z).
Context (Hok : space_ok s x) (HN : new_table s x r P s1 x1).
Context (Hp : as_tables x !! p = Some t) (Hl : (length p < 3)%nat) (Hi : 0 <= i < 512).
Context (Habs : as_tables x !! (p ++ [i]) = None).

Local Abbreviation v := (Z.lor P top_flags).
Local Abbreviation m4 := (write64 (k_mem s1) (entry t i) v).
Local Abbreviation s2 := (set_mem m4 s1).
Local Abbreviation x2 := (ASpace (as_heap x1) (as_map x1) (as_kernel x1) (<[p ++ [i] := r]> (as_tables x)) (as_frames x1)).

Lemma hang_entry y : within (entry t i) 8 y -> in_tables (as_tables x) y.
Proof. intros Hy. exists p, t. split; [done|]. by apply (entry_in_table t i). Qed.

Lemma hang_tables_old : same_on (in_tables (as_tables x)) (k_mem s) (k_mem s1).
Proof.
  destruct (so_apart _ _ Hok) as [AH AM AT AK]. intros y Hy. apply (ch_same _ _ _ (nt_changes _ _ _ _ _ _ HN)).
  intros [H|[H|H]]; [by destruct (AH y H)|by destruct (AM y H)|by destruct (AT y Hy)].
Qed.

Lemma hang_in_tables y : in_tables (as_tables x2) y -> in_tables (as_tables x) y \/ within r 4096 y.
Proof.
  intros (q & u & Hq & Hy). cbn [as_tables] in Hq. apply lookup_insert_Some in Hq as [[_ <-]|[_ Hq]]; [by right|left]. by exists q, u.
Qed.

(** The temporary window apart, the kernel's translations stay. *)
Lemma hang_kwalk va : vpn va <> vpn (page_tmp (k_pg s)) -> kwalk s2 va = kwalk s va.
Proof.
  intros Hva. rewrite <- (nt_walk _ _ _ _ _ _ HN va Hva).
  apply (kwalk_frame s1 (as_kernel x1) m4 (within (entry t i) 8) va (nt_kernel _ _ _ _ _ _ HN) (changes_write64 _ _ _)).
  intros y Hy%hang_entry Hk. apply (nt_paging _ _ _ _ _ _ HN) in Hk. by destruct (ua_tables _ _ (so_apart _ _ Hok) y Hy).
Qed.

Lemma hang_ktrans w : as_heap x w \/ in_tables (as_tables x) w -> ktrans s2 w = ktrans s w.
Proof.
  intros Hw. destruct (fm_mapped _ _ (so_free _ _ Hok) w Hw) as (_ & Hv & _). unfold ktrans. by rewrite hang_kwalk.
Qed.

Lemma hang_apart : uses_apart s2 x2.
Proof.
  destruct (so_apart _ _ Hok) as [AH AM AT AK].
  assert (HB : forall y, as_map x y -> ~ as_heap x y) by (intros y; by apply (kvmap_apart _ _ _ _ _ _ _ (so_map _ _ Hok))).
  pose proof (nt_page _ _ _ _ _ _ HN) as Hr. pose proof (nt_less _ _ _ _ _ _ HN) as HF. pose proof (nt_owns _ _ _ _ _ _ HN) as HM.
  pose proof (nt_paging _ _ _ _ _ _ HN) as HK. change (paging_bytes s1) with (paging_bytes s2) in HK.
  split; cbn [as_heap as_map as_kernel].
  - intros y [Hy Hn]%HF. destruct (AH y Hy) as (H1 & H2 & H3). split_and!; [by intros [?|?]%hang_in_tables|by intros ?%HK|done].
  - intros y [[Hy Hn]|Hy]%HM.
    + destruct (AH y Hy) as (H1 & H2 & H3). split_and!; [by intros [?|?]%hang_in_tables|by intros ?%HK|done].
    + destruct (AM y Hy) as (H1 & H2 & H3). split_and!; [intros [?|Hr']%hang_in_tables; [done|by apply (HB y Hy), Hr]|by intros ?%HK|done].
  - intros y [Hy|Hy%Hr]%hang_in_tables; [destruct (AT y Hy) as [H2 H3]|destruct (AH y Hy) as (_ & H2 & H3)]; (split; [by intros ?%HK|done]).
  - intros y Hy%HK. by apply AK.
Qed.

Lemma hang_tables : tables_at m4 (sees (as_frames x1)) root (as_tables x2) /\
  forall va, walk m4 (sees (as_frames x1)) root va = walk (k_mem s) (sees (as_frames x)) root va.
Proof.
  pose proof (nt_frame _ _ _ _ _ _ HN) as (Htr & HP & HP12). pose proof (nt_aligned _ _ _ _ _ _ HN) as (Hr & Hr0 & Hr1).
  destruct (phys_entry P HP HP12) as (Hv & Hpres & Hmask).
  assert (HPu : u64 P) by (unfold u64; lia). assert (Hru : u64 r) by (unfold u64; lia).
  pose proof (so_tables _ _ Hok) as HT. pose proof (tables_same _ _ _ _ _ hang_tables_old HT) as HT1.
  assert (Hfresh : forall y, within r 4096 y -> ~ in_tables (as_tables x) y).
  { intros y Hy%(nt_page _ _ _ _ _ _ HN). by destruct (ua_heap _ _ (so_apart _ _ Hok) y Hy). }
  assert (Hnm : mapped (k_mem s1) r 4096).
  { intros y Hy. destruct (nt_blank _ _ _ _ _ _ HN ((y - r) / 8)) as (e & He & _); [divlia|].
    assert (Hm : mapped (k_mem s1) (entry r ((y - r) / 8)) 8) by (apply read64_is_Some; by eexists).
    apply Hm. unfold entry. divlia. }
  assert (Hsees : forall Q, u64 Q -> sees (as_frames x1) Q = if decide (Q = P) then Some r else sees (as_frames x) Q).
  { intros Q HQ. rewrite (nt_frames _ _ _ _ _ _ HN). by apply sees_insert. }
  assert (Hptr : sees (as_frames x1) (Z.land v ADDR_MASK) = Some r) by (by rewrite Hmask, Hsees, decide_True).
  assert (Hsee : forall q u j e, as_tables x !! q = Some u -> (length q < 3)%nat -> 0 <= j < 512 ->
    read64 (k_mem s1) (entry u j) = Some e -> Z.land e X86_PAGE_PRESENT <> 0 ->
    sees (as_frames x1) (Z.land e ADDR_MASK) = sees (as_frames x) (Z.land e ADDR_MASK)).
  { intros q u j e Hq Hlq Hj He Hpr. destruct (addr_mask_ok e) as [He63 _]. rewrite Hsees by (unfold u64; lia).
    case_decide as E; [|done]. exfalso. pose proof (ta_child _ _ _ _ HT1 q u j Hq Hlq Hj) as Hc. unfold child in Hc.
    rewrite He in Hc. simpl in Hc. rewrite (proj2 (Z.eqb_neq _ 0) Hpr), E in Hc.
    unfold sees in Hc. rewrite (nt_new _ _ _ _ _ _ HN) in Hc. simpl in Hc.
    assert (He0 : read64 (k_mem s) (entry u j) = Some e).
    { rewrite <- He. symmetry. apply read64_same. intros y Hy. apply hang_tables_old. exists q, u. split; [done|by apply (entry_in_table u j)]. }
    destruct (so_foreign _ _ Hok q u j e Hq Hlq Hj He0 Hpr (eq_sym Hc)) as (_ & _ & Hno).
    apply (Hno r); [apply (nt_page _ _ _ _ _ _ HN); unfold within; lia|done|by rewrite E]. }
  split.
  - by apply (grow_tables HT1 p t i v Hp Hi Hv r ltac:(lia) Hr Hnm (nt_blank _ _ _ _ _ _ HN) Hfresh Hl Habs (sees (as_frames x1))).
  - intros va. etrans; [by apply (grow_walk HT1 p t i v Hp Hi Hv r ltac:(lia) Hr Hnm (nt_blank _ _ _ _ _ _ HN) Hfresh Hl Habs (sees (as_frames x1)))|].
    exact (walk_same _ _ _ _ _ va hang_tables_old HT).
Qed.
Lemma hang_seen Q w : u64 Q -> sees (as_frames x1) Q = Some w <->
  exists q, q <> [] /\ as_tables x2 !! q = Some w /\ ktrans s2 w = Some Q.
Proof.
  intros HQ. pose proof (nt_frame _ _ _ _ _ _ HN) as (Htr & HP & HP12). pose proof (nt_aligned _ _ _ _ _ _ HN) as (Hr & Hr0 & Hr1).
  rewrite (nt_frames _ _ _ _ _ _ HN), sees_insert by (done || unfold u64; lia). cbn [as_tables].
  assert (Hrh : as_heap x r) by (apply (nt_page _ _ _ _ _ _ HN); unfold within; lia).
  assert (Hne : forall q u, as_tables x !! q = Some u -> p ++ [i] <> q) by (intros q u Hq E; rewrite E in Habs; congruence).
  assert (Hin : forall q u, as_tables x !! q = Some u -> in_tables (as_tables x) u) by (intros q u Hq; exists q, u; split; [done|unfold within; lia]).
  case_decide as E.
  - subst Q. split.
    + intros [= <-]. exists (p ++ [i]). split; [by destruct p|]. split; [by rewrite lookup_insert_eq|]. by rewrite hang_ktrans; [|left].
    + intros (q & Hq0 & Hq & Hw). apply lookup_insert_Some in Hq as [[_ <-]|[_ Hq]]; [done|]. exfalso.
      rewrite hang_ktrans in Hw by (right; by eapply Hin).
      assert (Hs : sees (as_frames x) P = Some w) by (apply (so_seen _ _ Hok P w HQ); by exists q).
      unfold sees in Hs. by rewrite (nt_new _ _ _ _ _ _ HN) in Hs.
  - rewrite (so_seen _ _ Hok Q w HQ). split.
    + intros (q & Hq0 & Hq & Hw). exists q. split; [done|]. split; [rewrite lookup_insert_ne; [done|by eapply Hne]|].
      rewrite hang_ktrans; [done|right; by eapply Hin].
    + intros (q & Hq0 & Hq & Hw). apply lookup_insert_Some in Hq as [[_ <-]|[_ Hq]].
      * rewrite hang_ktrans in Hw by by left. congruence.
      * exists q. rewrite hang_ktrans in Hw by (right; by eapply Hin). done.
Qed.

Lemma hang_foreign q u j e : as_tables x2 !! q = Some u -> (length q < 3)%nat -> 0 <= j < 512 ->
  read64 m4 (entry u j) = Some e -> Z.land e X86_PAGE_PRESENT <> 0 -> as_tables x2 !! (q ++ [j]) = None ->
  q = [] /\ j = 511 /\ forall w, as_heap x1 w -> (4096 | w) -> ktrans s2 w <> Some (Z.land e ADDR_MASK).
Proof.
  intros Hq Hlq Hj He Hpr Hx. cbn [as_tables] in Hx. apply lookup_insert_None in Hx as [Hno Hne]. pose proof (so_tables _ _ Hok) as HT.
  assert (Hread : forall a, (forall y, within a 8 y -> ~ within (entry t i) 8 y) -> read64 m4 a = read64 (k_mem s1) a).
  { intros a Ha. apply read64_same. intros y Hy. apply write64_lookup_ne. by apply Ha. }
  cbn [as_tables] in Hq. apply lookup_insert_Some in Hq as [[_ <-]|[_ Hq]].
  - exfalso. destruct (nt_blank _ _ _ _ _ _ HN j Hj) as (w & Hw & Hz). rewrite Hread in He; [congruence|].
    intros y Hy Hy'%hang_entry. apply (entry_in_table r j y Hj), (nt_page _ _ _ _ _ _ HN) in Hy.
    by destruct (ua_heap _ _ (so_apart _ _ Hok) y Hy).
  - assert (Hqp : (q, j) <> (p, i)) by (by intros [= -> ->]).
    destruct (so_foreign _ _ Hok q u j e Hq Hlq Hj) as (H1 & H2 & H3); [|done|done|].
    + rewrite <- He, Hread.
      * symmetry. apply read64_same. intros y Hy. apply hang_tables_old. exists q, u. split; [done|by apply (entry_in_table u j)].
      * intros y Hy Hy'. destruct (entries_apart HT q p u t j i Hq Hp Hj Hi Hqp); unfold within in *; lia.
    + split; [done|]. split; [done|]. intros w Hw Hal. apply (nt_less _ _ _ _ _ _ HN) in Hw as [Hw _].
      rewrite hang_ktrans by by left. by apply H3.
Qed.

Lemma hang_free : free_mapped s2 x2.
Proof.
  pose proof (nt_less _ _ _ _ _ _ HN) as HF. pose proof (nt_page _ _ _ _ _ _ HN) as Hpage.
  destruct (nt_state _ _ _ _ _ _ HN) as (mm & b & d & Es1).
  assert (Etmp : page_tmp (k_pg s2) = page_tmp (k_pg s)) by by rewrite Es1.
  destruct (so_free _ _ Hok) as [Fm Ff]. split; cbn [as_heap as_frames].
  - intros w Hw. assert (Hw' : as_heap x w \/ in_tables (as_tables x) w).
    { destruct Hw as [Hw|[Hw|Hw]%hang_in_tables]; [left; by apply HF|by right|left; by apply Hpage]. }
    destruct (Fm w Hw') as (H1 & H2 & H3). rewrite Etmp, hang_kwalk by done. done.
  - intros w u Q Hw Hu Hwh Huh Htw Htu. apply HF in Hwh as [Hwh Hwr].
    rewrite hang_ktrans in Htw by by left.
    assert (HQ : u64 Q).
    { unfold ktrans in Htw. destruct (kwalk s w) as [e|] eqn:Ew; [|done]. destruct (frame_of s w e Hw Ew) as [E _].
      simpl in Htw. injection Htw as <-. rewrite E. destruct (addr_mask_ok e) as [? _]. unfold u64. lia. }
    destruct Huh as [[Huh _]%HF|Hs].
    + rewrite hang_ktrans in Htu by by left. exact (Ff w u Q Hw Hu Hwh (or_introl Huh) Htw Htu).
    + rewrite (nt_frames _ _ _ _ _ _ HN), sees_insert in Hs; [|unfold u64; pose proof (nt_frame _ _ _ _ _ _ HN); lia
        |unfold u64; pose proof (nt_aligned _ _ _ _ _ _ HN); lia|done].
      case_decide as E.
      * injection Hs as <-. assert (Hrh : as_heap x r) by (apply Hpage; unfold within; lia).
        rewrite hang_ktrans in Htu by by left. exact (Ff w r Q Hw Hu Hwh (or_introl Hrh) Htw Htu).
      * pose proof Hs as (q & _ & Hq & Hqu)%(so_seen _ _ Hok); [|done]. rewrite hang_ktrans in Htu by (right; exists q, u; split; [done|unfold within; lia]). exact (Ff w u Q Hw Hu Hwh (or_intror Hs) Htw Htu).
Qed.
Lemma hang_changes : changes (space_bytes s x) (k_mem s) m4.
Proof.
  eapply changes_trans; [eapply changes_weaken; [exact (nt_changes _ _ _ _ _ _ HN)|]|eapply changes_weaken; [apply changes_write64|]]; unfold space_bytes.
  - tauto.
  - intros y Hy%hang_entry. tauto.
Qed.

(** The bytes nobody writes. *)
Lemma hang_kept a : (forall y, within a 8 y -> W y) -> read64 m4 a = read64 (k_mem s) a.
Proof.
  intros Ha. eapply changes_read64; [exact hang_changes|]. intros y Hy%Ha. destruct (so_apart _ _ Hok) as [AH AM AT AK].
  intros [H|[H|[H|H]]]; [by destruct (AH y H) as (_ & _ & ?)|by destruct (AM y H) as (_ & _ & ?)|by destruct (AT y H)|by apply (AK y H)].
Qed.

Lemma hang_ok : space_ok s2 x2.
Proof.
  destruct (so_apart _ _ Hok) as [AH AM AT AK]. destruct (nt_state _ _ _ _ _ _ HN) as (mm & b & d & Es1).
  assert (Hent : changes (within (entry t i) 8) (k_mem s1) m4) by apply changes_write64.
  assert (HF : forall y, within (entry t i) 8 y -> ~ as_heap x1 y).
  { intros y Hy%hang_entry Hh%(nt_less _ _ _ _ _ _ HN). by destruct (AH y (proj1 Hh)). }
  assert (Hfld : forall o, o = SPACE_ADDR \/ o = SPACE_PHYSMAP -> read64 m4 (space + o) = read64 (k_mem s) (space + o)).
  { intros o Ho. apply hang_kept. intros y Hy. apply (so_fields _ _ Hok). unfold within, SPACE_ADDR, SPACE_PHYSMAP in *. lia. }
  split; cbn [as_heap as_map as_kernel as_frames].
  - by apply (heap_inv_frame s1 _ m4 _ (nt_heap _ _ _ _ _ _ HN) Hent).
  - apply (paging_inv_frame s1 _ m4 _ (nt_kernel _ _ _ _ _ _ HN) Hent).
    intros y Hy%hang_entry Hk. apply (nt_paging _ _ _ _ _ _ HN) in Hk. by destruct (AT y Hy).
  - exact (nt_window _ _ _ _ _ _ HN).
  - apply (in_kernel_same s); [apply (so_current _ _ Hok)|by rewrite Es1|by rewrite Es1|].
    intros y Hy. apply (ch_same _ _ _ hang_changes).
    intros [H|[H|[H|H]]]; [by destruct (AH y H) as (_ & _ & ?)|by destruct (AM y H) as (_ & _ & ?)|by destruct (AT y H)|by apply (AK y H)].
  - eapply kvmap_frame; [exact (nt_map _ _ _ _ _ _ HN)|exact Hent|]. intros y Hy. split; [|by apply (kvmap_apart _ _ _ _ _ _ _ (nt_map _ _ _ _ _ _ HN))].
    intros Hy'%hang_entry. apply (nt_owns _ _ _ _ _ _ HN) in Hy as [[Hy _]|Hy]; [by destruct (AH y Hy)|by destruct (AM y Hy)].
  - rewrite <- (so_addr _ _ Hok). apply Hfld. by left.
  - rewrite <- (so_physmap _ _ Hok). apply Hfld. by right.
  - apply (so_fields _ _ Hok).
  - apply hang_tables.
  - exact hang_seen.
  - intros k bs. rewrite (nt_frames _ _ _ _ _ _ HN). intros [[_ <-]|[_ Hk]]%lookup_insert_Some; [apply length_le_split|by eapply (so_words _ _ Hok)].
  - exact hang_foreign.
  - rewrite (nt_frames _ _ _ _ _ _ HN). by intros ?%insert_non_empty.
  - exact hang_free.
  - exact hang_apart.
Qed.

(** The entry of the kernel's half is another one. *)
Lemma hang_top : ~ (p = [] /\ i = 511) -> read64 m4 (entry root 511) = read64 (k_mem s) (entry root 511).
Proof.
  intros Hu. pose proof (so_tables _ _ Hok) as HT. pose proof (ta_root _ _ _ _ HT) as Hr.
  pose proof (tables_same _ _ _ _ _ hang_tables_old HT) as HT1.
  etrans; [apply (write_other HT1 p t i _ Hp Hi [] root 511 Hr ltac:(lia)); intros [= E1 E2]; by apply Hu|].
  apply read64_same. intros y Hy. apply hang_tables_old. exists [], root. split; [done|]. by apply (entry_in_table root 511).
Qed.

Lemma hang_spaced : ~ (p = [] /\ i = 511) -> spaced (fun _ => False) 1 s x s2 x2.
Proof.
  intros Hu. destruct (nt_state _ _ _ _ _ _ HN) as (mm & b & d & Es1). pose proof (nt_brk _ _ _ _ _ _ HN) as Hb.
  split; cbn [as_heap as_map as_kernel as_tables as_frames].
  - exact hang_ok.
  - exists m4, b, d. by rewrite Es1.
  - change (brk (k_pg s2)) with (brk (k_pg s1)). lia.
  - rewrite (nt_frames _ _ _ _ _ _ HN), map_size_insert_None by apply (nt_new _ _ _ _ _ _ HN). lia.
  - by apply insert_subseteq.
  - intros va _. apply hang_tables.
  - exact hang_kwalk.
  - intros y Hy. by apply (nt_less _ _ _ _ _ _ HN).
  - unfold space_bytes. intros y [Hy|[Hy|[[Hy|Hy]%hang_in_tables|Hy]]].
    + left. by apply (nt_less _ _ _ _ _ _ HN).
    + apply (nt_owns _ _ _ _ _ _ HN) in Hy. tauto.
    + tauto.
    + left. by apply (nt_page _ _ _ _ _ _ HN).
    + apply (nt_paging _ _ _ _ _ _ HN) in Hy. tauto.
  - exact hang_changes.
  - by apply hang_top.
Qed.
End hang.

(** ** [if (!(tab[i] & PRESENT)) tab[i] = tab_new(space) | top_flags;], then [tab_get] *)

Lemma map_table_hit s x p t i t' : space_ok s x -> as_tables x !! p = Some t -> (length p < 3)%nat -> 0 <= i < 512 ->
  as_tables x !! (p ++ [i]) = Some t' -> eventually (fun f => map_table f space t i) s (Done t' s).
Proof.
  intros Hok Hp Hl Hi Hc. pose proof (so_tables _ _ Hok) as HT. destruct (entry_value HT p t i Hp Hi) as [e He].
  rewrite <- (ta_child _ _ _ _ HT p t i Hp Hl Hi) in Hc. unfold child in Hc. rewrite He in Hc. simpl in Hc.
  destruct (Z.eqb_spec (Z.land e X86_PAGE_PRESENT) 0) as [|Hpr]; [done|]. destruct (addr_mask_ok e) as [He63 _].
  destruct (tab_get_run s x (Z.land e ADDR_MASK) t' Hok ltac:(unfold u64; lia) Hc) as [N HN]. exists N. intros f Hf.
  unfold map_table. rewrite (run_bind _ _ _ _ _ (kload64 s _ _ He)), (proj2 (Z.eqb_neq _ 0) Hpr).
  rewrite (run_bind (mret tt) _ s tt s eq_refl), (run_bind _ _ _ _ _ (kload64 s _ _ He)). by apply HN.
Qed.

Lemma map_table_new s x p t i : space_ok s x -> as_tables x !! p = Some t -> (length p < 3)%nat -> 0 <= i < 512 ->
  as_tables x !! (p ++ [i]) = None -> ~ (p = [] /\ i = 511) -> Z.of_nat (size (as_frames x)) < cap ->
  brk (k_pg s) + 9 * 4096 <= miniheap_end (k_pg s) ->
  (exists t' s' x', eventually (fun f => map_table f space t i) s (Done t' s') /\ as_tables x' !! (p ++ [i]) = Some t' /\
     spaced (fun _ => False) 1 s x s' x') \/
  eventually (fun f => map_table f space t i) s (Stop Panic).
Proof.
  intros Hok Hp Hl Hi Hc Huser Hsize Hroom. pose proof (so_tables _ _ Hok) as HT. destruct (entry_value HT p t i Hp Hi) as [e He].
  assert (Hz : Z.land e X86_PAGE_PRESENT = 0).
  { destruct (decide (Z.land e X86_PAGE_PRESENT = 0)) as [|Hpr]; [done|]. exfalso. apply Huser.
    by destruct (so_foreign _ _ Hok p t i e Hp Hl Hi He Hpr Hc) as (? & ? & _). }
  assert (Hstart : forall r, eventually (fun f => (P ← tab_new f space; store64 (entry t i) (Z.lor P top_flags)) ;;
    e ← load64 (entry t i); tab_get f space (Z.land e ADDR_MASK)) s r -> eventually (fun f => map_table f space t i) s r).
  { intros r [N H]. exists N. intros f Hf. unfold map_table. rewrite (run_bind _ _ _ _ _ (kload64 s _ _ He)), Hz. by apply H. }
  destruct (tab_new_run s x Hok Hsize Hroom) as [(r & P & s1 & x1 & Hrun & HN)|Hp'].
  2:{ right. apply Hstart. apply (eventually_bind_stop (fun f => P ← tab_new f space; store64 (entry t i) (Z.lor P top_flags))).
      by apply (eventually_bind_stop (fun f => tab_new f space)). }
  left. pose proof (hang_spaced s s1 x x1 r P p t i Hok HN Hp Hl Hi Hc Huser) as Hsp. set (m4 := write64 (k_mem s1) (entry t i) (Z.lor P top_flags)) in *.
  eexists r, _, _. split; [|split; [|exact Hsp]]; [|cbn [as_tables]; by rewrite lookup_insert_eq].
  pose proof (nt_frame _ _ _ _ _ _ HN) as (_ & HP & HP12). destruct (phys_entry P HP HP12) as (Hv & _ & Hmask).
  pose proof (nt_aligned _ _ _ _ _ _ HN) as (_ & Hr0 & Hr1).
  apply Hstart. eapply (eventually_bind (fun f => P ← tab_new f space; store64 (entry t i) (Z.lor P top_flags))).
  { eapply (eventually_bind (fun f => tab_new f space)); [exact Hrun|]. apply eventually_const, kstore64.
    eapply changes_mapped; [exact (nt_changes _ _ _ _ _ _ HN)|]. by eapply (entry_mapped HT). }
  eapply (eventually_bind (fun _ => load64 (entry t i))).
  { apply eventually_const, (kload64 (set_mem m4 s1)). by apply read64_write64_eq. }
  rewrite Hmask. eapply tab_get_run; [exact (sd_ok _ _ _ _ _ _ Hsp)|unfold u64; lia|]. cbn [as_frames].
  rewrite (nt_frames _ _ _ _ _ _ HN), sees_insert by (unfold u64; lia). by rewrite decide_True.
Qed.

Lemma map_table_spec s x p t i : space_ok s x -> as_tables x !! p = Some t -> (length p < 3)%nat -> 0 <= i < 512 ->
  ~ (p = [] /\ i = 511) -> Z.of_nat (size (as_frames x)) < cap -> brk (k_pg s) + 9 * 4096 <= miniheap_end (k_pg s) ->
  (exists t' s' x', eventually (fun f => map_table f space t i) s (Done t' s') /\ as_tables x' !! (p ++ [i]) = Some t' /\
     spaced (fun _ => False) 1 s x s' x') \/
  eventually (fun f => map_table f space t i) s (Stop Panic).
Proof.
  intros Hok Hp Hl Hi Hu Hsize Hroom. destruct (as_tables x !! (p ++ [i])) as [t'|] eqn:Hc; [|by apply map_table_new with (p := p)].
  left. exists t', s, x. split; [by apply (map_table_hit s x p)|]. split; [done|]. by apply (spaced_weaken (fun _ => False) _ 0), spaced_refl.
Qed.

(** ** One page *)

Section leaf.
Context (s : kernel) (x : aspace) (dst src xf pt : Z).
Context (Hok : space_ok s x) (Hpt : as_tables x !! table_path dst = Some pt) (Hxf : 0 <= xf < 32).

Local Abbreviation v := (Z.lor (Z.land src ADDR_MASK) xf).
Local Abbreviation m4 := (write64 (k_mem s) (entry pt (pt_idx dst)) v).

Lemma leaf_entry y : within (entry pt (pt_idx dst)) 8 y -> in_tables (as_tables x) y.
Proof. intros Hy. exists (table_path dst), pt. split; [done|]. by apply (entry_in_table pt (pt_idx dst)); [apply idx_range|]. Qed.

Lemma leaf_changes : changes (within (entry pt (pt_idx dst)) 8) (k_mem s) m4.
Proof. apply changes_write64. Qed.

Lemma leaf_kept a : (forall y, within a 8 y -> W y) -> read64 m4 a = read64 (k_mem s) a.
Proof.
  intros Ha. eapply changes_read64; [exact leaf_changes|]. intros y Hy%Ha Hy'%leaf_entry. by destruct (ua_tables _ _ (so_apart _ _ Hok) y Hy').
Qed.

Lemma leaf_kwalk va : kwalk (set_mem m4 s) va = kwalk s va.
Proof.
  apply (kwalk_frame s (as_kernel x) m4 _ va (so_kernel _ _ Hok) leaf_changes).
  intros y Hy%leaf_entry Hk. by destruct (ua_tables _ _ (so_apart _ _ Hok) y Hy).
Qed.

Lemma leaf_ok : space_ok (set_mem m4 s) x.
Proof.
  destruct (so_apart _ _ Hok) as [AH AM AT AK]. pose proof (so_tables _ _ Hok) as HT.
  assert (Hkt : forall va, ktrans (set_mem m4 s) va = ktrans s va) by (intros va; unfold ktrans; by rewrite leaf_kwalk).
  split.
  - apply (heap_inv_frame s _ m4 _ (so_heap _ _ Hok) leaf_changes). intros y Hy%leaf_entry Hh. by destruct (AH y Hh).
  - apply (paging_inv_frame s _ m4 _ (so_kernel _ _ Hok) leaf_changes). intros y Hy%leaf_entry Hk. by destruct (AT y Hy).
  - exact (so_window _ _ Hok).
  - apply (in_kernel_same s); [apply (so_current _ _ Hok)|done|done|]. intros y Hy. apply (ch_same _ _ _ leaf_changes).
    intros Hy'%leaf_entry. by destruct (AT y Hy').
  - eapply kvmap_frame; [exact (so_map _ _ Hok)|exact leaf_changes|]. intros y Hy. split; [|by apply (kvmap_apart _ _ _ _ _ _ _ (so_map _ _ Hok))].
    intros Hy'%leaf_entry. by destruct (AM y Hy).
  - rewrite <- (so_addr _ _ Hok). apply leaf_kept. intros y Hy. apply (so_fields _ _ Hok). unfold within, SPACE_ADDR in *. lia.
  - rewrite <- (so_physmap _ _ Hok). apply leaf_kept. intros y Hy. apply (so_fields _ _ Hok). unfold within, SPACE_PHYSMAP in *. lia.
  - apply (so_fields _ _ Hok).
  - apply (write_leaf_tables HT (table_path dst)); [done|by apply idx_range|done].
  - intros P w HP. rewrite (so_seen _ _ Hok P w HP). split; intros (q & H1 & H2 & H3); exists q; [by rewrite Hkt|by rewrite Hkt in H3].
  - apply (so_words _ _ Hok).
  - intros q u j e Hq Hlq Hj He. simpl in He. rewrite (write_other HT (table_path dst) pt (pt_idx dst) v Hpt) with (q := q) in He; [|by apply idx_range|done|done|].
    + intros Hpr Hno. destruct (so_foreign _ _ Hok q u j e Hq Hlq Hj He Hpr Hno) as (H1 & H2 & H3). split; [done|]. split; [done|].
      intros w. rewrite Hkt. apply H3.
    + intros [= -> _]. simpl in Hlq. lia.
  - intros E w P. rewrite Hkt. by apply (so_first _ _ Hok E).
  - destruct (so_free _ _ Hok) as [Fm Ff]. split; [intros w; rewrite leaf_kwalk; apply Fm|intros w u P; rewrite !Hkt; apply Ff].
  - by split.
Qed.

Lemma leaf_spaced : spaced (pages dst 1) 0 s x (set_mem m4 s) x /\
  forall va, vpn va = vpn dst -> swalk (set_mem m4 s) x root va = pte src xf.
Proof.
  pose proof (so_tables _ _ Hok) as HT. pose proof (pte_u64 src xf Hxf) as Hv.
  assert (Hi : 0 <= pt_idx dst < 512) by by apply idx_range.
  pose proof (fun va => write_leaf_walk HT (table_path dst) pt (pt_idx dst) v Hpt Hi Hv va eq_refl) as Hwalk.
  split.
  - split; [exact leaf_ok| |change (brk (k_pg (set_mem m4 s))) with (brk (k_pg s)); lia|lia|done| |intros va _; apply leaf_kwalk|done|done| |].
    + exists m4, (brk (k_pg s)), (k_dev s). by destruct s as [? ? ? ? [] ? ? ? ?].
    + intros va Hva. unfold swalk. etrans; [apply Hwalk|]. rewrite bool_decide_eq_false_2; [done|].
      intros [E1 E2]. apply Hva. rewrite pages_one. by apply vpn_inj.
    + eapply changes_weaken; [exact leaf_changes|]. intros y Hy%leaf_entry. unfold space_bytes. tauto.
    + apply (write_other HT (table_path dst) pt (pt_idx dst) v Hpt Hi [] root 511); [apply HT|lia|by intros [= ? _]].
  - intros va Hva. apply vpn_path in Hva as [E1 E2]. unfold swalk. etrans; [apply Hwalk|]. by rewrite bool_decide_eq_true_2.
Qed.
End leaf.

(** The body of the loop of [map_pages]. *)
Definition map_page (fuel : nat) (dst src xf : Z) : M kernel unit :=
  pdpt ← map_table fuel space root (pml4_idx dst);
  pd ← map_table fuel space pdpt (pdpt_idx dst);
  pt ← map_table fuel space pd (pd_idx dst);
  store64 (entry pt (pt_idx dst)) (Z.lor (Z.land src ADDR_MASK) xf).

Definition page_mapped (k : Z) (s : kernel) (x : aspace) (dst src xf : Z) (s' : kernel) (x' : aspace) : Prop :=
  spaced (pages dst 1) k s x s' x' /\ is_Some (as_tables x' !! table_path dst) /\
  forall va, vpn va = vpn dst -> swalk s' x' root va = pte src xf.

Lemma leaf_run s0 x0 k s x dst src xf pt : space_ok s x -> as_tables x !! table_path dst = Some pt -> 0 <= xf < 32 ->
  spaced (fun _ => False) k s0 x0 s x ->
  exists s', store64 (entry pt (pt_idx dst)) (Z.lor (Z.land src ADDR_MASK) xf) s = Done tt s' /\ page_mapped k s0 x0 dst src xf s' x.
Proof.
  intros Hok Hpt Hxf Hsp. destruct (leaf_spaced s x dst src xf pt Hok Hpt Hxf) as [Hl Hw].
  eexists. split; [apply kstore64; eapply (entry_mapped (so_tables _ _ Hok)); [exact Hpt|by apply idx_range]|].
  split; [|split; [by eexists|exact Hw]]. rewrite <- (Z.add_0_r k). eapply spaced_trans; [|exact Hl].
  by eapply spaced_weaken; [| |exact Hsp].
Qed.

(** The tables of a page. *)
Lemma path_tables s x dst pt : space_ok s x -> as_tables x !! table_path dst = Some pt ->
  exists pdpt pd, as_tables x !! [pml4_idx dst] = Some pdpt /\ as_tables x !! [pml4_idx dst; pdpt_idx dst] = Some pd.
Proof.
  intros Hok H3. pose proof (so_tables _ _ Hok) as HT.
  destruct (ta_closed _ _ _ _ HT [pml4_idx dst; pdpt_idx dst] (pd_idx dst) pt H3) as [[pd H2] _].
  destruct (ta_closed _ _ _ _ HT [pml4_idx dst] (pdpt_idx dst) pd H2) as [[pdpt H1] _]. by exists pdpt, pd.
Qed.

Lemma map_page_hit s x dst src xf pt : space_ok s x -> 0 <= xf < 32 -> as_tables x !! table_path dst = Some pt ->
  exists s', eventually (fun f => map_page f dst src xf) s (Done tt s') /\ page_mapped 0 s x dst src xf s' x.
Proof.
  intros Hok Hxf H3. destruct (path_tables s x dst pt Hok H3) as (pdpt & pd & H1 & H2).
  destruct (leaf_run s x 0 s x dst src xf pt Hok H3 Hxf) as (s' & Hrun & Hm); [by apply spaced_refl|].
  exists s'. split; [|exact Hm]. unfold map_page.
  eapply (eventually_bind (fun f => map_table f space root (pml4_idx dst))).
  { apply (map_table_hit s x []); [done|apply (so_tables _ _ Hok)|simpl; lia|by apply idx_range|exact H1]. }
  eapply (eventually_bind (fun f => map_table f space pdpt (pdpt_idx dst))).
  { apply (map_table_hit s x [pml4_idx dst]); [done|done|simpl; lia|by apply idx_range|exact H2]. }
  eapply (eventually_bind (fun f => map_table f space pd (pd_idx dst))).
  { apply (map_table_hit s x [pml4_idx dst; pdpt_idx dst]); [done|done|simpl; lia|by apply idx_range|exact H3]. }
  by apply eventually_const.
Qed.

(** One level further down. *)
Lemma descend_space k s0 x0 s x p t i : spaced (fun _ => False) k s0 x0 s x -> as_tables x !! p = Some t -> (length p < 3)%nat ->
  0 <= i < 512 -> ~ (p = [] /\ i = 511) -> Z.of_nat (size (as_frames x0)) + k < cap ->
  brk (k_pg s0) + (k + 1) * (9 * 4096) <= miniheap_end (k_pg s0) ->
  (exists t' s' x', eventually (fun f => map_table f space t i) s (Done t' s') /\ as_tables x' !! (p ++ [i]) = Some t' /\
     spaced (fun _ => False) (k + 1) s0 x0 s' x') \/
  eventually (fun f => map_table f space t i) s (Stop Panic).
Proof.
  intros Hsp Hp Hl Hi Hu Hsize Hroom. pose proof (sd_size _ _ _ _ _ _ Hsp). pose proof (sd_brk _ _ _ _ _ _ Hsp).
  destruct (spaced_globals _ _ _ _ _ _ Hsp) as [_ Eend].
  destruct (map_table_spec s x p t i (sd_ok _ _ _ _ _ _ Hsp) Hp Hl Hi Hu) as [(t' & s' & x' & Hrun & Ht & H1)|Hp']; [lia|lia|left|by right].
  exists t', s', x'. split; [done|]. split; [done|]. by eapply spaced_trans.
Qed.

Lemma map_page_new s x dst src xf : space_ok s x -> 0 <= xf < 32 -> pml4_idx dst <> 511 ->
  Z.of_nat (size (as_frames x)) + 3 <= cap -> brk (k_pg s) + 3 * (9 * 4096) <= miniheap_end (k_pg s) ->
  (exists s' x', eventually (fun f => map_page f dst src xf) s (Done tt s') /\ page_mapped 3 s x dst src xf s' x') \/
  eventually (fun f => map_page f dst src xf) s (Stop Panic).
Proof.
  intros Hok Hxf Hu Hsize Hroom. unfold map_page.
  destruct (descend_space 0 s x s x [] root (pml4_idx dst)) as [(t1 & s1 & x1 & R1 & T1 & H1)|Hp];
    [by apply spaced_refl|apply (so_tables _ _ Hok)|simpl; lia|by apply idx_range|by intros [_ ?]|lia|lia| |].
  2:{ right. by apply (eventually_bind_stop (fun f => map_table f space root (pml4_idx dst))). }
  destruct (descend_space 1 s x s1 x1 [pml4_idx dst] t1 (pdpt_idx dst)) as [(t2 & s2 & x2 & R2 & T2 & H2)|Hp];
    [done|done|simpl; lia|by apply idx_range|by intros [? _]|lia|lia| |].
  2:{ right. eapply (eventually_bind (fun f => map_table f space root (pml4_idx dst))); [exact R1|].
      by apply (eventually_bind_stop (fun f => map_table f space t1 (pdpt_idx dst))). }
  destruct (descend_space 2 s x s2 x2 [pml4_idx dst; pdpt_idx dst] t2 (pd_idx dst)) as [(t3 & s3 & x3 & R3 & T3 & H3)|Hp];
    [done|done|simpl; lia|by apply idx_range|by intros [? _]|lia|lia| |].
  2:{ right. eapply (eventually_bind (fun f => map_table f space root (pml4_idx dst))); [exact R1|].
      eapply (eventually_bind (fun f => map_table f space t1 (pdpt_idx dst))); [exact R2|].
      by apply (eventually_bind_stop (fun f => map_table f space t2 (pd_idx dst))). }
  left. destruct (leaf_run s x 3 s3 x3 dst src xf t3 (sd_ok _ _ _ _ _ _ H3) T3 Hxf H3) as (s' & Hrun & Hm).
  exists s', x3. split; [|exact Hm].
  eapply (eventually_bind (fun f => map_table f space root (pml4_idx dst))); [exact R1|].
  eapply (eventually_bind (fun f => map_table f space t1 (pdpt_idx dst))); [exact R2|].
  eapply (eventually_bind (fun f => map_table f space t2 (pd_idx dst))); [exact R3|].
  by apply eventually_const.
Qed.

(** A page of a run of [n + 1]. *)
Lemma map_page_spec s x dst src xf n k : space_ok s x -> 0 <= xf < 32 -> 0 <= dst -> 0 <= n -> pml4_idx dst <> 511 ->
  loop_room (as_tables x) dst (n + 1) k -> Z.of_nat (size (as_frames x)) + k <= cap ->
  brk (k_pg s) + k * (9 * 4096) <= miniheap_end (k_pg s) ->
  (exists s' x' j, eventually (fun f => map_page f dst src xf) s (Done tt s') /\ 0 <= j <= k /\
     loop_room (as_tables x') (dst + 4096) n (k - j) /\ page_mapped j s x dst src xf s' x') \/
  eventually (fun f => map_page f dst src xf) s (Stop Panic).
Proof.
  intros Hok Hxf Hd Hn Hu [Hk Hr] Hsize Hroom. pose proof (groups_step dst n Hd Hn) as Hg.
  assert (Hg1 : 1 <= groups dst (n + 1)) by (unfold groups; divlia).
  destruct (decide (is_Some (as_tables x !! table_path dst))) as [[pt Hpt]|Hno].
  - left. destruct (map_page_hit s x dst src xf pt Hok Hxf Hpt) as (s' & Hrun & Hm). exists s', x, 0.
    split; [done|]. split; [lia|]. split; [|done].
    split; [lia|]. destruct Hg as [[-> ->]| ->]; [rewrite decide_True by (by exists pt); lia|case_decide; lia].
  - destruct (map_page_new s x dst src xf Hok Hxf Hu) as [(s' & x' & Hrun & Hm)|Hp]; [lia|lia|left|by right].
    exists s', x', 3. split; [done|]. split; [lia|]. split; [|done]. split; [lia|].
    destruct Hg as [[-> ->]| ->]; [rewrite decide_True by apply Hm; lia|case_decide; lia].
Qed.

(** ** A range of pages *)

Lemma map_loop_step a f dst src de se xf s : dst < de -> src < se ->
  map_loop (S a) f space root dst src de se xf s =
  (map_page f dst src xf ;; map_loop a f space root (add64 dst PAGE_SIZE) (add64 src PAGE_SIZE) de se xf) s.
Proof.
  intros Hd Hs. cbn [map_loop]. rewrite !(proj2 (Z.ltb_lt _ _)) by lia. cbn [andb].
  unfold map_page, mbind, M_bind. repeat case_match; done.
Qed.

(** Whatever the fuel of the calls, [n + 1] rounds end the loop. *)
Definition looped (n : nat) (dst src de se xf : Z) (s : kernel) (r : res kernel unit) : Prop :=
  exists N, forall a f, (n < a)%nat -> (N <= f)%nat -> map_loop a f space root dst src de se xf s = r.

Lemma looped_done n dst src de se xf s s' r : dst < de -> src < se -> de <= 2 ^ 64 - 4096 -> se <= 2 ^ 64 - 4096 -> 0 <= dst -> 0 <= src ->
  eventually (fun f => map_page f dst src xf) s (Done tt s') -> looped n (dst + 4096) (src + 4096) de se xf s' r ->
  looped (S n) dst src de se xf s r.
Proof.
  intros Hd Hs Hde Hse Hd0 Hs0 [N1 H1] [N2 H2]. exists (max N1 N2). intros [|a] f Ha Hf; [lia|].
  rewrite map_loop_step, (run_bind _ _ _ _ _ (H1 f ltac:(lia))) by done. change PAGE_SIZE with 4096.
  rewrite !add64_small by lia. apply H2; lia.
Qed.

Lemma looped_stop n dst src de se xf s e : dst < de -> src < se ->
  eventually (fun f => map_page f dst src xf) s (Stop e) -> looped (S n) dst src de se xf s (Stop e).
Proof.
  intros Hd Hs [N1 H1]. exists N1. intros [|a] f Ha Hf; [lia|]. rewrite map_loop_step by done.
  unfold mbind, M_bind. by rewrite H1.
Qed.

(** The loop has mapped [n] pages. *)
Definition range_mapped (n k : Z) (s : kernel) (x : aspace) (dst src xf : Z) (s' : kernel) (x' : aspace) : Prop :=
  spaced (pages dst n) k s x s' x' /\
  forall i va, 0 <= i < n -> vpn va = vpn (dst + 4096 * i) -> swalk s' x' root va = pte (src + 4096 * i) xf.

Lemma range_mapped_cons n j k s x dst src xf s1 x1 s' x' : 0 <= n < 2 ^ 36 ->
  page_mapped j s x dst src xf s1 x1 -> range_mapped n (k - j) s1 x1 (dst + 4096) (src + 4096) xf s' x' ->
  range_mapped (n + 1) k s x dst src xf s' x'.
Proof.
  intros Hn (H1 & _ & Hw1) [H2 Hw2]. split.
  - replace k with (j + (k - j)) by lia. eapply spaced_trans.
    + eapply (spaced_weaken _ (pages dst (n + 1))); [|reflexivity|exact H1]. intros v (i & Hi & ->). exists i. split; [lia|done].
    + eapply (spaced_weaken _ (pages dst (n + 1))); [|reflexivity|exact H2]. intros v (i & Hi & ->). exists (i + 1). split; [lia|]. f_equal. lia.
  - intros i va Hi Hva. destruct (decide (i = 0)) as [->|Hne].
    + rewrite !Z.mul_0_r, !Z.add_0_r in *. rewrite (sd_walk _ _ _ _ _ _ H2); [by apply Hw1|].
      intros (i & Hi' & E). rewrite Hva in E. apply (vpn_step dst (i + 1)); [lia|]. rewrite E. f_equal. lia.
    + replace (src + 4096 * i) with (src + 4096 + 4096 * (i - 1)) by lia. apply Hw2; [lia|]. rewrite Hva. f_equal. lia.
Qed.

Lemma below_kernel dst : 0 <= dst < 511 * 2 ^ 39 -> pml4_idx dst <> 511.
Proof. intros Hd. unfold pml4_idx. rewrite idx_eq by lia. divlia. Qed.

Lemma map_loop_spec n s x dst src de se xf k : space_ok s x -> 0 <= xf < 32 -> rounds (Z.of_nat n) dst src de se ->
  0 <= dst -> 0 <= src -> dst + 4096 * Z.of_nat n <= 511 * 2 ^ 39 -> de <= 2 ^ 64 - 4096 -> se <= 2 ^ 64 - 4096 ->
  loop_room (as_tables x) dst (Z.of_nat n) k -> Z.of_nat (size (as_frames x)) + k <= cap ->
  brk (k_pg s) + k * (9 * 4096) <= miniheap_end (k_pg s) ->
  (exists s' x', looped n dst src de se xf s (Done tt s') /\ range_mapped (Z.of_nat n) k s x dst src xf s' x') \/
  looped n dst src de se xf s (Stop Panic).
Proof.
  intros Hok Hxf. revert s x dst src k Hok. induction n as [|n IH]; intros s x dst src k Hok Hr Hd Hs Hdn Hde Hse Hlr Hsize Hroom.
  - left. exists s, x. split; [|split; [|intros; lia]].
    + exists 0%nat. intros [|a] f Ha _; [lia|]. destruct Hr as (_ & _ & Hr). cbn [map_loop].
      by replace ((dst <? de) && (src <? se)) with false by (symmetry; apply andb_false_iff; lia).
    + destruct Hlr as [Hk _]. by apply (spaced_weaken (pages dst (Z.of_nat 0)) _ 0), spaced_refl.
  - destruct (proj1 (proj2 Hr) 0 ltac:(lia)) as [Hg1 Hg2]. rewrite Z.mul_0_r, Z.add_0_r in Hg1, Hg2.
    replace (Z.of_nat (S n)) with (Z.of_nat n + 1) in * by lia.
    destruct (map_page_spec s x dst src xf (Z.of_nat n) k) as [(s1 & x1 & j & Hrun & Hj & Hlr1 & H1)|Hp]; try done;
      [lia|apply below_kernel; lia| |right; by apply looped_stop].
    pose proof (proj1 H1) as Hsp. pose proof (sd_brk _ _ _ _ _ _ Hsp). pose proof (sd_size _ _ _ _ _ _ Hsp).
    destruct (spaced_globals _ _ _ _ _ _ Hsp) as [_ Eend].
    destruct (IH s1 x1 (dst + 4096) (src + 4096) (k - j)) as [(s2 & x2 & Hl & H2)|Hp]; try done; try lia;
      [exact (sd_ok _ _ _ _ _ _ Hsp)|by apply rounds_next; [|lia]| |].
    + left. exists s2, x2. split; [by eapply looped_done|]. by apply (range_mapped_cons _ j k s x dst src xf s1 x1); [lia|..].
    + right. by eapply looped_done.
Qed.

Lemma map_pages_spec s x dst src len flags : space_ok s x -> 0 <= dst -> 0 <= src -> 0 <= len < 2 ^ 48 ->
  dst + len < 2 ^ 64 - 2 ^ 13 -> src + len < 2 ^ 64 - 2 ^ 13 ->
  let n := page_count dst src len in dst + 4096 * n <= 511 * 2 ^ 39 ->
  Z.of_nat (size (as_frames x)) + tables_room n <= cap ->
  brk (k_pg s) + tables_room n * (9 * 4096) <= miniheap_end (k_pg s) ->
  (exists s' x', eventually (fun f => map_pages f space dst src len flags) s (Done tt s') /\
     range_mapped n (tables_room n) s x dst src (x86_flags flags) s' x') \/
  eventually (fun f => map_pages f space dst src len flags) s (Stop Panic).
Proof.
  intros Hok Hd Hs Hl Hdl Hsl n Hdn Hsize Hroom.
  assert (Hn0 : 0 <= n) by (unfold n, page_count; rewrite !page_end_eq by (done || lia); divlia).
  pose proof (page_count_rounds dst src len Hd Hs ltac:(lia) ltac:(lia) ltac:(lia)) as Hr. fold n in Hr.
  assert (Hn : n = Z.of_nat (Z.to_nat n)) by lia.
  assert (Hstart : forall r, looped (Z.to_nat n) dst src (page_end dst len) (page_end src len) (x86_flags flags) s r ->
    eventually (fun f => map_pages f space dst src len flags) s r).
  { intros r [N H]. exists (max N (S (Z.to_nat n))). intros f Hf. unfold map_pages.
    rewrite (run_bind _ _ _ _ _ (kload64 s _ _ (so_addr _ _ Hok))). apply H; lia. }
  rewrite Hn in Hr |- *. destruct (map_loop_spec (Z.to_nat n) s x dst src (page_end dst len) (page_end src len) (x86_flags flags)
    (tables_room (Z.of_nat (Z.to_nat n))) Hok) as [(s' & x' & Hrun & H)|Hp]; rewrite <- ?Hn; try done; try lia.
  - apply x86_flags_range.
  - by rewrite <- Hn in Hr.
  - rewrite page_end_eq by lia; divlia.
  - rewrite page_end_eq by lia; divlia.
  - by apply tables_room_ok.
  - left. exists s', x'. split; [by apply Hstart|]. by rewrite <- Hn in H.
  - right. by apply Hstart.
Qed.

End space.

(** ** What a process sees *)

(** The physical address the processor finds for an address of the space. *)
Definition strans (s : kernel) (x : aspace) (root va : Z) : option Z := (fun e => phys_of e va) <$> swalk s x root va.

(** ** A space to map into

    The pool at 65536 has 128 clean pages and the kernel maps its first 576 KiB to
    themselves, with tables from a root at 0x100000 and the mini heap behind it.  The space
    at 0xA000 has a zeroed root table at 0x9000 and an empty map of 16 cells at 0xC010. *)
Definition space_demo_mem : gmap Z Z :=
  write64 (write64 (write64 (write64 (write64
    (zeros 0x100000 0x80000 (zeros 0x9000 0x4000 (zeros 32768 8 (demo_mem 0x80000))))
    (0xA000 + SPACE_ADDR) 0x9000) (0xA000 + SPACE_PHYSMAP) 0xC010)
    0xC000 400) (0xC000 + CANARY) (canary 0xC000)) (0xC010 + MAP_CAP) 16.

Definition space_demo : kernel :=
  quiet_kernel space_demo_mem (PageAllocGlobals 4096 1 false) (CpuGlobals 32768 1 0 0) (ProcGlobals 0 false 0 0 false)
    (PagingGlobals 0x101000 0x180000 false 0x40000000 false 0 0 0x100000 0 0x30000000 w64).

Definition space_demo_F (x : Z) : Prop := within 4096 24 x \/ within 65536 0x80000 x \/ within 32768 8 x.
Definition space_demo_cells : slots := fun _ => None.

#[local] Opaque zeros.
Ltac demo_outside := unfold within, SPACE_ADDR, SPACE_PHYSMAP, CANARY, NEXT, MAP_CAP in *; lia.

Lemma space_demo_written x : within 0xA000 16 x \/ within 0xC000 16 x \/ within 0xC018 8 x \/
  space_demo_mem !! x = zeros 0x100000 0x80000 (zeros 0x9000 0x4000 (zeros 32768 8 (demo_mem 0x80000))) !! x.
Proof.
  destruct (decide (0xA000 <= x < 0xA010 \/ 0xC000 <= x < 0xC010 \/ 0xC018 <= x < 0xC020)) as [|Hn]; [unfold within; lia|].
  do 3 right. unfold space_demo_mem. by rewrite !write64_lookup_ne by demo_outside.
Qed.

Lemma space_demo_zero x : 0x100000 <= x < 0x180000 \/ 0x9000 <= x < 0xA000 \/ 0xC020 <= x < 0xD000 \/ 0xC010 <= x < 0xC018 ->
  space_demo_mem !! x = Some 0.
Proof.
  intros Hx. destruct (space_demo_written x) as [H|[H|[H| ->]]]; try (unfold within in H; lia).
  destruct (decide (0x100000 <= x)); [apply lookup_zeros; lia|].
  rewrite (ch_same _ _ _ (changes_zeros 0x100000 0x80000 _ ltac:(lia))) by (unfold within; lia). apply lookup_zeros. lia.
Qed.

Lemma space_demo_changes : changes (fun x => within 0x100000 0x80000 x \/ within 0x9000 0x4000 x \/ within 32768 8 x)
  (demo_mem 0x80000) space_demo_mem.
Proof.
  unfold space_demo_mem. do 5 (eapply changes_then_write; [|intros; demo_outside]).
  eapply changes_trans; [|eapply changes_weaken; [apply (changes_zeros 0x100000 0x80000); lia|by left]].
  eapply changes_trans; [|eapply changes_weaken; [apply (changes_zeros 0x9000 0x4000); lia|by right; left]].
  eapply changes_weaken; [apply (changes_zeros 32768 8); lia|by right; right].
Qed.

Lemma space_demo_mapped : mapped space_demo_mem 0x9000 0x4000.
Proof.
  unfold space_demo_mem. do 5 apply write64_mapped.
  eapply changes_mapped; [apply (changes_zeros 0x100000 0x80000); lia|]. apply mapped_zeros. lia.
Qed.

Lemma space_demo_reads : read64 space_demo_mem (0xA000 + SPACE_ADDR) = Some 0x9000 /\
  read64 space_demo_mem (0xA000 + SPACE_PHYSMAP) = Some 0xC010 /\ allocated_at space_demo_mem 0xC000 400 /\
  read64 space_demo_mem (0xC010 + MAP_CAP) = Some 16.
Proof.
  pose proof (canary_range 0xC000). unfold allocated_at, space_demo_mem, SPACE_ADDR, SPACE_PHYSMAP, CANARY, NEXT, MAP_CAP.
  by autorewrite with mem.
Qed.

#[local] Opaque space_demo_mem.

Lemma space_demo_cell : read64 space_demo_mem 32768 = Some 0 /\ mapped space_demo_mem 32768 8.
Proof.
  assert (Hz : forall x, within 32768 8 x -> space_demo_mem !! x = Some 0).
  { intros x Hx. destruct (space_demo_written x) as [H|[H|[H| ->]]]; try (unfold within in *; lia).
    rewrite (ch_same _ _ _ (changes_zeros 0x100000 0x80000 _ ltac:(lia))) by (unfold within in *; lia).
    rewrite (ch_same _ _ _ (changes_zeros 0x9000 0x4000 _ ltac:(lia))) by (unfold within in *; lia).
    apply lookup_zeros. unfold within in Hx. lia. }
  split; [by apply read64_zero|]. intros x Hx. exists 0. by apply Hz.
Qed.

Lemma demo_mem_even x : within 65536 0x80000 x -> (8 | x) -> exists b, demo_mem 0x80000 !! x = Some b /\ (2 | b).
Proof.
  intros Hx H8. assert (H : evens (fun _ => False) (zeros 65536 0x80000 (zeros 4096 24 ∅)) (demo_mem 0x80000)).
  { unfold demo_mem. do 5 (apply evens_store; [|by apply Z.mod_divide..]). apply evens_refl. }
  destruct (H x H8) as [->|He]; [tauto| |done]. exists 0. split; [apply lookup_zeros; unfold within in Hx; lia|by exists 0].
Qed.

Lemma space_demo_heap : heap_inv space_demo space_demo_F.
Proof.
  exists (pa_footprint space_demo [demo_pool 0x80000]), []. split_and!.
  - exists [demo_pool 0x80000]. split_and!; [|done|done| |].
    + apply (repr_same (set_mem space_demo_mem (demo 0x80000))); [done|done|].
      eapply repr_frame; [apply demo_repr; [by exists 19|lia]|exact space_demo_changes|].
      intros x Hx Hf%demo_footprint; [|done]. unfold within in *. lia.
    + intros a. simpl. rewrite list_elem_of_singleton. intros ->. by exists 16.
    + intros x (p & Hp & b & Hb & Hw) H8. apply list_elem_of_singleton in Hp as ->. apply list_elem_of_singleton in Hb as ->.
      destruct (demo_mem_even x Hw H8) as (b & Hb & He). exists b. split; [|done]. rewrite <- Hb.
      apply (ch_same _ _ _ space_demo_changes). simpl in Hw. unfold within in *. lia.
  - apply heap_at_nil; [apply space_demo_cell|apply space_demo_cell].
  - intros x Hf [Hx|Hx%in_exts_nil]; [|done]. apply demo_footprint in Hf; [|done].
    change (within 32768 8 x) in Hx. unfold within in *. lia.
  - by constructor.
  - intros x. unfold space_demo_F. rewrite demo_footprint by done. change (cpu_state space_demo) with 32768.
    unfold heap_fp. split; [intros [H|[H|H]]; [by left; left|by left; right|by right; left]|].
    intros [[H|H]|[H|H%in_exts_nil]]; [by left|by right; left|by right; right|done].
Qed.

Lemma space_demo_map : kvmap space_demo space_demo_F (within 0xC000 416) 0xC010 16 ∅.
Proof.
  destruct space_demo_reads as (_ & _ & Hblk & Hcap).
  assert (Hb : forall p b, block_of 0xC010 16 space_demo_cells p = Some b -> p = Table /\ b = (0xC010, 400)).
  { intros [|i|i] b; [|discriminate..]. intros [= <-]. split; [reflexivity|]. vm_compute. reflexivity. }
  exists 0, space_demo_cells. split; [|split; [|split; [|split]]].
  - split.
    + apply read64_zero. intros x Hx. apply space_demo_zero. unfold within, MAP_MAX in Hx. lia.
    + exact Hcap.
    + lia.
    + intros i Hi _. apply read64_zero. intros x Hx. apply space_demo_zero.
      unfold within, cell_addr, MAP_CELL, CELL_SIZE, CELL_K in Hx. lia.
    + discriminate.
    + split.
      * intros p b [_ ->]%Hb. split; cbn [fst snd]; unfold HDRSIZE; [exact Hblk|lia|lia|lia| | |by exists 3072].
        -- eapply mapped_sub; [exact space_demo_mapped|lia|lia].
        -- intros x Hx Hf. unfold space_demo_F, within in *. lia.
      * intros p q b c x Hpq [-> _]%Hb [-> _]%Hb. by destruct Hpq.
    + done.
  - intros x. split.
    + intros Hx. exists Table, (0xC010, 400). split; [reflexivity|]. unfold block_bytes, within, HDRSIZE in *. simpl. lia.
    + intros (p & b & [_ ->]%Hb & Hx). unfold block_bytes, within, HDRSIZE in *. simpl in Hx. lia.
  - intros k v. split; [done|]. by intros (i & e & Hi & _).
  - intros i j e f Hi. discriminate Hi.
  - by intros [].
Qed.

Lemma space_demo_inv : paging_inv space_demo {[ [] := 0x100000 ]}.
Proof.
  apply (fresh_paging_inv space_demo 0x100000 0x180000); [reflexivity..|by exists 256|lia|lia|lia|].
  intros x Hx. apply space_demo_zero. lia.
Qed.

(** Mapping the first [n] pages to themselves. *)
Lemma identity_mapped fuel s T len : paging_inv s T -> (4096 | len) -> 0 <= len < 2 ^ 47 -> len / 4096 < Z.of_nat fuel ->
  brk (k_pg s) + tables_room (len / 4096) * 4096 <= miniheap_end (k_pg s) ->
  exists s' T', grown (pages 0 (len / 4096)) (tables_room (len / 4096)) s T s' T' /\
    forall va, 0 <= va < len -> ktrans s' va = Some va.
Proof.
  intros HI [q ->] Hl Hf Hroom. rewrite Z.div_mul in * by lia.
  assert (Hn : page_count 0 0 (q * 4096) = q).
  { rewrite page_count_aligned by (lia || by exists 0). rewrite Z.div_add_l, Z.div_small; lia. }
  pose proof (premap_pages_spec fuel s T 0 0 (q * 4096) PAGE_PRESENT HI ltac:(lia) ltac:(lia) ltac:(lia) ltac:(lia) ltac:(lia)) as H.
  cbv zeta in H. rewrite Hn in H. apply wp_done in H as ([] & s' & _ & T' & HG & Hw); [|done..].
  exists s', T'. split; [done|]. intros va Hva. unfold ktrans. rewrite (Hw (va / 4096)); [|divlia|].
  - rewrite pte_phys by (done || divlia). f_equal. divlia.
  - unfold vpn. f_equal. change (2 ^ 12) with 4096. divlia.
Qed.

Lemma space_demo_paging y : paging_bytes space_demo {[ [] := 0x100000 ]} y -> 0x100000 <= y < 0x180000.
Proof. intros [Hy%root_only|Hy]; [unfold within in Hy; lia|change (0x101000 <= y < 0x180000) in Hy; lia]. Qed.

(** No free page is the one a hash map of 16 cells cannot take first. *)
Lemma space_demo_hash v : space_demo_F v -> (4096 | v) -> hash (word_bytes v) mod 16 <> 16 - 1.
Proof.
  intros Hv [q ->]. assert (Hq : q ∈ [1; 8] ++ seqZ 16 128).
  { rewrite elem_of_app, elem_of_seqZ, !elem_of_cons. unfold space_demo_F, within in Hv. lia. }
  assert (H : Forall (fun q => hash (word_bytes (q * 4096)) mod 16 <> 16 - 1) ([1; 8] ++ seqZ 16 128)).
  { apply (bool_decide_unpack _). vm_compute. exact Logic.I. }
  rewrite Forall_forall in H. exact (H q Hq).
Qed.

(** Once the kernel has mapped the memory to itself. *)
Lemma space_demo_ok V k s T : grown V k space_demo {[ [] := 0x100000 ]} s T ->
  (forall va, 0 <= va < 0x90000 -> ktrans s va = Some va) ->
  space_ok 0xA000 0x9000 0xC010 16 0 (within 0xA000 16) s (ASpace space_demo_F (within 0xC000 416) T {[ [] := 0x9000 ]} ∅).
Proof.
  intros HG Hid.
  destruct (grown_globals _ _ _ _ _ _ HG) as (Etmp & Ealias & Ephys).
  change (page_tmp (k_pg space_demo)) with 0x30000000 in Etmp. change (alias (k_pg space_demo)) with w64 in Ealias.
  assert (Hpb : forall y, paging_bytes s T y -> 0x100000 <= y < 0x180000).
  { intros y Hy. by apply space_demo_paging, (grown_paging_bytes _ _ _ _ _ _ _ HG). }
  assert (HC : changes (within 0x100000 0x80000) space_demo_mem (k_mem s)).
  { eapply changes_weaken; [exact (grown_changes _ _ _ _ _ _ HG)|]. intros y Hy%space_demo_paging. unfold within. lia. }
  assert (Hread : forall a, a + 8 <= 0x100000 -> read64 (k_mem s) a = read64 space_demo_mem a).
  { intros a Ha. eapply changes_read64; [exact HC|]. unfold within. lia. }
  assert (Hlow : forall y, space_demo_F y -> 0 < y < 0x90000) by (unfold space_demo_F, within; lia).
  assert (Hwalk : forall v, 0 < v < 0x90000 -> is_Some (kwalk s v) /\ vpn v <> vpn (page_tmp (k_pg s)) /\ v <> 0).
  { intros v Hv. split_and!; [|rewrite Etmp; unfold vpn; divlia|lia]. specialize (Hid v ltac:(lia)). unfold ktrans in Hid.
    destruct (kwalk s v); [by eexists|done]. }
  destruct space_demo_reads as (Haddr & Hphys & _). split; cbn [as_heap as_map as_kernel as_tables as_frames].
  - apply (heap_inv_grown _ _ _ _ _ _ _ space_demo_heap HG). intros y Hy%Hlow Hp%space_demo_paging. lia.
  - exact (gr_inv _ _ _ _ _ _ HG).
  - unfold image_window. rewrite Etmp, Ealias. split; [by exists 0x30000|]. split; [lia|]. intros P _. rewrite Ephys.
    unfold PHYSK2VK, add64, sub64. cbn -[Z.pow w64]. by rewrite Z.sub_0_r, Z.add_0_r, w64_idem.
  - split; left; [split; [|done]|done]. destruct (gr_state _ _ _ _ _ _ HG) as (m & b & d & ->). reflexivity.
  - apply (kvmap_grown _ _ _ _ _ _ _ _ _ _ _ space_demo_map HG). intros y Hy Hp%space_demo_paging. unfold within in Hy. lia.
  - rewrite Hread by (unfold SPACE_ADDR; lia). exact Haddr.
  - rewrite Hread by (unfold SPACE_PHYSMAP; lia). exact Hphys.
  - done.
  - apply blank_tables; [by exists 9|lia|]. intros y Hy. rewrite (ch_same _ _ _ HC) by (unfold within in *; lia).
    apply space_demo_zero. unfold within in Hy. lia.
  - intros P w _. rewrite sees_empty. split; [discriminate|].
    intros (p & Hp & Hw & _). apply lookup_singleton_Some in Hw as [<- _]. destruct (Hp eq_refl).
  - intros k0 b0. rewrite lookup_empty. discriminate.
  - intros p t i e Hp _ Hi He Hpr. exfalso. apply lookup_singleton_Some in Hp as [_ <-].
    rewrite Hread in He by (unfold entry; lia). rewrite read64_zero in He; [injection He as <-; apply Hpr; reflexivity|].
    intros y Hy. apply space_demo_zero. unfold within, entry in Hy. lia.
  - intros _ v P Hv Hal Htr. rewrite Hid in Htr by (apply Hlow in Hv; lia). injection Htr as <-.
    by apply space_demo_hash.
  - split.
    + intros v [Hv%Hlow|Hv%root_only]; apply Hwalk; [done|unfold within in Hv; lia].
    + intros v w P _ _ Hv%Hlow [Hw%Hlow|Hw]; [|by rewrite sees_empty in Hw].
      rewrite !Hid by lia. by intros [= <-] [= <-].
  - split; cbn [as_heap as_map as_kernel as_tables].
    + intros y Hy. split_and!; [intros H%root_only|intros H%Hpb|]; unfold space_demo_F, within in *; lia.
    + intros y Hy. split_and!; [intros H%root_only|intros H%Hpb|]; unfold within in *; lia.
    + intros y Hy%root_only. split; [intros H%Hpb|]; unfold within in *; lia.
    + intros y Hy%Hpb. unfold within. lia.
Qed.

(** C7. For page-aligned addresses below the kernel's half, with room in the space's map
    and in the mini heap, [map_pages] on a well-formed address space returns or panics for
    want of memory.  When it returns, the processor translates every byte of the pages of
    [dst, dst + len) in that space to the corresponding byte from [src] on and every other
    page of the space as before; the kernel's own translations, but for the temporary
    window, stay; the space is well formed again; and only free memory, the space's own
    map and tables and the paging code's memory have been written. *)
Theorem map_pages_correct space root m cap cur W s x dst src len flags :
  space_ok space root m cap cur W s x -> 0 <= dst -> (4096 | dst) -> 0 <= src -> (4096 | src) -> 0 <= len ->
  dst + len <= 2 ^ 47 -> src + len + 4096 <= 2 ^ 63 -> Z.land flags PAGE_PRESENT <> 0 ->
  let n := (len + 4095) / 4096 in
  Z.of_nat (size (as_frames x)) + tables_room n <= cap ->
  brk (k_pg s) + tables_room n * (9 * 4096) <= miniheap_end (k_pg s) ->
  (exists s' x', eventually (fun fuel => map_pages fuel space dst src len flags) s (Done tt s') /\
     spaced space root m cap cur W (pages dst n) (tables_room n) s x s' x' /\
     forall j, 0 <= j < 4096 * n -> strans s' x' root (dst + j) = Some (src + j)) \/
  eventually (fun fuel => map_pages fuel space dst src len flags) s (Stop Panic).
Proof.
  intros Hok Hd Hda Hs Hsa Hl Hdl Hsl Hp n Hsize Hroom.
  assert (Hn : page_count dst src len = n) by (apply page_count_aligned; done || lia).
  assert (Hn4 : 4096 * n <= len + 4095) by (unfold n; divlia).
  destruct (map_pages_spec space root m cap cur W s x dst src len flags Hok Hd Hs) as [(s' & x' & Hrun & Hsp & Hw)|Hpan];
    rewrite ?Hn in *; try done; try lia; [left|by right].
  exists s', x'. split; [done|]. split; [done|]. intros j Hj. unfold strans.
  assert (Hj4 : 0 <= j / 4096 < n) by divlia.
  rewrite (Hw (j / 4096)); [|done|].
  - rewrite pte_phys by (done || divlia). f_equal. destruct Hda as [a ->], Hsa as [b ->]. divlia.
  - rewrite (Z.div_mod j 4096) at 1 by lia. rewrite Z.add_assoc. apply vpn_page; [apply Z.mod_pos_bound; lia|].
    apply Z.divide_add_r; [done|by eexists (j / 4096); lia].
Qed.

Lemma map_pages_correct_witness :
  exists s x, space_ok 0xA000 0x9000 0xC010 16 0 (within 0xA000 16) s x /\
    ((exists s' x', eventually (fun fuel => map_pages fuel 0xA000 0x100000 0x70000 0x2800 PAGE_PRESENT) s (Done tt s') /\
        spaced 0xA000 0x9000 0xC010 16 0 (within 0xA000 16) (pages 0x100000 3) 6 s x s' x' /\
        forall j, 0 <= j < 0x3000 -> strans s' x' 0x9000 (0x100000 + j) = Some (0x70000 + j)) \/
     eventually (fun fuel => map_pages fuel 0xA000 0x100000 0x70000 0x2800 PAGE_PRESENT) s (Stop Panic)).
Proof.
  destruct (identity_mapped 150 space_demo {[ [] := 0x100000 ]} 0x90000) as (s & T & HG & Hid);
    [exact space_demo_inv|exists 144; reflexivity|lia|vm_compute; reflexivity|vm_compute; discriminate|].
  pose proof (space_demo_ok _ _ _ _ HG Hid) as Hok. exists s, (ASpace space_demo_F (within 0xC000 416) T {[ [] := 0x9000 ]} ∅).
  pose proof (gr_brk _ _ _ _ _ _ HG) as Hb. pose proof (grown_end _ _ _ _ _ _ HG) as He.
  change (brk (k_pg s) <= 0x107000) in Hb. change (miniheap_end (k_pg s) = 0x180000) in He.
  split; [exact Hok|].
  apply (map_pages_correct 0xA000 0x9000 0xC010 16 0 (within 0xA000 16) s _ 0x100000 0x70000 0x2800 PAGE_PRESENT Hok);
    [lia|by exists 256|lia|by exists 112|lia|lia|lia|discriminate|cbn [as_frames]; rewrite map_size_empty; vm_compute; discriminate|].
  change (tables_room ((0x2800 + 4095) / 4096)) with 6. lia.
Defined.
