(* ===== verification/SpaceInit.v ===== *)
(** * A new process's address space

    [proc_pages_init] of kernel/arch/x86_64/paging.c from its first allocation to its last
    mapping, by the specifications of the heap, the hash map and [map_pages]: the space it
    makes, what its tables translate, and the segment table it fills in. *)
From S2P Require Import Prelude Memory Mem Pow2 State FreeList PageSpec PageAlloc PageRefine PageTheorems Allocator Kalloc KallocRefine KallocTheorems HashMap MapTable MapRefine Devices Paging PageWalk PagingTheorems MapPages Spaces.

#[local] Existing Instance clean_pools.

Lemma kvmap_addr s F B m cap M : kvmap s F B m cap M -> 0 < m < 2 ^ 64.
Proof.
  intros (max & cs & HT & _). pose proof (table_owned _ _ _ _ _ _ _ HT) as [_ H1 H2 H3 _ _ _]. unfold HDRSIZE in *. lia.
Qed.

Lemma land_word e b : 0 <= b < 2 ^ 64 -> Z.land (w64 e) b = Z.land e b.
Proof.
  intros Hb. unfold w64. rewrite <- Z.land_ones, <- Z.land_assoc by lia. f_equal.
  rewrite Z.land_comm, Z.land_ones by lia. by apply Z.mod_small.
Qed.

Section init.
(** The kernel that makes the process: its free memory [F], its page tables [KT], the
    address space [cur] of the running process, the bytes [W] of the running process and
    its space, the new process [p] on the stack, and the entry [e] of the kernel's half. *)
Context (s : kernel) (F : Z -> Prop) (KT : gmap (list Z) Z) (cur : Z) (W : Z -> Prop) (p e : Z).

Record init_ready : Prop := {
  ir_heap : heap_inv s F;
  ir_kernel : paging_inv s KT;
  ir_window : image_window s KT;
  ir_current : in_kernel cur W s;
  ir_top : read64 (k_mem s) (entry (kpml4 (k_pg s)) 511) = Some e;
  ir_proc : mapped (k_mem s) p PROC_SIZE;
  ir_mapped v : F v -> is_Some (kwalk s v) /\ vpn v <> vpn (page_tmp (k_pg s)) /\ 0 < v < 2 ^ 64 - 2 ^ 14;
  ir_frame v w P : (4096 | v) -> (4096 | w) -> F v -> F w -> ktrans s v = Some P -> ktrans s w = Some P -> v = w;
  ir_foreign v : Z.land e X86_PAGE_PRESENT <> 0 -> F v -> (4096 | v) -> ktrans s v <> Some (Z.land e ADDR_MASK);
  ir_first v P : F v -> (4096 | v) -> ktrans s v = Some P -> hash (word_bytes P) mod 16 <> 16 - 1;
  ir_apart y : F y -> ~ paging_bytes s KT y /\ ~ W y;
  ir_paging y : paging_bytes s KT y -> ~ W y;
  ir_stack y : within p PROC_SIZE y -> ~ F y /\ ~ paging_bytes s KT y /\ ~ W y;
}.
Context (Hready : init_ready).

(** The words of the process [proc_pages_init] sets, [segs] and [space]. *)
Definition own_words (y : Z) : Prop := within (p + PROC_SEGS) 16 y.

(** What is written until the space is complete. *)
Definition init_bytes (y : Z) : Prop := F y \/ own_words y.

(** The space at [sp] and its map at [m], with the free memory [G] and the map's bytes [B]
    from there on. *)
Record has_map (sp m : Z) (t : kernel) (G B : Z -> Prop) : Prop := {
  hm_state : t = set_mem (k_mem t) s;
  hm_heap : heap_inv t G;
  hm_map : kvmap t G B m 16 ∅;
  hm_changes : changes init_bytes (k_mem s) (k_mem t);
  hm_space : read64 (k_mem t) (p + PROC_SPACE) = Some sp;
  hm_physmap : read64 (k_mem t) (sp + SPACE_PHYSMAP) = Some m;
  hm_mapped : mapped (k_mem t) sp 16;
  hm_fields y : within sp 16 y -> F y /\ ~ G y /\ ~ B y;
  hm_less y : G y \/ B y -> F y;
}.

Lemma own_apart y : own_words y -> within p PROC_SIZE y /\ ~ F y /\ ~ paging_bytes s KT y /\ ~ W y.
Proof.
  intros Hy. assert (Hw : within p PROC_SIZE y) by (unfold own_words, within, PROC_SEGS, PROC_SIZE in *; lia).
  split; [done|]. exact (ir_stack Hready y Hw).
Qed.

Lemma proc_word o y : 160 <= o <= 168 -> within (p + o) 8 y -> own_words y /\ ~ F y.
Proof.
  intros Ho Hy. assert (Hw : own_words y) by (unfold own_words, within, PROC_SEGS in *; lia). split; [done|]. by destruct (own_apart y Hw) as (_ & ? & _).
Qed.

(** The space alone, at [sp]. *)
Record has_space (sp : Z) (t : kernel) (G : Z -> Prop) : Prop := {
  hp_state : t = set_mem (k_mem t) s;
  hp_heap : heap_inv t G;
  hp_changes : changes init_bytes (k_mem s) (k_mem t);
  hp_space : read64 (k_mem t) (p + PROC_SPACE) = Some sp;
  hp_mapped : mapped (k_mem t) sp 16;
  hp_fields y : within sp 16 y -> F y /\ ~ G y;
  hp_less y : G y -> F y;
}.

Lemma init_struct {A} (K : nat -> Z -> M kernel A) R : (forall sp t G, has_space sp t G -> yields (fun f => K f sp) t R) ->
  yields (fun f => space ← kalloc f 16; store64 (p + PROC_SPACE) space ;; K f space) s R.
Proof.
  intros HK. destruct (kalloc_spec s F 16 (ir_heap Hready) ltac:(lia)) as [(r & m1 & G1 & Hrun & H1 & Hgr & _)|Hp].
  2:{ right. by apply (eventually_bind_stop (fun f => kalloc f 16)). }
  apply (yields_bind (fun f => kalloc f 16) _ _ (fun a t => a = r + HDRSIZE /\ t = set_mem m1 s)); [left; by eexists _, _|].
  intros sp _ [-> ->]. set (sp := r + HDRSIZE) in *. destruct Hgr as [A1 A2 A3 A4 A5 A6 A7].
  pose proof (align_up_bounds 16 ltac:(lia)) as (Hal & _).
  assert (Hin : forall y, within sp 16 y -> F y /\ ~ G1 y).
  { assert (Hw : forall y, within sp 16 y -> within (sp - HDRSIZE) (HDRSIZE + align_up 16) y) by (unfold within, HDRSIZE; lia).
    intros y Hy%Hw. split; [by apply A3|]. intros HG. by destruct (A4 y HG). }
  assert (Hp : forall y, within (p + PROC_SPACE) 8 y -> own_words y /\ ~ F y) by (intros y; apply (proc_word 168); lia).
  eapply yields_step; [apply kstore64; eapply changes_mapped; [exact A5|]; eapply mapped_sub; [apply (ir_proc Hready)|unfold PROC_SPACE; lia|unfold PROC_SPACE, PROC_SIZE; lia]|].
  apply (HK sp _ G1). split; cbn [k_mem set_mem].
  - done.
  - apply (heap_inv_frame (set_mem m1 s) _ _ _ H1 (changes_write64 _ _ _)). intros y Hy HG. by apply (Hp y Hy), A4.
  - apply changes_then_write; [eapply changes_weaken; [exact A5|by left]|intros y Hy; right; by apply Hp].
  - apply read64_write64_eq. unfold HDRSIZE in *. lia.
  - apply write64_mapped. eapply mapped_sub; [exact A6|unfold HDRSIZE; lia|unfold HDRSIZE; lia].
  - exact Hin.
  - intros y Hy. by apply A4.
Qed.

Lemma init_map {A} (K : nat -> Z -> M kernel A) R :
  (forall sp m t G B, has_map sp m t G B -> yields (fun f => K f sp) t R) ->
  yields (fun f => space ← kalloc f 16; store64 (p + PROC_SPACE) space ;;
    pm ← map_new f 0x10; store64 (space + SPACE_PHYSMAP) pm ;; K f space) s R.
Proof.
  intros HK. apply (init_struct (fun f space => pm ← map_new f 0x10; store64 (space + SPACE_PHYSMAP) pm ;; K f space)).
  intros sp t G1 [E H1 HC1 Hsp Hm Hin Hless].
  destruct (map_new_refines t G1 16 H1 ltac:(lia)) as [(m & m2 & G2 & B & Hrun2 & H2 & Hmap & HC & Hsub)|Hpan].
  2:{ right. by apply (eventually_bind_stop (fun f => map_new f 16)). }
  change (Z.max 16 8) with 16 in Hmap. rewrite E in Hrun2, H2, Hmap. change (set_mem m2 (set_mem (k_mem t) s)) with (set_mem m2 s) in *. rewrite E.
  apply (yields_bind (fun f => map_new f 16) _ _ (fun a t => a = m /\ t = set_mem m2 s)); [left; by eexists _, _|].
  intros _ _ [-> ->]. set (mB := write64 m2 (sp + SPACE_PHYSMAP) m).
  assert (Hf : forall y, within (sp + SPACE_PHYSMAP) 8 y -> within sp 16 y) by (unfold within, SPACE_PHYSMAP; lia).
  assert (Hm2 : mapped m2 sp 16) by by eapply changes_mapped.
  assert (Hp : forall y, within (p + PROC_SPACE) 8 y -> ~ F y) by (intros y Hy; by apply (proc_word 168 y ltac:(lia))).
  eapply yields_step; [apply kstore64; eapply mapped_sub; [exact Hm2|unfold SPACE_PHYSMAP; lia|unfold SPACE_PHYSMAP; lia]|].
  apply (HK sp m (set_mem mB s) G2 B). split; cbn [k_mem set_mem].
  - done.
  - apply (heap_inv_frame (set_mem m2 s) _ mB _ H2 (changes_write64 _ _ _)). intros y Hy%Hf HG. by apply (Hin y Hy), Hsub; left.
  - eapply (kvmap_frame (set_mem m2 s) G2); [exact Hmap|apply changes_write64|]. intros y Hy. split.
    + intros Hy'%Hf. by apply (Hin y Hy'), Hsub; right.
    + exact (kvmap_apart _ _ _ _ _ _ y Hmap Hy).
  - apply changes_then_write; [|intros y Hy%Hf; left; by apply Hin]. eapply changes_trans; [exact HC1|].
    eapply changes_weaken; [exact HC|]. intros y Hy. left. by apply Hless.
  - rewrite <- Hsp. transitivity (read64 m2 (p + PROC_SPACE)).
    { apply read64_same. intros y Hy. apply write64_lookup_ne. intros Hy'%Hf. by apply (Hp y Hy), Hin. }
    eapply changes_read64; [exact HC|]. intros y Hy HG. by apply (Hp y Hy), Hless.
  - apply read64_write64_eq. pose proof (kvmap_addr _ _ _ _ _ _ Hmap). lia.
  - by apply write64_mapped.
  - intros y Hy. destruct (Hin y Hy) as [H3 H4]. split_and!; [done|intros HG; apply H4, Hsub; by left|intros HG; apply H4, Hsub; by right].
  - intros y Hy. apply Hless, Hsub, Hy.
Qed.

(** Later writes, elsewhere. *)
Lemma has_map_frame sp m t G B G' m' (P : Z -> Prop) : has_map sp m t G B -> changes P (k_mem t) m' ->
  heap_inv (set_mem m' s) G' -> (forall y, G' y -> G y) ->
  (forall y, P y -> init_bytes y /\ ~ B y /\ ~ within (p + PROC_SPACE) 8 y /\ ~ within (sp + SPACE_PHYSMAP) 8 y) ->
  has_map sp m (set_mem m' s) G' B.
Proof.
  intros [E H2 H3 H4 H5 H6 H7 H8 H9] HC HG HGG HP. split; cbn [k_mem set_mem]; try done.
  - apply (kvmap_same (set_mem m' t)); [done|]. eapply kvmap_frame; [exact H3|exact HC|]. intros y Hy.
    pose proof (kvmap_apart _ _ _ _ _ _ y H3 Hy) as Hn. split; [intros Hp; by destruct (HP y Hp) as (_ & ? & _)|by intros ?%HGG].
  - eapply changes_trans; [exact H4|]. eapply changes_weaken; [exact HC|]. intros y Hy. by apply HP.
  - rewrite <- H5. eapply changes_read64; [exact HC|]. intros y Hy Hp. by destruct (HP y Hp) as (_ & _ & ? & _).
  - rewrite <- H6. eapply changes_read64; [exact HC|]. intros y Hy Hp. by destruct (HP y Hp) as (_ & _ & _ & ?).
  - by eapply changes_mapped.
  - intros y Hy. destruct (H8 y Hy) as (? & Hn & ?). split_and!; try done. intros ?%HGG. done.
  - intros y [Hy%HGG|Hy]; apply H9; [by left|by right].
Qed.

(** ... and its root table [a], empty but for the kernel's half. *)
Record has_root (sp m a : Z) (t : kernel) (G B : Z -> Prop) : Prop := {
  hr_map : has_map sp m t G B;
  hr_addr : read64 (k_mem t) (sp + SPACE_ADDR) = Some a;
  hr_page y : within a 4096 y -> F y /\ ~ G y /\ ~ B y /\ ~ within sp 16 y;
  hr_aligned : 0 < a /\ (4096 | a);
  hr_mapped : mapped (k_mem t) a 4096;
  hr_blank j : 0 <= j < 511 -> exists w, read64 (k_mem t) (entry a j) = Some w /\ Z.land w X86_PAGE_PRESENT = 0;
  hr_top : read64 (k_mem t) (entry a 511) = Some (w64 e);
}.

Lemma top_kept t : changes init_bytes (k_mem s) (k_mem t) -> read64 (k_mem t) (entry (kpml4 (k_pg s)) 511) = Some e.
Proof.
  intros HC. rewrite <- (ir_top Hready). eapply changes_read64; [exact HC|]. intros y Hy.
  assert (Hk : paging_bytes s KT y).
  { left. exists [], (kpml4 (k_pg s)). split; [apply (pi_tables _ _ (ir_kernel Hready))|]. by apply (entry_in_table _ 511). }
  intros [Hf|Hf]; [by destruct (ir_apart Hready y Hf)|by destruct (own_apart y Hf) as (_ & _ & ? & _)].
Qed.

(** Free memory is apart from the process, the space and its map. *)
Lemma has_map_heap sp m t G B y : has_map sp m t G B -> G y ->
  init_bytes y /\ ~ B y /\ ~ within (p + PROC_SPACE) 8 y /\ ~ within sp 16 y.
Proof.
  intros HM Hy. assert (HF : F y) by (apply (hm_less _ _ _ _ _ HM); by left). split_and!.
  - by left.
  - intros HB. exact (kvmap_apart _ _ _ _ _ _ y (hm_map _ _ _ _ _ HM) HB Hy).
  - intros Hw%(proc_word 168); [|lia]. by apply Hw.
  - intros Hw. by destruct (hm_fields _ _ _ _ _ HM y Hw) as (_ & ? & _).
Qed.

(** The page for the root table ... *)
Lemma root_page sp m t0 G0 B : has_map sp m t0 G0 B ->
  (exists a m1 G, eventually (fun f => page_alloc f PAGE_SIZE) t0 (Done a (set_mem m1 s)) /\ has_map sp m (set_mem m1 s) G B /\
    (forall y, within a 4096 y -> F y /\ ~ G y /\ ~ B y /\ ~ within sp 16 y) /\ 0 < a < 2 ^ 64 /\ (4096 | a) /\ mapped m1 a 4096 /\
    forall j, 0 <= j < 512 -> exists w, read64 m1 (entry a j) = Some w /\ Z.land w X86_PAGE_PRESENT = 0) \/
  eventually (fun f => page_alloc f PAGE_SIZE) t0 (Stop Panic).
Proof.
  intros HM. destruct (heap_page t0 G0 (hm_heap _ _ _ _ _ HM)) as [(a & m1 & G & Hrun & H1 & Hgr & Ha & Hblank)|Hp]; [left|by right].
  rewrite (hm_state _ _ _ _ _ HM) in Hrun, H1. change (set_mem m1 (set_mem _ s)) with (set_mem m1 s) in *.
  destruct Hgr as [A1 A2 A3 A4 A5 A6 A7]. rewrite Z.sub_0_r, Z.add_0_l in *.
  exists a, m1, G. split; [by rewrite (hm_state _ _ _ _ _ HM)|]. split; [|split; [|split; [lia|done]]].
  - apply (has_map_frame sp m t0 G0 B G m1 G0 HM A5 H1); [intros y Hy; by apply A4|].
    intros y Hy. destruct (has_map_heap _ _ _ _ _ y HM Hy) as (? & ? & ? & Hn). split_and!; try done. intros Hw. apply Hn. unfold within, SPACE_PHYSMAP in *. lia.
  - intros y Hy. pose proof (A3 y Hy) as H0. destruct (has_map_heap _ _ _ _ _ y HM H0) as (_ & ? & _ & ?). split_and!; [|by intros []%A4|done..].
    apply (hm_less _ _ _ _ _ HM). by left.
Qed.

(** ... is entered in the space. *)
Lemma root_entered sp m m1 G B a : has_map sp m (set_mem m1 s) G B -> has_map sp m (set_mem (write64 m1 (sp + SPACE_ADDR) a) s) G B.
Proof.
  intros HM1. assert (Hf : forall y, within (sp + SPACE_ADDR) 8 y -> within sp 16 y) by (unfold within, SPACE_ADDR; lia).
  apply (has_map_frame sp m _ G B G _ (within (sp + SPACE_ADDR) 8) HM1); [apply changes_write64| |done|].
  - apply (heap_inv_frame (set_mem m1 s) G _ _ (hm_heap _ _ _ _ _ HM1) (changes_write64 _ _ _)). intros y Hy%Hf.
    by destruct (hm_fields _ _ _ _ _ HM1 y Hy) as (_ & ? & _).
  - intros y Hy. destruct (hm_fields _ _ _ _ _ HM1 y (Hf y Hy)) as (HF & _ & HB). split; [by left|]. split; [done|].
    split; [intros Hw; by apply (proc_word 168 y ltac:(lia) Hw)|]. unfold within, SPACE_ADDR, SPACE_PHYSMAP in *. lia.
Qed.

Lemma init_root {A} sp m t0 G0 B (K : nat -> Z -> M kernel A) R : has_map sp m t0 G0 B ->
  (forall a t G, has_root sp m a t G B -> yields (fun f => K f a) t R) ->
  yields (fun f => a ← page_alloc f PAGE_SIZE; store64 (sp + SPACE_ADDR) a ;;
    k4 ← gets (fun s => kpml4 (k_pg s)); e ← load64 (entry k4 511); store64 (entry a 511) e ;; K f a) t0 R.
Proof.
  intros HM HK. destruct (root_page sp m t0 G0 B HM) as [(a & m1 & G & Hrun & HM1 & Hin & Ha0 & Ha & Hm1 & Hblank)|Hp].
  2:{ right. by apply (eventually_bind_stop (fun f => page_alloc f PAGE_SIZE)). }
  apply (yields_bind (fun f => page_alloc f PAGE_SIZE) _ _ (fun b t => b = a /\ t = set_mem m1 s)); [left; by eexists _, _|].
  intros _ _ [-> ->]. pose proof (root_entered sp m m1 G B a HM1) as HM2. set (mC := write64 m1 (sp + SPACE_ADDR) a) in *.
  eapply yields_step; [apply kstore64; eapply mapped_sub; [exact (hm_mapped _ _ _ _ _ HM1)|unfold SPACE_ADDR; lia|unfold SPACE_ADDR; lia]|].
  change (set_mem _ (set_mem m1 s)) with (set_mem mC s). eapply yields_step; [reflexivity|]. cbn beta.
  change (kpml4 (k_pg (set_mem mC s))) with (kpml4 (k_pg s)). eapply yields_step; [apply kload64, (top_kept _ (hm_changes _ _ _ _ _ HM2))|].
  assert (Hent : forall j y, 0 <= j < 512 -> within (entry a j) 8 y -> within a 4096 y) by (intros j y Hj; by apply entry_in_table).
  assert (Hf : forall y o, o = 0 \/ o = 8 -> within (sp + o) 8 y -> within sp 16 y) by (unfold within; lia).
  assert (HmC : mapped mC a 4096) by by apply write64_mapped.
  set (mD := write64 mC (entry a 511) e).
  eapply yields_step; [apply kstore64; eapply mapped_sub; [exact HmC|unfold entry; lia|unfold entry; lia]|].
  change (set_mem _ (set_mem mC s)) with (set_mem mD s). apply (HK a (set_mem mD s) G). split; cbn [k_mem set_mem].
  - apply (has_map_frame sp m _ G B G mD (within (entry a 511) 8) HM2); [apply changes_write64| |done|].
    + apply (heap_inv_frame (set_mem mC s) G mD _ (hm_heap _ _ _ _ _ HM2) (changes_write64 _ _ _)). intros y Hy%Hent; [|lia]. by apply Hin.
    + intros y Hy%Hent; [|lia]. destruct (Hin y Hy) as (HF & _ & HB & Hs). split; [by left|]. split; [done|].
      split; [intros Hw; by apply (proc_word 168 y ltac:(lia) Hw)|]. intros Hw. apply Hs, (Hf y 8); [by right|exact Hw].
  - transitivity (read64 mC (sp + SPACE_ADDR)); [|apply read64_write64_eq; lia]. apply read64_same. intros y Hy. apply write64_lookup_ne.
    intros H%Hent; [|lia]. destruct (Hin y H) as (_ & _ & _ & Hs). apply Hs, (Hf y 0); [by left|exact Hy].
  - exact Hin.
  - split; [lia|done].
  - by apply write64_mapped.
  - intros j Hj. destruct (Hblank j ltac:(lia)) as (w & Hw & Hz). exists w. split; [|done]. rewrite <- Hw.
    transitivity (read64 mC (entry a j)); apply read64_same; intros y Hy; apply write64_lookup_ne.
    + unfold within, entry in *. lia.
    + intros Hy'%Hf; [|by left]. apply Hent in Hy; [|lia]. by destruct (Hin y Hy) as (_ & _ & _ & ?).
  - apply read64_write64.
Qed.

Lemma has_root_frame sp m a t G B G' m' (P : Z -> Prop) : has_root sp m a t G B -> changes P (k_mem t) m' ->
  heap_inv (set_mem m' s) G' -> (forall y, G' y -> G y) ->
  (forall y, P y -> init_bytes y /\ ~ B y /\ ~ within (p + PROC_SPACE) 8 y /\ ~ within sp 16 y /\ ~ within a 4096 y) ->
  has_root sp m a (set_mem m' s) G' B.
Proof.
  intros [H1 H2 H3 H4 H5 H6 H7] HC HG HGG HP.
  assert (Hent : forall j, 0 <= j < 512 -> read64 m' (entry a j) = read64 (k_mem t) (entry a j)).
  { intros j Hj. eapply changes_read64; [exact HC|]. intros y Hy%entry_in_table Hp; [|done]. by destruct (HP y Hp) as (_ & _ & _ & _ & ?). }
  split; cbn [k_mem set_mem].
  - apply (has_map_frame sp m t G B G' m' P H1 HC HG HGG). intros y Hy. destruct (HP y Hy) as (I1 & I2 & I3 & I4 & _).
    split_and!; try done. intros Hw. apply I4. unfold within, SPACE_PHYSMAP in *. lia.
  - rewrite <- H2. eapply changes_read64; [exact HC|]. intros y Hy Hp. destruct (HP y Hp) as (_ & _ & _ & Hn & _).
    apply Hn. unfold within, SPACE_ADDR in *. lia.
  - intros y Hy. destruct (H3 y Hy) as (I1 & I2 & I3 & I4). split_and!; try done. intros ?%HGG. done.
  - done.
  - by eapply changes_mapped.
  - intros j Hj. rewrite Hent by lia. by apply H6.
  - by rewrite Hent by lia.
Qed.

(** ... and its segment table. *)
Record has_segs (sp m a segs : Z) (t : kernel) (G B : Z -> Prop) : Prop := {
  hs_root : has_root sp m a t G B;
  hs_table y : within segs 72 y -> F y /\ ~ G y /\ ~ B y /\ ~ within sp 16 y /\ ~ within a 4096 y;
  hs_mapped : mapped (k_mem t) segs 72;
  hs_range : 0 < segs < 2 ^ 64;
  hs_ptr : read64 (k_mem t) (p + PROC_SEGS) = Some segs;
  hs_n : read64 (k_mem t) (segs + FLEX_N) = Some 0;
}.

Lemma init_segs {A} sp m a t0 G0 B (K : nat -> Z -> M kernel A) R : has_root sp m a t0 G0 B ->
  (forall segs t G, has_segs sp m a segs t G B -> yields (fun f => K f segs) t R) ->
  yields (fun f => segs ← FlexAlloc f SEG_SIZE 2; store64 (p + PROC_SEGS) segs ;; K f segs) t0 R.
Proof.
  intros HR HK. pose proof (hr_map _ _ _ _ _ _ HR) as HM.
  destruct (kzalloc_spec t0 G0 72 (hm_heap _ _ _ _ _ HM) ltac:(lia)) as [(segs & m1 & G & Hrun & H1 & Hown & HC & Hzero & HGG & HsG)|Hp].
  2:{ right. by apply (eventually_bind_stop (fun f => FlexAlloc f SEG_SIZE 2)). }
  assert (E : forall m', set_mem m' t0 = set_mem m' s) by (intros m'; by rewrite (hm_state _ _ _ _ _ HM)).
  rewrite E in Hrun, H1, Hown. destruct (align_up_bounds 72 ltac:(lia)) as ([Hal _] & _).
  apply (yields_bind (fun f => FlexAlloc f SEG_SIZE 2) _ _ (fun b t => b = segs /\ t = set_mem m1 s)); [left; by eexists _, _|].
  intros _ _ [-> ->].
  assert (Hsub : forall y, within segs 72 y -> within (segs - HDRSIZE) (HDRSIZE + align_up 72) y) by (unfold within, HDRSIZE; lia).
  assert (HG0 : forall y, G0 y -> init_bytes y /\ ~ B y /\ ~ within (p + PROC_SPACE) 8 y /\ ~ within sp 16 y /\ ~ within a 4096 y).
  { intros y Hy. destruct (has_map_heap _ _ _ _ _ y HM Hy) as (? & ? & ? & ?). split_and!; try done.
    intros Hw. by destruct (hr_page _ _ _ _ _ _ HR y Hw) as (_ & ? & _). }
  pose proof (has_root_frame sp m a t0 G0 B G m1 G0 HR HC H1 HGG HG0) as HR1.
  assert (Hsegs : 0 < segs < 2 ^ 64) by (destruct Hown; unfold HDRSIZE in *; lia).
  assert (Hm1 : mapped m1 segs 72) by (eapply mapped_sub; [apply (ow_mapped _ _ _ _ Hown)|unfold HDRSIZE; lia|unfold HDRSIZE; lia]).
  set (mA := write64 m1 (p + PROC_SEGS) segs).
  assert (Hp : forall y, within (p + PROC_SEGS) 8 y -> (own_words y /\ ~ F y) /\ ~ within (p + PROC_SPACE) 8 y).
  { intros y Hy. split; [by apply (proc_word 160 y ltac:(lia))|]. unfold within, PROC_SEGS, PROC_SPACE in *. lia. }
  eapply yields_step.
  { apply kstore64. eapply changes_mapped; [exact (hm_changes _ _ _ _ _ (hr_map _ _ _ _ _ _ HR1))|].
    eapply mapped_sub; [apply (ir_proc Hready)|unfold PROC_SEGS; lia|unfold PROC_SEGS, PROC_SIZE; lia]. }
  change (set_mem _ (set_mem m1 s)) with (set_mem mA s).
  assert (HF : forall y, G y \/ B y -> F y) by exact (hm_less _ _ _ _ _ (hr_map _ _ _ _ _ _ HR1)).
  assert (HF' : forall y, G0 y -> F y) by (intros y Hy; apply (hm_less _ _ _ _ _ HM); by left).
  apply (HK segs (set_mem mA s) G). split; cbn [k_mem set_mem].
  - apply (has_root_frame sp m a _ G B G mA (within (p + PROC_SEGS) 8) HR1); [apply changes_write64| |done|].
    + apply (heap_inv_frame (set_mem m1 s) G mA _ H1 (changes_write64 _ _ _)). intros y Hy HG. destruct (Hp y Hy) as [[_ Hn] _]. apply Hn, HF. by left.
    + intros y Hy. destruct (Hp y Hy) as [[Hw Hn] Hne]. split; [by right|]. split_and!; try done.
      * intros HB. apply Hn, HF. by right.
      * intros Hw'. by destruct (hm_fields _ _ _ _ _ HM y Hw').
      * intros Hw'. by destruct (hr_page _ _ _ _ _ _ HR y Hw').
  - intros y Hy. pose proof (HsG y (Hsub y Hy)) as HGy. destruct (HG0 y HGy) as (_ & I2 & _ & I4 & I5). split_and!; try done.
    + apply (hm_less _ _ _ _ _ HM). by left.
    + by apply (ow_out _ _ _ _ Hown), Hsub.
  - by apply write64_mapped.
  - done.
  - apply read64_write64_eq. lia.
  - unfold FLEX_N. rewrite Z.add_0_r. apply read64_zero. intros y Hy. unfold mA. rewrite write64_lookup_ne; [apply Hzero; unfold within in *; lia|].
    intros Hy'. destruct (Hp y Hy') as [[_ Hn] _]. apply Hn, HF', HsG, Hsub. unfold within in *. lia.
Qed.

(** ** The space while its pages are mapped *)

Section space.
Context (sp m a segs : Z).

(** What [map_pages] leaves alone. *)
Definition init_kept (y : Z) : Prop := W y \/ within p PROC_SIZE y \/ within sp 16 y \/ within segs 72 y.

Record building (t : kernel) (x : aspace) : Prop := {
  bd_ok : space_ok sp a m 16 cur init_kept t x;
  bd_cpu : k_cpu t = k_cpu s /\ kpml4 (k_pg t) = kpml4 (k_pg s);
  bd_changes : changes (fun y => init_bytes y \/ paging_bytes s KT y) (k_mem s) (k_mem t);
  bd_bytes y : space_bytes t x y -> F y \/ paging_bytes s KT y;
  bd_table y : within segs 72 y -> F y /\ ~ within sp 16 y;
  bd_segs : mapped (k_mem t) segs 72;
  bd_heap y : as_heap x y -> F y;
  bd_proc : k_proc t = k_proc s;
  bd_fields y : within sp 16 y -> F y;
}.

Lemma running_kept t : k_cpu t = k_cpu s -> kpml4 (k_pg t) = kpml4 (k_pg s) ->
  changes (fun y => init_bytes y \/ paging_bytes s KT y) (k_mem s) (k_mem t) -> in_kernel cur init_kept t.
Proof.
  intros Ec Ek HC. assert (HW : forall y, W y -> k_mem t !! y = k_mem s !! y).
  { intros y Hy. apply (ch_same _ _ _ HC). intros [[H|H]|H]; [by destruct (ir_apart Hready y H)|by destruct (own_apart y H) as (_ & _ & _ & ?)|
      by apply (ir_paging Hready y H)]. }
  destruct (in_kernel_same cur W s t (ir_current Hready) Ec Ek HW) as [[?|(H1 & H2 & H3)] H4]; split.
  - by left.
  - destruct H4 as [?|[H5 H6]]; [by left|right]. split; [done|]. intros y Hy. left. by apply H6.
  - right. split; [done|]. split; [done|]. intros y Hy. left. by apply H3.
  - destruct H4 as [?|[H5 H6]]; [by left|right]. split; [done|]. intros y Hy. left. by apply H6.
Qed.

Lemma building_spaced V k t x t' x' : building t x -> spaced sp a m 16 cur init_kept V k t x t' x' -> building t' x' /\
  forall b, (forall y, within b 8 y -> init_kept y) -> read64 (k_mem t') b = read64 (k_mem t) b.
Proof.
  intros [B1 [B2 B3] B4 B5 B6 B7 B8 B9 B10] Hsp. pose proof (sd_changes _ _ _ _ _ _ _ _ _ _ _ _ Hsp) as HC.
  destruct (sd_state _ _ _ _ _ _ _ _ _ _ _ _ Hsp) as (mm & b & d & E).
  split.
  - split; [exact (sd_ok _ _ _ _ _ _ _ _ _ _ _ _ Hsp)|by rewrite E| | |done|by eapply changes_mapped| |by rewrite E|done].
    + eapply changes_trans; [exact B4|]. eapply changes_weaken; [exact HC|]. intros y [Hy|Hy]%B5; [by left; left|by right].
    + intros y Hy%(sd_bytes _ _ _ _ _ _ _ _ _ _ _ _ Hsp). by apply B5.
    + intros y Hy%(sd_heap _ _ _ _ _ _ _ _ _ _ _ _ Hsp). by apply B8.
  - intros c Hc. eapply changes_read64; [exact HC|]. intros y Hy%Hc. destruct (so_apart _ _ _ _ _ _ _ _ B1) as [AH AM AT AK].
    intros [H|[H|[H|H]]]; [by destruct (AH y H) as (_ & _ & ?)|by destruct (AM y H) as (_ & _ & ?)|by destruct (AT y H)|by apply (AK y H)].
Qed.

Lemma building_store t x b v : building t x -> (forall y, within b 8 y -> within segs 72 y) ->
  store64 b v t = Done tt (set_mem (write64 (k_mem t) b v) t) /\ building (set_mem (write64 (k_mem t) b v) t) x /\
  (forall va, swalk (set_mem (write64 (k_mem t) b v) t) x a va = swalk t x a va) /\
  read64 (write64 (k_mem t) b v) (entry a 511) = read64 (k_mem t) (entry a 511).
Proof.
  intros [B1 [B2 B3] B4 B5 B6 B7 B8 B9 B10] Hb. pose proof (changes_write64 (k_mem t) b v) as HC.
  assert (HC' : changes (fun y => init_bytes y \/ paging_bytes s KT y) (k_mem s) (write64 (k_mem t) b v)).
  { eapply changes_trans; [exact B4|]. eapply changes_weaken; [exact HC|]. intros y Hy%Hb. left. left. by apply B6. }
  destruct (space_frame sp a m 16 cur init_kept t x _ _ B1 HC) as (H1 & H2 & H3).
  { intros y Hy%Hb. split; [|by apply B6]. assert (HK : init_kept y) by (by do 3 right). destruct (so_apart _ _ _ _ _ _ _ _ B1) as [AH AM AT AK].
    intros [H|[H|[H|H]]]; [by destruct (AH y H) as (_ & _ & ?)|by destruct (AM y H) as (_ & _ & ?)|by destruct (AT y H)|by apply (AK y H)]. }
  { by apply running_kept. }
  split; [apply kstore64; intros y Hy; by apply B7, Hb|]. split; [|done].
  split; [done|done|done|exact B5|done|by apply write64_mapped|done|done|done].
Qed.
End space.

Lemma init_bytes_apart y : init_bytes y -> ~ paging_bytes s KT y.
Proof. intros [H|H]; [by destruct (ir_apart Hready y H)|by destruct (own_apart y H) as (_ & _ & ? & _)]. Qed.

(** The kernel's tables have not changed. *)
Lemma has_map_walk sp m t G B : has_map sp m t G B -> k_pg t = k_pg s /\ paging_inv t KT /\
  forall va, kwalk t va = kwalk s va /\ ktrans t va = ktrans s va.
Proof.
  intros HM. pose proof (hm_state _ _ _ _ _ HM) as E. pose proof (hm_changes _ _ _ _ _ HM) as HC.
  assert (Hw : forall va, kwalk t va = kwalk s va).
  { intros va. rewrite E. exact (kwalk_frame s KT (k_mem t) _ va (ir_kernel Hready) HC init_bytes_apart). }
  split; [by rewrite E|]. split; [rewrite E; exact (paging_inv_frame s KT (k_mem t) _ (ir_kernel Hready) HC init_bytes_apart)|].
  intros va. split; [done|]. unfold ktrans. by rewrite Hw.
Qed.

(** The parts of the space come from free memory ... *)
Lemma segs_free sp m a segs t G B y : has_segs sp m a segs t G B -> G y \/ B y \/ in_tables {[ [] := a ]} y -> F y.
Proof.
  intros HS. pose proof (hs_root _ _ _ _ _ _ _ HS) as HR. intros [H|[H|H%root_only]].
  - apply (hm_less _ _ _ _ _ (hr_map _ _ _ _ _ _ HR)). by left.
  - apply (hm_less _ _ _ _ _ (hr_map _ _ _ _ _ _ HR)). by right.
  - by apply (hr_page _ _ _ _ _ _ HR).
Qed.

(** ... and none is what [map_pages] leaves alone. *)
Lemma segs_kept sp m a segs t G B y : has_segs sp m a segs t G B -> init_kept sp segs y ->
  ~ G y /\ ~ B y /\ ~ within a 4096 y /\ ~ paging_bytes s KT y.
Proof.
  intros HS HK. pose proof (hs_root _ _ _ _ _ _ _ HS) as HR. pose proof (hr_page _ _ _ _ _ _ HR y) as Hpage.
  assert (Hout : ~ F y -> ~ G y /\ ~ B y /\ ~ within a 4096 y).
  { intros HnF. pose proof (segs_free _ _ _ _ _ _ _ y HS) as HF.
    split_and!; [intros H; apply HnF, HF; by left|intros H; apply HnF, HF; by right; left|intros H; by destruct (Hpage H)]. }
  destruct HK as [H|[H|[H|H]]].
  - assert (HnF : ~ F y) by (intros Hf; by destruct (ir_apart Hready y Hf)). destruct (Hout HnF) as (? & ? & ?).
    split_and!; [done..|]. intros H'. by apply (ir_paging Hready y H').
  - destruct (ir_stack Hready y H) as (HnF & ? & _). destruct (Hout HnF) as (? & ? & ?). by split_and!.
  - destruct (hm_fields _ _ _ _ _ (hr_map _ _ _ _ _ _ HR) y H) as (Hf & ? & ?).
    split_and!; [done|done|intros H'; by destruct (Hpage H') as (_ & _ & _ & ?)|by destruct (ir_apart Hready y Hf)].
  - destruct (hs_table _ _ _ _ _ _ _ HS y H) as (Hf & ? & ? & _ & ?). split_and!; [done..|by destruct (ir_apart Hready y Hf)].
Qed.

Lemma init_apart sp m a segs t G B : has_segs sp m a segs t G B ->
  uses_apart (init_kept sp segs) t (ASpace G B KT {[ [] := a ]} ∅).
Proof.
  intros HS. destruct (has_map_walk _ _ _ _ _ (hr_map _ _ _ _ _ _ (hs_root _ _ _ _ _ _ _ HS))) as (Hpg & _).
  assert (Hpb : forall y, paging_bytes t KT y -> paging_bytes s KT y) by (intros y; unfold paging_bytes; by rewrite Hpg).
  pose proof (fun y => segs_free _ _ _ _ _ _ _ y HS) as HF. pose proof (fun y => segs_kept _ _ _ _ _ _ _ y HS) as Hkept.
  pose proof (hr_page _ _ _ _ _ _ (hs_root _ _ _ _ _ _ _ HS)) as Hpage.
  assert (HFp : forall y, G y \/ B y \/ in_tables {[ [] := a ]} y -> ~ paging_bytes t KT y).
  { intros y Hy H%Hpb. by destruct (ir_apart Hready y (HF y Hy)). }
  split; cbn [as_heap as_map as_kernel as_tables].
  - intros y Hy. split_and!; [intros H%root_only; by destruct (Hpage y H) as (_ & ? & _)|apply HFp; by left|intros H; by destruct (Hkept y H)].
  - intros y Hy. split_and!; [intros H%root_only; by destruct (Hpage y H) as (_ & _ & ? & _)|apply HFp; by right; left|intros H; by destruct (Hkept y H) as (_ & ? & _)].
  - intros y Hy. split; [apply HFp; by right; right|]. intros H. apply root_only in Hy. by destruct (Hkept y H) as (_ & _ & ? & _).
  - intros y Hy%Hpb H. by destruct (Hkept y H) as (_ & _ & _ & ?).
Qed.

(** The only entry of the root table that leads elsewhere is the kernel's. *)
Lemma init_foreign sp m a segs t G B i w : has_segs sp m a segs t G B -> 0 <= i < 512 ->
  read64 (k_mem t) (entry a i) = Some w -> Z.land w X86_PAGE_PRESENT <> 0 ->
  i = 511 /\ forall v, G v -> (4096 | v) -> ktrans t v <> Some (Z.land w ADDR_MASK).
Proof.
  intros HS Hi Hw Hpr. pose proof (hs_root _ _ _ _ _ _ _ HS) as HR. destruct (has_map_walk _ _ _ _ _ (hr_map _ _ _ _ _ _ HR)) as (_ & _ & Hkw).
  destruct (decide (i = 511)) as [->|Hne].
  - split; [done|]. rewrite (hr_top _ _ _ _ _ _ HR) in Hw. injection Hw as <-. intros v Hv Hal.
    rewrite (proj2 (Hkw v)), land_word by (vm_compute; split; congruence). apply (ir_foreign Hready); [|by apply (segs_free _ _ _ _ _ _ _ v HS); left|done].
    by rewrite land_word in Hpr by (vm_compute; split; congruence).
  - destruct (hr_blank _ _ _ _ _ _ HR i ltac:(lia)) as (w' & Hw' & Hz). congruence.
Qed.

(** The space is well formed and maps nothing. *)
Lemma init_space sp m a segs t G B : has_segs sp m a segs t G B ->
  let x := ASpace G B KT {[ [] := a ]} ∅ in
  building sp m a segs t x /\ (forall va, swalk t x a va = None) /\ read64 (k_mem t) (entry a 511) = Some (w64 e).
Proof.
  intros HS x. pose proof HS as [HR Htab Hsm Hsr Hsp _]. pose proof HR as [HM Haddr Hpage [Ha0 Ha] Hmap Hblank Htop].
  pose proof HM as [E Hheap Hkv HC Hspace Hphys Hspm Hfld Hless]. destruct (has_map_walk _ _ _ _ _ HM) as (Hpg & HI & Hkw).
  assert (HC' : changes (fun y => init_bytes y \/ paging_bytes s KT y) (k_mem s) (k_mem t)) by (eapply changes_weaken; [exact HC|by left]).
  assert (Hpb : forall y, paging_bytes t KT y -> paging_bytes s KT y) by (intros y; unfold paging_bytes; by rewrite Hpg).
  pose proof (fun y => segs_free _ _ _ _ _ _ _ y HS) as HF.
  assert (HT : tables_at (k_mem t) (sees ∅) a {[ [] := a ]}).
  { apply lone_tables; [done|lia|done|]. intros i Hi. unfold child.
    destruct (read64 (k_mem t) (entry a i)); simpl; [|done]. case_match; [done|apply sees_empty]. }
  subst x. split; [|split; [|exact Htop]].
  2:{ intros va. unfold swalk. etrans; [exact (walk_lookup HT va)|]. by rewrite lookup_singleton_ne. }
  split; [|by rewrite E|exact HC'| |intros y Hy; by destruct (Htab y Hy) as (? & _ & _ & ? & _)|exact Hsm|intros y Hy; apply HF; by left|by rewrite E|intros y Hy; by apply Hfld].
  2:{ intros y [H|[H|[H|H]]]; [left; apply HF; by left|left; apply HF; by right; left|left; apply HF; by right; right|right; by apply Hpb]. }
  split; cbn [as_heap as_map as_kernel as_tables as_frames]; try done.
  - destruct (ir_window Hready) as (H1 & H2 & H3). unfold image_window. rewrite Hpg. split; [done|]. split; [done|]. intros P HP. by apply H3, Hpb.
  - apply running_kept; [by rewrite E|by rewrite Hpg|exact HC'].
  - intros y Hy. right. right. by left.
  - intros P w _. rewrite sees_empty. split; [done|]. intros (q & Hq & Hw & _). by apply lookup_singleton_Some in Hw as [<- _].
  - intros q u i w Hq _ Hi Hw Hpr _. apply lookup_singleton_Some in Hq as [<- <-]. split; [done|]. by apply (init_foreign sp m a segs t G B i w HS).
  - intros _ v P Hv Hal. rewrite (proj2 (Hkw v)). apply (ir_first Hready); [apply HF; by left|done].
  - split; cbn [as_heap as_tables as_frames].
    + intros v Hv. assert (Hf : F v) by (apply HF; destruct Hv; [by left|by right; right]).
      rewrite (proj1 (Hkw v)), Hpg. destruct (ir_mapped Hready v Hf) as (? & ? & ?). split_and!; [done|done|lia].
    + intros v w P Hv Hw Hvh [Hwh|Hs]; [|by rewrite sees_empty in Hs]. rewrite (proj2 (Hkw v)), (proj2 (Hkw w)).
      apply (ir_frame Hready); [done|done|apply HF; by left|apply HF; by left].
  - by eapply init_apart.
Qed.

(** ** The segments *)

Section segments.
Context (sp m a segs : Z).

(** [u] tables made so far; [l] are the words of the segment table filled in. *)
Record stage (u : Z) (l : list (Z * Z)) (t : kernel) (x : aspace) : Prop := {
  sg_building : building sp m a segs t x;
  sg_words : Forall (fun w => 0 <= w.1 <= 64 /\ read64 (k_mem t) (segs + w.1) = Some w.2) l;
  sg_space : read64 (k_mem t) (p + PROC_SPACE) = Some sp;
  sg_segs : read64 (k_mem t) (p + PROC_SEGS) = Some segs;
  sg_top : read64 (k_mem t) (entry a 511) = Some (w64 e);
  sg_size : Z.of_nat (size (as_frames x)) <= u;
  sg_brk : brk (k_pg t) <= brk (k_pg s) + u * (9 * 4096);
  sg_end : miniheap_end (k_pg t) = miniheap_end (k_pg s);
}.

Lemma stage_start t G B : has_segs sp m a segs t G B ->
  exists x, stage 0 [(FLEX_N, 0)] t x /\ forall va, swalk t x a va = None.
Proof.
  intros HS. destruct (init_space sp m a segs t G B HS) as (H1 & H2 & H3). eexists. split; [|exact H2].
  pose proof HS as [[HM _ _ _ _ _ _] _ _ _ Hptr Hn]. pose proof (hm_state _ _ _ _ _ HM) as E.
  split; [exact H1| |apply HM|done|done|simpl; rewrite map_size_empty; lia|rewrite E; simpl; lia|by rewrite E].
  constructor; [|done]. split; [unfold FLEX_N; simpl; lia|exact Hn].
Qed.

Lemma stage_spaced V k u l t x t' x' : stage u l t x -> spaced sp a m 16 cur (init_kept sp segs) V k t x t' x' -> stage (u + k) l t' x'.
Proof.
  intros [S1 S2 S3 S4 S5 S6 S7 S8] Hsp. destruct (building_spaced sp m a segs V k t x t' x' S1 Hsp) as [B1 B2].
  assert (Hp : forall o, 0 <= o <= 168 -> read64 (k_mem t') (p + o) = read64 (k_mem t) (p + o)).
  { intros o Ho. apply B2. intros y Hy. right. left. unfold within, PROC_SIZE in *. lia. }
  split; [exact B1| |by rewrite Hp by (unfold PROC_SPACE; lia)|by rewrite Hp by (unfold PROC_SEGS; lia)| | | |].
  - eapply Forall_impl; [exact S2|]. intros [o v] [Ho Hr]. split; [done|]. simpl in *. rewrite B2; [done|].
    intros y Hy. do 3 right. unfold within in *. lia.
  - by rewrite (sd_top _ _ _ _ _ _ _ _ _ _ _ _ Hsp).
  - pose proof (sd_size _ _ _ _ _ _ _ _ _ _ _ _ Hsp). lia.
  - pose proof (sd_brk _ _ _ _ _ _ _ _ _ _ _ _ Hsp). lia.
  - destruct (spaced_globals _ _ _ _ _ _ _ _ _ _ _ _ Hsp) as [_ ->]. done.
Qed.

Lemma stage_store u l t x b o v : stage u l t x -> b = segs + o -> 0 <= o <= 64 -> 0 <= v < 2 ^ 64 ->
  Forall (fun w => w.1 + 8 <= o \/ o + 8 <= w.1) l ->
  exists t', store64 b v t = Done tt t' /\ stage u ((o, v) :: l) t' x /\ forall va, swalk t' x a va = swalk t x a va.
Proof.
  intros [S1 S2 S3 S4 S5 S6 S7 S8] -> Ho Hv Hl.
  assert (Hin : forall y, within (segs + o) 8 y -> within segs 72 y) by (unfold within; lia).
  destruct (building_store sp m a segs t x (segs + o) v S1 Hin) as (H1 & H2 & H3 & H4).
  assert (Hp : forall c, 0 <= c <= 168 -> read64 (write64 (k_mem t) (segs + o) v) (p + c) = read64 (k_mem t) (p + c)).
  { intros c Hc. apply read64_same. intros y Hy. apply write64_lookup_ne. intros [HF _]%Hin%(bd_table _ _ _ _ _ _ S1).
    assert (Hw : within p PROC_SIZE y) by (unfold within, PROC_SIZE in *; lia). by destruct (ir_stack Hready y Hw). }
  eexists. split; [exact H1|]. split; [|exact H3]. split; cbn [k_mem set_mem]; try done.
  - constructor; [split; [done|by apply read64_write64_eq]|]. rewrite Forall_forall in S2, Hl |- *. intros w Hw.
    destruct (S2 w Hw) as [Hw1 Hw2]. split; [done|]. rewrite read64_write64_ne; [done|]. specialize (Hl w Hw). lia.
  - by rewrite Hp by (unfold PROC_SPACE; lia).
  - by rewrite Hp by (unfold PROC_SEGS; lia).
  - by rewrite H4.
Qed.
Lemma stage_store_run {A} u l t x w b o v (K : nat -> M kernel A) R :
  stage u l t x -> (forall va, swalk t x a va = w va) -> b = segs + o -> 0 <= o <= 64 -> 0 <= v < 2 ^ 64 ->
  Forall (fun w => w.1 + 8 <= o \/ o + 8 <= w.1) l ->
  (forall t', stage u ((o, v) :: l) t' x -> (forall va, swalk t' x a va = w va) -> yields K t' R) ->
  yields (fun f => store64 b v ;; K f) t R.
Proof.
  intros HS Hw Hb Ho Hv Hl HK. destruct (stage_store u l t x b o v HS Hb Ho Hv Hl) as (t' & E & HS' & Hw').
  eapply yields_step; [exact E|]. apply HK; [done|]. intros va. by rewrite Hw'.
Qed.

Lemma stage_map u l t x dst src len flags : stage u l t x -> 0 <= dst -> 0 <= src -> 0 <= len < 2 ^ 48 ->
  dst + len < 2 ^ 64 - 2 ^ 13 -> src + len < 2 ^ 64 - 2 ^ 13 ->
  let n := page_count dst src len in
  dst + 4096 * n <= 511 * 2 ^ 39 -> u + tables_room n <= 16 ->
  brk (k_pg s) + (u + tables_room n) * (9 * 4096) <= miniheap_end (k_pg s) ->
  yields (fun f => map_pages f sp dst src len flags) t (fun _ t' => exists x', stage (u + tables_room n) l t' x' /\
    range_mapped sp a m 16 cur (init_kept sp segs) n (tables_room n) t x dst src (x86_flags flags) t' x').
Proof.
  intros HS Hd Hsrc Hl Hdl Hsl n Hdn Hu Hroom. pose proof (sg_size _ _ _ _ HS). pose proof (sg_brk _ _ _ _ HS). pose proof (sg_end _ _ _ _ HS).
  destruct (map_pages_spec sp a m 16 cur (init_kept sp segs) t x dst src len flags (bd_ok _ _ _ _ _ _ (sg_building _ _ _ _ HS)))
    as [(t' & x' & Hrun & Hr)|Hp]; try done; try (fold n; lia); [left|by right].
  exists tt, t'. split; [done|]. exists x'. split; [|exact Hr]. by eapply stage_spaced; [|apply Hr].
Qed.

Lemma stage_alloc u l t x sz : stage u l t x -> 0 <= sz <= 2 ^ 63 ->
  yields (fun f => page_alloc f sz) t (fun r t' => (4096 | r) /\ 0 < r /\ (forall y, within r (page_round sz) y -> F y) /\
    exists x', stage u l t' x' /\ forall va, swalk t' x' a va = swalk t x a va).
Proof.
  intros HS Hsz. pose proof (sg_building _ _ _ _ HS) as HB.
  destruct (space_alloc sp a m 16 cur (init_kept sp segs) t x sz (bd_ok _ _ _ _ _ _ HB) Hsz) as [(r & t' & x' & Hrun & Hr & Hr0 & Hin & Hsp)|Hp]; [left|by right].
  exists r, t'. split; [done|]. split; [done|]. split; [done|]. split.
  - intros y Hy. apply (bd_heap _ _ _ _ _ _ HB). by apply Hin.
  - exists x'. split.
    + rewrite <- (Z.add_0_r u). by eapply stage_spaced.
    + intros va. apply (sd_walk _ _ _ _ _ _ _ _ _ _ _ _ Hsp). by intros [].
Qed.
End segments.

(** ** What [proc_pages_init] leaves *)

Definition text_flags : Z := x86_flags (Z.lor PAGE_PRESENT PAGE_USER).
Definition stack_flags : Z := x86_flags (Z.lor (Z.lor (Z.lor PAGE_PRESENT PAGE_USER) PAGE_NX) PAGE_WRITABLE).

(** The words of the segment table, by their offsets in it: the first is its length, which
    is never set. *)
Definition segment_words (start len kv : Z) : list (Z * Z) :=
  [(FLEX_N, 0); (FLEX_ITEM + SEG_BASE, PROC_ENTRY); (FLEX_ITEM + SEG_KVIRT, start); (FLEX_ITEM + SEG_LEN, len);
   (FLEX_ITEM + SEG_SIZE + SEG_BASE, STACK_TOP); (FLEX_ITEM + SEG_SIZE + SEG_LEN, 64 * PAGE_SIZE);
   (FLEX_ITEM + SEG_SIZE + SEG_KVIRT, kv)].

Record loaded (start len n : Z) (sp m a segs kv : Z) (t : kernel) (x : aspace) : Prop := {
  ld_ok : space_ok sp a m 16 cur (init_kept sp segs) t x;
  ld_space : read64 (k_mem t) (p + PROC_SPACE) = Some sp;
  ld_segs : read64 (k_mem t) (p + PROC_SEGS) = Some segs;
  ld_words w : w ∈ segment_words start len kv -> read64 (k_mem t) (segs + w.1) = Some w.2;
  ld_text i va : 0 <= i < n -> vpn va = vpn (PROC_ENTRY + 4096 * i) -> swalk t x a va = pte (start + 4096 * i) text_flags;
  ld_stack i va : 0 <= i < 64 -> vpn va = vpn (STACK_TOP + 4096 * i) -> swalk t x a va = pte (kv + 4096 * i) stack_flags;
  ld_else va : ~ pages PROC_ENTRY n (vpn va) -> ~ pages STACK_TOP 64 (vpn va) -> swalk t x a va = None;
  ld_top : read64 (k_mem t) (entry a 511) = Some (w64 e);
  ld_block : (4096 | kv) /\ forall y, within kv (64 * PAGE_SIZE) y -> F y;
}.

Lemma vpn_low x : 0 <= x < 2 ^ 48 -> vpn x = x / 4096.
Proof. intros Hx. unfold vpn. change (2 ^ 12) with 4096. divlia. Qed.

(** The text ends below the stack. *)
Lemma text_below n i k : 0 <= i < n -> PROC_ENTRY + 4096 * n <= STACK_TOP -> 0 <= k < 64 ->
  vpn (PROC_ENTRY + 4096 * i) <> vpn (STACK_TOP + 4096 * k).
Proof. unfold PROC_ENTRY, STACK_TOP. intros Hi Hn Hk. rewrite !vpn_low by lia. divlia. Qed.

Lemma stack_count kv : 0 <= kv -> (4096 | kv) -> kv + 2 ^ 18 + 2 ^ 13 < 2 ^ 64 -> page_count STACK_TOP kv (64 * PAGE_SIZE) = 64.
Proof.
  intros H0 H1 H2. rewrite page_count_aligned; [reflexivity|unfold STACK_TOP; lia|done|unfold PAGE_SIZE; lia|
    unfold STACK_TOP, PAGE_SIZE; lia|unfold PAGE_SIZE; lia|by exists 0x100000|done].
Qed.

(** The two runs of [map_pages], one after the other. *)
Lemma segments_loaded start len n sp m a segs kv t4 x4 t8 x8 t x u : PROC_ENTRY + 4096 * n <= STACK_TOP -> 0 <= n ->
  (exists k t3 x3, (forall va, swalk t3 x3 a va = None) /\
    range_mapped sp a m 16 cur (init_kept sp segs) n k t3 x3 PROC_ENTRY start text_flags t4 x4) ->
  (forall va, swalk t8 x8 a va = swalk t4 x4 a va) ->
  range_mapped sp a m 16 cur (init_kept sp segs) 64 6 t8 x8 STACK_TOP kv stack_flags t x ->
  stage sp m a segs u (reverse (segment_words start len kv)) t x ->
  (4096 | kv) /\ (forall y, within kv (64 * PAGE_SIZE) y -> F y) -> loaded start len n sp m a segs kv t x.
Proof.
  intros HnE Hn (k & t3 & x3 & Hnone & [M4 W4]) W8 [M9 W9] [S1 S2 S3 S4 S5 _ _ _] Hkv.
  split; [apply S1|done|done| | |exact W9| |done|done].
  - intros w Hw. rewrite Forall_forall in S2. apply S2. by apply elem_of_reverse.
  - intros i va Hi Hva. rewrite (sd_walk _ _ _ _ _ _ _ _ _ _ _ _ M9), W8; [by apply W4|].
    intros (j & Hj & E). rewrite Hva in E. exact (text_below n i j Hi HnE Hj E).
  - intros va Ht Hs. by rewrite (sd_walk _ _ _ _ _ _ _ _ _ _ _ _ M9), W8, (sd_walk _ _ _ _ _ _ _ _ _ _ _ _ M4).
Qed.

(** The side conditions of the stores below: offsets and bounds. *)
Ltac sides := first [unfold FLEX_N, FLEX_ITEM, SEG_SIZE, SEG_BASE, SEG_KVIRT, SEG_LEN, PROC_ENTRY, STACK_TOP, PAGE_SIZE in *; lia
  | repeat constructor; unfold FLEX_N, FLEX_ITEM, SEG_SIZE, SEG_BASE, SEG_KVIRT, SEG_LEN; simpl; lia].

(** The part of [proc_pages_init] that fills the segments in and maps them. *)
Lemma load_run sp m a segs t x start len : stage sp m a segs 0 [(FLEX_N, 0)] t x -> (forall va, swalk t x a va = None) ->
  0 <= start -> 0 <= len -> start + len < 2 ^ 64 - 2 ^ 13 ->
  let n := page_count PROC_ENTRY start len in
  PROC_ENTRY + len <= STACK_TOP -> tables_room n + 6 <= 16 ->
  brk (k_pg s) + (tables_room n + 6) * (9 * 4096) <= miniheap_end (k_pg s) ->
  yields (fun f =>
    store64 (segs + FLEX_ITEM + SEG_BASE) PROC_ENTRY ;;
    store64 (segs + FLEX_ITEM + SEG_KVIRT) start ;;
    store64 (segs + FLEX_ITEM + SEG_LEN) len ;;
    map_pages f sp PROC_ENTRY start len (Z.lor PAGE_PRESENT PAGE_USER) ;;
    store64 (segs + FLEX_ITEM + SEG_SIZE + SEG_BASE) STACK_TOP ;;
    store64 (segs + FLEX_ITEM + SEG_SIZE + SEG_LEN) (64 * PAGE_SIZE) ;;
    kv ← page_alloc f (64 * PAGE_SIZE);
    store64 (segs + FLEX_ITEM + SEG_SIZE + SEG_KVIRT) kv ;;
    map_pages f sp STACK_TOP kv (64 * PAGE_SIZE) (Z.lor (Z.lor (Z.lor PAGE_PRESENT PAGE_USER) PAGE_NX) PAGE_WRITABLE)) t
  (fun _ t' => exists kv x', loaded start len n sp m a segs kv t' x' /\ building sp m a segs t' x').
Proof.
  intros HS Hw Hs Hl Hsl n Hn Hu Hroom.
  assert (HnE : PROC_ENTRY + 4096 * n <= STACK_TOP).
  { unfold n, page_count, PROC_ENTRY, STACK_TOP in *. rewrite page_end_eq by lia. divlia. }
  assert (Hn0 : 0 <= n) by (unfold n, page_count, PROC_ENTRY in *; rewrite !page_end_eq by (unfold STACK_TOP in *; lia); divlia).
  assert (Hr0 : 0 <= tables_room n) by (unfold tables_room; divlia).
  eapply (stage_store_run sp m a segs _ _ _ _ _ _ (FLEX_ITEM + SEG_BASE)); [exact HS|exact Hw|sides..|]. intros t1 H1 W1.
  eapply (stage_store_run sp m a segs _ _ _ _ _ _ (FLEX_ITEM + SEG_KVIRT)); [exact H1|exact W1|sides..|]. intros t2 H2 W2.
  eapply (stage_store_run sp m a segs _ _ _ _ _ _ (FLEX_ITEM + SEG_LEN)); [exact H2|exact W2|sides..|]. intros t3 H3 W3.
  eapply yields_bind; [apply (stage_map sp m a segs 0 _ t3 x PROC_ENTRY start len _ H3); fold n; sides|].
  intros _ t4 (x4 & H4 & M4). fold n in H4, M4. rewrite Z.add_0_l in H4.
  eapply (stage_store_run sp m a segs _ _ _ _ (fun va => swalk t4 x4 a va) _ (FLEX_ITEM + SEG_SIZE + SEG_BASE)); [exact H4|done|sides..|]. intros t5 H5 W5.
  eapply (stage_store_run sp m a segs _ _ _ _ _ _ (FLEX_ITEM + SEG_SIZE + SEG_LEN)); [exact H5|exact W5|sides..|]. intros t6 H6 W6.
  eapply yields_bind; [apply (stage_alloc sp m a segs _ _ t6 x4 (64 * PAGE_SIZE) H6); sides|].
  intros kv t7 (Hkv & Hkv0 & HkvF & x7 & H7 & W7). cbn beta.
  assert (Hkvr : kv + 2 ^ 18 + 2 ^ 13 < 2 ^ 64).
  { replace (page_round (64 * PAGE_SIZE)) with (2 ^ 18) in HkvF by (vm_compute; reflexivity).
    destruct (ir_mapped Hready (kv + 2 ^ 18 - 1)) as (_ & _ & ?); [apply HkvF; unfold within; lia|lia]. }
  change (page_round (64 * PAGE_SIZE)) with (64 * PAGE_SIZE) in HkvF.
  eapply (stage_store_run sp m a segs _ _ _ _ (fun va => swalk t4 x4 a va) _ (FLEX_ITEM + SEG_SIZE + SEG_KVIRT)); [exact H7| |sides..|].
  { intros va. by rewrite W7, W6. }
  intros t8 H8 W8.
  pose proof (stack_count kv ltac:(lia) Hkv Hkvr) as Hc.
  pose proof (stage_map sp m a segs _ _ t8 x7 STACK_TOP kv (64 * PAGE_SIZE) (Z.lor (Z.lor (Z.lor PAGE_PRESENT PAGE_USER) PAGE_NX) PAGE_WRITABLE) H8) as HM.
  cbv zeta in HM. rewrite Hc in HM. change (tables_room 64) with 6 in HM.
  eapply yields_weaken; [apply HM; sides|]. intros _ t9 (x9 & H9 & M9). exists kv, x9. clear HM. split; [|apply H9].
  apply (segments_loaded start len n sp m a segs kv t4 x4 t8 x7 t9 x9 (tables_room n + 6)); [done|done| |done|done|exact H9|].
  - by exists (tables_room n), t3, x.
  - by split.
Qed.
End init.

(** ** A kernel to make a process in *)

(** The kernel of Spaces.v with the new process at 0xB000. *)
Lemma space_demo_ready V k s T : grown V k space_demo {[ [] := 0x100000 ]} s T ->
  (forall va, 0 <= va < 0x90000 -> ktrans s va = Some va) ->
  exists e, init_ready s space_demo_F T 0 (within 0xA000 16) 0xB000 e.
Proof.
  intros HG Hid. pose proof (space_demo_ok V k s T HG Hid) as Hok. pose proof (so_apart _ _ _ _ _ _ _ _ Hok) as [AH _ _ AK].
  pose proof (so_kernel _ _ _ _ _ _ _ _ Hok) as HK. pose proof (pi_tables _ _ HK) as HT. cbn [as_heap as_kernel] in *.
  pose proof (ta_root _ _ _ _ HT) as Hr. destruct (entry_value HT [] _ 511 Hr ltac:(lia)) as [e He]. exists e.
  assert (HF : forall y, space_demo_F y -> 0 < y < 0x90000) by (unfold space_demo_F, within; lia).
  assert (Hpb : forall y, paging_bytes s T y -> 0x100000 <= y < 0x180000).
  { intros y Hy. by apply space_demo_paging, (grown_paging_bytes _ _ _ _ _ _ _ HG). }
  destruct (so_free _ _ _ _ _ _ _ _ Hok) as [Fm Ff]. split.
  - exact (so_heap _ _ _ _ _ _ _ _ Hok).
  - exact HK.
  - exact (so_window _ _ _ _ _ _ _ _ Hok).
  - exact (so_current _ _ _ _ _ _ _ _ Hok).
  - exact He.
  - eapply changes_mapped; [exact (grown_changes _ _ _ _ _ _ HG)|].
    eapply mapped_sub; [exact space_demo_mapped|lia|unfold PROC_SIZE; lia].
  - intros v Hv. destruct (Fm v (or_introl Hv)) as (H1 & H2 & _). apply HF in Hv. split; [exact H1|]. split; [exact H2|lia].
  - intros v w P Hv Hw Hvh Hwh. exact (Ff v w P Hv Hw Hvh (or_introl Hwh)).
  - intros v Hpr Hv _ Htr. rewrite (Hid v) in Htr by (apply HF in Hv; lia). injection Htr as Hve.
    pose proof (ta_child _ _ _ _ HT [] _ 511 Hr ltac:(simpl; lia) ltac:(lia)) as Hc. unfold child in Hc. rewrite He in Hc. simpl in Hc.
    rewrite (proj2 (Z.eqb_neq _ 0) Hpr), <- Hve in Hc.
    assert (Hin : paging_bytes s T (PHYSK2VK (k_pg s) v)) by (left; exists [511], (PHYSK2VK (k_pg s) v); split; [done|unfold within; lia]).
    apply Hpb in Hin. apply HF in Hv. destruct (grown_globals _ _ _ _ _ _ HG) as (_ & _ & Ephys). rewrite Ephys in Hin.
    change (PHYSK2VK (k_pg space_demo) v) with (add64 (sub64 v 0) 0) in Hin. unfold add64, sub64 in Hin. rewrite Z.sub_0_r, Z.add_0_r, !w64_small in Hin by (rewrite ?w64_small; lia). lia.
  - intros v P Hv Hal. exact (so_first _ _ _ _ _ _ _ _ Hok eq_refl v P Hv Hal).
  - intros y Hy. destruct (AH y Hy) as (_ & H2 & H3). by split.
  - exact AK.
  - intros y Hy. unfold within, PROC_SIZE in Hy. split_and!; [intros H; unfold space_demo_F, within in H; lia|intros H%Hpb; lia|unfold within; lia].
Qed.

(** A whole run of [proc_pages_init]: what it leaves, and what it has kept. *)
Lemma proc_pages_init_run s F KT cur W p e start len :
  init_ready s F KT cur W p e -> 0 <= start -> 0 <= len -> start + len < 2 ^ 64 - 2 ^ 13 -> PROC_ENTRY + len <= STACK_TOP ->
  let n := page_count PROC_ENTRY start len in
  tables_room n + 6 <= 16 -> brk (k_pg s) + (tables_room n + 6) * (9 * 4096) <= miniheap_end (k_pg s) ->
  yields (fun fuel => proc_pages_init fuel p start len) s
    (fun _ t => exists sp m a segs kv x, loaded F cur W p e start len n sp m a segs kv t x /\ building s F KT cur W p sp m a segs t x).
Proof.
  intros Hready Hs Hl Hsl Hpl n Hn Hroom. unfold proc_pages_init.
  eapply init_map; [exact Hready|]. intros sp m t1 G1 B H1.
  eapply init_root; [exact Hready|exact H1|]. intros a t2 G2 H2.
  eapply init_segs; [exact Hready|exact H2|]. intros segs t3 G3 H3.
  destruct (stage_start s F KT cur W p e Hready sp m a segs t3 G3 B H3) as (x & HS & Hw).
  eapply yields_weaken; [by apply (load_run s F KT cur W p e Hready sp m a segs t3 x start len HS Hw)|].
  intros _ t (kv & x' & H). by exists sp, m, a, segs, kv, x'.
Qed.

(** C8. [proc_pages_init], from the kernel's heap and page tables to a process's address
    space: it panics for want of memory, or it returns with the process pointing to a
    well-formed space and to its segment table; the processor's walk of the space maps the
    text at PROC_ENTRY to the frames from [start] on, the 64 pages at STACK_TOP to frames
    numbered by the kernel address of the stack's block, and nothing else in the lower
    half; the kernel's half is the kernel's; and only free memory, the process's segment
    and space words and the paging code's memory have been written. *)
Theorem proc_pages_init_correct s F KT cur W p e start len :
  init_ready s F KT cur W p e -> 0 <= start -> 0 <= len -> start + len < 2 ^ 64 - 2 ^ 13 -> PROC_ENTRY + len <= STACK_TOP ->
  let n := page_count PROC_ENTRY start len in
  tables_room n + 6 <= 16 -> brk (k_pg s) + (tables_room n + 6) * (9 * 4096) <= miniheap_end (k_pg s) ->
  yields (fun fuel => proc_pages_init fuel p start len) s
    (fun _ t => (exists sp m a segs kv x, loaded F cur W p e start len n sp m a segs kv t x) /\
      changes (fun y => F y \/ within (p + PROC_SEGS) 16 y \/ paging_bytes s KT y) (k_mem s) (k_mem t)).
Proof.
  intros Hready Hs Hl Hsl Hpl n Hn Hroom.
  eapply yields_weaken; [by apply (proc_pages_init_run s F KT cur W p e)|].
  intros _ t (sp & m & a & segs & kv & x & HL & HB). split; [by exists sp, m, a, segs, kv, x|].
  eapply changes_weaken; [exact (bd_changes _ _ _ _ _ _ _ _ _ _ _ _ HB)|]. intros y [[H|H]|H]; auto.
Qed.

Lemma proc_pages_init_correct_witness :
  exists s T e, init_ready s space_demo_F T 0 (within 0xA000 16) 0xB000 e /\
    yields (fun fuel => proc_pages_init fuel 0xB000 0x70000 0x1800) s
      (fun _ t => (exists sp m a segs kv x, loaded space_demo_F 0 (within 0xA000 16) 0xB000 e 0x70000 0x1800 2 sp m a segs kv t x) /\
        changes (fun y => space_demo_F y \/ within (0xB000 + PROC_SEGS) 16 y \/ paging_bytes s T y) (k_mem s) (k_mem t)).
Proof.
  destruct (identity_mapped 150 space_demo {[ [] := 0x100000 ]} 0x90000) as (s & T & HG & Hid);
    [exact space_demo_inv|exists 144; reflexivity|lia|vm_compute; reflexivity|vm_compute; discriminate|].
  destruct (space_demo_ready _ _ _ _ HG Hid) as [e He]. exists s, T, e. split; [exact He|].
  pose proof (gr_brk _ _ _ _ _ _ HG) as Hb. pose proof (grown_end _ _ _ _ _ _ HG) as Hend.
  change (brk (k_pg s) <= 0x107000) in Hb. change (miniheap_end (k_pg s) = 0x180000) in Hend.
  apply (proc_pages_init_correct s space_demo_F T 0 (within 0xA000 16) 0xB000 e 0x70000 0x1800 He);
    [lia|lia|lia|vm_compute; discriminate|vm_compute; discriminate|].
  change (tables_room (page_count PROC_ENTRY 0x70000 0x1800)) with 6. lia.
Defined.
