(* ===== verification/ProcNew.v ===== *)
(** * Making a process

    [proc_new] of kernel/proc.c as a whole: the process structure on the stack, its address
    space, and its copy in [procmap]; from the specifications of [proc_pages_init] and of
    the hash map. *)
From S2P Require Import Prelude Memory Mem Pow2 State FreeList PageSpec PageAlloc PageRefine PageTheorems Allocator Kalloc KallocRefine KallocTheorems HashMap MapTable MapRefine Devices Paging PageWalk PagingTheorems MapPages Spaces SpaceInit Sched.

#[local] Existing Instance clean_pools.

(** The state a process is made in stays one when the structure itself is written. *)
Lemma init_ready_after s F KT cur W p e t : init_ready s F KT cur W p e ->
  k_pg t = k_pg s -> k_pa t = k_pa s -> k_cpu t = k_cpu s -> changes (within p PROC_SIZE) (k_mem s) (k_mem t) ->
  init_ready t F KT cur W p e.
Proof.
  intros HR Eg Ea Ec HC. set (u := set_mem (k_mem t) s).
  assert (HF : forall y, within p PROC_SIZE y -> ~ F y) by (intros y Hy; by destruct (ir_stack _ _ _ _ _ _ _ HR y Hy)).
  assert (HP : forall y, within p PROC_SIZE y -> ~ paging_bytes s KT y) by (intros y Hy; by destruct (ir_stack _ _ _ _ _ _ _ HR y Hy) as (_ & ? & _)).
  assert (Hw : forall va, kwalk t va = kwalk s va).
  { intros va. rewrite <- (kwalk_frame s KT (k_mem t) _ va (ir_kernel _ _ _ _ _ _ _ HR) HC HP). unfold kwalk. by rewrite Eg. }
  assert (Ht : forall va, ktrans t va = ktrans s va) by (intros va; unfold ktrans; by rewrite Hw).
  assert (Hpb : forall y, paging_bytes t KT y <-> paging_bytes s KT y) by (intros y; unfold paging_bytes; by rewrite Eg).
  destruct HR as [H1 H2 H3 H4 H5 H6 H7 H8 H9 H10 H11 H12 H13]. split.
  - apply (heap_inv_same u); [done..|]. by eapply heap_inv_frame.
  - apply (paging_inv_same u); [done|done|]. by eapply paging_inv_frame.
  - destruct H3 as (W1 & W2 & W3). unfold image_window. rewrite Eg. split; [done|]. split; [done|]. intros P HP'%Hpb. by apply W3.
  - apply (in_kernel_same cur W s); [done|done|by rewrite Eg|]. intros y Hy. apply (ch_same _ _ _ HC). intros Hs. by destruct (H13 y Hs) as (_ & _ & ?).
  - rewrite Eg, <- H5. eapply changes_read64; [exact HC|]. intros y Hy Hs. apply (HP y Hs). left. exists [], (kpml4 (k_pg s)).
    split; [apply (pi_tables _ _ H2)|]. by apply (entry_in_table _ 511).
  - by eapply changes_mapped.
  - intros v Hv. rewrite Hw, Eg. by apply H7.
  - intros v w P. rewrite !Ht. apply H8.
  - intros v. rewrite Ht. apply H9.
  - intros v P. rewrite Ht. apply H10.
  - intros y Hy. rewrite Hpb. by apply H11.
  - intros y Hy%Hpb. by apply H12.
  - intros y Hy. rewrite Hpb. by apply H13.
Qed.

(** A loaded space while free memory is given away and written, and with it bytes [Q] that
    are no business of the space. *)
Lemma loaded_less s0 F KT cur W p e start len n sp m a segs kv t x G mm (Q : Z -> Prop) :
  init_ready s0 F KT cur W p e -> loaded F cur W p e start len n sp m a segs kv t x -> building s0 F KT cur W p sp m a segs t x ->
  heap_inv (set_mem mm t) G -> (forall y, G y -> as_heap x y) -> changes (fun y => as_heap x y \/ Q y) (k_mem t) mm ->
  (forall y, Q y -> ~ F y /\ ~ paging_bytes s0 KT y /\ ~ W y /\ ~ within p PROC_SIZE y) ->
  loaded F cur W p e start len n sp m a segs kv (set_mem mm t) (ASpace G (as_map x) (as_kernel x) (as_tables x) (as_frames x)) /\
  forall b, (forall y, within b 8 y -> within p PROC_SIZE y) -> read64 mm b = read64 (k_mem t) b.
Proof.
  intros HR [L1 L2 L3 L4 L5 L6 L7 L8 L9] HB HG HGx HC HQ.
  assert (HK : forall y, init_kept W p sp segs y -> ~ (as_heap x y \/ Q y)).
  { intros y Hy [Hh|Hq]; [by destruct (ua_heap _ _ _ (so_apart _ _ _ _ _ _ _ _ L1) y Hh) as (_ & _ & ?)|].
    destruct (HQ y Hq) as (Q1 & Q2 & Q3 & Q4). destruct Hy as [Hy|[Hy|[Hy|Hy]]]; [done|done| |by destruct (bd_table _ _ _ _ _ _ _ _ _ _ _ _ HB y Hy)].
    by apply Q1, (bd_fields _ _ _ _ _ _ _ _ _ _ _ _ HB). }
  assert (Hr : forall b, (forall y, within b 8 y -> init_kept W p sp segs y) -> read64 mm b = read64 (k_mem t) b).
  { intros b Hb. eapply changes_read64; [exact HC|]. intros y Hy. by apply HK, Hb. }
  assert (Hp : forall b, (forall y, within b 8 y -> within p PROC_SIZE y) -> read64 mm b = read64 (k_mem t) b).
  { intros b Hb. apply Hr. intros y Hy%Hb. right. by left. }
  destruct (space_less sp a m 16 cur (init_kept W p sp segs) t x G mm Q L1 HG HGx HC) as (S1 & S2 & _ & S4).
  { intros y Hy. destruct (HQ y Hy) as (Q1 & Q2 & _). split.
    - intros Hs%(bd_bytes _ _ _ _ _ _ _ _ _ _ _ _ HB). tauto.
    - intros Hs. by apply Q1, (bd_fields _ _ _ _ _ _ _ _ _ _ _ _ HB). }
  { apply (in_kernel_same cur _ t); [apply (so_current _ _ _ _ _ _ _ _ L1)|done|done|]. intros y Hy. apply (ch_same _ _ _ HC). by apply HK. }
  split; [|exact Hp]. split; cbn [k_mem set_mem].
  - exact S1.
  - rewrite Hp; [done|]. unfold within, PROC_SPACE, PROC_SIZE. lia.
  - rewrite Hp; [done|]. unfold within, PROC_SEGS, PROC_SIZE. lia.
  - intros w Hw. rewrite Hr; [by apply L4|]. intros y Hy. do 3 right. revert Hy Hw. unfold segment_words. rewrite !elem_of_cons, elem_of_nil.
    unfold FLEX_N, FLEX_ITEM, SEG_SIZE, SEG_BASE, SEG_KVIRT, SEG_LEN, within. intros Hy [->|[->|[->|[->|[->|[->|[->|[]]]]]]]]; simpl in Hy; lia.
  - intros i va Hi Hva. rewrite S2. by apply (L5 i).
  - intros i va Hi Hva. rewrite S2. by apply (L6 i).
  - intros va H1 H2. rewrite S2. by apply L7.
  - by rewrite S4.
  - exact L9.
Qed.

(** ** The structure on the stack *)

(** [struct proc p = {0}], its id and [procp_init]. *)
Definition proc_blank (m : gmap Z Z) (p pid : Z) : gmap Z Z :=
  write64 (write64 (write64 (write64 (write_bytes m p (replicate (Z.to_nat PROC_SIZE) 0)) (p + PROC_PID) pid)
    (p + PROC_RSP) STACK_TOP) (p + PROC_RIP) PROC_ENTRY) (p + PROC_FLAGS) 0x202.

(** The words it leaves. *)
Definition proc_words (pid : Z) : list (Z * Z) :=
  [(PROC_PID, pid); (PROC_RSP, STACK_TOP); (PROC_RIP, PROC_ENTRY); (PROC_FLAGS, 0x202)].

Lemma proc_blank_changes m p pid : changes (within p PROC_SIZE) m (proc_blank m p pid).
Proof.
  unfold proc_blank. do 4 (apply changes_then_write; [|unfold within, PROC_SIZE, PROC_PID, PROC_RSP, PROC_RIP, PROC_FLAGS; lia]).
  exact (changes_write_bytes m p (replicate (Z.to_nat PROC_SIZE) 0)).
Qed.

Lemma proc_blank_words m p pid w : 0 <= pid < 2 ^ 64 -> w ∈ proc_words pid -> read64 (proc_blank m p pid) (p + w.1) = Some w.2.
Proof.
  intros Hpid. unfold proc_words, proc_blank, PROC_PID, PROC_RSP, PROC_RIP, PROC_FLAGS, STACK_TOP, PROC_ENTRY.
  rewrite !elem_of_cons, elem_of_nil. intros [->|[->|[->|[->|[]]]]]; cbn [fst snd];
    rewrite ?read64_write64_ne by lia; by apply read64_write64_eq; lia.
Qed.

(** The globals of kernel/proc.c with the next id taken. *)
Definition next_pid (s : kernel) : Z := add64 (pid_cur (k_proc s)) 1.
Definition proc_taken (s : kernel) : proc_globals :=
  ProcGlobals (sched_cpu_queues (k_proc s)) (sched_ready (k_proc s)) (procmap (k_proc s)) (next_pid s) false.

Lemma zero_run p n s : 0 <= n -> mapped (k_mem s) p n ->
  exists r, memset p 0 n s = Done r (set_mem (write_bytes (k_mem s) p (replicate (Z.to_nat n) 0)) s).
Proof.
  intros Hn Hm. assert (Hset : wp (memset p 0 n) (fun _ t => t = set_mem (write_bytes (k_mem s) p (replicate (Z.to_nat n) 0)) s) s) by by apply wp_memset.
  apply wp_done in Hset as (r & t & Hset & ->). by exists r.
Qed.

Lemma procp_init_run p m s : mapped m p PROC_SIZE -> procp_init p (set_mem m s) =
  Done tt (set_mem (write64 (write64 (write64 m (p + PROC_RSP) STACK_TOP) (p + PROC_RIP) PROC_ENTRY) (p + PROC_FLAGS) 0x202) s).
Proof.
  intros Hm. unfold procp_init.
  assert (Hs : forall o v m', 0 <= o <= 168 -> mapped m' p PROC_SIZE -> store64 (p + o) v (set_mem m' s) = Done tt (set_mem (write64 m' (p + o) v) s)).
  { intros o v m' Ho Hm'. apply (kstore64 (set_mem m' s)). eapply mapped_sub; [exact Hm'|lia|unfold PROC_SIZE; lia]. }
  rewrite (run_bind _ _ _ _ _ (Hs PROC_RSP _ _ ltac:(unfold PROC_RSP; lia) Hm)).
  rewrite (run_bind _ _ _ _ _ (Hs PROC_RIP _ _ ltac:(unfold PROC_RIP; lia) (write64_mapped _ _ _ _ _ Hm))).
  apply Hs; [unfold PROC_FLAGS; lia|]. by do 2 apply write64_mapped.
Qed.

(** The first half of [proc_new]. *)
Lemma proc_start {A} s p (K : nat -> Z -> M kernel A) R : mapped (k_mem s) p PROC_SIZE -> pid_cur_lock (k_proc s) = false ->
  yields (fun f => K f (next_pid s)) (set_mem (proc_blank (k_mem s) p (next_pid s)) (set_proc (proc_taken s) s)) R ->
  yields (fun f =>
    memset p 0 PROC_SIZE ;;
    ACQUIRE (fun s => pid_cur_lock (k_proc s)) set_pid_cur_lock ;;
    c ← gets (fun s => pid_cur (k_proc s));
    modify (set_pid_cur (add64 c 1)) ;;
    RELEASE set_pid_cur_lock ;;
    c' ← gets (fun s => pid_cur (k_proc s));
    store64 (p + PROC_PID) c' ;;
    procp_init p ;; K f (add64 c 1)) s R.
Proof.
  intros Hm Hl HK.
  destruct (zero_run p PROC_SIZE s ltac:(unfold PROC_SIZE; lia) Hm) as [r Hset]. eapply yields_step; [exact Hset|].
  eapply yields_step; [unfold ACQUIRE; cbn [k_proc set_mem]; by rewrite Hl|].
  do 4 (eapply yields_step; [reflexivity|]). cbn beta.
  set (m0 := write_bytes (k_mem s) p _) in *. assert (Hm0 : mapped m0 p PROC_SIZE) by by apply write_bytes_mapped_range.
  set (u := set_proc (proc_taken s) s) in *. change (set_pid_cur_lock false _) with (set_mem m0 u).
  eapply yields_step; [apply kstore64; eapply mapped_sub; [exact Hm0|unfold PROC_PID; lia|unfold PROC_PID, PROC_SIZE; lia]|].
  eapply yields_step; [apply (procp_init_run p _ u); by apply write64_mapped|]. exact HK.
Qed.

(** ** The whole *)

Section proc.
Context (s : kernel) (F : Z -> Prop) (KT : gmap (list Z) Z) (cur : Z) (W : Z -> Prop) (p e : Z).
(** The table of processes: the map at [pm], of [pcap] cells in the bytes [Bp]. *)
Context (pm pcap : Z) (Bp : Z -> Prop) (M : gmap (list Z) (list Z)).

Record proc_ready : Prop := {
  pr_init : init_ready s F KT cur W p e;
  pr_lock : pid_cur_lock (k_proc s) = false;
  pr_ptr : read64 (k_mem s) (procmap (k_proc s)) = Some pm;
  pr_map : kvmap s F Bp pm pcap M;
  pr_new : M !! word_bytes (next_pid s) = None;
  pr_room : Z.of_nat (size M) < pcap;
  pr_first : M = ∅ -> hash (word_bytes (next_pid s)) mod pcap <> pcap - 1;
  pr_apart y : Bp y -> ~ paging_bytes s KT y /\ ~ W y /\ ~ within p PROC_SIZE y;
  pr_word y : within (procmap (k_proc s)) 8 y -> ~ F y /\ ~ paging_bytes s KT y /\ ~ within p PROC_SIZE y;
}.
Context (HR : proc_ready) (start len n : Z).

(** What is written before the table of processes is. *)
Definition proc_bytes (y : Z) : Prop := F y \/ paging_bytes s KT y \/ within p PROC_SIZE y.

(** The new process: its words, its space, its copy under its id. *)
Record proc_made (t : kernel) : Prop := {
  pd_globals : k_proc t = proc_taken s;
  pd_words w : w ∈ proc_words (next_pid s) -> read64 (k_mem t) (p + w.1) = Some w.2;
  pd_space : exists sp m a segs kv x bs B, loaded F cur W p e start len n sp m a segs kv t x /\
    read_bytes (k_mem t) p (Z.to_nat PROC_SIZE) = Some bs /\
    kvmap t (as_heap x) B pm pcap (<[word_bytes (next_pid s) := bs]> M);
  pd_changes : changes (fun y => proc_bytes y \/ Bp y) (k_mem s) (k_mem t);
}.

(** The state [proc_pages_init] starts from. *)
Local Abbreviation s0 := (set_mem (proc_blank (k_mem s) p (next_pid s)) (set_proc (proc_taken s) s)).

Lemma proc_blank_ready : init_ready s0 F KT cur W p e.
Proof. apply (init_ready_after s); [apply HR|done..|apply proc_blank_changes]. Qed.

(** The run up to the table of processes. *)
Lemma proc_half sp m a segs t x : building s0 F KT cur W p sp m a segs t x ->
  k_proc t = proc_taken s /\ changes proc_bytes (k_mem s) (k_mem t) /\
  (forall w, w ∈ proc_words (next_pid s) -> read64 (k_mem t) (p + w.1) = Some w.2) /\
  kvmap t (as_heap x) Bp pm pcap M.
Proof.
  intros HB. pose proof (bd_changes _ _ _ _ _ _ _ _ _ _ _ _ HB) as HC. cbn [k_mem set_mem] in HC.
  assert (HCt : changes proc_bytes (k_mem s) (k_mem t)).
  { eapply changes_trans; [eapply changes_weaken; [apply proc_blank_changes|]|eapply changes_weaken; [exact HC|]].
    - intros y Hy. by do 2 right.
    - intros y [[Hy|Hy]|Hy]; [by left|right; right; unfold own_words, within, PROC_SEGS, PROC_SIZE in *; lia|by right; left]. }
  split; [by rewrite (bd_proc _ _ _ _ _ _ _ _ _ _ _ _ HB)|]. split; [done|]. split.
  - intros w Hw. rewrite <- (proc_blank_words (k_mem s) p (next_pid s) w (w64_range _) Hw). eapply changes_read64; [exact HC|].
    intros y Hy. assert (Hin : within p 160 y).
    { revert Hy. unfold proc_words in Hw. rewrite !elem_of_cons, elem_of_nil in Hw. unfold PROC_PID, PROC_RSP, PROC_RIP, PROC_FLAGS in Hw.
      destruct Hw as [->|[->|[->|[->|[]]]]]; unfold within; simpl; lia. }
    assert (Hp : within p PROC_SIZE y) by (unfold within, PROC_SIZE in *; lia).
    destruct (ir_stack _ _ _ _ _ _ _ (pr_init HR) y Hp) as (H1 & H2 & _). intros [[H|H]|H]; [done| |done].
    unfold own_words, within, PROC_SEGS in *. lia.
  - apply (kvmap_same (set_mem (k_mem t) s)); [done|]. eapply kvmap_frame; [exact (pr_map HR)|exact HCt|]. intros y Hy.
    pose proof (kvmap_apart _ _ _ _ _ _ y (pr_map HR) Hy) as HnF. destruct (pr_apart HR y Hy) as (H1 & _ & H3).
    split; [unfold proc_bytes; tauto|]. intros Hh. by apply HnF, (bd_heap _ _ _ _ _ _ _ _ _ _ _ _ HB).
Qed.

Lemma proc_insert sp m a segs kv t x : loaded F cur W p e start len n sp m a segs kv t x ->
  building s0 F KT cur W p sp m a segs t x ->
  yields (fun f => bytes ← load_bytes p (Z.to_nat PROC_SIZE); mp ← gets (fun s => procmap (k_proc s));
    map_insert f mp (word_bytes (next_pid s)) bytes ;; load64 (p + PROC_PID)) t
  (fun pid t' => pid = next_pid s /\ proc_made t').
Proof.
  intros HL HB. destruct (proc_half sp m a segs t x HB) as (Eg & HCt & Hwords & Hkv).
  assert (Hm : mapped (k_mem t) p PROC_SIZE) by (eapply changes_mapped; [exact HCt|apply HR]).
  destruct (proj2 (read_bytes_is_Some (k_mem t) p (Z.to_nat PROC_SIZE)) Hm) as [bs Hbs].
  assert (Hpm : read64 (k_mem t) (procmap (k_proc s)) = Some pm).
  { rewrite <- (pr_ptr HR). eapply changes_read64; [exact HCt|]. intros y Hy. unfold proc_bytes. destruct (pr_word HR y Hy). tauto. }
  eapply yields_step; [unfold load_bytes; by rewrite Hbs|]. eapply yields_step; [reflexivity|]. cbn beta. rewrite Eg.
  destruct (map_insert_run t (as_heap x) Bp (procmap (k_proc s)) pm pcap M (word_bytes (next_pid s)) bs) as [(mm & G & B & Hrun & HG & HkvG & HC & HGx & HBx)|Hp].
  - apply (so_heap _ _ _ _ _ _ _ _ (bd_ok _ _ _ _ _ _ _ _ _ _ _ _ HB)).
  - done.
  - done.
  - apply word_short.
  - unfold short. rewrite (read_bytes_length _ _ _ _ Hbs). unfold PROC_SIZE. lia.
  - apply HR.
  - apply HR.
  - apply HR.
  - destruct (loaded_less s0 F KT cur W p e start len n sp m a segs kv t x G mm Bp proc_blank_ready HL HB HG HGx HC) as [HL' Hw].
    { intros y Hy. pose proof (kvmap_apart _ _ _ _ _ _ y (pr_map HR) Hy) as HnF. destruct (pr_apart HR y Hy) as (H1 & H2 & H3). by split_and!. }
    assert (Hpw : forall w, w ∈ proc_words (next_pid s) -> read64 mm (p + w.1) = Some w.2).
    { intros w Hin. rewrite Hw; [by apply Hwords|]. intros y Hy. unfold proc_words in Hin. rewrite !elem_of_cons, elem_of_nil in Hin. revert Hy.
      unfold PROC_PID, PROC_RSP, PROC_RIP, PROC_FLAGS in Hin. destruct Hin as [->|[->|[->|[->|[]]]]]; unfold within, PROC_SIZE; simpl; lia. }
    apply (yields_bind (fun f => map_insert f _ _ _) _ _ (fun _ t' => t' = set_mem mm t)); [left; by eexists _, _|]. intros _ _ ->.
    eapply yields_done; [apply kload64; by apply (Hpw (PROC_PID, next_pid s)); left|]. split; [done|]. split; cbn [k_mem k_proc set_mem].
    + done.
    + exact Hpw.
    + do 5 eexists. eexists _, bs, B. split; [exact HL'|]. split; [|exact HkvG]. rewrite <- Hbs. apply read_bytes_same.
      intros y Hy. apply (ch_same _ _ _ HC). intros [Hh|Hh]; [|by destruct (pr_apart HR y Hh) as (_ & _ & ?)].
      by destruct (ua_heap _ _ _ (so_apart _ _ _ _ _ _ _ _ (ld_ok _ _ _ _ _ _ _ _ _ _ _ _ _ _ _ HL)) y Hh) as (_ & _ & []); right; left.
    + eapply changes_trans; [eapply changes_weaken; [exact HCt|by left]|]. eapply changes_weaken; [exact HC|].
      intros y [Hh|Hh]; [left; left; by apply (bd_heap _ _ _ _ _ _ _ _ _ _ _ _ HB)|by right].
  - right. by apply (eventually_bind_stop (fun f => map_insert f _ _ _)).
Qed.
End proc.

(** C9. [proc_new]: it panics for want of memory, or it returns the next id; the structure
    on the stack then has the id, the entry point, the stack and the flags, and points to
    the loaded address space and the segment table; the table of processes has its bytes
    under the id and all it had before; nothing but free memory, the table, the structure
    and the paging code's memory has been written. *)
Theorem proc_new_correct s F KT cur W p e pm pcap Bp M start len :
  proc_ready s F KT cur W p e pm pcap Bp M -> 0 <= start -> 0 <= len -> start + len < 2 ^ 64 - 2 ^ 13 -> PROC_ENTRY + len <= STACK_TOP ->
  let n := page_count PROC_ENTRY start len in
  tables_room n + 6 <= 16 -> brk (k_pg s) + (tables_room n + 6) * (9 * 4096) <= miniheap_end (k_pg s) ->
  yields (fun fuel => proc_new fuel p start len) s
    (fun pid t => pid = next_pid s /\ proc_made s F KT cur W p e pm pcap Bp M start len n t).
Proof.
  intros HR Hs Hl Hsl Hpl n Hn Hroom. unfold proc_new.
  apply (proc_start s p (fun f pid => proc_pages_init f p start len ;; bytes ← load_bytes p (Z.to_nat PROC_SIZE);
    mp ← gets (fun s => procmap (k_proc s)); map_insert f mp (word_bytes pid) bytes ;; load64 (p + PROC_PID))); [apply HR..|].
  eapply yields_bind; [apply (proc_pages_init_run _ F KT cur W p e start len (proc_blank_ready _ _ _ _ _ _ _ _ _ _ _ HR)); try done|].
  intros _ t (sp & m & a & segs & kv & x & HL & HB). by apply (proc_insert _ _ _ _ _ _ _ _ _ _ _ HR start len n sp m a segs kv t x).
Qed.

(** ** A kernel to make a process in, with its table of processes *)

(** The kernel of SpaceInit.v, whose [procmap] is the word at 0xA008, the map at 0xC010. *)
Definition with_procmap (s : kernel) : kernel := set_proc (ProcGlobals 0 false 0xA008 0 false) s.

Lemma space_demo_procs V k s T : grown V k space_demo {[ [] := 0x100000 ]} s T ->
  (forall va, 0 <= va < 0x90000 -> ktrans s va = Some va) ->
  exists e, proc_ready (with_procmap s) space_demo_F T 0 (within 0xA000 16) 0xB000 e 0xC010 16 (within 0xC000 416) ∅.
Proof.
  intros HG Hid. destruct (space_demo_ready _ _ _ _ HG Hid) as [e He]. exists e.
  assert (Hpb : forall y, paging_bytes (with_procmap s) T y -> 0x100000 <= y < 0x180000).
  { intros y Hy. by apply space_demo_paging, (grown_paging_bytes _ _ _ _ _ _ _ HG). }
  pose proof (space_demo_ok _ _ _ _ HG Hid) as Hok. split.
  - apply (init_ready_after s); [exact He|done..|]. apply changes_refl.
  - done.
  - exact (so_physmap _ _ _ _ _ _ _ _ Hok).
  - apply (kvmap_same s); [done|]. exact (so_map _ _ _ _ _ _ _ _ Hok).
  - done.
  - done.
  - intros _. vm_compute. discriminate.
  - intros y Hy. split_and!; [intros H%Hpb|..]; unfold within, PROC_SIZE in *; lia.
  - intros y Hy. change (procmap (k_proc (with_procmap s))) with 0xA008 in Hy.
    split_and!; [|intros H%Hpb|]; unfold space_demo_F, within, PROC_SIZE in *; lia.
Qed.

Lemma proc_new_correct_witness :
  exists s T e, proc_ready s space_demo_F T 0 (within 0xA000 16) 0xB000 e 0xC010 16 (within 0xC000 416) ∅ /\
    yields (fun fuel => proc_new fuel 0xB000 0x70000 0x1800) s
      (fun pid t => pid = 1 /\
        proc_made s space_demo_F T 0 (within 0xA000 16) 0xB000 e 0xC010 16 (within 0xC000 416) ∅ 0x70000 0x1800 2 t).
Proof.
  destruct (identity_mapped 150 space_demo {[ [] := 0x100000 ]} 0x90000) as (s & T & HG & Hid);
    [exact space_demo_inv|exists 144; reflexivity|lia|vm_compute; reflexivity|vm_compute; discriminate|].
  destruct (space_demo_procs _ _ _ _ HG Hid) as [e He]. exists (with_procmap s), T, e. split; [exact He|].
  pose proof (gr_brk _ _ _ _ _ _ HG) as Hb. pose proof (grown_end _ _ _ _ _ _ HG) as Hend.
  change (brk (k_pg s) <= 0x107000) in Hb. change (miniheap_end (k_pg s) = 0x180000) in Hend.
  apply (proc_new_correct (with_procmap s) space_demo_F T 0 (within 0xA000 16) 0xB000 e 0xC010 16 (within 0xC000 416) ∅ 0x70000 0x1800 He);
    [lia|lia|lia|vm_compute; discriminate|vm_compute; discriminate|].
  change (tables_room (page_count PROC_ENTRY 0x70000 0x1800)) with 6. change (k_pg (with_procmap s)) with (k_pg s). lia.
Defined.
